(* ===== verification/_CoqProject ===== *)
-Q . S2P
Prelude.v
GoStrings.v
GoErrors.v
Entities.v
Json.v
Database.v
Schema.v
BankSpec.v
Contracts.v
TransferService.v
Repository.v
RepositoryCorrect.v
Programs.v
Locking.v
LockingLocal.v
LockingCorrect.v
Serializability.v
LockingProgress.v
Outcome.v
Driver.v
TransferTheorems.v
ConcurrencyTheorems.v
Reads.v
Mime.v
JsonText.v
Http.v
Auth.v
AuthTheorems.v
HttpApi.v
HttpCorrect.v
Server.v
HttpTheorems.v
Routes.v
HttpConcurrency.v
Config.v
Seed.v
Migrations.v
Sessions.v
Startup.v
MigrateCorrect.v
Life.v
Fixtures.v
Findings.v
