(* ===== verification/Prelude.v ===== *)
(** * BankMonitoring

    A verification of BankMonitoring, a service that moves money between accounts over
    HTTP, with its data in PostgreSQL.  The program is in Go, under [src/]; this library
    models its own code, layer by layer, and proves what the layers promise each other
    and what the service promises its users.

    ** The program and how its parts interact

    - [internal/domain/entities] and [internal/domain/valueobjects]: accounts, transfers,
      ledger entries and users, with the checks of amounts and of requests.
    - [internal/domain/repository]: the interfaces between the services and the storage.
    - [internal/service/transfer]: [Create] moves money in one transaction: it locks the
      two accounts, checks owner, currency and balances, stores the transfer under the
      user's idempotency key, writes the balances and two ledger rows.  [Get] reads a
      transfer.  [internal/service/account] lists and reads accounts.
    - [internal/repository]: the same interfaces over the pgx driver, one SQL statement
      or transaction each; [internal/repository/migrations]: the tables and constraints.
    - [internal/service/auth]: tokens, passwords, and the middleware that guards routes.
    - [internal/httpapi]: handlers, routes and middleware; [internal/config],
      [internal/seed], [cmd/api]: configuration, demo data and the process.

    A request passes through the middleware and a handler to a service; the service runs
    a function within a transaction of the store; the repositories of that transaction
    send statements to the database.

    ** Files

    - [Prelude]: this file: notations, machine integers, tactics, hints, generic lemmas.
    - [GoStrings]: byte strings: [strings.TrimSpace], [Trim], [Fields], [EqualFold], UTF-8.
    - [GoErrors]: [error] values, [errors.Is], [result], and the monad [tx] of fallible
      stateful code.
    - [Entities]: the records and methods of the domain, [int64] with its wrap-around.
    - [Json]: JSON values, [json.Marshal] and [json.Unmarshal] of a request, [JSONB].
    - [Database]: the tables with their constraints, and the meaning [sql] of every
      statement that the repositories send.
    - [BankSpec]: the abstract bank: balances, stored transfers by user and key, ledger;
      the relation [creates] between the bank before and after a request; and the
      invariants, proved once on histories of such steps.
    - [Contracts]: the interfaces of [internal/domain/repository] as type classes, and
      what their comments promise as classes of laws on the abstract bank.
    - [TransferService]: [Create] and [Get] over the contracts, with the locked accounts
      as a store of pointers; [Create] is proved to implement [creates] for any
      repositories that keep the laws.
    - [Repository], [RepositoryCorrect]: the pgx repositories over a driver that is a
      parameter, the invariant [db_ok] of the stored rows, the abstraction [bank_of], and
      the proof that the repositories keep the laws.
    - [Programs]: the transaction of [Create] as a tree of statements, proved equal to the
      code for every driver.
    - [Locking], [LockingLocal], [LockingCorrect], [Serializability], [LockingProgress]:
      concurrent transactions at READ COMMITTED as a step relation on statements, with
      row locks, waits on uncommitted keys, commits and aborts; the invariant, the proof
      of serializability and the proof of progress.
    - [Outcome]: the answer a request calls for, as a function of the bank alone.
    - [Driver]: executable instances of the parameters, and sample data.
    - [TransferTheorems], [ConcurrencyTheorems], [Reads]: the theorems on transfers,
      on their concurrent executions, and on reading.
    - [Mime], [JsonText]: what the program uses of [mime.ParseMediaType] and of
      [encoding/json], on bytes: the scanner as a state machine, the decoder over a reader
      with a limit, and the encoder.
    - [Http], [Auth], [AuthTheorems]: requests, response writers, logs and handlers of
      [net/http]; tokens, login and guards ([Claims], [Issue], [Verify], [Login],
      [Authenticate], [RequirePermission]); their theorems.
    - [HttpApi]: [internal/httpapi]: [decodeJSON], every handler, the middleware
      ([requestID], [accessLog] with its [statusRecorder], [withTimeout], [recoverPanics]),
      the mux with its routes, and [NewHandler]; [HttpCorrect]: its lemmas.
    - [Server]: the dependencies that [run] of [cmd/api] gives the handlers;
      [HttpTheorems]: the theorems on the service over HTTP.
    - [Routes]: a table of the interface, and that the mux finds what it says.
    - [HttpConcurrency]: the handlers around the concurrent transactions: a step relation on
      requests under way, proved to give the responses of [NewHandler] one request after
      the other, and to answer every request.
    - [Config]: [Load] of [internal/config] with the parsers of the standard library.
    - [Schema]: the constraints of all tables as one predicate, and that statements keep
      them; [Seed]: [Demo] of [internal/seed] with its upserts.
    - [Migrations]: the tables of every version, every up and down migration with its checks
      of the rows that are there, and the life of a database under migrations and statements.
    - [Sessions]: requests of a client in a row: log in and list accounts, create a transfer
      and read it.
    - [Startup]: [main], [run] and [healthcheck] of [cmd/api], [NewPool] and [Migrate] of
      [internal/repository], over a host that stands for signals, sockets, the pool and
      the migrations library, with a record of every call of it and the error it returned.
    - [MigrateCorrect]: [Migrate] on the tables of [Migrations].
    - [Fixtures]: [internal/testutil/pgtest]: the container of the integration tests, and the
      databases that their fixtures make.
    - [Life]: everything that happens to the database of a deployment, from the first start on:
      migrations, provisioning, and servings of overlapping requests cut off at any point, as a step
      relation with the accounts opened so far; and [main] as a sequence of such steps.
    - [Findings]: behaviours that differ from what the documentation says.

    ** What the theorems show

    - Refinement: [Create] over PostgreSQL implements the abstract bank, on every branch
      and under any fault of the driver; errors leave no trace, but for a commit whose
      confirmation is lost; without faults the answer is the one [verdict] computes
      from the bank.
    - Invariants over every history of requests: no overdraft, money is conserved, the
      ledger reconciles with the balances, a key is decided once and keeps its answer.
    - Concurrency: every interleaving of the statements of any number of requests gives
      the answers and the database of a serial execution; locked rows have one holder;
      there is no deadlock, and every transaction ends.  The same over HTTP: however requests
      overlap, their responses are those of the requests served in turn, and none waits for ever.
    - The life of a deployment: the books are right at every moment, through starts, crashes,
      migrations, seeds and overlapping requests: all the money there is is what accounts were
      opened with, and nothing that was written is lost; every start of [main] keeps them so.
    - Sessions: a login gives a token that lists exactly the user's accounts for fifteen minutes; a
      transfer that was answered is served again, byte for byte, to its sender and to nobody else.
    - Authentication: accepted tokens are genuine, current and short-lived; guarded
      handlers run for authorized requests only; refused logins are indistinguishable.
    - HTTP: only an authorized [POST /transfers] changes the bank, and it is answered with
      the status and body its verdict calls for; every request is answered with its ID,
      also when a service panics, and logged once when none does and the logger records the level;
      bodies are accepted as one JSON object and survive the wire; every answer is of the media type
      it says and reads back; paths are routed as the table says, and a redirect leads to a clean path.
    - The schema: under migrations in any order and statements with any parameters the tables
      satisfy the constraints of their version; which databases can be upgraded, and what
      is lost when a migration is undone and applied again; what [Migrate] leaves for the
      program to find.
    - The process: a configuration that loads can be run, and errors are reported all at
      once; seeding is all or nothing and keeps balances; [main] opens and closes its
      resources in order, serves only after [m.Up()] returned nil or [ErrNoChange] and the
      database was reached, and the container probe tells the truth.
    - Fixtures: a test starts from exactly the accounts it asked for, in a database on which
      the other theorems hold, and its container is stopped whatever happens.

    ** Parameters, bounds and fuel

    The theorem on [main] takes the host's server as documented: it answers with the handler
    that it was given, in goroutines whose statements PostgreSQL runs one at a time, as in
    [HttpConcurrency]; [deployable] excludes a start that does not migrate on tables of an older version.

    The pgx driver, the JWT library, bcrypt, golang-migrate and the process's host are not
    part of the repository: they are parameters ([Platform], [querier], [Pgx], [Execer],
    [Jwt], [Bcrypt], [Host], [TestHost]) whose documented behaviour is stated in classes of laws where
    the program relies on it, with executable instances that satisfy them.  Times, random
    bytes, the JSON text of times, the status of redirects and the embedded OpenAPI document
    are arguments.  Two parsers use fuel, the length of their input: the parameters of a
    media type and the parts of a duration; that more fuel changes nothing is proved
    ([media_params_fuel], [duration_parts_fuel]).  The bound of seven steps of a transaction
    is a theorem of [LockingProgress] ([measure], [schedule_drain]).

    ** What is not modelled

    The indexes for speed and the identity column of [ledger_entries]; the
    bookkeeping of golang-migrate, whose documented behaviour is a hypothesis; stack traces in logs, the
    request target [*], the cutting of the body of an answer to [HEAD], and connections below a request; what
    [healthcheck] prints; the order in which the goroutine of [run] writes its log line; the
    embedded OpenAPI document of [api/], which is data; and the tests themselves; and two
    processes of different configurations at work on one database at once.  Requests overlap in [HttpConcurrency]; each of their
    reads is one statement, on the database that is committed at that time. *)
From stdpp Require Export base gmap fin_maps strings list list_numbers sorting relations.
From Stdlib Require Export ZArith Lia.

#[export] Set Default Goal Selector "!".

(** ** Notations *)

Declare Scope go_scope.
Delimit Scope go_scope with go.
Open Scope go_scope.
Open Scope Z_scope.

(** Boolean string equality, the [==] of Go strings. *)
Notation "s == t" := (bool_decide (s = t)) (at level 70, no associativity) : go_scope.
Notation "s != t" := (negb (bool_decide (s = t))) (at level 70, no associativity) : go_scope.

(** ** Machine integers: Go's [int64] as a [Z] with its wrap-around written out *)

Definition MinInt64 : Z := - 2 ^ 63.
Definition MaxInt64 : Z := 2 ^ 63 - 1.

(** The value an [int64] variable holds after an operation with exact result [z]. *)
Definition wrap64 (z : Z) : Z := (z + 2 ^ 63) mod 2 ^ 64 - 2 ^ 63.

Definition is_int64 (z : Z) : Prop := MinInt64 <= z <= MaxInt64.

Notation "a +64 b" := (wrap64 (a + b)) (at level 50, left associativity) : go_scope.
Notation "a -64 b" := (wrap64 (a - b)) (at level 50, left associativity) : go_scope.
Notation "-64 a" := (wrap64 (- a)) (at level 35, right associativity) : go_scope.

#[global] Instance is_int64_dec z : Decision (is_int64 z).
Proof. unfold is_int64. apply _. Defined.

(** ** Rounding *)

(** [n / d] rounded to the nearest integer, ties to even. *)
Definition round_even (n d : Z) : Z :=
  let q := n / d in
  match Z.compare (2 * (n mod d)) d with
  | Lt => q
  | Gt => q + 1
  | Eq => if Z.even q then q else q + 1
  end.

(** ** Tactics *)

Create HintDb bank discriminated.
Create HintDb api.
Create HintDb exclusive.
Create Rewrite HintDb tx.

(** Split the first [match] of the goal, or of hypothesis [H]. *)
Ltac case_goal :=
  match goal with
  | |- context [match ?x with _ => _ end] => let E := fresh "E" in destruct x eqn:E
  end.

Ltac case_hyp H :=
  match type of H with
  | context [match ?x with _ => _ end] => let E := fresh "E" in destruct x eqn:E
  end.

(** Turn boolean tests in the context into propositions. *)
Ltac reflect_step :=
  match goal with
  | H : bool_decide _ = true |- _ => apply bool_decide_eq_true_1 in H
  | H : bool_decide _ = false |- _ => apply bool_decide_eq_false_1 in H
  | H : negb _ = true |- _ => apply negb_true_iff in H
  | H : negb _ = false |- _ => apply negb_false_iff in H
  | H : (_ && _)%bool = true |- _ => apply andb_true_iff in H; destruct H
  | H : (_ || _)%bool = false |- _ => apply orb_false_iff in H; destruct H
  | H : (_ <? _) = true |- _ => apply Z.ltb_lt in H
  | H : (_ <? _) = false |- _ => apply Z.ltb_ge in H
  | H : (_ <=? _) = true |- _ => apply Z.leb_le in H
  | H : (_ <=? _) = false |- _ => apply Z.leb_gt in H
  | H : (_ =? _) = true |- _ => apply Z.eqb_eq in H
  | H : (_ =? _) = false |- _ => apply Z.eqb_neq in H
  end.

Ltac reflect := repeat reflect_step.

(** Unfold the width bounds and call [lia]. *)
Ltac int64_lia := unfold is_int64, MinInt64, MaxInt64 in *; lia.

(** ** Lemmas on machine integers *)

Lemma wrap64_id z : is_int64 z → wrap64 z = z.
Proof.
  intros H. unfold wrap64. rewrite Z.mod_small; [lia|].
  int64_lia.
Qed.

Lemma wrap64_int64 z : is_int64 (wrap64 z).
Proof.
  unfold wrap64. pose proof (Z.mod_pos_bound (z + 2 ^ 63) (2 ^ 64)). int64_lia.
Qed.

#[export] Hint Resolve wrap64_int64 : bank.

(** ** Filters *)

Lemma filter_all {A} (P : A → Prop) `{!∀ x, Decision (P x)} l : Forall P l → filter P l = l.
Proof. induction 1 as [|x l Hx _ IH]; [done|]. by rewrite filter_cons_True, IH. Qed.

Lemma filter_none {A} (P : A → Prop) `{!∀ x, Decision (P x)} l :
  Forall (λ x, ¬ P x) l → filter P l = [].
Proof. induction 1 as [|x l Hx _ IH]; [done|]. by rewrite filter_cons_False. Qed.

(** ** Sums *)

Definition sumZ {A} (f : A → Z) (l : list A) : Z := foldr (λ x acc, f x + acc) 0 l.

Lemma sumZ_app {A} (f : A → Z) l1 l2 : sumZ f (l1 ++ l2) = sumZ f l1 + sumZ f l2.
Proof. induction l1 as [|x l1 IH]; simpl; [lia|]. rewrite IH. lia. Qed.

(** Sum of [f] over the values of a finite map. *)
Definition map_sum `{Countable K} {A} (f : A → Z) (m : gmap K A) : Z :=
  map_fold (λ _ x acc, f x + acc) 0 m.

Section map_sum.
Context `{Countable K} {A : Type} (f : A → Z).
Implicit Types m : gmap K A.

Lemma map_sum_insert_None m i x :
  m !! i = None → map_sum f (<[i:=x]> m) = f x + map_sum f m.
Proof.
  intros Hi. unfold map_sum. rewrite map_fold_insert_L; [done| |done].
  intros. lia.
Qed.

Lemma map_sum_delete m i x :
  m !! i = Some x → map_sum f m = f x + map_sum f (delete i m).
Proof.
  intros Hi. rewrite <-(map_sum_insert_None (delete i m) i x) by apply lookup_delete_eq.
  by rewrite insert_delete_eq, insert_id.
Qed.

Lemma map_sum_insert m i x y :
  m !! i = Some x → map_sum f (<[i:=y]> m) = map_sum f m - f x + f y.
Proof.
  intros Hi. rewrite (map_sum_delete m i x Hi).
  rewrite <-(insert_delete_eq m), map_sum_insert_None by apply lookup_delete_eq. lia.
Qed.

End map_sum.
