(* ===== verification/GoStrings.v ===== *)
(** * Go strings

    Byte strings with the functions of Go's [strings] and [unicode/utf8]
    packages that the program calls: [TrimSpace], [Trim] with an ASCII cutset,
    [Fields], [len] and [EqualFold] against an ASCII word, UTF-8 validity, and
    the coercion to valid UTF-8 that [encoding/json] applies to strings it
    writes.  A Go string is a sequence of bytes, here a [string] of 8-bit
    characters; [len] is [String.length]. *)
From S2P Require Import Prelude.
From Stdlib Require Import Ascii.
From Stdlib Require String.

Open Scope Z_scope.

Abbreviation bytes_of := Stdlib.Strings.String.list_ascii_of_string.
Abbreviation string_of := Stdlib.Strings.String.string_of_list_ascii.

(** The byte's value, 0 to 255. *)
Definition byte (a : ascii) : Z := Z.of_N (N_of_ascii a).

Definition between (lo : Z) (a : ascii) (hi : Z) : bool := (lo <=? byte a) && (byte a <=? hi).

(** [len(s)], in bytes. *)
Definition len (s : string) : Z := Z.of_nat (String.length s).

(** ** White space

    [unicode.IsSpace] holds of U+0009 to U+000D, U+0020, U+0085, U+00A0 and of
    the code points of category Z that need three bytes: U+1680, U+2000 to
    U+200A, U+2028, U+2029, U+202F, U+205F and U+3000. *)
Definition space1 (a : ascii) : bool := between 9 a 13 || (byte a =? 32).

Definition space2 (a b : ascii) : bool :=
  (byte a =? 194) && ((byte b =? 133) || (byte b =? 160)).

Definition space3 (a b c : ascii) : bool :=
  ((byte a =? 225) && (byte b =? 154) && (byte c =? 128))
  || ((byte a =? 226) && (byte b =? 128)
      && (between 128 c 138 || (byte c =? 168) || (byte c =? 169) || (byte c =? 175)))
  || ((byte a =? 226) && (byte b =? 129) && (byte c =? 159))
  || ((byte a =? 227) && (byte b =? 128) && (byte c =? 128)).

(** A string cut into its white-space code points, marked [true], and the
    single bytes of everything else. *)
Fixpoint units (s : string) : list (bool * string) :=
  match s with
  | EmptyString => []
  | String a s1 =>
    if space1 a then (true, String a "") :: units s1
    else
      match s1 with
      | EmptyString => [(false, String a "")]
      | String b s2 =>
        if space2 a b then (true, String a (String b "")) :: units s2
        else
          match s2 with
          | EmptyString => (false, String a "") :: units s1
          | String c s3 =>
            if space3 a b c then (true, String a (String b (String c ""))) :: units s3
            else (false, String a "") :: units s1
          end
      end
  end.

(** The string the units spell. *)
Definition spell (us : list (bool * string)) : string := foldr (λ u s, u.2 +:+ s) "" us.

Fixpoint drop_while {A} (p : A → bool) (l : list A) : list A :=
  match l with
  | [] => []
  | x :: l' => if p x then drop_while p l' else l
  end.

(** Drop from both ends while [p] holds. *)
Definition trim_list {A} (p : A → bool) (l : list A) : list A :=
  rev (drop_while p (rev (drop_while p l))).

(** [strings.TrimSpace] *)
Definition TrimSpace (s : string) : string := spell (trim_list fst (units s)).

(** [strings.Trim(s, cutset)] with a cutset of ASCII characters, which Go
    compares byte by byte. *)
Definition Trim (s cutset : string) : string :=
  string_of
    (trim_list (λ a, existsb (Ascii.eqb a) (bytes_of cutset)) (bytes_of s)).

(** [strings.Fields]: the maximal runs of units that are not white space. *)
Fixpoint fields_of (cur : string) (us : list (bool * string)) : list string :=
  match us with
  | [] => if cur == "" then [] else [cur]
  | (true, _) :: us' => if cur == "" then fields_of "" us' else cur :: fields_of "" us'
  | (false, u) :: us' => fields_of (cur +:+ u) us'
  end.

Definition Fields (s : string) : list string := fields_of "" (units s).

Definition ascii_lower (a : ascii) : ascii :=
  if between 65 a 90 then ascii_of_N (N_of_ascii a + 32) else a.

(** The string with its ASCII letters in lower case and the two other code
    points that fold to an ASCII letter, U+017F (to s) and U+212A (to k),
    replaced by that letter. *)
Fixpoint fold_ascii (s : string) : string :=
  match s with
  | EmptyString => ""
  | String a s1 =>
    match s1 with
    | String b s2 =>
      if (byte a =? 197) && (byte b =? 191) then "s" +:+ fold_ascii s2
      else
        match s2 with
        | String c s3 =>
          if (byte a =? 226) && (byte b =? 132) && (byte c =? 170) then "k" +:+ fold_ascii s3
          else String (ascii_lower a) (fold_ascii s1)
        | EmptyString => String (ascii_lower a) (fold_ascii s1)
        end
    | EmptyString => String (ascii_lower a) ""
    end
  end.

(** [strings.EqualFold(s, word)] for a word of ASCII characters: no other code
    point than those of [fold_ascii] folds to an ASCII character. *)
Definition EqualFold (s word : string) : bool := fold_ascii s == fold_ascii word.

(** ** UTF-8 *)

Definition cont (a : ascii) : bool := between 128 a 191.

Definition utf8_2 (a b : ascii) : bool := between 194 a 223 && cont b.

Definition utf8_3 (a b c : ascii) : bool :=
  (((byte a =? 224) && between 160 b 191)
   || (between 225 a 236 && cont b)
   || ((byte a =? 237) && between 128 b 159)
   || (between 238 a 239 && cont b)) && cont c.

Definition utf8_4 (a b c d : ascii) : bool :=
  (((byte a =? 240) && between 144 b 191)
   || (between 241 a 243 && cont b)
   || ((byte a =? 244) && between 128 b 143)) && cont c && cont d.

(** U+FFFD in UTF-8. *)
Definition RuneError : string :=
  String (ascii_of_N 239) (String (ascii_of_N 191) (String (ascii_of_N 189) "")).

(** What [encoding/json] makes of a string: every byte that is not part of a
    valid UTF-8 sequence becomes U+FFFD. *)
Fixpoint ToValidUTF8 (s : string) : string :=
  match s with
  | EmptyString => ""
  | String a s1 =>
    if byte a <? 128 then String a (ToValidUTF8 s1)
    else
      match s1 with
      | EmptyString => RuneError
      | String b s2 =>
        if utf8_2 a b then String a (String b (ToValidUTF8 s2))
        else
          match s2 with
          | EmptyString => RuneError +:+ ToValidUTF8 s1
          | String c s3 =>
            if utf8_3 a b c then String a (String b (String c (ToValidUTF8 s3)))
            else
              match s3 with
              | EmptyString => RuneError +:+ ToValidUTF8 s1
              | String d s4 =>
                if utf8_4 a b c d
                then String a (String b (String c (String d (ToValidUTF8 s4))))
                else RuneError +:+ ToValidUTF8 s1
              end
          end
      end
  end.

(** [utf8.ValidString] *)
Fixpoint ValidString (s : string) : bool :=
  match s with
  | EmptyString => true
  | String a s1 =>
    if byte a <? 128 then ValidString s1
    else
      match s1 with
      | EmptyString => false
      | String b s2 =>
        if utf8_2 a b then ValidString s2
        else
          match s2 with
          | EmptyString => false
          | String c s3 =>
            if utf8_3 a b c then ValidString s3
            else
              match s3 with
              | EmptyString => false
              | String d s4 => utf8_4 a b c d && ValidString s4
              end
          end
      end
  end.

(** [utf8.RuneCountInString] of a valid string: its bytes that are not
    continuation bytes. *)
Definition RuneCount (s : string) : Z :=
  Z.of_nat (length (List.filter (λ a, negb (cont a)) (bytes_of s))).

(** ** Lemmas *)

#[local] Arguments String.append !s1 s2 / : simpl nomatch.

Lemma app_string_assoc (s t u : string) : (s +:+ t) +:+ u = s +:+ (t +:+ u).
Proof. induction s as [|a s IH]; simpl; [done|]. by rewrite IH. Qed.

Lemma app_string_nil (s : string) : s +:+ "" = s.
Proof. induction s as [|a s IH]; simpl; [done|]. by rewrite IH. Qed.

Lemma length_string_app (s t : string) : String.length (s +:+ t) = (String.length s + String.length t)%nat.
Proof. induction s as [|a s IH]; simpl; [done|]. by rewrite IH. Qed.

(** Induction over the cutting of a string into units. *)
Lemma units_cons s :
  s = "" ∨ ∃ u s', units s = u :: units s' ∧ s = u.2 +:+ s' ∧ (String.length s' < String.length s)%nat.
Proof.
  destruct s as [|a s1]; [by left|right]. simpl.
  destruct (space1 a); [by eexists _, s1; eauto with lia|].
  destruct s1 as [|b s2]; [by exists (false, String a ""), ""; simpl; eauto with lia|].
  destruct (space2 a b); [by eexists _, s2; simpl; eauto with lia|].
  destruct s2 as [|c s3]; [by eexists _, (String b ""); simpl; eauto with lia|].
  destruct (space3 a b c); [by eexists _, s3; simpl; eauto with lia|].
  by eexists _, (String b (String c s3)); simpl; eauto with lia.
Qed.

Lemma spell_units s : spell (units s) = s.
Proof.
  remember (String.length s) as n eqn:Hn. revert s Hn.
  induction (lt_wf n) as [n _ IH]; intros s ->.
  destruct (units_cons s) as [->|(u & s' & Hu & Hs & Hlt)]; [done|].
  rewrite Hu. simpl. fold (spell (units s')). rewrite (IH _ Hlt s' eq_refl). done.
Qed.

Lemma drop_while_nil {A} (p : A → bool) l : drop_while p l = [] ↔ forallb p l = true.
Proof.
  induction l as [|x l IH]; simpl; [done|].
  destruct (p x); simpl; [apply IH|]. split; discriminate.
Qed.

Lemma drop_while_suffix {A} (p : A → bool) l : ∃ k, l = k ++ drop_while p l ∧ forallb p k = true.
Proof.
  induction l as [|x l (k & Hk & Hp)]; simpl; [by exists []|].
  destruct (p x) eqn:E; [|by exists []].
  exists (x :: k). simpl. rewrite E, Hp. split; [by f_equal|done].
Qed.

Lemma forallb_rev {A} (p : A → bool) l : forallb p (rev l) = forallb p l.
Proof.
  induction l as [|x l IH]; simpl; [done|].
  rewrite forallb_app, IH. simpl. rewrite andb_true_r. apply andb_comm.
Qed.

(** Trimming leaves nothing exactly when every element is trimmed away. *)
Lemma trim_list_nil {A} (p : A → bool) l : trim_list p l = [] ↔ forallb p l = true.
Proof.
  unfold trim_list. split.
  - intros H%(f_equal (@rev A)). rewrite rev_involutive in H. simpl in H.
    apply drop_while_nil in H. rewrite forallb_rev in H.
    destruct (drop_while_suffix p l) as (k & -> & Hk). by rewrite forallb_app, Hk, H.
  - intros H. assert (drop_while p l = []) as -> by by apply drop_while_nil. done.
Qed.

Lemma units_nonempty s : Forall (λ u, u.2 ≠ "") (units s).
Proof.
  remember (String.length s) as n eqn:Hn. revert s Hn.
  induction (lt_wf n) as [n _ IH]; intros s ->.
  destruct s as [|a s1]; simpl; [done|].
  repeat case_goal; constructor; try done; try (eapply IH; [|reflexivity]; simpl; lia).
  all: try constructor.
Qed.

Lemma spell_nil us : Forall (λ u : bool * string, u.2 ≠ "") us → spell us = "" → us = [].
Proof. destruct us as [|[b [|a s]] us]; [done| |done]. by inversion 1. Qed.

Lemma Forall_drop_while {A} (P : A → Prop) p l : Forall P l → Forall P (drop_while p l).
Proof. induction 1; simpl; [done|]. destruct (p x); [done|by constructor]. Qed.

Lemma Forall_trim_list {A} (P : A → Prop) p l : Forall P l → Forall P (trim_list p l).
Proof. intros H. by apply Forall_rev, Forall_drop_while, Forall_rev, Forall_drop_while. Qed.

(** A string is blank, [TrimSpace s = ""], exactly when it is all white space. *)
Lemma TrimSpace_empty s : TrimSpace s = "" ↔ forallb fst (units s) = true.
Proof.
  rewrite <-trim_list_nil. unfold TrimSpace. split; [|by intros ->].
  apply spell_nil, Forall_trim_list, units_nonempty.
Qed.

Lemma spell_app us us' : spell (us ++ us') = spell us +:+ spell us'.
Proof. induction us as [|u us IH]; [done|]. cbn [app]. unfold spell in *. simpl. by rewrite IH, app_string_assoc. Qed.

(** Trimming twice is trimming once: what is left after trimming is cut as before. *)
Lemma units_false a s p :
  units (String a (p +:+ s)) = (false, String a "") :: units (p +:+ s) → space1 a = false →
  units (String a p) = (false, String a "") :: units p.
Proof.
  intros Hu Ha. simpl. rewrite Ha. destruct p as [|b [|c p]]; [done|..].
  - simpl in Hu. rewrite Ha in Hu. destruct (space2 a b) eqn:Hab; [|done]. destruct s; discriminate.
  - simpl in Hu. rewrite Ha in Hu. destruct (space2 a b) eqn:Hab; [discriminate|].
    destruct (space3 a b c) eqn:Habc; [discriminate|done].
Qed.

(** The first unit of a string that is not empty. *)
Lemma units_first a s1 :
  (space1 a = true ∧ units (String a s1) = (true, String a "") :: units s1) ∨
  (space1 a = false ∧ units (String a s1) = (false, String a "") :: units s1) ∨
  (∃ b s2, space1 a = false ∧ s1 = String b s2 ∧ space2 a b = true) ∨
  (∃ b c s3, space1 a = false ∧ s1 = String b (String c s3) ∧ space2 a b = false ∧ space3 a b c = true).
Proof.
  simpl. destruct (space1 a); [by left|right]. destruct s1 as [|b s2]; [by left|].
  destruct (space2 a b) eqn:Hab; [right; left; eauto|]. destruct s2 as [|c s3]; [by left|].
  destruct (space3 a b c) eqn:Habc; [right; right; eauto 10|by left].
Qed.

Lemma units_prefix s us1 us2 : units s = us1 ++ us2 → units (spell us1) = us1.
Proof.
  remember (String.length s) as n eqn:Hn. revert s us1 Hn.
  induction (lt_wf n) as [n _ IH]; intros s us1 -> Hu. destruct us1 as [|u us1]; [done|].
  destruct s as [|a s1]; [discriminate|].
  destruct (units_first a s1) as [[Ha Heq]|[[Ha Heq]|[(b & s2 & Ha & -> & Hab)|(b & c & s3 & Ha & -> & Hab & Habc)]]].
  - rewrite Heq in Hu. injection Hu as <- Hu. assert (units (spell us1) = us1) as Hp by (eapply IH; [|reflexivity|exact Hu]; simpl; lia).
    cbn [spell foldr]. fold (spell us1). simpl. by rewrite Ha, Hp.
  - pose proof Hu as Hu0. rewrite Heq in Hu. injection Hu as <- Hu. assert (units (spell us1) = us1) as Hp by (eapply IH; [|reflexivity|exact Hu]; simpl; lia).
    cbn [spell foldr]. fold (spell us1). simpl String.append. rewrite <-Hp at 2. apply (units_false a (spell us2)); [|done].
    assert (s1 = spell us1 +:+ spell us2) as <-; [|done].
    by rewrite <-spell_app, <-Hu, spell_units.
  - simpl in Hu. rewrite Ha, Hab in Hu. injection Hu as <- Hu. assert (units (spell us1) = us1) as Hp by (eapply IH; [|reflexivity|exact Hu]; simpl; lia).
    cbn [spell foldr]. fold (spell us1). simpl. by rewrite Ha, Hab, Hp.
  - simpl in Hu. rewrite Ha, Hab, Habc in Hu. injection Hu as <- Hu. assert (units (spell us1) = us1) as Hp by (eapply IH; [|reflexivity|exact Hu]; simpl; lia).
    cbn [spell foldr]. fold (spell us1). simpl. by rewrite Ha, Hab, Habc, Hp.
Qed.

Lemma units_suffix s us1 us2 : units s = us1 ++ us2 → units (spell us2) = us2.
Proof.
  revert s. induction us1 as [|u us1 IH]; intros s Hu; simpl in Hu; [by rewrite <-Hu, spell_units|].
  destruct (units_cons s) as [->|(u' & s' & Hu' & _ & _)]; [discriminate|].
  rewrite Hu' in Hu. injection Hu as _ Hu. exact (IH s' Hu).
Qed.

Lemma trim_list_infix {A} (p : A → bool) l :
  ∃ k1 k2, l = k1 ++ trim_list p l ++ k2 ∧ forallb p k1 = true ∧ forallb p k2 = true.
Proof.
  unfold trim_list. destruct (drop_while_suffix p l) as (k1 & Hk1 & Hp1).
  destruct (drop_while_suffix p (rev (drop_while p l))) as (k2 & Hk2 & Hp2).
  exists k1, (rev k2). rewrite forallb_rev. split; [|done]. rewrite Hk1 at 1. f_equal.
  rewrite <-rev_app_distr, <-Hk2. by rewrite rev_involutive.
Qed.

Lemma units_TrimSpace s : units (TrimSpace s) = trim_list fst (units s).
Proof.
  destruct (trim_list_infix fst (units s)) as (k1 & k2 & Hu & _). unfold TrimSpace.
  apply (units_prefix (spell (trim_list fst (units s) ++ k2)) _ k2). by apply (units_suffix s k1).
Qed.

Lemma TrimSpace_twice s : TrimSpace (TrimSpace s) = "" → TrimSpace s = "".
Proof.
  rewrite !TrimSpace_empty, units_TrimSpace. intros Ht. apply trim_list_nil.
  destruct (trim_list_infix fst (units s)) as (k1 & k2 & Hu & H1 & H2).
  apply trim_list_nil. rewrite Hu, !forallb_app, H1, H2, Ht. done.
Qed.

(** Induction over the code points of a valid string. *)
Lemma valid_ind (P : string → Prop) :
  P "" →
  (∀ a s, byte a < 128 → ValidString s = true → P s → P (String a s)) →
  (∀ a b s, 128 <= byte a → utf8_2 a b = true → ValidString s = true → P s → P (String a (String b s))) →
  (∀ a b c s, 128 <= byte a → utf8_2 a b = false → utf8_3 a b c = true → ValidString s = true → P s →
     P (String a (String b (String c s)))) →
  (∀ a b c d s, 128 <= byte a → utf8_2 a b = false → utf8_3 a b c = false → utf8_4 a b c d = true →
     ValidString s = true → P s → P (String a (String b (String c (String d s))))) →
  ∀ s, ValidString s = true → P s.
Proof.
  intros H0 H1 H2 H3 H4 s. remember (String.length s) as n eqn:Hn. revert s Hn.
  induction (lt_wf n) as [n _ IH]; intros s -> Hv. destruct s as [|a s1]; [done|]. simpl in Hv.
  repeat (case_hyp Hv; try discriminate); subst; reflect.
  - apply H1; [done..|]. eapply IH; [|done..]. simpl. lia.
  - apply H2; [done..|]. eapply IH; [|done..]. simpl. lia.
  - apply H3; [done..|]. eapply IH; [|done..]. simpl. lia.
  - apply H4; [done..|]. eapply IH; [|done..]. simpl. lia.
Qed.

Lemma ValidString_app s t : ValidString s = true → ValidString t = true → ValidString (s +:+ t) = true.
Proof.
  intros Hs Ht. revert s Hs. apply valid_ind; simpl; [done|..].
  - intros a s Ha _ IH. by rewrite (proj2 (Z.ltb_lt _ _) Ha).
  - intros a b s Ha Hab _ IH. by rewrite (proj2 (Z.ltb_ge _ _) Ha), Hab.
  - intros a b c s Ha Hab Habc _ IH. by rewrite (proj2 (Z.ltb_ge _ _) Ha), Hab, Habc.
  - intros a b c d s Ha Hab Habc Hd _ IH. by rewrite (proj2 (Z.ltb_ge _ _) Ha), Hab, Habc, Hd.
Qed.

Lemma ToValidUTF8_valid s : ValidString s = true → ToValidUTF8 s = s.
Proof.
  apply (valid_ind (λ s, ToValidUTF8 s = s)); simpl; [done|..].
  - intros a t Ha _ IH. by rewrite (proj2 (Z.ltb_lt _ _) Ha), IH.
  - intros a b t Ha Hab _ IH. by rewrite (proj2 (Z.ltb_ge _ _) Ha), Hab, IH.
  - intros a b c t Ha Hab Habc _ IH. by rewrite (proj2 (Z.ltb_ge _ _) Ha), Hab, Habc, IH.
  - intros a b c d t Ha Hab Habc Hd _ IH. by rewrite (proj2 (Z.ltb_ge _ _) Ha), Hab, Habc, Hd, IH.
Qed.

#[export] Hint Resolve ToValidUTF8_valid : bank.

(** The byte [a], followed by [s], begins no code point. *)
Definition stray (a : ascii) (s : string) : bool :=
  match s with
  | EmptyString => true
  | String b s2 =>
    negb (utf8_2 a b) &&
    match s2 with
    | EmptyString => true
    | String c s3 =>
      negb (utf8_3 a b c) && match s3 with EmptyString => true | String d _ => negb (utf8_4 a b c d) end
    end
  end.

(** Induction over the code points and the stray bytes of any string. *)
Lemma rune_ind (P : string → Prop) :
  P "" →
  (∀ a s, byte a < 128 → P s → P (String a s)) →
  (∀ a b s, 128 <= byte a → utf8_2 a b = true → P s → P (String a (String b s))) →
  (∀ a b c s, 128 <= byte a → utf8_2 a b = false → utf8_3 a b c = true → P s →
     P (String a (String b (String c s)))) →
  (∀ a b c d s, 128 <= byte a → utf8_2 a b = false → utf8_3 a b c = false → utf8_4 a b c d = true → P s →
     P (String a (String b (String c (String d s))))) →
  (∀ a s, 128 <= byte a → stray a s = true → P s → P (String a s)) →
  ∀ s, P s.
Proof.
  intros H0 H1 H2 H3 H4 H5 s. remember (String.length s) as n eqn:Hn. revert s Hn.
  induction (lt_wf n) as [n _ IH]; intros s ->. destruct s as [|a s1]; [done|].
  assert (∀ t, (String.length t <= String.length s1)%nat → P t) as HP.
  { intros t Ht. eapply IH; [|reflexivity]. simpl. lia. }
  destruct (Z.ltb_spec (byte a) 128) as [Ha|Ha]; [by apply H1, HP|].
  destruct s1 as [|b s2]; [by apply H5, HP|].
  destruct (utf8_2 a b) eqn:Hab; [apply H2; [done..|]; apply HP; simpl; lia|].
  destruct s2 as [|c s3]; [apply H5; [done|by simpl; rewrite Hab|by apply HP]|].
  destruct (utf8_3 a b c) eqn:Habc; [apply H3; [done..|]; apply HP; simpl; lia|].
  destruct s3 as [|d s4]; [apply H5; [done|by simpl; rewrite Hab, Habc|by apply HP]|].
  destruct (utf8_4 a b c d) eqn:Hd; [apply H4; [done..|]; apply HP; simpl; lia|].
  apply H5; [done|by simpl; rewrite Hab, Habc, Hd|by apply HP].
Qed.

(** The coercion, code point by code point. *)
Lemma ToValidUTF8_ascii a s : byte a < 128 → ToValidUTF8 (String a s) = String a (ToValidUTF8 s).
Proof. intros Ha. simpl. by rewrite (proj2 (Z.ltb_lt _ _) Ha). Qed.

Lemma ToValidUTF8_2 a b s :
  128 <= byte a → utf8_2 a b = true → ToValidUTF8 (String a (String b s)) = String a (String b (ToValidUTF8 s)).
Proof. intros Ha Hb. simpl. by rewrite (proj2 (Z.ltb_ge _ _) Ha), Hb. Qed.

Lemma ToValidUTF8_3 a b c s :
  128 <= byte a → utf8_2 a b = false → utf8_3 a b c = true →
  ToValidUTF8 (String a (String b (String c s))) = String a (String b (String c (ToValidUTF8 s))).
Proof. intros Ha Hb Hc. simpl. by rewrite (proj2 (Z.ltb_ge _ _) Ha), Hb, Hc. Qed.

Lemma ToValidUTF8_4 a b c d s :
  128 <= byte a → utf8_2 a b = false → utf8_3 a b c = false → utf8_4 a b c d = true →
  ToValidUTF8 (String a (String b (String c (String d s)))) = String a (String b (String c (String d (ToValidUTF8 s)))).
Proof. intros Ha Hb Hc Hd. simpl. by rewrite (proj2 (Z.ltb_ge _ _) Ha), Hb, Hc, Hd. Qed.

Lemma ToValidUTF8_stray a s :
  128 <= byte a → stray a s = true → ToValidUTF8 (String a s) = RuneError +:+ ToValidUTF8 s.
Proof.
  intros Ha Hs. cbn [ToValidUTF8]. rewrite (proj2 (Z.ltb_ge _ _) Ha). destruct s as [|b s2]; [done|].
  simpl in Hs. destruct (utf8_2 a b); [done|]. destruct s2 as [|c s3]; [done|].
  destruct (utf8_3 a b c); [done|]. destruct s3 as [|d s4]; [done|]. by destruct (utf8_4 a b c d).
Qed.
