(* ===== verification/GoErrors.v ===== *)
(** * Go errors and fallible, stateful code

    An [error] value as the program builds it: the sentinel values the packages
    declare, errors made at a call site, wrapping by [fmt.Errorf] with [%w],
    [errors.Join], and errors of code outside the repository (the driver, the
    database).  [errors.Is] follows the wrapping as in Go.  A Go function that
    returns a value and an error is a [result]; a function that also changes a
    state of type [T] is a [tx T], with monadic notation. *)
From S2P Require Import Prelude.

(** ** Error values *)

(** The sentinel errors of the packages, one constructor per [errors.New]
    variable, and those of the driver, the migrations library and [net/http]. *)
Inductive sentinel :=
| ErrInvalidAmount | ErrInsufficientFunds | ErrBalanceOverflow
| ErrInvalidTransfer
| ErrIdempotencyConflict | RepositoryErrNotFound
| ErrForbidden | ErrDestinationNotFound | ErrCurrencyMismatch | TransferErrNotFound
| AccountErrNotFound
| ErrInvalidToken | ErrInvalidCredentials
| ErrNoRows
| ErrNoChange | ErrServerClosed.

#[global] Instance sentinel_eq_dec : EqDecision sentinel.
Proof. solve_decision. Defined.

Inductive error :=
| Sentinel (s : sentinel)
| New (msg : string)
| Errorf (format : string) (wrapped : error)
| Join (errs : list error)
| External (msg : string).

(** [errors.Is(err, target)] for a sentinel target. *)
Fixpoint Is (err : error) (target : sentinel) : bool :=
  match err with
  | Sentinel s => bool_decide (s = target)
  | New _ | External _ => false
  | Errorf _ w => Is w target
  | Join es => existsb (λ e, Is e target) es
  end.

(** ** Results *)

Inductive result (A : Type) :=
| Ok (a : A)
| Err (e : error).
Arguments Ok {A} a.
Arguments Err {A} e.

#[global] Instance result_ret : MRet result := @Ok.
#[global] Instance result_bind : MBind result := λ A B k r,
  match r with Ok a => k a | Err e => Err e end.

#[global] Instance result_fmap : FMap result := λ A B f r,
  match r with Ok a => Ok (f a) | Err e => Err e end.

Definition is_ok {A} (r : result A) : bool := match r with Ok _ => true | Err _ => false end.

(** The error matches the sentinel: the error cases the callers switch on. *)
Definition fails_with {A} (r : result A) (s : sentinel) : Prop :=
  ∃ e, r = Err e ∧ Is e s = true.

(** ** Stateful, fallible code *)

Definition tx (T A : Type) : Type := T → result A * T.

#[global] Instance tx_ret {T} : MRet (tx T) := λ A a t, (Ok a, t).
#[global] Instance tx_bind {T} : MBind (tx T) := λ A B k m t,
  match m t with
  | (Ok a, t') => k a t'
  | (Err e, t') => (Err e, t')
  end.

(** [return ..., err] *)
Definition fail {T A} (e : error) : tx T A := λ t, (Err e, t).

(** A pure fallible computation inside a stateful one. *)
Definition lift {T A} (r : result A) : tx T A := λ t, (r, t).

(** Replace the error of [m] by [f] of it: the [if err != nil { return f(err) }]
    after a call. *)
Definition map_err {T A} (f : error → error) (m : tx T A) : tx T A := λ t,
  match m t with
  | (Ok a, t') => (Ok a, t')
  | (Err e, t') => (Err (f e), t')
  end.

(** ** Lemmas *)

Lemma tx_bind_Ok {T A B} (m : tx T A) (k : A → tx T B) t b t' :
  (m ≫= k) t = (Ok b, t') ↔ ∃ a t1, m t = (Ok a, t1) ∧ k a t1 = (Ok b, t').
Proof.
  unfold mbind, tx_bind. destruct (m t) as [[a|e] t1]; naive_solver.
Qed.

Lemma tx_bind_Err {T A B} (m : tx T A) (k : A → tx T B) t e t' :
  (m ≫= k) t = (Err e, t') ↔
  m t = (Err e, t') ∨ ∃ a t1, m t = (Ok a, t1) ∧ k a t1 = (Err e, t').
Proof.
  unfold mbind, tx_bind. destruct (m t) as [[a|e'] t1]; naive_solver.
Qed.

Lemma tx_bind_run {T A B} (m : tx T A) (k : A → tx T B) t a t1 :
  m t = (Ok a, t1) → (m ≫= k) t = k a t1.
Proof. unfold mbind, tx_bind. by intros ->. Qed.

Lemma tx_bind_run_Err {T A B} (m : tx T A) (k : A → tx T B) t e t1 :
  m t = (Err e, t1) → (m ≫= k) t = (Err e, t1).
Proof. unfold mbind, tx_bind. by intros ->. Qed.

Lemma map_err_Ok {T A} f (m : tx T A) t a t' :
  map_err f m t = (Ok a, t') ↔ m t = (Ok a, t').
Proof. unfold map_err. destruct (m t) as [[?|?] ?]; naive_solver. Qed.

Lemma map_err_Err {T A} f (m : tx T A) t e t' :
  map_err f m t = (Err e, t') ↔ ∃ e0, m t = (Err e0, t') ∧ e = f e0.
Proof. unfold map_err. destruct (m t) as [[?|?] ?]; naive_solver. Qed.

Lemma fail_Ok {T A} e (t : T) (a : A) t' : fail e t = (Ok a, t') ↔ False.
Proof. unfold fail. naive_solver. Qed.

Lemma fail_Err {T A} e (t : T) e' t' : @fail T A e t = (Err e', t') ↔ e = e' ∧ t = t'.
Proof. unfold fail. naive_solver. Qed.

Lemma mret_Ok {T A} (a : A) (t : T) a' t' : (mret a : tx T A) t = (Ok a', t') ↔ a = a' ∧ t = t'.
Proof. unfold mret, tx_ret. naive_solver. Qed.

Lemma mret_Err {T A} (a : A) (t : T) e t' : (mret a : tx T A) t = (Err e, t') ↔ False.
Proof. unfold mret, tx_ret. naive_solver. Qed.

(** A sentinel is found under any wrapping. *)
Lemma Is_Errorf f e s : Is (Errorf f e) s = Is e s.
Proof. done. Qed.

Lemma Is_Sentinel s s' : Is (Sentinel s) s' = true ↔ s = s'.
Proof. simpl. apply bool_decide_eq_true. Qed.

Lemma Is_Join es s : Is (Join es) s = true ↔ ∃ e, e ∈ es ∧ Is e s = true.
Proof.
  simpl. rewrite existsb_exists. split; intros (e & ? & ?); exists e; split; try done;
    by apply list_elem_of_In.
Qed.

(** Break a successful or failed run into the runs of its parts. *)
Ltac tx_inv H :=
  repeat first
    [ rewrite tx_bind_Ok in H | rewrite tx_bind_Err in H
    | rewrite map_err_Ok in H | rewrite map_err_Err in H
    | rewrite fail_Ok in H | rewrite fail_Err in H
    | rewrite mret_Ok in H | rewrite mret_Err in H ].

#[export] Hint Rewrite @tx_bind_Ok @tx_bind_Err @map_err_Ok @map_err_Err
  @fail_Ok @fail_Err @mret_Ok @mret_Err : tx.
