(* ===== verification/Entities.v ===== *)
(** * Domain entities and value objects

    The records of [internal/domain/entities] and [internal/domain/valueobjects]
    and their methods: [Account.Debit], [Account.Credit] and
    [CreateTransfer.Validate].  A method with a pointer receiver is a [tx] whose
    state is the receiver.  Amounts and balances are [int64]; a time is a [Z]
    counting from a fixed origin. *)
From S2P Require Import Prelude GoStrings GoErrors.

Abbreviation time := Z (only parsing).

(** ** Value objects *)

Module TransferStatus.
Definition t : Type := string.
Definition Pending : t := "pending".
Definition Processing : t := "processing".
Definition Completed : t := "completed".
Definition Failed : t := "failed".
Definition Cancelled : t := "cancelled".
End TransferStatus.

Module FailureReason.
Definition t : Type := string.
Definition None : t := "".
Definition InsufficientFunds : t := "insufficient_funds".
End FailureReason.

(** ** Accounts *)

Module Account.

Record t := mk {
  ID : string;
  UserID : string;
  Currency : string;
  Balance : Z;
  CreatedAt : time;
  UpdatedAt : time }.

#[global] Instance eq_dec : EqDecision t.
Proof. solve_decision. Defined.

Definition with_Balance (z : Z) (a : t) : t :=
  mk (ID a) (UserID a) (Currency a) z (CreatedAt a) (UpdatedAt a).

Definition Debit (amount : Z) : tx t unit := λ a,
  if amount <=? 0 then (Err (Sentinel ErrInvalidAmount), a)
  else if Balance a <? amount then (Err (Sentinel ErrInsufficientFunds), a)
  else (Ok tt, with_Balance (Balance a -64 amount) a).

Definition Credit (amount : Z) : tx t unit := λ a,
  if amount <=? 0 then (Err (Sentinel ErrInvalidAmount), a)
  else if (MaxInt64 -64 amount) <? Balance a then (Err (Sentinel ErrBalanceOverflow), a)
  else (Ok tt, with_Balance (Balance a +64 amount) a).

End Account.

(** ** Transfers *)

Module CreateTransfer.

Record t := mk {
  FromAccountID : string;
  ToAccountID : string;
  Amount : Z;
  Currency : string;
  Description : string }.

#[global] Instance eq_dec : EqDecision t.
Proof. solve_decision. Defined.

Definition Validate (r : t) : result unit :=
  if (TrimSpace (FromAccountID r) == "") || (TrimSpace (ToAccountID r) == "") then
    Err (Join [Sentinel ErrInvalidTransfer; New "both accounts are required"])
  else if FromAccountID r == ToAccountID r then
    Err (Join [Sentinel ErrInvalidTransfer; New "source and destination must differ"])
  else if Amount r <=? 0 then
    Err (Join [Sentinel ErrInvalidTransfer; Sentinel ErrInvalidAmount])
  else if negb (len (Currency r) =? 3)
          || (Trim (Currency r) "ABCDEFGHIJKLMNOPQRSTUVWXYZ" != "") then
    Err (Join [Sentinel ErrInvalidTransfer; New "currency must be a three-letter ISO code"])
  else if 255 <? len (Description r) then
    Err (Join [Sentinel ErrInvalidTransfer; New "description is limited to 255 characters"])
  else Ok tt.

End CreateTransfer.

Module Transfer.

Record t := mk {
  ID : string;
  IdempotencyKey : string;
  FromAccountID : string;
  ToAccountID : string;
  Amount : Z;
  Currency : string;
  Description : string;
  Status : TransferStatus.t;
  FailureReason : FailureReason.t;
  CreatedAt : time;
  UpdatedAt : time }.

#[global] Instance eq_dec : EqDecision t.
Proof. solve_decision. Defined.

End Transfer.

(** ** Ledger entries and users *)

Module LedgerEntry.
Record t := mk {
  TransferID : string;
  AccountID : string;
  Amount : Z;
  BalanceAfter : Z }.

#[global] Instance eq_dec : EqDecision t.
Proof. solve_decision. Defined.
End LedgerEntry.

Module User.
Record t := mk {
  ID : string;
  Email : string;
  PasswordHash : string;
  Permissions : list string }.

#[global] Instance eq_dec : EqDecision t.
Proof. solve_decision. Defined.
End User.

(** ** What the methods promise *)

(** A debit of [n] from a balance is possible, and what a transfer may hold. *)
Definition upper_letter (a : Ascii.ascii) : bool := between 65 a 90.

Definition iso_currency (c : string) : Prop :=
  len c = 3 ∧ Forall (λ a, upper_letter a = true) (bytes_of c).

(** The shape of a request that the service lets through. *)
Record valid_request (r : CreateTransfer.t) : Prop := {
  valid_from : TrimSpace (CreateTransfer.FromAccountID r) ≠ "";
  valid_to : TrimSpace (CreateTransfer.ToAccountID r) ≠ "";
  valid_differ : CreateTransfer.FromAccountID r ≠ CreateTransfer.ToAccountID r;
  valid_amount : 0 < CreateTransfer.Amount r;
  valid_currency : iso_currency (CreateTransfer.Currency r);
  valid_description : len (CreateTransfer.Description r) <= 255 }.

(** *** Lemmas on accounts *)

Lemma Debit_Ok a n a' :
  is_int64 (Account.Balance a) →
  Account.Debit n a = (Ok tt, a') ↔
  0 < n ∧ n <= Account.Balance a ∧ a' = Account.with_Balance (Account.Balance a - n) a.
Proof.
  intros Ha. unfold Account.Debit. split.
  - intros H. repeat case_hyp H; simplify_eq; reflect.
    repeat split; [done..|]. rewrite wrap64_id; [done|int64_lia].
  - intros (? & ? & ->). rewrite (proj2 (Z.leb_gt _ _)) by done.
    rewrite (proj2 (Z.ltb_ge _ _)) by done. rewrite wrap64_id; [done|int64_lia].
Qed.

Lemma Debit_Err a n e a' :
  Account.Debit n a = (Err e, a') ↔
  a' = a ∧ ((n <= 0 ∧ e = Sentinel ErrInvalidAmount) ∨
            (0 < n ∧ Account.Balance a < n ∧ e = Sentinel ErrInsufficientFunds)).
Proof.
  unfold Account.Debit. split.
  - intros H. repeat case_hyp H; simplify_eq; reflect; naive_solver.
  - intros [-> [[? ->]|(? & ? & ->)]].
    + by rewrite (proj2 (Z.leb_le _ _)).
    + rewrite (proj2 (Z.leb_gt _ _)) by done. by rewrite (proj2 (Z.ltb_lt _ _)).
Qed.

Lemma Credit_Ok a n a' :
  is_int64 (Account.Balance a) → is_int64 n →
  Account.Credit n a = (Ok tt, a') ↔
  0 < n ∧ Account.Balance a + n <= MaxInt64 ∧
  a' = Account.with_Balance (Account.Balance a + n) a.
Proof.
  intros Ha Hn. unfold Account.Credit. split.
  - intros H. case_hyp H; [by simplify_eq|]. reflect.
    rewrite (wrap64_id (MaxInt64 - n)) in H by int64_lia.
    case_hyp H; simplify_eq; reflect. repeat split; [done|lia|].
    rewrite wrap64_id; [done|int64_lia].
  - intros (? & ? & ->). rewrite (proj2 (Z.leb_gt _ _)) by done.
    rewrite (wrap64_id (MaxInt64 - n)) by int64_lia.
    rewrite (proj2 (Z.ltb_ge _ _)) by lia. rewrite wrap64_id; [done|int64_lia].
Qed.

Lemma Credit_Err a n e a' :
  is_int64 (Account.Balance a) → is_int64 n →
  Account.Credit n a = (Err e, a') ↔
  a' = a ∧ ((n <= 0 ∧ e = Sentinel ErrInvalidAmount) ∨
            (0 < n ∧ MaxInt64 < Account.Balance a + n ∧ e = Sentinel ErrBalanceOverflow)).
Proof.
  intros Ha Hn. unfold Account.Credit. split.
  - intros H. case_hyp H; [simplify_eq; reflect; naive_solver|]. reflect.
    rewrite (wrap64_id (MaxInt64 - n)) in H by int64_lia.
    case_hyp H; simplify_eq; reflect. split; [done|]. right. repeat split; lia.
  - intros [-> [[? ->]|(? & ? & ->)]].
    + by rewrite (proj2 (Z.leb_le _ _)).
    + rewrite (proj2 (Z.leb_gt _ _)) by done.
      rewrite (wrap64_id (MaxInt64 - n)) by int64_lia.
      by rewrite (proj2 (Z.ltb_lt _ _)) by lia.
Qed.

(** *** Lemmas on requests *)

Lemma Trim_upper c :
  Trim c "ABCDEFGHIJKLMNOPQRSTUVWXYZ" = "" ↔ Forall (λ a, upper_letter a = true) (bytes_of c).
Proof.
  unfold Trim.
  assert (∀ a, existsb (Ascii.eqb a) (bytes_of "ABCDEFGHIJKLMNOPQRSTUVWXYZ") = upper_letter a) as Hs.
  { by intros [[] [] [] [] [] [] [] []]. }
  trans (trim_list (λ a, existsb (Ascii.eqb a) (bytes_of "ABCDEFGHIJKLMNOPQRSTUVWXYZ")) (bytes_of c) = []).
  { destruct (trim_list _ _); simpl; naive_solver. }
  rewrite trim_list_nil, forallb_forall, Forall_forall.
  split; intros H x Hx; specialize (H x); rewrite list_elem_of_In in *; rewrite ?Hs in *; auto.
Qed.

Lemma Validate_Ok r : CreateTransfer.Validate r = Ok tt ↔ valid_request r.
Proof.
  unfold CreateTransfer.Validate. split.
  - intros H. repeat (case_hyp H; [discriminate|]). reflect.
    split; try done; [by split; [lia|apply Trim_upper]].
  - intros [H1 H2 H3 H4 [H5 H6] H7].
    rewrite !bool_decide_eq_false_2 by done. simpl.
    rewrite (proj2 (Z.leb_gt _ _)) by done. rewrite (proj2 (Z.eqb_eq _ _)) by done.
    apply Trim_upper in H6. rewrite bool_decide_eq_true_2 by done. simpl.
    by rewrite (proj2 (Z.ltb_ge _ _)).
Qed.

Lemma Validate_Err r e :
  CreateTransfer.Validate r = Err e → Is e ErrInvalidTransfer = true ∧ Is e ErrForbidden = false.
Proof.
  unfold CreateTransfer.Validate. intros H.
  repeat (case_hyp H; [by simplify_eq|]). discriminate.
Qed.
