(* ===== verification/Json.v ===== *)
(** * JSON payloads

    JSON values, and how [encoding/json] writes a [CreateTransfer] and reads one
    back ([json.Marshal] and [json.Unmarshal] with the struct tags of
    [internal/domain/entities/transfer.go]).  A payload is the value its bytes
    denote.  [jsonb_in] is what PostgreSQL stores for it in a [JSONB] column. *)
From S2P Require Import Prelude GoStrings GoErrors Entities.

(** [JNum] is a number written as an integer; one written with a fraction or an exponent,
    which no field of the program takes and the program never writes, keeps its text. *)
Inductive json :=
| JNull
| JBool (b : bool)
| JNum (z : Z)
| JReal (literal : string)
| JString (s : string)
| JArray (l : list json)
| JObject (fields : list (string * json)).

(** [json.Marshal(request)]: every string is written as valid UTF-8, and an empty
    description is left out ([omitempty]). *)
Definition Marshal (r : CreateTransfer.t) : json :=
  JObject
    ([ ("from_account_id", JString (ToValidUTF8 (CreateTransfer.FromAccountID r)));
       ("to_account_id", JString (ToValidUTF8 (CreateTransfer.ToAccountID r)));
       ("amount", JNum (CreateTransfer.Amount r));
       ("currency", JString (ToValidUTF8 (CreateTransfer.Currency r))) ]
     ++ if CreateTransfer.Description r == "" then []
        else [("description", JString (ToValidUTF8 (CreateTransfer.Description r)))]).

(** ** [json.Unmarshal] into a [CreateTransfer] *)

Definition zero_request : CreateTransfer.t := CreateTransfer.mk "" "" 0 "" "".

Definition type_error : error := External "json: cannot unmarshal value into Go struct field".

(** Store a JSON value in a string field: [null] leaves the field alone. *)
Definition decode_string (j : json) (old : string) : result string :=
  match j with
  | JString s => Ok s
  | JNull => Ok old
  | _ => Err type_error
  end.

Definition decode_int64 (j : json) (old : Z) : result Z :=
  match j with
  | JNum z => if bool_decide (is_int64 z) then Ok z else Err type_error
  | JNull => Ok old
  | _ => Err type_error
  end.

(** The struct fields with their tags, and the field a key names: the exact name
    first, else one that is equal under case folding. *)
Inductive field := FFrom | FTo | FAmount | FCurrency | FDescription.

Definition field_tags : list (string * field) :=
  [ ("from_account_id", FFrom); ("to_account_id", FTo); ("amount", FAmount);
    ("currency", FCurrency); ("description", FDescription) ].

Definition field_of (key : string) : option field :=
  match find (λ nf, key == nf.1) field_tags with
  | Some nf => Some nf.2
  | None => snd <$> find (λ nf, EqualFold key nf.1) field_tags
  end.

Definition set_field (r : CreateTransfer.t) (kv : string * json) : result CreateTransfer.t :=
  let '(CreateTransfer.mk from to amount currency description) := r in
  match field_of kv.1 with
  | Some FFrom => (λ s, CreateTransfer.mk s to amount currency description) <$> decode_string kv.2 from
  | Some FTo => (λ s, CreateTransfer.mk from s amount currency description) <$> decode_string kv.2 to
  | Some FAmount => (λ z, CreateTransfer.mk from to z currency description) <$> decode_int64 kv.2 amount
  | Some FCurrency => (λ s, CreateTransfer.mk from to amount s description) <$> decode_string kv.2 currency
  | Some FDescription => (λ s, CreateTransfer.mk from to amount currency s) <$> decode_string kv.2 description
  | None => Ok r
  end.

Fixpoint set_fields (r : CreateTransfer.t) (kvs : list (string * json)) : result CreateTransfer.t :=
  match kvs with
  | [] => Ok r
  | kv :: kvs' => r' ← set_field r kv; set_fields r' kvs'
  end.

Definition Unmarshal (j : json) : result CreateTransfer.t :=
  match j with
  | JObject kvs => set_fields zero_request kvs
  | JNull => Ok zero_request
  | _ => Err type_error
  end.

(** A decoding error is one of [encoding/json]. *)
Lemma Unmarshal_Err j e : Unmarshal j = Err e → e = type_error.
Proof.
  destruct j as [| | | | | |kvs]; simpl; try congruence. generalize zero_request.
  induction kvs as [|kv kvs IH]; intros r; simpl; [done|].
  destruct (set_field r kv) as [r'|e'] eqn:E; simpl; [apply IH|]. intros [= <-].
  unfold set_field, decode_string, decode_int64 in E.
  destruct r. destruct (field_of kv.1) as [[]|]; [| | | | |done];
    destruct kv.2; simpl in E; repeat case_match; unfold fmap, result_fmap in E; congruence.
Qed.

(** ** The [JSONB] type

    Object keys are kept once, the last value given for a key wins, and they are
    ordered by length and then by bytes.  A string with the character U+0000 is
    refused. *)
Definition has_nul (s : string) : bool := existsb (λ a, byte a =? 0) (bytes_of s).

Definition jsonb_key_le (kv1 kv2 : string * json) : Prop :=
  len kv1.1 < len kv2.1 ∨ (len kv1.1 = len kv2.1 ∧ String.le kv1.1 kv2.1).

#[global] Instance jsonb_key_le_dec : RelDecision jsonb_key_le.
Proof. intros kv1 kv2. unfold jsonb_key_le. apply _. Defined.

Fixpoint last_wins (kvs : list (string * json)) : list (string * json) :=
  match kvs with
  | [] => []
  | kv :: kvs' => if existsb (λ kv', kv'.1 == kv.1) kvs' then last_wins kvs' else kv :: last_wins kvs'
  end.

Fixpoint nul_free (j : json) : bool :=
  match j with
  | JNull | JBool _ | JNum _ | JReal _ => true
  | JString s => negb (has_nul s)
  | JArray l => forallb nul_free l
  | JObject kvs => forallb (λ kv, negb (has_nul kv.1) && nul_free kv.2) kvs
  end.

Fixpoint jsonb_norm (j : json) : json :=
  match j with
  | JArray l => JArray (map jsonb_norm l)
  | JObject kvs => JObject (merge_sort jsonb_key_le (last_wins (map (λ kv, (kv.1, jsonb_norm kv.2)) kvs)))
  | _ => j
  end.

Definition jsonb_in (j : json) : result json :=
  if nul_free j then Ok (jsonb_norm j)
  else Err (External "unsupported Unicode escape sequence").

(** [jsonb_typeof] *)
Definition jsonb_typeof (j : json) : string :=
  match j with
  | JNull => "null"
  | JBool _ => "boolean"
  | JNum _ | JReal _ => "number"
  | JString _ => "string"
  | JArray _ => "array"
  | JObject _ => "object"
  end.

(** ** Lemmas *)

(** A request every field of which is plain text: what PostgreSQL can store. *)
Definition plain (s : string) : bool := ValidString s && negb (has_nul s).

Definition plain_request (r : CreateTransfer.t) : bool :=
  plain (CreateTransfer.FromAccountID r) && plain (CreateTransfer.ToAccountID r)
  && plain (CreateTransfer.Currency r) && plain (CreateTransfer.Description r).

Lemma plain_inv s : plain s = true → ToValidUTF8 s = s ∧ has_nul s = false.
Proof. unfold plain. intros H. reflect. auto with bank. Qed.

Lemma decode_int64_JNum z old : is_int64 z → decode_int64 (JNum z) old = Ok z.
Proof. intros Hz. simpl. by rewrite bool_decide_eq_true_2. Qed.

(** The stored payload of a plain request decodes to the request. *)
Lemma payload_roundtrip r :
  plain_request r = true → is_int64 (CreateTransfer.Amount r) →
  ∃ j, jsonb_in (Marshal r) = Ok j ∧ jsonb_typeof j = "object" ∧ Unmarshal j = Ok r.
Proof.
  destruct r as [from to amount currency description]. unfold plain_request. simpl.
  intros Hp Hz. reflect.
  repeat match goal with H : plain _ = true |- _ => apply plain_inv in H as [? ?] end.
  unfold jsonb_in, Marshal. simpl.
  repeat match goal with H : ToValidUTF8 ?s = ?s |- _ => rewrite H; clear H end.
  case_bool_decide; subst; simpl.
  all: repeat match goal with H : has_nul _ = false |- _ => rewrite H; clear H end; simpl.
  all: eexists; split; [reflexivity|split; [reflexivity|]].
  all: lazy -[decode_int64]; rewrite decode_int64_JNum by done; reflexivity.
Qed.
