(* ===== verification/Database.v ===== *)
(** * The database

    The tables of [internal/repository/migrations] after the five up migrations,
    with their constraints, and the meaning of the SQL statements that
    [internal/repository] sends, one executable function per statement.  A
    statement that violates a constraint fails and changes nothing.  The
    identity column of [ledger_entries], which no statement reads, is left out;
    row locks ([FOR UPDATE]) have no effect on a single transaction and are the
    subject of the file on concurrent transactions. *)
From S2P Require Import Prelude GoStrings GoErrors Entities Json.

(** ** What lies outside the repository

    The database's UUID type with its text forms and collation, [lower()], and
    the driver's [pgtype.UUID.Scan]. *)
Class Platform := {
  uuid : Type;
  uuid_eq_dec :: EqDecision uuid;
  uuid_countable :: Countable uuid;
  zero_uuid : uuid;
  uuid_in : string → option uuid;
  uuid_out : uuid → string;
  UUID_Scan : string → option uuid;
  lower : string → string;
  collate : relation string;
  collate_dec :: RelDecision collate }.

(** The documented behaviour the program relies on: a UUID printed by the
    database is read back as the same UUID, by the database and by the driver;
    the collation is a total order. *)
Class PlatformLaws `{!Platform} := {
  uuid_in_out u : uuid_in (uuid_out u) = Some u;
  UUID_Scan_out u : UUID_Scan (uuid_out u) = Some u;
  collate_order :: TotalOrder collate }.

Section database.
Context `{!Platform}.

(** ** Rows and tables *)

Record account_row := mk_account_row {
  a_user_id : string;
  a_currency : string;
  a_balance : Z;
  a_created_at : time;
  a_updated_at : time }.

Record transfer_row := mk_transfer_row {
  t_id : uuid;
  t_user_id : string;
  t_idempotency_key : uuid;
  t_from_account_id : string;
  t_to_account_id : string;
  t_amount : Z;
  t_currency : string;
  t_description : string;
  t_status : string;
  t_failure_reason : option string;
  t_original_request : json;
  t_created_at : time;
  t_updated_at : time }.

Record ledger_row := mk_ledger_row {
  l_transfer_id : uuid;
  l_account_id : string;
  l_amount : Z;
  l_balance_after : Z;
  l_created_at : time }.

Record user_row := mk_user_row {
  u_email : string;
  u_password_hash : string;
  u_permissions : list string;
  u_created_at : time }.

(** [accounts] and [users] are keyed by their primary key. *)
Record db := mk_db {
  accounts : gmap string account_row;
  transfers : list transfer_row;
  ledger_entries : list ledger_row;
  users : gmap string user_row }.

(** What a transaction draws from the server: [now()], constant inside a
    transaction, and the value of [gen_random_uuid()]. *)
Record env := mk_env {
  now : time;
  gen_random_uuid : uuid }.

Definition with_accounts (m : gmap string account_row) (d : db) : db :=
  mk_db m (transfers d) (ledger_entries d) (users d).
Definition with_transfers (l : list transfer_row) (d : db) : db :=
  mk_db (accounts d) l (ledger_entries d) (users d).
Definition with_ledger (l : list ledger_row) (d : db) : db :=
  mk_db (accounts d) (transfers d) l (users d).

(** ** Constraints *)

(** [btrim(s) <> '']: some character is not a space. *)
Definition btrim_nonempty (s : string) : bool :=
  existsb (λ a, negb (byte a =? 32)) (bytes_of s).

(** [currency ~ '^[A-Z]{3}$'] *)
Definition currency_check (c : string) : bool :=
  (len c =? 3) && forallb upper_letter (bytes_of c).

Definition status_check (s : string) : bool :=
  existsb (String.eqb s) ["pending"; "processing"; "completed"; "failed"; "cancelled"].

(** The CHECK constraints of [transfers]. *)
Definition transfers_check (r : transfer_row) : bool :=
  btrim_nonempty (t_user_id r)
  && btrim_nonempty (t_from_account_id r)
  && btrim_nonempty (t_to_account_id r)
  && (0 <? t_amount r)
  && currency_check (t_currency r)
  && status_check (t_status r)
  && (jsonb_typeof (t_original_request r) == "object")
  && (t_from_account_id r != t_to_account_id r).

(** The CHECK constraints of [accounts]. *)
Definition accounts_check (id : string) (r : account_row) : bool :=
  btrim_nonempty id && btrim_nonempty (a_user_id r)
  && currency_check (a_currency r) && (0 <=? a_balance r).

(** The CHECK constraints of [ledger_entries]. *)
Definition ledger_check (r : ledger_row) : bool :=
  negb (l_amount r =? 0) && (0 <=? l_balance_after r).

Definition check_violation : error := External "check_violation".
Definition unique_violation : error := External "unique_violation".
Definition foreign_key_violation : error := External "foreign_key_violation".
Definition invalid_text : error := External "invalid byte sequence for encoding".

(** Text sent as a parameter: valid UTF-8 without the character U+0000. *)
Definition texts_ok (l : list string) : bool := forallb plain l.

(** ** The meaning of the statements *)

Definition id_le {A} (x y : string * A) : Prop := collate x.1 y.1.

#[global] Instance id_le_dec {A} : RelDecision (@id_le A).
Proof. intros x y. unfold id_le. apply _. Defined.

(** The rows of [accounts] that satisfy [p], [ORDER BY id]. *)
Definition select_accounts (p : string → account_row → bool) (d : db) : list (string * account_row) :=
  merge_sort id_le
    (filter (λ kv, p kv.1 kv.2 = true) (map_to_list (accounts d))).

(** [UPDATE accounts SET balance = v.balance, updated_at = now() FROM unnest(...)
    AS v(id, balance) WHERE a.id = v.id]: the rows updated, and the new table. *)
Definition update_row (e : env) (z : Z) (r : account_row) : account_row :=
  mk_account_row (a_user_id r) (a_currency r) z (a_created_at r) (now e).

Definition matched (vs : list (string * Z)) (d : db) : list string :=
  filter (λ id, is_Some (accounts d !! id)) (remove_dups vs.*1).

Definition update_balances (e : env) (vs : list (string * Z)) (d : db) : result Z * db :=
  let new : gmap string Z := list_to_map vs in
  if negb (texts_ok vs.*1) then (Err invalid_text, d)
  else if existsb (λ id, default 0 (new !! id) <? 0) (matched vs d) then (Err check_violation, d)
  else
    (Ok (Z.of_nat (length (matched vs d))),
     with_accounts
       (map_imap (λ id r, Some (match new !! id with Some z => update_row e z r | None => r end))
          (accounts d)) d).

(** The parameters of the statement that inserts a transfer. *)
Record insert_args := mk_insert_args {
  i_user_id : string;
  i_key : uuid;
  i_from : string;
  i_to : string;
  i_amount : Z;
  i_currency : string;
  i_description : string;
  i_status : string;
  i_failure_reason : string;
  i_payload : json }.

Definition new_transfer_row (e : env) (a : insert_args) (payload : json) : transfer_row :=
  mk_transfer_row (gen_random_uuid e) (i_user_id a) (i_key a) (i_from a) (i_to a) (i_amount a)
    (i_currency a) (i_description a) (i_status a)
    (if i_failure_reason a == "" then None else Some (i_failure_reason a))
    payload (now e) (now e).

Definition same_key (user : string) (key : uuid) (r : transfer_row) : bool :=
  (t_user_id r == user) && bool_decide (t_idempotency_key r = key).

Definition find_key (user : string) (key : uuid) (d : db) : option transfer_row :=
  find (same_key user key) (transfers d).

(** [INSERT INTO transfers ... ON CONFLICT (user_id, idempotency_key) DO NOTHING
    RETURNING ...]: checks come before the conflict, the conflict before the
    primary key, foreign keys last. *)
Definition insert_transfer (e : env) (a : insert_args) (d : db) : result (option transfer_row) * db :=
  if negb (texts_ok [i_user_id a; i_from a; i_to a; i_currency a; i_description a;
                     i_status a; i_failure_reason a])
  then (Err invalid_text, d)
  else
    match jsonb_in (i_payload a) with
    | Err err => (Err err, d)
    | Ok payload =>
      let r := new_transfer_row e a payload in
      if negb (transfers_check r) then (Err check_violation, d)
      else if find_key (i_user_id a) (i_key a) d then (Ok None, d)
      else if existsb (λ r', bool_decide (t_id r' = t_id r)) (transfers d) then (Err unique_violation, d)
      else if bool_decide (is_Some (accounts d !! i_from a) ∧ is_Some (accounts d !! i_to a))
      then (Ok (Some r), with_transfers (transfers d ++ [r]) d)
      else (Err foreign_key_violation, d)
    end.

(** The rows [unnest($1::uuid[], $2::text[], $3::bigint[], $4::bigint[])] makes. *)
Definition ledger_rows (e : env) (vs : list (string * string * Z * Z)) : option (list ledger_row) :=
  mapM (λ '(tid, acc, amount, after),
          (λ u, mk_ledger_row u acc amount after (now e)) <$> uuid_in tid) vs.

Definition ledger_refs (d : db) (r : ledger_row) : bool :=
  existsb (λ t, bool_decide (t_id t = l_transfer_id r)) (transfers d)
  && bool_decide (is_Some (accounts d !! l_account_id r)).

Definition insert_ledger (e : env) (vs : list (string * string * Z * Z)) (d : db) : result unit * db :=
  if negb (texts_ok (map (λ '(_, acc, _, _), acc) vs)) then (Err invalid_text, d)
  else
    match ledger_rows e vs with
    | None => (Err (External "invalid input syntax for type uuid"), d)
    | Some rows =>
      if negb (forallb ledger_check rows) then (Err check_violation, d)
      else if negb (forallb (ledger_refs d) rows) then (Err foreign_key_violation, d)
      else (Ok tt, with_ledger (ledger_entries d ++ rows) d)
    end.

(** ** Statements *)

(** One constructor per statement text of [internal/repository], indexed by the
    type of its answer. *)
Inductive stmt : Type → Type :=
| SelectForUpdate (ids : list string) : stmt (list (string * account_row))
| UpdateBalances (vs : list (string * Z)) : stmt Z
| SelectOwned (accountID userID : string) : stmt (list (string * account_row))
| SelectByUser (userID : string) : stmt (list (string * account_row))
| InsertTransfer (a : insert_args) : stmt (option transfer_row)
| SelectByKey (userID : string) (key : uuid) : stmt (option transfer_row)
| SelectByID (id : uuid) (userID : string) : stmt (option transfer_row)
| InsertLedger (vs : list (string * string * Z * Z)) : stmt unit
| SelectUser (email : string) : stmt (option (string * user_row)).

(** A [SELECT] with text parameters [ps] and answer [a]. *)
Definition select {A} (ps : list string) (a : A) (d : db) : result A * db :=
  if texts_ok ps then (Ok a, d) else (Err invalid_text, d).

(** The meaning of a statement inside a transaction. *)
Definition sql (e : env) {A} (q : stmt A) (d : db) : result A * db :=
  match q in stmt A return result A * db with
  | SelectForUpdate ids => select ids (select_accounts (λ id _, bool_decide (id ∈ ids)) d) d
  | UpdateBalances vs => update_balances e vs d
  | SelectOwned accountID userID =>
    select [accountID; userID] (select_accounts (λ id r, (id == accountID) && (a_user_id r == userID)) d) d
  | SelectByUser userID => select [userID] (select_accounts (λ _ r, a_user_id r == userID) d) d
  | InsertTransfer a => insert_transfer e a d
  | SelectByKey userID key => select [userID] (find_key userID key d) d
  | SelectByID id userID =>
    select [userID]
      (find (λ r, bool_decide (t_id r = id) && (t_user_id r == userID)) (transfers d)) d
  | InsertLedger vs => insert_ledger e vs d
  | SelectUser email =>
    select [email] (find (λ kv, lower (u_email kv.2) == lower email) (map_to_list (users d))) d
  end.

(** ** Lemmas *)

Lemma elem_of_select p d id r :
  (id, r) ∈ select_accounts p d ↔ accounts d !! id = Some r ∧ p id r = true.
Proof.
  unfold select_accounts. rewrite merge_sort_Permutation, list_elem_of_filter, elem_of_map_to_list.
  naive_solver.
Qed.

Lemma NoDup_select p d : NoDup (select_accounts p d).*1.
Proof.
  unfold select_accounts. rewrite merge_sort_Permutation.
  apply (sublist_NoDup _ (map_to_list (accounts d)).*1); [apply NoDup_fst_map_to_list|].
  apply fmap_sublist, sublist_filter.
Qed.

Lemma find_key_Some u k d r :
  find_key u k d = Some r → r ∈ transfers d ∧ t_user_id r = u ∧ t_idempotency_key r = k.
Proof.
  intros [Hin Hk]%find_some. unfold same_key in Hk. reflect.
  by rewrite list_elem_of_In.
Qed.

Lemma find_key_None u k d :
  find_key u k d = None →
  Forall (λ r, ¬ (t_user_id r = u ∧ t_idempotency_key r = k)) (transfers d).
Proof.
  intros Hn. apply Forall_forall. intros r Hr%list_elem_of_In [Hu Hk].
  pose proof (find_none _ _ Hn r Hr) as Hf. unfold same_key in Hf.
  by rewrite !bool_decide_eq_true_2 in Hf.
Qed.

(** The outcomes of the insert. *)
Lemma insert_transfer_Ok e a d o d' :
  insert_transfer e a d = (Ok o, d') →
  ∃ payload, jsonb_in (i_payload a) = Ok payload ∧
    texts_ok [i_user_id a; i_from a; i_to a; i_currency a; i_description a;
              i_status a; i_failure_reason a] = true ∧
    transfers_check (new_transfer_row e a payload) = true ∧
    ((∃ r, o = None ∧ d' = d ∧ find_key (i_user_id a) (i_key a) d = Some r) ∨
     (o = Some (new_transfer_row e a payload) ∧
      d' = with_transfers (transfers d ++ [new_transfer_row e a payload]) d ∧
      find_key (i_user_id a) (i_key a) d = None ∧
      Forall (λ r', t_id r' ≠ gen_random_uuid e) (transfers d) ∧
      is_Some (accounts d !! i_from a) ∧ is_Some (accounts d !! i_to a))).
Proof.
  unfold insert_transfer. intros Hi.
  case_hyp Hi; [done|]. case_hyp Hi; [|done]. case_hyp Hi; [done|]. reflect.
  exists a0. split; [done|]. split; [done|]. split; [done|].
  destruct (find_key (i_user_id a) (i_key a) d) as [r|] eqn:Hk; [left; simplify_eq; eauto|].
  right. case_hyp Hi; [done|]. case_hyp Hi; [|done]. reflect. simplify_eq.
  repeat split; try done; [|naive_solver..].
  apply Forall_forall. intros r' Hr'%list_elem_of_In Heq.
  assert (existsb (λ r', bool_decide (t_id r' = gen_random_uuid e)) (transfers d) = true) as Hex.
  { apply existsb_exists. exists r'. split; [done|]. by apply bool_decide_eq_true. }
  simpl in E2. congruence.
Qed.

Lemma update_balances_Ok e vs d n d' :
  update_balances e vs d = (Ok n, d') →
  n = Z.of_nat (length (matched vs d)) ∧
  (∀ id z, (list_to_map vs : gmap string Z) !! id = Some z → is_Some (accounts d !! id) → 0 <= z) ∧
  d' = with_accounts
         (map_imap (λ id r, Some (match (list_to_map vs : gmap string Z) !! id with
                                  | Some z => update_row e z r | None => r end))
            (accounts d)) d.
Proof.
  unfold update_balances. intros Hu. case_hyp Hu; [done|]. case_hyp Hu; [done|]. simplify_eq.
  split; [done|]. split; [|done]. intros id z Hz Hacc.
  destruct (decide (0 <= z)) as [|Hneg]; [done|]. exfalso.
  apply not_true_iff_false in E0. apply E0, existsb_exists. exists id. rewrite Hz. simpl.
  split; [|apply Z.ltb_lt; lia]. apply list_elem_of_In, list_elem_of_filter. split; [done|].
  apply elem_of_remove_dups, list_elem_of_fmap. exists (id, z). split; [done|].
  by apply elem_of_list_to_map_2 in Hz.
Qed.

Lemma insert_ledger_Ok e vs d d' :
  insert_ledger e vs d = (Ok tt, d') →
  ∃ rows, ledger_rows e vs = Some rows ∧ forallb ledger_check rows = true ∧
    forallb (ledger_refs d) rows = true ∧ d' = with_ledger (ledger_entries d ++ rows) d.
Proof.
  unfold insert_ledger. intros Hi. repeat (case_hyp Hi; try done); reflect. simplify_eq. eauto.
Qed.

End database.

Arguments db {_}.
Arguments env {_}.
Arguments transfer_row {_}.
Arguments ledger_row {_}.
Arguments insert_args {_}.
Arguments stmt {_} _.
