(* ===== verification/Schema.v ===== *)
(** * The schema

    What the constraints of [internal/repository/migrations] say of every row of every table:
    CHECK constraints, primary and unique keys, the unique index on [lower(email)] and foreign
    keys.  A database that satisfies them all is [schema_ok]; every statement of the
    repositories keeps it so. *)
From S2P Require Import Prelude GoStrings GoErrors Entities Json Database.

Section schema.
Context `{!Platform}.

(** The CHECK constraints of [users]. *)
Definition users_check (id : string) (r : user_row) : bool :=
  btrim_nonempty id && btrim_nonempty (u_email r).

(** [accounts_user_fk], [transfers_from_account_fk] and [transfers_to_account_fk]. *)
Definition account_refs (d : db) (r : account_row) : bool := bool_decide (is_Some (users d !! a_user_id r)).

Definition transfer_refs (d : db) (r : transfer_row) : bool :=
  bool_decide (is_Some (accounts d !! t_from_account_id r) ∧ is_Some (accounts d !! t_to_account_id r)).

Record schema_ok (d : db) : Prop := {
  ok_accounts : map_Forall (λ id r, accounts_check id r = true ∧ account_refs d r = true) (accounts d);
  ok_transfers : Forall (λ r, transfers_check r = true ∧ transfer_refs d r = true) (transfers d);
  ok_keys : NoDup ((λ r, (t_user_id r, t_idempotency_key r)) <$> transfers d);
  ok_ids : NoDup (t_id <$> transfers d);
  ok_ledger : Forall (λ r, ledger_check r = true ∧ ledger_refs d r = true) (ledger_entries d);
  ok_users : map_Forall (λ id r, users_check id r = true) (users d);
  ok_emails : ∀ i j r s, users d !! i = Some r → users d !! j = Some s →
    lower (u_email r) = lower (u_email s) → i = j }.

(** ** References survive when tables only grow *)

Definition keeps_keys {A B} (m : gmap string A) (m' : gmap string B) : Prop :=
  ∀ id, is_Some (m !! id) → is_Some (m' !! id).

Lemma keeps_keys_refl {A} (m : gmap string A) : keeps_keys m m.
Proof. by intros id. Qed.

Lemma keeps_keys_insert {A} (m : gmap string A) i x : keeps_keys m (<[i := x]> m).
Proof. intros id Hid. destruct (decide (i = id)) as [->|]; [by rewrite lookup_insert_eq|by rewrite lookup_insert_ne]. Qed.

Hint Resolve keeps_keys_refl keeps_keys_insert : core.

Lemma account_refs_mono d d' r : keeps_keys (users d) (users d') → account_refs d r = true → account_refs d' r = true.
Proof. unfold account_refs. rewrite !bool_decide_eq_true. auto. Qed.

Lemma transfer_refs_mono d d' r :
  keeps_keys (accounts d) (accounts d') → transfer_refs d r = true → transfer_refs d' r = true.
Proof. unfold transfer_refs. rewrite !bool_decide_eq_true. naive_solver. Qed.

Lemma ledger_refs_mono d d' r :
  keeps_keys (accounts d) (accounts d') → transfers d ⊆ transfers d' → ledger_refs d r = true → ledger_refs d' r = true.
Proof.
  unfold ledger_refs. intros Ha Ht. rewrite !andb_true_iff, !bool_decide_eq_true, !existsb_exists.
  intros [(t & Hin & Hid) Hacc]. split; [|auto]. exists t. split; [|done].
  apply list_elem_of_In, Ht. by apply list_elem_of_In.
Qed.

(** New accounts, with users that are kept. *)
Lemma schema_accounts m d :
  keeps_keys (accounts d) m → map_Forall (λ id r, accounts_check id r = true ∧ account_refs d r = true) m →
  schema_ok d → schema_ok (with_accounts m d).
Proof.
  intros Hk Hm [Ha Ht Hkeys Hids Hl Hu He]. split; try done.
  - eapply Forall_impl; [exact Ht|]. intros r [? ?]. split; [done|]. by eapply transfer_refs_mono.
  - eapply Forall_impl; [exact Hl|]. intros r [? ?]. split; [done|]. by eapply ledger_refs_mono.
Qed.

(** ** Every statement of the repositories keeps the schema *)

Lemma update_balances_schema e vs d : schema_ok d → schema_ok (update_balances e vs d).2.
Proof.
  intros Hok. destruct (update_balances e vs d) as [[n|err] d'] eqn:Hu.
  2: { unfold update_balances in Hu. repeat (case_hyp Hu; [by simplify_eq|]). by simplify_eq. }
  apply update_balances_Ok in Hu as (_ & Hz & ->). simpl.
  apply schema_accounts; [| |done].
  - intros id Hid. rewrite map_lookup_imap. destruct (accounts d !! id); [by eexists|by destruct Hid].
  - intros id r Hr. rewrite map_lookup_imap in Hr. destruct (accounts d !! id) as [r0|] eqn:Hr0; [|done].
    destruct (ok_accounts _ Hok id r0 Hr0) as [Hc Href]. simpl in Hr.
    destruct (list_to_map vs !! id) as [z|] eqn:Hv; injection Hr as <-; [|done]. split; [|exact Href].
    unfold accounts_check in *. simpl. reflect. rewrite (proj2 (Z.leb_le 0 z)); [|by eapply Hz; eauto].
    by repeat match goal with H : _ = true |- _ => rewrite H end.
Qed.

Lemma insert_transfer_schema e a d : schema_ok d → schema_ok (insert_transfer e a d).2.
Proof.
  intros Hok. destruct (insert_transfer e a d) as [[o|err] d'] eqn:Hi.
  2: { unfold insert_transfer in Hi. repeat (case_hyp Hi; try by simplify_eq). }
  apply insert_transfer_Ok in Hi as (payload & _ & _ & Hc & [(? & _ & -> & _)|(_ & -> & Hk & Hid & Hf & Ht)]); [done|].
  destruct Hok as [Ha Htr Hkeys Hids Hl Hu He]. split; try done; simpl.
  - apply Forall_app_2; [exact Htr|]. constructor; [|constructor]. split; [done|]. by apply bool_decide_eq_true.
  - rewrite fmap_app. apply NoDup_app. split; [done|]. split; [|apply NoDup_singleton].
    intros k (r & -> & Hr)%list_elem_of_fmap [= Hu1 Hk1]%list_elem_of_singleton.
    apply find_key_None in Hk. rewrite Forall_forall in Hk. by apply (Hk r Hr).
  - rewrite fmap_app. apply NoDup_app. split; [done|]. split; [|apply NoDup_singleton].
    intros k (r & -> & Hr)%list_elem_of_fmap Hr1%list_elem_of_singleton. rewrite Forall_forall in Hid. by apply (Hid r Hr).
  - eapply Forall_impl; [exact Hl|]. intros r [? ?]. split; [done|]. eapply ledger_refs_mono; [| |done]; [done|].
    simpl. set_solver.
Qed.

Lemma insert_ledger_schema e vs d : schema_ok d → schema_ok (insert_ledger e vs d).2.
Proof.
  intros Hok. destruct (insert_ledger e vs d) as [[[]|err] d'] eqn:Hi.
  2: { unfold insert_ledger in Hi. repeat (case_hyp Hi; try by simplify_eq). }
  apply insert_ledger_Ok in Hi as (rows & _ & Hc & Hr & ->).
  destruct Hok as [Ha Htr Hkeys Hids Hl Hu He]. split; try done; simpl. apply Forall_app_2; [exact Hl|].
  rewrite forallb_forall in Hc, Hr. apply Forall_forall. intros r Hin%list_elem_of_In.
  split; [by apply Hc|by apply (Hr r)].
Qed.

Lemma sql_keeps_schema e {A} (q : stmt A) d : schema_ok d → schema_ok (sql e q d).2.
Proof.
  intros Hok. destruct q; simpl; try (unfold select; by case_match);
    auto using update_balances_schema, insert_transfer_schema, insert_ledger_schema.
Qed.

End schema.
