(* ===== verification/BankSpec.v ===== *)
(** * What the bank promises

    An abstract bank: the owner, currency and balance of each account, the
    transfers stored under a user and an idempotency key, and the ledger.  The
    relation [creates] says what a request to create a transfer may do to it:
    move the money once, store a rejection for lack of funds, or replay what is
    stored.  The invariants of the service (no overdraft, conservation of money,
    a ledger that reconciles) are proved here once, on the abstract bank, and
    the code is shown to implement it in later files. *)
From S2P Require Import Prelude GoStrings GoErrors Entities.

Record s_account := mk_s_account {
  s_user : string;
  s_currency : string;
  s_balance : Z }.

Definition s_with_balance (z : Z) (a : s_account) : s_account :=
  mk_s_account (s_user a) (s_currency a) z.

Record s_transfer := mk_s_transfer {
  s_id : string;
  s_request : CreateTransfer.t;
  s_status : TransferStatus.t;
  s_reason : FailureReason.t }.

(** The transfer a client sees for a stored one. *)
Record shows (tr : Transfer.t) (st : s_transfer) : Prop := {
  shows_id : Transfer.ID tr = s_id st;
  shows_from : Transfer.FromAccountID tr = CreateTransfer.FromAccountID (s_request st);
  shows_to : Transfer.ToAccountID tr = CreateTransfer.ToAccountID (s_request st);
  shows_amount : Transfer.Amount tr = CreateTransfer.Amount (s_request st);
  shows_currency : Transfer.Currency tr = CreateTransfer.Currency (s_request st);
  shows_description : Transfer.Description tr = CreateTransfer.Description (s_request st);
  shows_status : Transfer.Status tr = s_status st;
  shows_reason : Transfer.FailureReason tr = s_reason st }.

Section bank.
Context {K : Type} `{Countable K}.

Record bank := mk_bank {
  b_accounts : gmap string s_account;
  b_transfers : gmap (string * K) s_transfer;
  b_ledger : list LedgerEntry.t }.

(** ** Changes to the bank *)

Definition add_transfer (u : string) (k : K) (st : s_transfer) (b : bank) : bank :=
  mk_bank (b_accounts b) (<[(u, k) := st]> (b_transfers b)) (b_ledger b).

Definition set_balances (l : list (string * Z)) (b : bank) : bank :=
  mk_bank (foldr (λ iz m, alter (s_with_balance iz.2) iz.1 m) (b_accounts b) l)
    (b_transfers b) (b_ledger b).

Definition add_entries (es : list LedgerEntry.t) (b : bank) : bank :=
  mk_bank (b_accounts b) (b_transfers b) (b_ledger b ++ es).

Definition id_fresh (id : string) (b : bank) : Prop :=
  ∀ uk st, b_transfers b !! uk = Some st → s_id st ≠ id.

(** The two sides of a completed transfer. *)
Definition sides (id : string) (r : CreateTransfer.t) (s d : s_account) : list LedgerEntry.t :=
  [ LedgerEntry.mk id (CreateTransfer.FromAccountID r) (- CreateTransfer.Amount r)
      (s_balance s - CreateTransfer.Amount r);
    LedgerEntry.mk id (CreateTransfer.ToAccountID r) (CreateTransfer.Amount r)
      (s_balance d + CreateTransfer.Amount r) ].

(** The bank after a completed transfer. *)
Definition moved (u : string) (k : K) (r : CreateTransfer.t) (id : string) (s d : s_account)
    (b : bank) : bank :=
  add_entries (sides id r s d)
    (set_balances [ (CreateTransfer.FromAccountID r, s_balance s - CreateTransfer.Amount r);
                    (CreateTransfer.ToAccountID r, s_balance d + CreateTransfer.Amount r) ]
       (add_transfer u k (mk_s_transfer id r TransferStatus.Completed FailureReason.None) b)).

(** User [u] may send from the source [s] to the destination [d] of [r]. *)
Record may_send (u : string) (r : CreateTransfer.t) (s d : s_account) (b : bank) : Prop := {
  ms_source : b_accounts b !! CreateTransfer.FromAccountID r = Some s;
  ms_owner : s_user s = u;
  ms_destination : b_accounts b !! CreateTransfer.ToAccountID r = Some d;
  ms_source_currency : s_currency s = CreateTransfer.Currency r;
  ms_destination_currency : s_currency d = CreateTransfer.Currency r }.

(** ** What a create request may do *)

Inductive creates (u : string) (k : K) (r : CreateTransfer.t) (b : bank) :
    Transfer.t → bool → bank → Prop :=
| creates_completed tr s d :
    b_transfers b !! (u, k) = None →
    id_fresh (Transfer.ID tr) b →
    valid_request r →
    may_send u r s d b →
    CreateTransfer.Amount r <= s_balance s →
    s_balance d + CreateTransfer.Amount r <= MaxInt64 →
    shows tr (mk_s_transfer (Transfer.ID tr) r TransferStatus.Completed FailureReason.None) →
    creates u k r b tr true (moved u k r (Transfer.ID tr) s d b)
| creates_failed tr s d :
    b_transfers b !! (u, k) = None →
    id_fresh (Transfer.ID tr) b →
    valid_request r →
    may_send u r s d b →
    s_balance s < CreateTransfer.Amount r →
    shows tr (mk_s_transfer (Transfer.ID tr) r TransferStatus.Failed FailureReason.InsufficientFunds) →
    creates u k r b tr true
      (add_transfer u k
         (mk_s_transfer (Transfer.ID tr) r TransferStatus.Failed FailureReason.InsufficientFunds) b)
| creates_replay tr st :
    b_transfers b !! (u, k) = Some st →
    s_request st = r →
    shows tr st →
    creates u k r b tr false b.

(** One request as seen from outside: an answer, or an error.  An error leaves the
    bank as it was, except that the reply to the commit may be lost. *)
Inductive bank_step (b b' : bank) : Prop :=
| step_answer u k r tr created : creates u k r b tr created b' → bank_step b b'
| step_error : b' = b → bank_step b b'.

(** ** Invariants *)

(** The entries of one account and those of one transfer. *)
Definition entries_of (id : string) (b : bank) : list LedgerEntry.t :=
  filter (λ e, LedgerEntry.AccountID e = id) (b_ledger b).
Definition entries_for (tid : string) (b : bank) : list LedgerEntry.t :=
  filter (λ e, LedgerEntry.TransferID e = tid) (b_ledger b).

Definition total (b : bank) : Z := map_sum s_balance (b_accounts b).

(** No overdraft, and balances fit in 64 bits. *)
Definition balances_ok (b : bank) : Prop :=
  map_Forall (λ _ a, 0 <= s_balance a <= MaxInt64) (b_accounts b).

(** Every stored transfer is completed, with exactly its debit and its credit in
    the ledger, or failed for lack of funds, with no entry. *)
Definition stored_ok (b : bank) (st : s_transfer) : Prop :=
  (s_status st = TransferStatus.Completed ∧ s_reason st = FailureReason.None ∧
   ∃ z1 z2, entries_for (s_id st) b =
     [ LedgerEntry.mk (s_id st) (CreateTransfer.FromAccountID (s_request st))
         (- CreateTransfer.Amount (s_request st)) z1;
       LedgerEntry.mk (s_id st) (CreateTransfer.ToAccountID (s_request st))
         (CreateTransfer.Amount (s_request st)) z2 ])
  ∨ (s_status st = TransferStatus.Failed ∧ s_reason st = FailureReason.InsufficientFunds ∧
     entries_for (s_id st) b = []).

Record bank_ok (b : bank) : Prop := {
  ok_balances : balances_ok b;
  ok_ids : ∀ uk1 uk2 st1 st2, b_transfers b !! uk1 = Some st1 → b_transfers b !! uk2 = Some st2 →
           s_id st1 = s_id st2 → uk1 = uk2;
  ok_stored : map_Forall (λ _ st, stored_ok b st) (b_transfers b);
  ok_entries : Forall (λ e, ∃ uk st, b_transfers b !! uk = Some st ∧
                         s_id st = LedgerEntry.TransferID e) (b_ledger b) }.

(** Every balance is the opening balance plus the account's ledger entries. *)
Definition reconciles (opening : gmap string Z) (b : bank) : Prop :=
  ∀ id a, b_accounts b !! id = Some a →
    opening !! id = Some (s_balance a - sumZ LedgerEntry.Amount (entries_of id b)).

(** ** Lemmas *)

Lemma moved_accounts u k r id s d b :
  valid_request r → may_send u r s d b →
  b_accounts (moved u k r id s d b) =
  <[CreateTransfer.FromAccountID r := s_with_balance (s_balance s - CreateTransfer.Amount r) s]>
    (<[CreateTransfer.ToAccountID r := s_with_balance (s_balance d + CreateTransfer.Amount r) d]>
       (b_accounts b)).
Proof.
  intros Hv [Hs _ Hd _ _]. pose proof (valid_differ _ Hv) as Hne. simpl.
  apply map_eq. intros i.
  destruct (decide (i = CreateTransfer.FromAccountID r)) as [->|H1];
    [|destruct (decide (i = CreateTransfer.ToAccountID r)) as [->|H2]].
  - by rewrite lookup_alter_eq, lookup_alter_ne, lookup_insert_eq, Hs.
  - by rewrite lookup_alter_ne, lookup_alter_eq, lookup_insert_ne, lookup_insert_eq, Hd.
  - by rewrite !lookup_alter_ne, !lookup_insert_ne.
Qed.

(** A transfer neither creates nor destroys money. *)
Lemma creates_total u k r b tr c b' : creates u k r b tr c b' → total b' = total b.
Proof.
  destruct 1 as [tr s d _ _ Hv Hm _ _ _| |]; [|done..].
  unfold total. rewrite (moved_accounts u) by done. destruct Hm as [Hs _ Hd _ _].
  pose proof (valid_differ _ Hv) as Hne.
  rewrite (map_sum_insert _ _ _ s) by (by rewrite lookup_insert_ne by done).
  rewrite (map_sum_insert _ _ _ d) by done. simpl. lia.
Qed.

Lemma creates_balances u k r b tr c b' : creates u k r b tr c b' → balances_ok b → balances_ok b'.
Proof.
  destruct 1 as [tr s d _ _ Hv Hm Hle Hmax _| |]; [|done..]. intros Hok.
  unfold balances_ok. rewrite (moved_accounts u) by done. destruct Hm as [Hs _ Hd _ _].
  pose proof (valid_amount _ Hv). pose proof (Hok _ _ Hs). pose proof (Hok _ _ Hd). simpl in *.
  apply map_Forall_insert_2; [simpl; lia|]. apply map_Forall_insert_2; [simpl; lia|done].
Qed.

(** Only the balance of the source goes down, and the sender owns it. *)
Lemma creates_debits u k r b tr c b' id a a' :
  creates u k r b tr c b' → b_accounts b !! id = Some a → b_accounts b' !! id = Some a' →
  s_user a' = s_user a ∧ s_currency a' = s_currency a ∧
  (s_balance a' < s_balance a → id = CreateTransfer.FromAccountID r ∧ s_user a = u).
Proof.
  destruct 1 as [tr s d _ _ Hv Hm| |]; intros Ha Ha';
    [|simpl in Ha'; rewrite Ha in Ha'; simplify_eq; repeat split; lia..].
  rewrite (moved_accounts u) in Ha' by done. destruct Hm as [Hs Hu Hd _ _].
  pose proof (valid_amount _ Hv).
  apply lookup_insert_Some in Ha' as [[<- <-]|[Hi Ha']]; [|apply lookup_insert_Some in Ha' as [[<- <-]|[Hi' Ha']]];
    simplify_eq; simpl; repeat split; done || lia.
Qed.

(** What is stored stays stored, and the ledger only grows. *)
Lemma creates_stored u k r b tr c b' uk st :
  creates u k r b tr c b' → b_transfers b !! uk = Some st → b_transfers b' !! uk = Some st.
Proof.
  destruct 1 as [tr s d Hnone| tr s d Hnone|]; simpl; [| |done];
    intros Huk; rewrite lookup_insert_ne; congruence.
Qed.

Lemma creates_ledger u k r b tr c b' :
  creates u k r b tr c b' → ∃ es, b_ledger b' = b_ledger b ++ es.
Proof. destruct 1; simpl; eauto; exists []; by rewrite app_nil_r. Qed.

(** After an answer, the key holds the request and the transfer that was shown. *)
Lemma creates_answer u k r b tr c b' :
  creates u k r b tr c b' →
  ∃ st, b_transfers b' !! (u, k) = Some st ∧ s_request st = r ∧ shows tr st.
Proof.
  destruct 1; simpl; [eexists; split; [apply lookup_insert_eq|done]..|eauto].
Qed.

(** Entries of a transfer that is stored before the request are not touched. *)
Lemma entries_for_moved u k r id s d b tid :
  tid ≠ id → entries_for tid (moved u k r id s d b) = entries_for tid b.
Proof.
  intros Hne. unfold entries_for. simpl. unfold sides.
  rewrite filter_app, !filter_cons_False by (simpl; congruence). by rewrite app_nil_r.
Qed.

Lemma entries_for_fresh id b :
  id_fresh id b → Forall (λ e, ∃ uk st, b_transfers b !! uk = Some st ∧
                         s_id st = LedgerEntry.TransferID e) (b_ledger b) →
  entries_for id b = [].
Proof.
  intros Hf. unfold entries_for. induction 1 as [|e l (uk & st & Hst & Hid) _ IH]; [done|].
  rewrite filter_cons_False; [done|]. rewrite <-Hid. by apply (Hf uk st).
Qed.

Lemma entries_for_self u k r id s d b :
  entries_for id b = [] → entries_for id (moved u k r id s d b) = sides id r s d.
Proof.
  unfold entries_for. simpl. intros He. rewrite filter_app, He. unfold sides.
  by rewrite !filter_cons_True by done.
Qed.

Lemma ids_add_transfer u k st b :
  id_fresh (s_id st) b →
  (∀ uk1 uk2 st1 st2, b_transfers b !! uk1 = Some st1 → b_transfers b !! uk2 = Some st2 →
     s_id st1 = s_id st2 → uk1 = uk2) →
  ∀ uk1 uk2 st1 st2, <[(u, k):=st]> (b_transfers b) !! uk1 = Some st1 →
    <[(u, k):=st]> (b_transfers b) !! uk2 = Some st2 → s_id st1 = s_id st2 → uk1 = uk2.
Proof.
  intros Hf Hids uk1 uk2 st1 st2 H1 H2 Heq.
  apply lookup_insert_Some in H1 as [[<- <-]|[? H1]], H2 as [[<- <-]|[? H2]]; [done|..|by eauto].
  - by destruct (Hf uk2 st2 H2).
  - by destruct (Hf uk1 st1 H1).
Qed.

Lemma entries_add_transfer u k st b :
  b_transfers b !! (u, k) = None →
  Forall (λ e, ∃ uk st, b_transfers b !! uk = Some st ∧ s_id st = LedgerEntry.TransferID e) (b_ledger b) →
  Forall (λ e, ∃ uk st', <[(u, k):=st]> (b_transfers b) !! uk = Some st' ∧
            s_id st' = LedgerEntry.TransferID e) (b_ledger b).
Proof.
  intros Hn Hf. eapply Forall_impl; [exact Hf|]. intros e (uk & st' & ? & ?). exists uk, st'.
  split; [|done]. rewrite lookup_insert_ne; congruence.
Qed.

Lemma creates_ok u k r b tr c b' : creates u k r b tr c b' → bank_ok b → bank_ok b'.
Proof.
  intros Hc Hok. pose proof (creates_balances _ _ _ _ _ _ _ Hc (ok_balances _ Hok)) as Hbal.
  destruct Hok as [_ Hids Hst Hent].
  destruct Hc as [tr s d Hn Hf|tr s d Hn Hf|]; [| |by split]; split; try done.
  - by apply ids_add_transfer.
  - apply map_Forall_insert_2; [left; repeat split; simpl|].
    + rewrite entries_for_self by by apply entries_for_fresh. by eexists _, _.
    + intros uk st Huk. specialize (Hst uk st Huk) as Hs. unfold stored_ok in *.
      by rewrite entries_for_moved by by apply (Hf uk).
  - simpl. apply Forall_app. split; [by apply entries_add_transfer|].
    repeat constructor; simpl; eexists (_, _), _; by rewrite lookup_insert_eq.
  - by apply ids_add_transfer.
  - apply map_Forall_insert_2; [|done]. right. repeat split.
    change (entries_for (Transfer.ID tr) b = []). by apply entries_for_fresh.
  - simpl. by apply entries_add_transfer.
Qed.

Lemma entries_of_moved u k r id s d b acc :
  sumZ LedgerEntry.Amount (entries_of acc (moved u k r id s d b)) =
  sumZ LedgerEntry.Amount (entries_of acc b)
  + (if bool_decide (CreateTransfer.FromAccountID r = acc) then - CreateTransfer.Amount r else 0)
  + (if bool_decide (CreateTransfer.ToAccountID r = acc) then CreateTransfer.Amount r else 0).
Proof.
  unfold entries_of. simpl. unfold sides. rewrite filter_app, sumZ_app, !filter_cons, filter_nil. simpl.
  repeat case_decide; repeat case_bool_decide; simpl; congruence || lia.
Qed.

(** The ledger keeps reconciling with the balances. *)
Lemma creates_reconciles o u k r b tr c b' :
  creates u k r b tr c b' → reconciles o b → reconciles o b'.
Proof.
  destruct 1 as [tr s d _ _ Hv Hm| |]; [|done..]. intros Hrec id a.
  rewrite (moved_accounts u), entries_of_moved by done. destruct Hm as [Hs _ Hd _ _].
  pose proof (valid_differ _ Hv) as Hne.
  intros [[<- <-]|[Hi [[<- <-]|[Hi' Ha]]%lookup_insert_Some]]%lookup_insert_Some; simpl.
  - rewrite (Hrec _ _ Hs). repeat case_bool_decide; congruence || (f_equal; lia).
  - rewrite (Hrec _ _ Hd). repeat case_bool_decide; congruence || (f_equal; lia).
  - rewrite (Hrec _ _ Ha). repeat case_bool_decide; congruence || (f_equal; lia).
Qed.

(** ** Histories *)

(** An answer to a client: the request, the transfer shown, and whether it is new. *)
Record answered := mk_answered {
  an_user : string;
  an_key : K;
  an_request : CreateTransfer.t;
  an_transfer : Transfer.t;
  an_created : bool }.

(** What a bank has gone through, with the answers given on the way.  The answer to
    a request may be lost, and other requests leave the bank alone. *)
Inductive history (b : bank) : list answered → bank → Prop :=
| hs_nil : history b [] b
| hs_answered l b1 u k r tr c b2 :
    history b l b1 → creates u k r b1 tr c b2 → history b (l ++ [mk_answered u k r tr c]) b2
| hs_lost l b1 u k r tr c b2 :
    history b l b1 → creates u k r b1 tr c b2 → history b l b2.

Lemma history_ind_inv (P : bank → Prop) b l b' :
  (∀ u k r b tr c b', creates u k r b tr c b' → P b → P b') → history b l b' → P b → P b'.
Proof. intros HP. induction 1; eauto. Qed.

Lemma history_ok b l b' : history b l b' → bank_ok b → bank_ok b'.
Proof. apply history_ind_inv, creates_ok. Qed.

Lemma history_reconciles o b l b' : history b l b' → reconciles o b → reconciles o b'.
Proof. apply history_ind_inv. intros. by eapply creates_reconciles. Qed.

(** No request opens or closes an account. *)
Lemma creates_ids u k r b tr c b' : creates u k r b tr c b' → dom (b_accounts b') = dom (b_accounts b).
Proof. destruct 1; [|done..]. simpl. by rewrite !dom_alter_L. Qed.

Lemma history_ids b l b' : history b l b' → dom (b_accounts b') = dom (b_accounts b).
Proof.
  intros Hh. apply (history_ind_inv (λ b1, dom (b_accounts b1) = dom (b_accounts b)) b l b'); [|done..].
  intros u k r b1 tr c b2 Hc <-. by eapply creates_ids.
Qed.

(** What a bank never loses: accounts, with their owners and currencies, transfers under their
    keys, and the entries of the ledger in their order. *)
Record retains (b b' : bank) : Prop := {
  rt_accounts id a : b_accounts b !! id = Some a →
    ∃ a', b_accounts b' !! id = Some a' ∧ s_user a' = s_user a ∧ s_currency a' = s_currency a;
  rt_transfers : b_transfers b ⊆ b_transfers b';
  rt_ledger : b_ledger b `prefix_of` b_ledger b' }.

#[global] Instance retains_preorder : PreOrder retains.
Proof.
  split; [by split; eauto|]. intros b1 b2 b3 H12 H23. split.
  - intros id a Ha. destruct (rt_accounts _ _ H12 id a Ha) as (a2 & Ha2 & Hu & Hc).
    destruct (rt_accounts _ _ H23 id a2 Ha2) as (a3 & Ha3 & Hu3 & Hc3). exists a3. split; [done|]. split; congruence.
  - etransitivity; by apply rt_transfers.
  - etransitivity; by apply rt_ledger.
Qed.

Lemma creates_retains u k r b tr c b' : creates u k r b tr c b' → retains b b'.
Proof.
  intros Hc. split.
  - intros id a Ha. assert (is_Some (b_accounts b' !! id)) as [a' Ha'].
    { apply elem_of_dom. rewrite (creates_ids _ _ _ _ _ _ _ Hc). by eapply elem_of_dom_2. }
    exists a'. split; [done|]. destruct (creates_debits _ _ _ _ _ _ _ id a a' Hc Ha Ha') as (Hu & Hcur & _). done.
  - apply map_subseteq_spec. intros uk st. by eapply creates_stored.
  - by apply creates_ledger in Hc as [es ->]; apply prefix_app_r.
Qed.

Lemma history_retains b l b' : history b l b' → retains b b'.
Proof.
  intros Hh. apply (history_ind_inv (retains b) b l b'); [|done..].
  intros u k r b1 tr c b2 Hc Hb. etransitivity; [exact Hb|by eapply creates_retains].
Qed.

Lemma history_total b l b' : history b l b' → total b' = total b.
Proof. intros Hh. apply (history_ind_inv (λ b1, total b1 = total b) b l b'); [|done..].
  intros u k r b1 tr c b2 Hc <-. by eapply creates_total. Qed.

Lemma history_stored b l b' uk st :
  history b l b' → b_transfers b !! uk = Some st → b_transfers b' !! uk = Some st.
Proof. apply (history_ind_inv (λ b, b_transfers b !! uk = Some st)). intros. by eapply creates_stored. Qed.

(** An answer is what the key still holds. *)
Lemma history_answer b l b' a :
  history b l b' → a ∈ l →
  ∃ st, b_transfers b' !! (an_user a, an_key a) = Some st ∧ s_request st = an_request a ∧
        shows (an_transfer a) st.
Proof.
  induction 1 as [|l b1 u k r tr c b2 Hh IH Hc|l b1 u k r tr c b2 Hh IH Hc]; [by intros ?%elem_of_nil|..].
  - intros [Hin|Heq]%elem_of_app.
    + destruct (IH Hin) as (st & Hst & ? & ?). exists st. split; [|done]. by eapply creates_stored.
    + apply list_elem_of_singleton in Heq as ->. by eapply creates_answer.
  - intros Hin. destruct (IH Hin) as (st & Hst & ? & ?). exists st. split; [|done]. by eapply creates_stored.
Qed.

(** A stored key only ever gives replays of the same request. *)
Lemma creates_taken u k r b tr c b' st :
  creates u k r b tr c b' → b_transfers b !! (u, k) = Some st →
  c = false ∧ r = s_request st ∧ shows tr st ∧ b' = b.
Proof. destruct 1; intros; simplify_eq; eauto; congruence. Qed.

(** A new transfer is completed or rejected, as the funds of the source decide. *)
Lemma creates_new u k r b tr b' s d :
  creates u k r b tr true b' → may_send u r s d b →
  (CreateTransfer.Amount r <= s_balance s ∧
   shows tr (mk_s_transfer (Transfer.ID tr) r TransferStatus.Completed FailureReason.None) ∧
   b' = moved u k r (Transfer.ID tr) s d b) ∨
  (s_balance s < CreateTransfer.Amount r ∧
   shows tr (mk_s_transfer (Transfer.ID tr) r TransferStatus.Failed FailureReason.InsufficientFunds) ∧
   b' = add_transfer u k
          (mk_s_transfer (Transfer.ID tr) r TransferStatus.Failed FailureReason.InsufficientFunds) b).
Proof.
  intros Hc [Hs _ Hd _ _]. remember true as c eqn:Ec.
  destruct Hc as [tr s' d' _ _ _ [Hs' _ Hd' _ _] Hle _ Hsh|tr s' d' _ _ _ [Hs' _ Hd' _ _] Hlt Hsh|]; [left|right|done];
    rewrite Hs in Hs'; rewrite Hd in Hd'; injection Hs' as <-; injection Hd' as <-; done.
Qed.

(** Exactly once: a later answer to the same key of the same user is a replay of the
    same transfer, for the same request. *)
Lemma history_once b l b' i j a1 a2 :
  history b l b' → (i < j)%nat → l !! i = Some a1 → l !! j = Some a2 →
  an_user a1 = an_user a2 → an_key a1 = an_key a2 →
  an_created a2 = false ∧ an_request a2 = an_request a1 ∧
  ∃ st, shows (an_transfer a1) st ∧ shows (an_transfer a2) st.
Proof.
  intros Hh Hij. induction Hh as [|l b1 u k r tr c b2 Hh IH Hc|]; [done| |done].
  intros Hi Hj Hu Hk. apply lookup_app_Some in Hj as [Hj|[Hlen Hj]].
  - apply IH; [|done..]. rewrite lookup_app_l in Hi; [done|]. apply lookup_lt_Some in Hj. lia.
  - apply list_lookup_singleton_Some in Hj as [Hlast <-]. rewrite lookup_app_l in Hi by lia.
    apply list_elem_of_lookup_2 in Hi. destruct (history_answer _ _ _ _ Hh Hi) as (st & Hst & Hr & Hsh).
    simpl in *. rewrite Hu, Hk in Hst. destruct (creates_taken _ _ _ _ _ _ _ _ Hc Hst) as (-> & -> & ? & _).
    eauto.
Qed.

End bank.
Arguments bank K {_ _}.
Arguments answered K : clear implicits.
