(* ===== verification/Contracts.v ===== *)
(** * Repository contracts

    The interfaces of [internal/domain/repository] as type classes over the type
    [T] of a transaction (or of the pool), and what their comments promise, as
    classes of laws stated on the abstract bank.  The services are written and
    verified against these; the pgx implementation discharges them. *)
From S2P Require Import Prelude GoStrings GoErrors Entities BankSpec.

Module NewTransfer.
Record t := mk {
  UserID : string;
  IdempotencyKey : string;
  Request : CreateTransfer.t;
  Status : TransferStatus.t;
  FailureReason : FailureReason.t }.
End NewTransfer.

(** ** Interfaces *)

Class AccountRepository (T : Type) := {
  LockForTransfer : list string → tx T (gmap string Account.t);
  SaveBalances : list Account.t → tx T unit;
  FindOwned : string → string → tx T Account.t;
  ListByUser : string → tx T (list Account.t) }.

Class LedgerRepository (T : Type) := {
  Append : list LedgerEntry.t → tx T unit }.

Class TransferRepository (T : Type) := {
  CreateIdempotent : NewTransfer.t → tx T (Transfer.t * bool);
  FindByID : string → string → tx T Transfer.t }.

Class UserRepository (T : Type) := {
  FindByEmail : string → tx T User.t }.

(** Repositories bound to one transaction of type [T]. *)
Class Tx (T : Type) := {
  Accounts :: AccountRepository T;
  Transfers :: TransferRepository T;
  Ledger :: LedgerRepository T }.

(** [WithinTx] runs a function in a transaction on the store [S]. *)
Class TxManager (S T : Type) := {
  WithinTx : ∀ {A}, tx T A → tx S A }.

(** ** Promises *)

Definition s_account_of (a : Account.t) : s_account :=
  mk_s_account (Account.UserID a) (Account.Currency a) (Account.Balance a).

Definition s_transfer_of (id : string) (n : NewTransfer.t) : s_transfer :=
  mk_s_transfer id (NewTransfer.Request n) (NewTransfer.Status n) (NewTransfer.FailureReason n).

Section promises.
Context {T K : Type} `{Countable K} `{!Tx T}.

(** [key_of] reads an idempotency key; [inv] holds of the transactions in which the
    repositories run and [view] is the bank such a transaction sees. *)
Class TxPromises (key_of : string → option K) (inv : T → Prop) (view : T → bank K) := {
  (** LockForTransfer reads the accounts; missing accounts are absent. *)
  lock_promise ids t m t' :
    inv t → LockForTransfer ids t = (Ok m, t') →
    inv t' ∧ view t' = view t ∧
    ∀ id, match m !! id with
          | Some a => id ∈ ids ∧ Account.ID a = id ∧ is_int64 (Account.Balance a) ∧
                      b_accounts (view t) !! id = Some (s_account_of a)
          | None => id ∈ ids → b_accounts (view t) !! id = None
          end;
  (** CreateIdempotent stores the transfer, or returns the stored one untouched. *)
  create_promise n t tr created t' :
    inv t → is_int64 (CreateTransfer.Amount (NewTransfer.Request n)) →
    CreateIdempotent n t = (Ok (tr, created), t') →
    inv t' ∧
    ∃ k, key_of (NewTransfer.IdempotencyKey n) = Some k ∧
      if created then
        b_transfers (view t) !! (NewTransfer.UserID n, k) = None ∧
        id_fresh (Transfer.ID tr) (view t) ∧
        shows tr (s_transfer_of (Transfer.ID tr) n) ∧
        view t' = add_transfer (NewTransfer.UserID n) k (s_transfer_of (Transfer.ID tr) n) (view t)
      else
        ∃ st, b_transfers (view t) !! (NewTransfer.UserID n, k) = Some st ∧
          s_request st = NewTransfer.Request n ∧ shows tr st ∧ view t' = view t;
  (** A conflict means that the key holds another request. *)
  conflict_promise n t e t' :
    inv t → is_int64 (CreateTransfer.Amount (NewTransfer.Request n)) →
    CreateIdempotent n t = (Err e, t') → Is e ErrIdempotencyConflict = true →
    ∃ k st, key_of (NewTransfer.IdempotencyKey n) = Some k ∧
      b_transfers (view t) !! (NewTransfer.UserID n, k) = Some st ∧
      s_request st ≠ NewTransfer.Request n;
  (** SaveBalances writes the balances of the accounts given. *)
  save_promise l t t' :
    inv t → NoDup (Account.ID <$> l) → Forall (λ a, is_int64 (Account.Balance a)) l →
    SaveBalances l t = (Ok tt, t') →
    inv t' ∧
    view t' = set_balances ((λ a, (Account.ID a, Account.Balance a)) <$> l) (view t);
  (** Append adds entries of stored transfers to the ledger. *)
  append_promise es t t' :
    inv t →
    Forall (λ e, ∃ uk st, b_transfers (view t) !! uk = Some st ∧ s_id st = LedgerEntry.TransferID e) es →
    Append es t = (Ok tt, t') → inv t' ∧ view t' = add_entries es (view t) }.

End promises.

Section manager.
Context {S T K : Type} `{Countable K} `{!TxManager S T}.

(** The transaction manager starts [fn] on the committed state, keeps its effects when
    it returns nil and drops them otherwise.  An error returned although [fn] succeeded
    is an error of the commit, after which the effects may or may not have been kept. *)
Class TxManagerPromises (invS : S → Prop) (viewS : S → bank K)
    (invT : T → Prop) (viewT : T → bank K) := {
  within_ok {A} (fn : tx T A) s a s' :
    invS s → WithinTx fn s = (Ok a, s') →
    ∃ t t', invT t ∧ viewT t = viewS s ∧ fn t = (Ok a, t') ∧
      (invT t' → invS s' ∧ viewS s' = viewT t');
  within_err {A} (fn : tx T A) s e s' :
    invS s → WithinTx fn s = (Err e, s') →
    (invS s' ∧ viewS s' = viewS s) ∨
    ∃ t t' a, invT t ∧ viewT t = viewS s ∧ fn t = (Ok a, t') ∧
      (invT t' → invS s' ∧ viewS s' = viewT t') }.

End manager.
