(* ===== verification/TransferService.v ===== *)
(** * The transfer service

    [internal/service/transfer]: [Service.Create] and [Service.Get], written over
    the repository contracts.  The map of locked accounts holds pointers, so it
    is modelled as a store indexed by account ID: [Debit] and [Credit] change the
    store through the pointer, and what is saved is read back through it. *)
From S2P Require Import Prelude GoStrings GoErrors Entities BankSpec Contracts.

(** ** Operations on the locked accounts *)

Definition nil_dereference : error := New "nil pointer dereference".

(** Call a pointer method on the account at [p]. *)
Definition on (p : string) (m : tx Account.t unit) : tx (gmap string Account.t) unit := λ h,
  match h !! p with
  | Some a => let '(r, a') := m a in (r, <[p := a']> h)
  | None => (Err nil_dereference, h)
  end.

(** The outcome decided on the locked accounts: the status and reason of the draft,
    with the store after the debit and the credit. *)
Definition settle (request : CreateTransfer.t) (h : gmap string Account.t) :
    result (TransferStatus.t * FailureReason.t * gmap string Account.t) :=
  match on (CreateTransfer.FromAccountID request) (Account.Debit (CreateTransfer.Amount request)) h with
  | (Err err, h1) =>
    if Is err ErrInsufficientFunds
    then Ok (TransferStatus.Failed, FailureReason.InsufficientFunds, h1)
    else Err err
  | (Ok _, h1) =>
    match on (CreateTransfer.ToAccountID request) (Account.Credit (CreateTransfer.Amount request)) h1 with
    | (Err err, _) => Err err
    | (Ok _, h2) => Ok (TransferStatus.Completed, FailureReason.None, h2)
    end
  end.

(** The checks on the locked rows, then the outcome. *)
Definition check_accounts (userID : string) (request : CreateTransfer.t) (accounts : gmap string Account.t) :
    result (TransferStatus.t * FailureReason.t * gmap string Account.t) :=
  match accounts !! CreateTransfer.FromAccountID request with
  | None => Err (Sentinel ErrForbidden)
  | Some source =>
    if Account.UserID source != userID then Err (Sentinel ErrForbidden)
    else
      match accounts !! CreateTransfer.ToAccountID request with
      | None => Err (Sentinel ErrDestinationNotFound)
      | Some destination =>
        if (Account.Currency source != CreateTransfer.Currency request)
           || (Account.Currency destination != CreateTransfer.Currency request)
        then Err (Sentinel ErrCurrencyMismatch)
        else settle request accounts
      end
  end.

(** The two ledger entries of a completed transfer. *)
Definition ledger_pair (id : string) (request : CreateTransfer.t) (source destination : Account.t) :
    list LedgerEntry.t :=
  [ LedgerEntry.mk id (Account.ID source) (-64 CreateTransfer.Amount request) (Account.Balance source);
    LedgerEntry.mk id (Account.ID destination) (CreateTransfer.Amount request) (Account.Balance destination) ].

Section service.
Context {S T : Type} `{!Tx T} `{!TxManager S T}.

(** The function [Create] passes to [WithinTx]. *)
Definition create_tx (userID key : string) (request : CreateTransfer.t) : tx T (Transfer.t * bool) :=
  accounts ← LockForTransfer [CreateTransfer.FromAccountID request; CreateTransfer.ToAccountID request];
  '(status, reason, h) ← lift (check_accounts userID request accounts);
  '(result, created) ← CreateIdempotent (NewTransfer.mk userID key request status reason);
  if negb created || (Transfer.Status result != TransferStatus.Completed) then
    mret (result, created)
  else
    match h !! CreateTransfer.FromAccountID request, h !! CreateTransfer.ToAccountID request with
    | Some source, Some destination =>
      _ ← SaveBalances [source; destination];
      _ ← Append (ledger_pair (Transfer.ID result) request source destination);
      mret (result, created)
    | _, _ => fail nil_dereference
    end.

Definition Create (userID key : string) (request : CreateTransfer.t) : tx S (Transfer.t * bool) :=
  if TrimSpace userID == "" then fail (Sentinel ErrForbidden)
  else
    match CreateTransfer.Validate request with
    | Err err => fail err
    | Ok _ => map_err (Errorf "create transfer: %w") (WithinTx (create_tx userID key request))
    end.

(** [Get] reads through the repository given for reads. *)
Definition Get {R : Type} `{!TransferRepository R} (userID transferID : string) : tx R Transfer.t :=
  map_err (λ err, if Is err RepositoryErrNotFound then Sentinel TransferErrNotFound else err)
    (FindByID userID transferID).

End service.

(** ** Lemmas on the decision *)

(** What the checks and the settlement do, on every branch. *)
Inductive decision (u : string) (r : CreateTransfer.t) (h : gmap string Account.t) :
    result (TransferStatus.t * FailureReason.t * gmap string Account.t) → Prop :=
| dec_forbidden :
    (∀ s, h !! CreateTransfer.FromAccountID r = Some s → Account.UserID s ≠ u) →
    decision u r h (Err (Sentinel ErrForbidden))
| dec_no_destination s :
    h !! CreateTransfer.FromAccountID r = Some s → Account.UserID s = u →
    h !! CreateTransfer.ToAccountID r = None →
    decision u r h (Err (Sentinel ErrDestinationNotFound))
| dec_currency s d :
    h !! CreateTransfer.FromAccountID r = Some s → Account.UserID s = u →
    h !! CreateTransfer.ToAccountID r = Some d →
    (Account.Currency s ≠ CreateTransfer.Currency r ∨ Account.Currency d ≠ CreateTransfer.Currency r) →
    decision u r h (Err (Sentinel ErrCurrencyMismatch))
| dec_insufficient s d :
    h !! CreateTransfer.FromAccountID r = Some s → Account.UserID s = u →
    h !! CreateTransfer.ToAccountID r = Some d →
    Account.Currency s = CreateTransfer.Currency r → Account.Currency d = CreateTransfer.Currency r →
    Account.Balance s < CreateTransfer.Amount r →
    decision u r h (Ok (TransferStatus.Failed, FailureReason.InsufficientFunds, h))
| dec_overflow s d :
    h !! CreateTransfer.FromAccountID r = Some s → Account.UserID s = u →
    h !! CreateTransfer.ToAccountID r = Some d →
    Account.Currency s = CreateTransfer.Currency r → Account.Currency d = CreateTransfer.Currency r →
    CreateTransfer.Amount r <= Account.Balance s →
    MaxInt64 < Account.Balance d + CreateTransfer.Amount r →
    decision u r h (Err (Sentinel ErrBalanceOverflow))
| dec_completed s d :
    h !! CreateTransfer.FromAccountID r = Some s → Account.UserID s = u →
    h !! CreateTransfer.ToAccountID r = Some d →
    Account.Currency s = CreateTransfer.Currency r → Account.Currency d = CreateTransfer.Currency r →
    CreateTransfer.Amount r <= Account.Balance s →
    Account.Balance d + CreateTransfer.Amount r <= MaxInt64 →
    decision u r h
      (Ok (TransferStatus.Completed, FailureReason.None,
           <[CreateTransfer.ToAccountID r :=
               Account.with_Balance (Account.Balance d + CreateTransfer.Amount r) d]>
             (<[CreateTransfer.FromAccountID r :=
                  Account.with_Balance (Account.Balance s - CreateTransfer.Amount r) s]> h))).

Definition balances_int64 (h : gmap string Account.t) : Prop :=
  map_Forall (λ _ a, is_int64 (Account.Balance a)) h.

Lemma settle_decision u r h s d :
  balances_int64 h → is_int64 (CreateTransfer.Amount r) → valid_request r →
  h !! CreateTransfer.FromAccountID r = Some s → Account.UserID s = u →
  h !! CreateTransfer.ToAccountID r = Some d →
  Account.Currency s = CreateTransfer.Currency r → Account.Currency d = CreateTransfer.Currency r →
  decision u r h (settle r h).
Proof.
  intros Hh Hr Hv Hs Hu Hd Hcs Hcd. pose proof (valid_amount _ Hv). pose proof (valid_differ _ Hv).
  pose proof (Hh _ _ Hs) as Hs64. pose proof (Hh _ _ Hd) as Hd64. simpl in Hs64, Hd64.
  unfold settle, on. rewrite Hs.
  destruct (Account.Debit (CreateTransfer.Amount r) s) as [[[]|e] s'] eqn:Es.
  - apply Debit_Ok in Es as (? & ? & ->); [|done]. rewrite lookup_insert_ne, Hd by done.
    destruct (Account.Credit (CreateTransfer.Amount r) d) as [[[]|e] d'] eqn:Ed.
    + apply Credit_Ok in Ed as (? & ? & ->); [|done..]. by eapply dec_completed.
    + apply Credit_Err in Ed as [-> [[? ->]|(? & ? & ->)]]; [lia| |done..].
      by eapply dec_overflow.
  - apply Debit_Err in Es as [-> [[? ->]|(? & ? & ->)]]; [lia|].
    simpl. rewrite insert_id by done. by eapply dec_insufficient.
Qed.

Lemma check_accounts_decision u r h :
  balances_int64 h → is_int64 (CreateTransfer.Amount r) → valid_request r →
  decision u r h (check_accounts u r h).
Proof.
  intros Hh Hr Hv. unfold check_accounts.
  destruct (h !! CreateTransfer.FromAccountID r) as [s|] eqn:Hs; [|by constructor; congruence].
  case_bool_decide as Hu; simpl; [|by constructor; congruence].
  destruct (h !! CreateTransfer.ToAccountID r) as [d|] eqn:Hd; [|by econstructor].
  repeat case_bool_decide; simpl; try (eapply dec_currency; naive_solver).
  by eapply settle_decision.
Qed.

(** ** The service implements the abstract bank *)

Section refinement.
Context {S T K : Type} `{Countable K} `{!Tx T} `{!TxManager S T}.
Context (key_of : string → option K) (invT : T → Prop) (viewT : T → bank K).
Context `{!TxPromises key_of invT viewT}.

Lemma lock_int64 ids t m t' :
  invT t → LockForTransfer ids t = (Ok m, t') → balances_int64 m.
Proof.
  intros Ht Hl id a Ha. destruct (lock_promise ids t m t' Ht Hl) as (_ & _ & Hm).
  specialize (Hm id). rewrite Ha in Hm. naive_solver.
Qed.

Lemma lock_may_send u r t m t' s d :
  invT t → LockForTransfer [CreateTransfer.FromAccountID r; CreateTransfer.ToAccountID r] t = (Ok m, t') →
  m !! CreateTransfer.FromAccountID r = Some s → Account.UserID s = u →
  m !! CreateTransfer.ToAccountID r = Some d →
  Account.Currency s = CreateTransfer.Currency r → Account.Currency d = CreateTransfer.Currency r →
  may_send u r (s_account_of s) (s_account_of d) (viewT t) ∧
  Account.ID s = CreateTransfer.FromAccountID r ∧ Account.ID d = CreateTransfer.ToAccountID r.
Proof.
  intros Ht Hl Hs Hu Hd Hcs Hcd. destruct (lock_promise _ _ _ _ Ht Hl) as (_ & _ & Hm).
  pose proof (Hm (CreateTransfer.FromAccountID r)) as Hms. rewrite Hs in Hms.
  pose proof (Hm (CreateTransfer.ToAccountID r)) as Hmd. rewrite Hd in Hmd.
  destruct Hms as (_ & ? & _ & ?), Hmd as (_ & ? & _ & ?). repeat split; done.
Qed.

(** The completed branch: the balances and the ledger after the insert. *)
Lemma save_and_append u k r t tr s d l1 l2 t1 t2 b :
  invT t →
  viewT t = add_transfer u k
    (mk_s_transfer (Transfer.ID tr) r TransferStatus.Completed FailureReason.None) b → valid_request r → is_int64 (CreateTransfer.Amount r) →
  is_int64 (Account.Balance s) → CreateTransfer.Amount r <= Account.Balance s →
  is_int64 (Account.Balance d) → Account.Balance d + CreateTransfer.Amount r <= MaxInt64 →
  Account.ID s = CreateTransfer.FromAccountID r → Account.ID d = CreateTransfer.ToAccountID r →
  l1 = [ Account.with_Balance (Account.Balance s - CreateTransfer.Amount r) s;
         Account.with_Balance (Account.Balance d + CreateTransfer.Amount r) d ] →
  l2 = ledger_pair (Transfer.ID tr) r
         (Account.with_Balance (Account.Balance s - CreateTransfer.Amount r) s)
         (Account.with_Balance (Account.Balance d + CreateTransfer.Amount r) d) →
  SaveBalances l1 t = (Ok tt, t1) → Append l2 t1 = (Ok tt, t2) →
  invT t2 ∧ viewT t2 = moved u k r (Transfer.ID tr) (s_account_of s) (s_account_of d) b.
Proof.
  intros Ht Hb Hv Hr Hs64 Hle Hd64 Hmax Hs Hd -> -> Hsave Happ. pose proof (valid_amount _ Hv).
  apply save_promise in Hsave as [Ht1 Hview]; [|done| |].
  - apply append_promise in Happ as [Ht2 Hview2]; [|done|]; rewrite Hview, Hb in *.
    2: { repeat constructor; simpl; eexists (_, _), _; by rewrite lookup_insert_eq. }
    split; [done|]. rewrite Hview2. unfold moved, ledger_pair, sides. simpl.
    rewrite Hs, Hd, wrap64_id by int64_lia. done.
  - simpl. rewrite Hs, Hd. apply NoDup_cons. split; [|apply NoDup_singleton].
    rewrite list_elem_of_singleton. apply (valid_differ _ Hv).
  - repeat constructor; simpl; int64_lia.
Qed.

Lemma create_tx_creates u key r t tr c t' :
  invT t → valid_request r → is_int64 (CreateTransfer.Amount r) →
  create_tx u key r t = (Ok (tr, c), t') →
  invT t' ∧ ∃ k, key_of key = Some k ∧ creates u k r (viewT t) tr c (viewT t').
Proof.
  intros Ht Hv Hr Hrun. unfold create_tx in Hrun.
  apply tx_bind_Ok in Hrun as (m & t1 & Hl & Hrun).
  pose proof (lock_int64 _ _ _ _ Ht Hl) as Hm64.
  pose proof (check_accounts_decision u r m Hm64 Hr Hv) as Hdec.
  destruct (lock_promise _ _ _ _ Ht Hl) as (Ht1 & Hview1 & _).
  apply tx_bind_Ok in Hrun as ([[status reason] h] & t1' & Hc & Hrun).
  injection Hc as Hcheck <-. rewrite Hcheck in Hdec. clear Hcheck.
  apply tx_bind_Ok in Hrun as ([tr0 c0] & t2 & Hcr & Hrun).
  destruct (create_promise (NewTransfer.mk u key r status reason) _ _ _ _ Ht1 Hr Hcr)
    as (Ht2 & k & Hk & Hres). simpl in Hk, Hres.
  destruct c0; simpl in Hrun.
  - destruct Hres as (Hnone & Hfresh & Hshows & Hview2). rewrite Hview1 in *.
    inversion Hdec as [| | |s d Hs Hu Hd Hcs Hcd Hlt| |s d Hs Hu Hd Hcs Hcd Hle Hmax]; subst; clear Hdec;
      pose proof (shows_status _ _ Hshows) as Hst; simpl in Hst.
    + rewrite Hst in Hrun. simpl in Hrun. unfold mret, tx_ret in Hrun. simplify_eq. split; [done|].
      exists k. split; [done|]. destruct (lock_may_send _ _ _ _ _ _ _ Ht Hl Hs eq_refl Hd Hcs Hcd) as [? _].
      rewrite Hview2. by eapply creates_failed.
    + rewrite Hst in Hrun. simpl in Hrun.
      rewrite lookup_insert_ne, lookup_insert_eq, lookup_insert_eq in Hrun
        by (by apply not_eq_sym, (valid_differ _ Hv)).
      apply tx_bind_Ok in Hrun as ([] & t3 & Hsave & Hrun).
      apply tx_bind_Ok in Hrun as ([] & t4 & Happ & Hrun).
      unfold mret, tx_ret in Hrun. simplify_eq.
      destruct (lock_may_send _ _ _ _ _ _ _ Ht Hl Hs eq_refl Hd Hcs Hcd) as (Hms & HsID & HdID).
      destruct (save_and_append (Account.UserID s) k r t2 tr s d _ _ t3 t' (viewT t)
                  Ht2 Hview2 Hv Hr (Hm64 _ _ Hs) Hle (Hm64 _ _ Hd) Hmax HsID HdID eq_refl eq_refl Hsave Happ) as [Ht' Hv'].
      split; [done|]. exists k. split; [done|]. rewrite Hv'. by eapply creates_completed.
  - unfold mret, tx_ret in Hrun. simplify_eq. split; [done|].
    destruct Hres as (st & ? & ? & ? & Hview2). rewrite Hview1 in *.
    exists k. split; [done|]. rewrite Hview2. by eapply creates_replay.
Qed.

Context (invS : S → Prop) (viewS : S → bank K).
Context `{!TxManagerPromises invS viewS invT viewT}.

(** An answer of [Create] is an answer of the abstract bank. *)
Lemma Create_answer u key r s tr c s' :
  invS s → is_int64 (CreateTransfer.Amount r) →
  Create u key r s = (Ok (tr, c), s') →
  invS s' ∧ valid_request r ∧
  ∃ k, key_of key = Some k ∧ creates u k r (viewS s) tr c (viewS s').
Proof.
  intros Hs Hr. unfold Create. case_bool_decide; [by intros ?%fail_Ok|].
  destruct (CreateTransfer.Validate r) as [[]|] eqn:Hv; [|by intros ?%fail_Ok].
  apply Validate_Ok in Hv. intros Hrun%map_err_Ok.
  destruct (within_ok _ _ _ _ Hs Hrun) as (t & t' & Ht & Hvt & Hfn & Hcommit).
  destruct (create_tx_creates _ _ _ _ _ _ _ Ht Hv Hr Hfn) as (Ht' & k & Hk & Hc).
  destruct (Hcommit Ht') as [Hs' ->]. rewrite Hvt in Hc. eauto.
Qed.

(** An error of [Create] leaves the bank as it was, unless the reply to the commit
    of a transfer was lost. *)
Lemma Create_error u key r s e s' :
  invS s → is_int64 (CreateTransfer.Amount r) →
  Create u key r s = (Err e, s') →
  (s' = s ∨ invS s') ∧
  (viewS s' = viewS s ∨
   ∃ k tr c, key_of key = Some k ∧ valid_request r ∧ creates u k r (viewS s) tr c (viewS s')).
Proof.
  intros Hs Hr. unfold Create. case_bool_decide; [intros [_ <-]%fail_Err; auto|].
  destruct (CreateTransfer.Validate r) as [[]|] eqn:Hv; [|intros [_ <-]%fail_Err; auto].
  apply Validate_Ok in Hv. intros (e0 & Hrun & _)%map_err_Err.
  destruct (within_err _ _ _ _ Hs Hrun) as [[? ?]|(t & t' & [tr c] & Ht & Hvt & Hfn & Hcommit)]; [auto|].
  destruct (create_tx_creates _ _ _ _ _ _ _ Ht Hv Hr Hfn) as (Ht' & k & Hk & Hc).
  destruct (Hcommit Ht') as [Hs' ->]. rewrite Hvt in Hc. split; [auto|]. right. eauto 10.
Qed.

End refinement.
