(* ===== verification/Repository.v ===== *)
(** * The pgx repositories

    [internal/repository]: [AccountRepository], [TransferRepository],
    [LedgerRepository], [UserRepository] and [Store], written over [querier], the
    interface that the pool and a transaction share.  The driver is a parameter:
    [query] sends a statement, [BeginTxFunc] runs a function in a transaction.
    The last part shows that these implementations keep the promises of the
    repository contracts. *)
From S2P Require Import Prelude GoStrings GoErrors Entities Json Database BankSpec Contracts.

(** ** The driver *)

(** [querier]: send a statement and read its answer. *)
Class querier `{!Platform} (T : Type) := {
  query : ∀ {A}, stmt A → tx T A }.

(** [pgx.BeginTxFunc] on the pool [S], with transactions of type [T]. *)
Class Pgx (S T : Type) := {
  BeginTxFunc : ∀ {A}, tx T A → tx S A }.

(** An error of the driver or the database, none of the program's own errors. *)
Definition foreign (e : error) : Prop := ∀ s, Is e s = false.

(** What the driver's documentation says: a statement that succeeds has its SQL meaning
    on the database as the transaction sees it; a transaction starts on the committed
    database; its changes are kept when the function and the commit succeed, dropped
    when the function fails, whose error is then returned (or the error of the rollback);
    when the commit reports an error, an error of the driver, either may be the case. *)
Class querier_documented `{!Platform} {T} `{!querier T} (tx_db : T → db) := {
  query_ok {A} (q : stmt A) t a t' :
    query q t = (Ok a, t') → ∃ e, sql e q (tx_db t) = (Ok a, tx_db t');
  query_err {A} (q : stmt A) t e t' : query q t = (Err e, t') → foreign e }.

Class Pgx_documented `{!Platform} {S T} `{!Pgx S T} (pool_db : S → db) (tx_db : T → db) := {
  begin_ok {A} (fn : tx T A) s a s' :
    BeginTxFunc fn s = (Ok a, s') →
    ∃ t t', tx_db t = pool_db s ∧ fn t = (Ok a, t') ∧ pool_db s' = tx_db t';
  begin_err {A} (fn : tx T A) s e s' :
    BeginTxFunc fn s = (Err e, s') →
    pool_db s' = pool_db s ∧ (foreign e ∨ ∃ t t', tx_db t = pool_db s ∧ fn t = (Err e, t')) ∨
    foreign e ∧ ∃ t t' a, tx_db t = pool_db s ∧ fn t = (Ok a, t') ∧ pool_db s' = tx_db t' }.

(** ** [slices.Sort] and [slices.Compact] *)

Definition Sort (ids : list string) : list string := merge_sort String.le ids.

Fixpoint Compact (l : list string) : list string :=
  match l with
  | [] => []
  | x :: l' =>
    match Compact l' with
    | [] => [x]
    | y :: l'' => if x == y then y :: l'' else x :: y :: l''
    end
  end.

Section repository.
Context `{!Platform} {T : Type} `{!querier T}.

(** ** Accounts *)

Definition scanAccount (row : string * account_row) : Account.t :=
  Account.mk row.1 (a_user_id row.2) (a_currency row.2) (a_balance row.2)
    (a_created_at row.2) (a_updated_at row.2).

(** The loop that fills the map of locked accounts. *)
Definition index_accounts (accounts : list Account.t) : gmap string Account.t :=
  foldl (λ m a, <[Account.ID a := a]> m) ∅ accounts.

Definition pg_LockForTransfer (accountIDs : list string) : tx T (gmap string Account.t) :=
  rows ← map_err (Errorf "lock accounts: %w") (query (SelectForUpdate (Compact (Sort accountIDs))));
  mret (index_accounts (scanAccount <$> rows)).

Definition pg_SaveBalances (accounts : list Account.t) : tx T unit :=
  n ← map_err (Errorf "save balances: %w")
        (query (UpdateBalances ((λ a, (Account.ID a, Account.Balance a)) <$> accounts)));
  if negb (n =? Z.of_nat (length accounts)) then fail (New "save balances: updated %d of %d accounts")
  else mret tt.

Definition pg_FindOwned (userID accountID : string) : tx T Account.t :=
  rows ← map_err (Errorf "find account: %w") (query (SelectOwned accountID userID));
  match rows with
  | [] => fail (Sentinel RepositoryErrNotFound)
  | [row] => mret (scanAccount row)
  | _ => fail (Errorf "find account: %w" (External "too many rows in result set"))
  end.

Definition pg_ListByUser (userID : string) : tx T (list Account.t) :=
  rows ← map_err (Errorf "list accounts: %w") (query (SelectByUser userID));
  mret (scanAccount <$> rows).

(** ** Transfers *)

Definition parseKey (raw : string) : result uuid :=
  match UUID_Scan raw with
  | Some key =>
    if bool_decide (key = zero_uuid)
    then Err (Errorf "%w: idempotency key must be a nonzero UUID" (Sentinel ErrInvalidTransfer))
    else Ok key
  | None => Err (Errorf "%w: idempotency key must be a nonzero UUID" (Sentinel ErrInvalidTransfer))
  end.

(** The columns of [transferColumns]. *)
Definition transfer_of_row (r : transfer_row) : Transfer.t :=
  Transfer.mk (uuid_out (t_id r)) (uuid_out (t_idempotency_key r)) (t_from_account_id r)
    (t_to_account_id r) (t_amount r) (t_currency r) (t_description r) (t_status r)
    (default "" (t_failure_reason r)) (t_created_at r) (t_updated_at r).

Definition scanTransfer (row : option transfer_row) : result (Transfer.t * CreateTransfer.t) :=
  match row with
  | None => Err (Sentinel ErrNoRows)
  | Some r =>
    match Unmarshal (t_original_request r) with
    | Ok original => Ok (transfer_of_row r, original)
    | Err err => Err (Errorf "decode original request: %w" err)
    end
  end.

Definition replay (transfer : Transfer.t) (original request : CreateTransfer.t) :
    result (Transfer.t * bool) :=
  if bool_decide (original = request) then Ok (transfer, false)
  else Err (Sentinel ErrIdempotencyConflict).

(** [QueryRow(...)] followed by [scanTransfer]. *)
Definition query_transfer (q : stmt (option transfer_row)) : tx T (Transfer.t * CreateTransfer.t) :=
  row ← query q; lift (scanTransfer row).

Definition insert_args_of (t : NewTransfer.t) (key : uuid) : insert_args :=
  let r := NewTransfer.Request t in
  mk_insert_args (NewTransfer.UserID t) key (CreateTransfer.FromAccountID r)
    (CreateTransfer.ToAccountID r) (CreateTransfer.Amount r) (CreateTransfer.Currency r)
    (CreateTransfer.Description r) (NewTransfer.Status t) (NewTransfer.FailureReason t) (Marshal r).

Definition pg_CreateIdempotent (t : NewTransfer.t) : tx T (Transfer.t * bool) := λ s,
  match parseKey (NewTransfer.IdempotencyKey t) with
  | Err err => (Err err, s)
  | Ok key =>
    match query_transfer (InsertTransfer (insert_args_of t key)) s with
    | (Ok (transfer, _), s1) => (Ok (transfer, true), s1)
    | (Err err, s1) =>
      if negb (Is err ErrNoRows) then (Err (Errorf "insert transfer: %w" err), s1)
      else
        match query_transfer (SelectByKey (NewTransfer.UserID t) key) s1 with
        | (Err err, s2) => (Err (Errorf "find existing transfer: %w" err), s2)
        | (Ok (transfer, original), s2) => (replay transfer original (NewTransfer.Request t), s2)
        end
    end
  end.

Definition pg_FindByID (userID transferID : string) : tx T Transfer.t := λ s,
  match UUID_Scan transferID with
  | None => (Err (Sentinel RepositoryErrNotFound), s)
  | Some id =>
    match query_transfer (SelectByID id userID) s with
    | (Ok (transfer, _), s1) => (Ok transfer, s1)
    | (Err err, s1) =>
      if Is err ErrNoRows then (Err (Sentinel RepositoryErrNotFound), s1)
      else (Err (Errorf "find transfer: %w" err), s1)
    end
  end.

(** ** Ledger and users *)

Definition pg_Append (entries : list LedgerEntry.t) : tx T unit :=
  map_err (Errorf "append ledger entries: %w")
    (query (InsertLedger ((λ e, (LedgerEntry.TransferID e, LedgerEntry.AccountID e,
                                 LedgerEntry.Amount e, LedgerEntry.BalanceAfter e)) <$> entries))).

Definition pg_FindByEmail (email : string) : tx T User.t := λ s,
  match query (SelectUser email) s with
  | (Ok (Some (id, r)), s1) => (Ok (User.mk id (u_email r) (u_password_hash r) (u_permissions r)), s1)
  | (Ok None, s1) => (Err (Sentinel RepositoryErrNotFound), s1)
  | (Err err, s1) => (Err (Errorf "find user: %w" err), s1)
  end.

(** ** The contracts *)

#[global] Instance pg_accounts : AccountRepository T :=
  Build_AccountRepository T pg_LockForTransfer pg_SaveBalances pg_FindOwned pg_ListByUser.
#[global] Instance pg_transfers : TransferRepository T :=
  Build_TransferRepository T pg_CreateIdempotent pg_FindByID.
#[global] Instance pg_ledger : LedgerRepository T := Build_LedgerRepository T pg_Append.
#[global] Instance pg_users : UserRepository T := Build_UserRepository T pg_FindByEmail.

(** [txRepositories] *)
#[global] Instance txRepositories : Tx T := Build_Tx T _ _ _.

End repository.

(** [Store.WithinTx] *)
#[global] Instance Store {S T} `{!Pgx S T} : TxManager S T :=
  Build_TxManager S T (λ A fn, BeginTxFunc fn).
