(* ===== verification/RepositoryCorrect.v ===== *)
(** * The pgx repositories keep the contracts

    The abstract bank a database represents ([bank_of]), the invariant of the
    stored rows ([db_ok]), and the proof that the repositories of [Repository]
    keep the promises of [Contracts] for every driver that behaves as
    documented. *)
From S2P Require Import Prelude GoStrings GoErrors Entities Json Database BankSpec Contracts Repository.

Section correct.
Context `{!Platform} `{!PlatformLaws}.

(** ** The bank of a database *)

Definition request_of_row (r : transfer_row) : CreateTransfer.t :=
  CreateTransfer.mk (t_from_account_id r) (t_to_account_id r) (t_amount r) (t_currency r)
    (t_description r).

Definition stored_of_row (r : transfer_row) : s_transfer :=
  mk_s_transfer (uuid_out (t_id r)) (request_of_row r) (t_status r) (default "" (t_failure_reason r)).

Definition account_of_row (r : account_row) : s_account :=
  mk_s_account (a_user_id r) (a_currency r) (a_balance r).

Definition entry_of_row (r : ledger_row) : LedgerEntry.t :=
  LedgerEntry.mk (uuid_out (l_transfer_id r)) (l_account_id r) (l_amount r) (l_balance_after r).

Definition key_of_row (r : transfer_row) : string * uuid := (t_user_id r, t_idempotency_key r).

Definition bank_of (d : db) : bank uuid :=
  mk_bank (account_of_row <$> accounts d)
    (list_to_map ((λ r, (key_of_row r, stored_of_row r)) <$> transfers d))
    (entry_of_row <$> ledger_entries d).

(** What the rows of a reachable database satisfy. *)
Record db_ok (d : db) : Prop := {
  db_balances : map_Forall (λ _ r, 0 <= a_balance r <= MaxInt64) (accounts d);
  db_keys : NoDup (key_of_row <$> transfers d);
  db_ids : NoDup (t_id <$> transfers d);
  db_payloads : Forall (λ r, Unmarshal (t_original_request r) = Ok (request_of_row r)) (transfers d) }.

(** ** Sorting and indexing *)

Lemma elem_of_Compact x l : x ∈ Compact l ↔ x ∈ l.
Proof.
  induction l as [|y l IH]; [done|]. rewrite elem_of_cons, <-IH. simpl.
  destruct (Compact l) as [|z l']; [set_solver|].
  case_bool_decide; subst; set_solver.
Qed.

Lemma elem_of_Sort x l : x ∈ Sort l ↔ x ∈ l.
Proof. unfold Sort. by rewrite merge_sort_Permutation. Qed.

(** [slices.Compact] of a sorted slice has no repetition. *)
Lemma Compact_sorted l : Sorted String.le l → StronglySorted (λ x y, String.le x y ∧ x ≠ y) (Compact l).
Proof.
  intros Hl. apply Sorted_StronglySorted in Hl; [|apply _].
  induction Hl as [|x l Hl IH Hx]; simpl; [constructor|].
  destruct (Compact l) as [|y l'] eqn:E; [by repeat constructor|].
  case_bool_decide as Hxy; [done|]. constructor; [done|].
  assert (Forall (String.le x) (y :: l')) as Hall.
  { rewrite <-E. apply Forall_forall. intros z Hz. rewrite elem_of_Compact in Hz.
    rewrite Forall_forall in Hx. by apply Hx. }
  inversion Hall as [|? ? Hy Hl']; subst. constructor; [done|].
  inversion IH as [|? ? Hs Hy']; subst. rewrite Forall_forall in *. intros z Hz. split; [by apply Hl'|].
  intros ->. destruct (Hy' z Hz) as [Hyz Hne]. apply Hne. by apply (anti_symm String.le).
Qed.

Lemma index_accounts_alt l :
  index_accounts l = list_to_map (reverse ((λ a, (Account.ID a, a)) <$> l)).
Proof.
  unfold index_accounts. induction l as [|a l IH] using rev_ind; [done|].
  rewrite foldl_snoc, IH, fmap_app, reverse_app. done.
Qed.

Lemma index_accounts_lookup rows id :
  NoDup rows.*1 →
  index_accounts (scanAccount <$> rows) !! id =
  (λ r, scanAccount (id, r)) <$> (list_to_map rows : gmap string account_row) !! id.
Proof.
  intros Hnd. rewrite index_accounts_alt, <-list_fmap_compose.
  set (kvs := _ <$> rows). assert (kvs.*1 = rows.*1) as Hfst.
  { unfold kvs. rewrite <-list_fmap_compose. by apply list_fmap_ext. }
  apply option_eq. intros a. rewrite <-elem_of_list_to_map, elem_of_reverse.
  - rewrite fmap_Some. split.
    + intros ([k r] & Heq & Hin)%list_elem_of_fmap. simpl in Heq. simplify_eq.
      exists r. split; [|done]. by apply elem_of_list_to_map_1.
    + intros (r & Hr & ->). apply elem_of_list_to_map_2 in Hr. apply list_elem_of_fmap.
      by exists (id, r).
  - rewrite fmap_reverse. by rewrite Hfst, reverse_Permutation.
Qed.

(** ** The bank's view of the statements *)

Lemma bank_of_key u k d : b_transfers (bank_of d) !! (u, k) = stored_of_row <$> find_key u k d.
Proof.
  unfold bank_of, find_key. simpl. induction (transfers d) as [|r l IH]; [done|].
  rewrite fmap_cons. simpl list_to_map. simpl find.
  destruct (same_key u k r) eqn:E; unfold same_key in E; reflect.
  - subst. by rewrite lookup_insert_eq.
  - rewrite lookup_insert_ne, IH; [done|]. intros [= Hu Hk].
    by rewrite !bool_decide_eq_true_2 in E.
Qed.

Lemma bank_of_add d r :
  find_key (t_user_id r) (t_idempotency_key r) d = None →
  bank_of (with_transfers (transfers d ++ [r]) d) =
  add_transfer (t_user_id r) (t_idempotency_key r) (stored_of_row r) (bank_of d).
Proof.
  intros Hn. unfold bank_of, add_transfer. simpl. f_equal.
  rewrite fmap_app. simpl. apply list_to_map_snoc. rewrite <-list_fmap_compose. simpl.
  intros (r' & Heq & Hin)%list_elem_of_fmap. apply find_key_None in Hn. rewrite Forall_forall in Hn.
  unfold key_of_row in Heq. simpl in Heq. apply (Hn r' Hin). naive_solver.
Qed.

Lemma bank_of_fresh u d :
  Forall (λ r, t_id r ≠ u) (transfers d) → id_fresh (uuid_out u) (bank_of d).
Proof.
  intros Hf uk st Hst Heq. simpl in Hst.
  apply elem_of_list_to_map_2, list_elem_of_fmap in Hst as (r & ? & Hr). simplify_eq. simpl in Heq.
  rewrite Forall_forall in Hf. apply (Hf r Hr).
  apply (f_equal uuid_in) in Heq. rewrite !uuid_in_out in Heq. congruence.
Qed.

Lemma shows_row r : shows (transfer_of_row r) (stored_of_row r).
Proof. done. Qed.

(** A row inserted for a draft is the draft. *)
Lemma stored_of_new_row e n key payload :
  stored_of_row (new_transfer_row e (insert_args_of n key) payload) =
  s_transfer_of (uuid_out (gen_random_uuid e)) n.
Proof.
  unfold stored_of_row, s_transfer_of, insert_args_of, request_of_row. simpl.
  f_equal; [by destruct (NewTransfer.Request n)|]. case_bool_decide; simpl; congruence.
Qed.

Lemma db_ok_insert e n key payload d :
  db_ok d → is_int64 (CreateTransfer.Amount (NewTransfer.Request n)) →
  jsonb_in (i_payload (insert_args_of n key)) = Ok payload →
  texts_ok [NewTransfer.UserID n; CreateTransfer.FromAccountID (NewTransfer.Request n);
            CreateTransfer.ToAccountID (NewTransfer.Request n);
            CreateTransfer.Currency (NewTransfer.Request n);
            CreateTransfer.Description (NewTransfer.Request n);
            NewTransfer.Status n; NewTransfer.FailureReason n] = true →
  find_key (NewTransfer.UserID n) key d = None →
  Forall (λ r', t_id r' ≠ gen_random_uuid e) (transfers d) →
  db_ok (with_transfers (transfers d ++ [new_transfer_row e (insert_args_of n key) payload]) d).
Proof.
  intros [Hb Hk Hi Hp] Hz Hj Ht Hn Hf. split; simpl; [done|..].
  - rewrite fmap_app. apply NoDup_app. split; [done|]. split; [|apply NoDup_singleton].
    intros uk (r & -> & Hr)%list_elem_of_fmap Heq%list_elem_of_singleton.
    apply find_key_None in Hn. rewrite Forall_forall in Hn. apply (Hn r Hr).
    unfold key_of_row in Heq. simpl in Heq. naive_solver.
  - rewrite fmap_app. apply NoDup_app. split; [done|]. split; [|apply NoDup_singleton].
    intros u (r & -> & Hr)%list_elem_of_fmap Heq%list_elem_of_singleton.
    rewrite Forall_forall in Hf. by apply (Hf r Hr).
  - apply Forall_app. split; [done|]. apply Forall_singleton. simpl.
    destruct (payload_roundtrip (NewTransfer.Request n)) as (j & Hj' & _ & Hu); [|done|].
    + unfold texts_ok in Ht. simpl in Ht. unfold plain_request. reflect.
      by repeat match goal with H : plain _ = true |- _ => rewrite H; clear H end.
    + simpl in Hj. rewrite Hj' in Hj. simplify_eq. rewrite Hu.
      unfold request_of_row. simpl. by destruct (NewTransfer.Request n).
Qed.

(** The errors of statements are none of the program's own. *)
Lemma sql_foreign e {A} (q : stmt A) d err d' : sql e q d = (Err err, d') → foreign err.
Proof.
  intros Hs s. destruct q; simpl in Hs;
    unfold select, update_balances, insert_transfer, insert_ledger, jsonb_in in Hs;
    repeat case_match; by simplify_eq.
Qed.

(** ** The promises *)

Context {T : Type} `{!querier T} (tx_db : T → db) `{!querier_documented tx_db}.

Definition key_of (raw : string) : option uuid :=
  match parseKey raw with Ok k => Some k | Err _ => None end.

Definition tx_ok (t : T) : Prop := db_ok (tx_db t).
Definition tx_view (t : T) : bank uuid := bank_of (tx_db t).

Lemma query_select {A} (q : stmt A) ps t a t' x :
  (∀ e, sql e q (tx_db t) = select ps x (tx_db t)) → query q t = (Ok a, t') →
  a = x ∧ tx_db t' = tx_db t.
Proof.
  intros Hq (e & Hs)%query_ok. rewrite Hq in Hs. unfold select in Hs. case_match; naive_solver.
Qed.

Lemma pg_lock ids t m t' :
  tx_ok t → pg_LockForTransfer ids t = (Ok m, t') →
  tx_ok t' ∧ tx_view t' = tx_view t ∧
  ∀ id, match m !! id with
        | Some a => id ∈ ids ∧ Account.ID a = id ∧ is_int64 (Account.Balance a) ∧
                    b_accounts (tx_view t) !! id = Some (s_account_of a)
        | None => id ∈ ids → b_accounts (tx_view t) !! id = None
        end.
Proof.
  intros Hok. unfold pg_LockForTransfer. intros (rows & t1 & Hq & Hm)%tx_bind_Ok.
  apply map_err_Ok in Hq. unfold mret, tx_ret in Hm. simplify_eq.
  eapply query_select in Hq as [-> Hdb]; [|by intros; simpl].
  unfold tx_ok, tx_view. rewrite Hdb. split; [done|]. split; [done|]. intros id.
  rewrite index_accounts_lookup by apply NoDup_select. simpl. rewrite lookup_fmap.
  destruct (list_to_map _ !! id) as [r|] eqn:E; simpl.
  - apply elem_of_list_to_map_2, elem_of_select in E as [Hacc Hin]. reflect.
    rewrite elem_of_Compact, elem_of_Sort in Hin. rewrite Hacc.
    pose proof (db_balances _ Hok _ _ Hacc) as Hbal. simpl in Hbal.
    repeat split; [done|int64_lia..].
  - intros Hid. apply not_elem_of_list_to_map_2 in E. destruct (accounts (tx_db t) !! id) as [r|] eqn:Hacc; [|done].
    exfalso. apply E, list_elem_of_fmap. exists (id, r). split; [done|].
    apply elem_of_select. split; [done|]. apply bool_decide_eq_true.
    by rewrite elem_of_Compact, elem_of_Sort.
Qed.

Lemma query_transfer_Ok q t tr o t' :
  query_transfer q t = (Ok (tr, o), t') →
  ∃ r, query q t = (Ok (Some r), t') ∧ tr = transfer_of_row r ∧ Unmarshal (t_original_request r) = Ok o.
Proof.
  unfold query_transfer, lift. intros (row & t1 & Hq & Hs)%tx_bind_Ok. simplify_eq.
  destruct row as [r|]; simpl in *; [|done]. case_match; simplify_eq. eauto.
Qed.

Lemma find_key_stored u k d :
  db_ok d → find_key u k d = None ∨
  ∃ r, find_key u k d = Some r ∧ Unmarshal (t_original_request r) = Ok (request_of_row r) ∧
       b_transfers (bank_of d) !! (u, k) = Some (stored_of_row r).
Proof.
  intros Hok. destruct (find_key u k d) as [r|] eqn:E; [right|by left].
  pose proof (find_key_Some _ _ _ _ E) as (Hin & _). exists r. split; [done|]. split.
  - pose proof (db_payloads _ Hok) as Hp. rewrite Forall_forall in Hp. auto.
  - by rewrite bank_of_key, E.
Qed.

(** What an insert that answers does to the bank. *)
Lemma query_insert n key t o t' :
  tx_ok t → is_int64 (CreateTransfer.Amount (NewTransfer.Request n)) →
  query (InsertTransfer (insert_args_of n key)) t = (Ok o, t') →
  tx_ok t' ∧
  match o with
  | None => tx_db t' = tx_db t ∧ is_Some (find_key (NewTransfer.UserID n) key (tx_db t))
  | Some r =>
    b_transfers (tx_view t) !! (NewTransfer.UserID n, key) = None ∧
    id_fresh (uuid_out (t_id r)) (tx_view t) ∧
    stored_of_row r = s_transfer_of (uuid_out (t_id r)) n ∧
    Unmarshal (t_original_request r) = Ok (NewTransfer.Request n) ∧
    tx_view t' = add_transfer (NewTransfer.UserID n) key (stored_of_row r) (tx_view t)
  end.
Proof.
  intros Hok Hz (e & Hs)%query_ok. simpl in Hs.
  apply insert_transfer_Ok in Hs as (payload & Hj & Htx & _ & [(r & -> & Hd & Hr)|(-> & Hd & Hk & Hf & _ & _)]).
  { unfold tx_ok. rewrite Hd. simpl in Hr. rewrite Hr. eauto. }
  pose proof (db_ok_insert e n key payload (tx_db t) Hok Hz Hj Htx Hk Hf) as Hok'.
  unfold tx_ok, tx_view. rewrite Hd. split; [done|]. simpl in Hk.
  split; [by rewrite bank_of_key, Hk|]. split; [by apply bank_of_fresh|].
  split; [by rewrite stored_of_new_row|]. split.
  - pose proof (db_payloads _ Hok') as Hp. simpl in Hp. apply Forall_app in Hp as [_ Hp].
    rewrite Forall_singleton in Hp. rewrite Hp. unfold request_of_row. simpl.
    by destruct (NewTransfer.Request n).
  - by rewrite bank_of_add.
Qed.

(** [CreateIdempotent] on every branch. *)
Inductive create_outcome (n : NewTransfer.t) (t : T) (t' : T) : result (Transfer.t * bool) → Prop :=
| co_created k tr :
    key_of (NewTransfer.IdempotencyKey n) = Some k →
    b_transfers (tx_view t) !! (NewTransfer.UserID n, k) = None →
    id_fresh (Transfer.ID tr) (tx_view t) →
    shows tr (s_transfer_of (Transfer.ID tr) n) →
    tx_view t' = add_transfer (NewTransfer.UserID n) k (s_transfer_of (Transfer.ID tr) n) (tx_view t) →
    tx_ok t' →
    create_outcome n t t' (Ok (tr, true))
| co_replayed k tr st :
    key_of (NewTransfer.IdempotencyKey n) = Some k →
    b_transfers (tx_view t) !! (NewTransfer.UserID n, k) = Some st →
    s_request st = NewTransfer.Request n → shows tr st →
    tx_db t' = tx_db t → tx_ok t' →
    create_outcome n t t' (Ok (tr, false))
| co_conflict k st :
    key_of (NewTransfer.IdempotencyKey n) = Some k →
    b_transfers (tx_view t) !! (NewTransfer.UserID n, k) = Some st →
    s_request st ≠ NewTransfer.Request n →
    create_outcome n t t' (Err (Sentinel ErrIdempotencyConflict))
| co_bad_key e :
    key_of (NewTransfer.IdempotencyKey n) = None → Is e ErrInvalidTransfer = true →
    Is e ErrIdempotencyConflict = false →
    create_outcome n t t' (Err e)
| co_failure f e :
    foreign e → create_outcome n t t' (Err (Errorf f e)).

Lemma query_by_key u k t tr o t' :
  tx_ok t → query_transfer (SelectByKey u k) t = (Ok (tr, o), t') →
  tx_db t' = tx_db t ∧ ∃ st, b_transfers (tx_view t) !! (u, k) = Some st ∧ shows tr st ∧ s_request st = o.
Proof.
  intros Hok (r & Hq & -> & Hu)%query_transfer_Ok.
  eapply query_select in Hq as [Hr Hdb]; [|by intros; simpl]. split; [done|].
  destruct (find_key_stored u k (tx_db t) Hok) as [Hn|(r' & Hr' & Hu' & Hst)]; [congruence|].
  exists (stored_of_row r'). simplify_eq. rewrite Hr' in Hr. simplify_eq.
  rewrite Hu' in Hu. simplify_eq. done.
Qed.

(** Errors of a row query are foreign, or the absence of the row. *)
Lemma query_transfer_Err q t err t' :
  (∀ r, query q t = (Ok (Some r), t') → is_ok (Unmarshal (t_original_request r)) = true) →
  query_transfer q t = (Err err, t') →
  foreign err ∨ (err = Sentinel ErrNoRows ∧ query q t = (Ok None, t')).
Proof.
  unfold query_transfer, lift. intros Hr [Hq|(row & t1 & Hq & Hs)]%tx_bind_Err.
  - left. by apply query_err in Hq.
  - simplify_eq. destruct row as [r|]; simpl in *; [|by simplify_eq; right].
    specialize (Hr r Hq). case_match; simplify_eq.
Qed.

Lemma select_by_key_decodes u k t t' r :
  tx_ok t → query (SelectByKey u k) t = (Ok (Some r), t') →
  is_ok (Unmarshal (t_original_request r)) = true.
Proof.
  intros Hok Hq. eapply query_select in Hq as [Hr _]; [|by intros; simpl].
  destruct (find_key_stored u k (tx_db t) Hok) as [Hn|(r' & Hr' & Hu' & _)]; [congruence|].
  rewrite Hr' in Hr. simplify_eq. by rewrite Hu'.
Qed.

Lemma pg_create_outcome n t res t' :
  tx_ok t → is_int64 (CreateTransfer.Amount (NewTransfer.Request n)) →
  pg_CreateIdempotent n t = (res, t') → create_outcome n t t' res.
Proof.
  intros Hok Hz. unfold pg_CreateIdempotent.
  destruct (parseKey (NewTransfer.IdempotencyKey n)) as [k|e] eqn:Hk.
  2: { intros [= <- <-]. apply co_bad_key; [by unfold key_of; rewrite Hk|..];
       unfold parseKey in Hk; repeat case_match; by simplify_eq. }
  assert (key_of (NewTransfer.IdempotencyKey n) = Some k) as Hkey by by unfold key_of; rewrite Hk.
  destruct (query_transfer _ t) as [[[tr o]|err] t1] eqn:Hq.
  - intros [= <- <-]. apply query_transfer_Ok in Hq as (r & Hq & -> & _).
    apply query_insert in Hq as (Hok' & Hn & Hf & Hst & _ & Hv); [|done..].
    eapply co_created; [done..| | |done]; simpl.
    + rewrite <-Hst. apply shows_row.
    + by rewrite <-Hst.
  - apply query_transfer_Err in Hq as [Hfor|[-> Hq]].
    + rewrite Hfor. simpl. intros [= <- <-]. by apply co_failure.
    + apply query_insert in Hq as (Hok1 & Hdb1 & Htaken); [|done..]. simpl.
      destruct (query_transfer _ t1) as [[[tr o]|err] t2] eqn:Hq2.
      * apply query_by_key in Hq2 as (Hdb2 & st & Hst & Hsh & Hreq); [|done].
        unfold tx_view in Hst. rewrite Hdb1 in Hst. unfold replay. intros [= <- <-].
        case_bool_decide; subst.
        { eapply co_replayed; [done..| |]; [by rewrite Hdb2|]. unfold tx_ok. by rewrite Hdb2. }
        { by eapply co_conflict. }
      * intros [= <- <-]. apply query_transfer_Err in Hq2 as [Hfor|[-> Hq2]];
          [by apply co_failure| |by intros; eapply select_by_key_decodes].
        eapply query_select in Hq2 as [Hnone _]; [|by intros; simpl].
        rewrite Hdb1 in Hnone. rewrite <-Hnone in Htaken. by destruct Htaken.
    + intros r Hr. apply query_insert in Hr as (_ & _ & _ & _ & Hu & _); [|done..]. by rewrite Hu.
Qed.

Lemma set_balances_lookup l (m : gmap string s_account) id :
  foldr (λ iz m, alter (s_with_balance iz.2) iz.1 m) m l !! id =
  match (list_to_map l : gmap string Z) !! id with
  | Some z => s_with_balance z <$> m !! id
  | None => m !! id
  end.
Proof.
  induction l as [|[i z] l IH]; simpl; [done|].
  destruct (decide (i = id)) as [->|Hne].
  - rewrite lookup_alter_eq, lookup_insert_eq, IH.
    destruct (list_to_map l !! id), (m !! id); done.
  - by rewrite lookup_alter_ne, lookup_insert_ne, IH.
Qed.

Lemma bank_of_update e vs d :
  bank_of (with_accounts
    (map_imap (λ id r, Some (match (list_to_map vs : gmap string Z) !! id with
                             | Some z => update_row e z r | None => r end)) (accounts d)) d)
  = set_balances vs (bank_of d).
Proof.
  unfold bank_of, set_balances. simpl. f_equal. apply map_eq. intros id.
  rewrite set_balances_lookup, !lookup_fmap, map_lookup_imap.
  by destruct (accounts d !! id), (_ !! id).
Qed.

Lemma pg_save l t t' :
  tx_ok t → NoDup (Account.ID <$> l) → Forall (λ a, is_int64 (Account.Balance a)) l →
  pg_SaveBalances l t = (Ok tt, t') →
  tx_ok t' ∧ tx_view t' = set_balances ((λ a, (Account.ID a, Account.Balance a)) <$> l) (tx_view t).
Proof.
  intros Hok _ H64. unfold pg_SaveBalances. intros (n & t1 & Hq & Hn)%tx_bind_Ok.
  apply map_err_Ok, query_ok in Hq as (e & Hs). simpl in Hs.
  case_match; [by apply fail_Ok in Hn|]. apply mret_Ok in Hn as [_ <-].
  apply update_balances_Ok in Hs as (_ & Hpos & Hd). unfold tx_ok, tx_view. rewrite Hd.
  split; [|apply bank_of_update]. destruct Hok as [Hb Hk Hi Hp]. split; simpl; try done.
  intros id r. rewrite map_lookup_imap. destruct (accounts (tx_db t) !! id) as [r0|] eqn:Hr0; [|done].
  simpl. intros [= <-]. destruct (list_to_map _ !! id) as [z|] eqn:Hz; [|by apply (Hb _ _ Hr0)]. simpl.
  split; [by apply (Hpos id z Hz); rewrite Hr0|]. apply elem_of_list_to_map_2, list_elem_of_fmap in Hz as (a & ? & Ha).
  simplify_eq. rewrite Forall_forall in H64. specialize (H64 a Ha). int64_lia.
Qed.

Lemma ledger_rows_entries e es rows :
  Forall (λ en, ∃ u, LedgerEntry.TransferID en = uuid_out u) es →
  ledger_rows e ((λ en, (LedgerEntry.TransferID en, LedgerEntry.AccountID en,
                         LedgerEntry.Amount en, LedgerEntry.BalanceAfter en)) <$> es) = Some rows →
  entry_of_row <$> rows = es.
Proof.
  unfold ledger_rows. intros Hes. revert rows.
  induction Hes as [|en es [u Hu] _ IH]; intros rows; simpl; [by intros [= <-]|].
  rewrite Hu, uuid_in_out. simpl.
  intros (rows' & Hrows & [= <-])%bind_Some. simpl.
  f_equal; [|by apply IH]. unfold entry_of_row. simpl. destruct en; simpl in *; congruence.
Qed.

Lemma pg_append es t t' :
  tx_ok t →
  Forall (λ e, ∃ uk st, b_transfers (tx_view t) !! uk = Some st ∧ s_id st = LedgerEntry.TransferID e) es →
  pg_Append es t = (Ok tt, t') → tx_ok t' ∧ tx_view t' = add_entries es (tx_view t).
Proof.
  intros Hok Hes. unfold pg_Append. intros (e & Hs)%map_err_Ok%query_ok. simpl in Hs.
  apply insert_ledger_Ok in Hs as (rows & Hrows & _ & _ & Hd).
  unfold tx_ok, tx_view. rewrite Hd. split; [by destruct Hok|].
  unfold bank_of, add_entries. simpl. f_equal. rewrite fmap_app. f_equal.
  eapply ledger_rows_entries, Hrows. eapply Forall_impl; [exact Hes|].
  intros en (uk & st & Hst & <-). simpl in Hst.
  apply elem_of_list_to_map_2, list_elem_of_fmap in Hst as (r & ? & _). simplify_eq. by eexists.
Qed.

#[global] Instance pg_promises : TxPromises key_of tx_ok tx_view.
Proof.
  split.
  - apply pg_lock.
  - intros n t tr c t' Hok Hz Hc. apply pg_create_outcome in Hc; [|done..].
    remember (Ok (tr, c)) as res eqn:Hres. destruct Hc as [| k ? st ? ? ? ? Hdb| | |]; simplify_eq.
    + eauto 10.
    + split; [done|]. exists k. split; [done|]. exists st. unfold tx_view. by rewrite Hdb.
  - intros n t e t' Hok Hz Hc Hconf. apply pg_create_outcome in Hc; [|done..].
    inversion Hc as [| | |? ? ? Hno|? ? Hfor]; subst; eauto; [congruence|].
    rewrite Is_Errorf, Hfor in Hconf. done.
  - apply pg_save.
  - apply pg_append.
Qed.

End correct.

(** ** The store *)

Section store.
Context `{!Platform} {S T : Type} `{!Pgx S T}.
Context (pool_db : S → db) (tx_db : T → db) `{!Pgx_documented pool_db tx_db}.

Definition store_ok (s : S) : Prop := db_ok (pool_db s).
Definition store_view (s : S) : bank uuid := bank_of (pool_db s).

#[global] Instance store_promises : TxManagerPromises store_ok store_view (tx_ok tx_db) (tx_view tx_db).
Proof.
  split; unfold store_ok, store_view, tx_ok, tx_view.
  - intros A fn s a s' Hs (t & t' & Ht & Hfn & Hs')%begin_ok.
    exists t, t'. rewrite Ht, Hs'. auto.
  - intros A fn s e s' Hs [[Hs' _]|(_ & t & t' & a & Ht & Hfn & Hs')]%begin_err.
    + left. by rewrite Hs'.
    + right. exists t, t', a. rewrite Ht, Hs'. auto.
Qed.

End store.
