(* ===== verification/Programs.v ===== *)
(** * Transactions as programs

    The function [Create] passes to [WithinTx], as a tree of the statements it
    sends: [Ask q k] sends [q] and goes on with [k] of the answer.  Run against
    any driver, the tree does what [create_tx] over the pgx repositories does, so
    the file on concurrent transactions may interleave the statements of several
    requests without a second account of the code. *)
From S2P Require Import Prelude GoStrings GoErrors Entities Json Database BankSpec Contracts TransferService Repository.

Section programs.
Context `{!Platform}.

Inductive prog (A : Type) : Type :=
| Ret (res : result A)
| Ask {B : Type} (q : stmt B) (k : result B → prog A).
Arguments Ret {A} res.
Arguments Ask {A B} q k.

(** Run a program against a driver. *)
Fixpoint denote {T A} `{!querier T} (p : prog A) : tx T A := λ t,
  match p with
  | Ret res => (res, t)
  | Ask q k => let '(a, t') := query q t in denote (k a) t'
  end.

(** ** The program of a create request *)

Implicit Types (u key : string) (r : CreateTransfer.t) (h : gmap string Account.t).

Definition answer := (Transfer.t * bool)%type.

(** [Append], then return. *)
Definition ledger_prog r (tr : Transfer.t) (source destination : Account.t) : prog answer :=
  Ask (InsertLedger ((λ e, (LedgerEntry.TransferID e, LedgerEntry.AccountID e,
                            LedgerEntry.Amount e, LedgerEntry.BalanceAfter e))
                       <$> ledger_pair (Transfer.ID tr) r source destination))
    (λ a, match a with
          | Ok _ => Ret (Ok (tr, true))
          | Err err => Ret (Err (Errorf "append ledger entries: %w" err))
          end).

(** [SaveBalances], then the ledger. *)
Definition update_prog r (tr : Transfer.t) (source destination : Account.t) : prog answer :=
  Ask (UpdateBalances [ (Account.ID source, Account.Balance source);
                        (Account.ID destination, Account.Balance destination) ])
    (λ a, match a with
          | Ok n =>
            if negb (n =? 2) then Ret (Err (New "save balances: updated %d of %d accounts"))
            else ledger_prog r tr source destination
          | Err err => Ret (Err (Errorf "save balances: %w" err))
          end).

(** What follows [CreateIdempotent]. *)
Definition after_create r h (tr : Transfer.t) (created : bool) : prog answer :=
  if negb created || (Transfer.Status tr != TransferStatus.Completed) then Ret (Ok (tr, created))
  else
    match h !! CreateTransfer.FromAccountID r, h !! CreateTransfer.ToAccountID r with
    | Some source, Some destination => update_prog r tr source destination
    | _, _ => Ret (Err nil_dereference)
    end.

Definition scan_answer (a : result (option transfer_row)) : result (Transfer.t * CreateTransfer.t) :=
  match a with Ok row => scanTransfer row | Err err => Err err end.

(** The lookup of an existing key. *)
Definition select_prog u (k : uuid) r h : prog answer :=
  Ask (SelectByKey u k)
    (λ a, match scan_answer a with
          | Err err => Ret (Err (Errorf "find existing transfer: %w" err))
          | Ok (tr, original) =>
            match replay tr original r with
            | Err err => Ret (Err err)
            | Ok (tr, created) => after_create r h tr created
            end
          end).

(** The insert of the draft. *)
Definition insert_prog u (k : uuid) r status reason h (key : string) : prog answer :=
  Ask (InsertTransfer (insert_args_of (NewTransfer.mk u key r status reason) k))
    (λ a, match scan_answer a with
          | Ok (tr, _) => after_create r h tr true
          | Err err =>
            if negb (Is err ErrNoRows) then Ret (Err (Errorf "insert transfer: %w" err))
            else select_prog u k r h
          end).

(** What follows the locks. *)
Definition after_lock u key r (rows : list (string * account_row)) : prog answer :=
  match check_accounts u r (index_accounts (scanAccount <$> rows)) with
  | Err err => Ret (Err err)
  | Ok (status, reason, h) =>
    match parseKey key with
    | Err err => Ret (Err err)
    | Ok k => insert_prog u k r status reason h key
    end
  end.

(** The rows [LockForTransfer] asks for. *)
Definition lock_ids r : list string :=
  Compact (Sort [CreateTransfer.FromAccountID r; CreateTransfer.ToAccountID r]).

Definition create_prog u key r : prog answer :=
  Ask (SelectForUpdate (lock_ids r))
    (λ a, match a with
          | Ok rows => after_lock u key r rows
          | Err err => Ret (Err (Errorf "lock accounts: %w" err))
          end).

(** ** The program is the code *)

Context {T : Type} `{!querier T}.

Lemma denote_ledger r tr source destination (t : T) :
  denote (ledger_prog r tr source destination) t =
  (Append (ledger_pair (Transfer.ID tr) r source destination) ≫= λ _, mret (tr, true)) t.
Proof.
  unfold mbind, tx_bind. simpl. unfold pg_Append, map_err. simpl.
  by destruct (query _ t) as [[[]|err] t'].
Qed.

Lemma denote_update r tr source destination (t : T) :
  denote (update_prog r tr source destination) t =
  (SaveBalances [source; destination] ≫= λ _,
     Append (ledger_pair (Transfer.ID tr) r source destination) ≫= λ _, mret (tr, true)) t.
Proof.
  unfold update_prog. simpl denote. unfold mbind at 1, tx_bind. simpl SaveBalances.
  unfold pg_SaveBalances, mbind at 1, tx_bind, map_err. simpl fmap.
  destruct (query _ t) as [[n|err] t']; [|done].
  change (Z.of_nat (length [source; destination])) with 2. destruct (n =? 2); simpl negb; cbv iota.
  - apply denote_ledger.
  - done.
Qed.

(** The code after [CreateIdempotent]. *)
Definition rest r h (res : Transfer.t * bool) : tx T answer :=
  let '(result, created) := res in
  if negb created || (Transfer.Status result != TransferStatus.Completed) then
    mret (result, created)
  else
    match h !! CreateTransfer.FromAccountID r, h !! CreateTransfer.ToAccountID r with
    | Some source, Some destination =>
      _ ← SaveBalances [source; destination];
      _ ← Append (ledger_pair (Transfer.ID result) r source destination);
      mret (result, created)
    | _, _ => fail nil_dereference
    end.

Lemma denote_after_create r h tr created (t : T) :
  denote (after_create r h tr created) t = rest r h (tr, created) t.
Proof.
  unfold after_create, rest. destruct created; [|done]. simpl.
  case_bool_decide; [|done]. simpl. destruct (h !! _); [|done]. destruct (h !! _); [|done].
  apply denote_update.
Qed.

(** The lookup, as [CreateIdempotent] does it. *)
Definition lookup_key u k r : tx T answer := λ t,
  match query_transfer (SelectByKey u k) t with
  | (Err err, t') => (Err (Errorf "find existing transfer: %w" err), t')
  | (Ok (transfer, original), t') => (replay transfer original r, t')
  end.

Lemma denote_select u k r h (t : T) :
  denote (select_prog u k r h) t = (lookup_key u k r ≫= rest r h) t.
Proof.
  unfold select_prog, lookup_key, query_transfer, lift, mbind, tx_bind. simpl.
  destruct (query _ t) as [[row|err] t']; simpl; [|done].
  destruct (scanTransfer row) as [[tr o]|err]; [|done].
  destruct (replay tr o r) as [[tr' c]|err]; [apply denote_after_create|done].
Qed.

Lemma CreateIdempotent_alt u k key r status reason (t : T) :
  parseKey key = Ok k →
  CreateIdempotent (NewTransfer.mk u key r status reason) t =
  let '(a, t1) := query (InsertTransfer (insert_args_of (NewTransfer.mk u key r status reason) k)) t in
  match scan_answer a with
  | Ok (transfer, _) => (Ok (transfer, true), t1)
  | Err err =>
    if negb (Is err ErrNoRows) then (Err (Errorf "insert transfer: %w" err), t1)
    else lookup_key u k r t1
  end.
Proof.
  intros Hk. simpl. unfold pg_CreateIdempotent. simpl. rewrite Hk.
  unfold query_transfer at 1, lift, mbind, tx_bind. by destruct (query _ t) as [[row|err] t1].
Qed.

Lemma denote_insert u k key r status reason h (t : T) :
  parseKey key = Ok k →
  denote (insert_prog u k r status reason h key) t =
  (CreateIdempotent (NewTransfer.mk u key r status reason) ≫= rest r h) t.
Proof.
  intros Hk. unfold insert_prog. simpl denote. unfold mbind, tx_bind.
  rewrite (CreateIdempotent_alt u k) by done. destruct (query _ t) as [a t1].
  destruct (scan_answer a) as [[tr o]|err]; [apply denote_after_create|].
  destruct (Is err ErrNoRows); [|done]. apply denote_select.
Qed.

(** The program of [Create], run against any driver, is the function [Create] runs. *)
Lemma denote_create u key r (t : T) : denote (create_prog u key r) t = create_tx u key r t.
Proof.
  unfold create_prog, create_tx. simpl denote. unfold mbind at 1, tx_bind. simpl LockForTransfer.
  unfold pg_LockForTransfer, mbind at 1, tx_bind, map_err. fold (lock_ids r).
  destruct (query _ t) as [[rows|err] t1]; [|done].
  unfold mret, tx_ret, after_lock, mbind at 1, tx_bind, lift.
  destruct (check_accounts _ _ _) as [[[status reason] h]|err]; [|done].
  destruct (parseKey key) as [k|err] eqn:Hk.
  - rewrite denote_insert by done. done.
  - unfold mbind, tx_bind. simpl. unfold pg_CreateIdempotent. simpl. by rewrite Hk.
Qed.

End programs.

Arguments Ret {_ _} res.
Arguments Ask {_ _ _} q k.
