(* ===== verification/Locking.v ===== *)
(** * Concurrent transactions

    Several create requests at once, each a transaction at READ COMMITTED, as
    [Store.WithinTx] opens it.  A transaction is the program of [Create], the row
    locks it holds, with the version of each row it locked, and the writes that
    are not yet committed.  A statement sees the committed database with the
    transaction's own writes.  [SELECT ... FOR UPDATE ... ORDER BY id] takes its
    locks one row at a time, in the order of the ids; a row held by another
    transaction is waited for, and so is a uniqueness conflict with a row that
    another transaction has inserted and not committed.  Locks are kept until the
    transaction ends.  The locks that foreign keys and updates take on account
    rows are requested as well; here they fall on rows the transaction holds. *)
From S2P Require Import Prelude GoStrings GoErrors Entities Json Database BankSpec Contracts TransferService Repository Programs.

Section locking.
Context `{!Platform}.

(** ** Transactions *)

(** A request past the checks of [Create], with what its transaction draws from
    the server. *)
Record job := mk_job {
  j_user : string;
  j_key : string;
  j_request : CreateTransfer.t;
  j_env : env }.

Record admitted (j : job) : Prop := {
  admitted_user : TrimSpace (j_user j) ≠ "";
  admitted_request : CreateTransfer.Validate (j_request j) = Ok tt;
  admitted_amount : is_int64 (CreateTransfer.Amount (j_request j)) }.

(** Uncommitted writes: new versions of account rows, and new rows. *)
Record writes := mk_writes {
  w_accounts : gmap string account_row;
  w_transfers : list transfer_row;
  w_ledger : list ledger_row }.

Definition no_writes : writes := mk_writes ∅ [] [].

Definition install (w : writes) (d : db) : db :=
  mk_db (w_accounts w ∪ accounts d) (transfers d ++ w_transfers w)
    (ledger_entries d ++ w_ledger w) (users d).

(** The writes that turn [d] into [v], on the rows of [locks] and the new rows. *)
Definition diff (locks : gmap string account_row) (d v : db) : writes :=
  mk_writes (filter (λ kv, is_Some (locks !! kv.1)) (accounts v))
    (drop (length (transfers d)) (transfers v))
    (drop (length (ledger_entries d)) (ledger_entries v)).

Record txn := mk_txn {
  x_job : job;
  x_prog : prog answer;
  x_locks : gmap string account_row;
  x_writes : writes }.

Definition start (j : job) : txn :=
  mk_txn j (create_prog (j_user j) (j_key j) (j_request j)) ∅ no_writes.

(** What the transaction sees. *)
Definition view (d : db) (x : txn) : db := install (x_writes x) d.

(** ** Statements under locks *)

Definition held (others : list txn) (id : string) : bool :=
  existsb (λ y, bool_decide (is_Some (x_locks y !! id))) others.

(** The next row a [SELECT ... FOR UPDATE] has to lock. *)
Definition next_lock {B} (q : stmt B) (v : db) (locks : gmap string account_row) :
    option (string * account_row) :=
  match q with
  | SelectForUpdate ids =>
    if texts_ok ids then
      head (filter (λ kv, locks !! kv.1 = None) (select_accounts (λ id _, bool_decide (id ∈ ids)) v))
    else None
  | _ => None
  end.

(** The account rows a statement locks: those it updates, and those its foreign
    keys refer to. *)
Definition row_ids {B} (q : stmt B) (v : db) : list string :=
  match q with
  | UpdateBalances vs => matched vs v
  | InsertTransfer a => [i_from a; i_to a]
  | InsertLedger vs => map (λ '(_, acc, _, _), acc) vs
  | _ => []
  end.

(** A uniqueness conflict with a row that is not committed. *)
Definition conflicts {B} (q : stmt B) (e : env) (y : txn) : bool :=
  match q with
  | InsertTransfer a =>
    existsb (λ r, same_key (i_user_id a) (i_key a) r || bool_decide (t_id r = gen_random_uuid e))
      (w_transfers (x_writes y))
  | _ => false
  end.

Definition blocked {B} (others : list txn) (q : stmt B) (v : db) (e : env) : bool :=
  existsb (held others) (row_ids q v) || existsb (conflicts q e) others.

(** The rows a statement adds to the locks of its transaction. *)
Definition claim {B} (q : stmt B) (v : db) : gmap string account_row :=
  match q with
  | UpdateBalances vs => filter (λ kv, kv.1 ∈ matched vs v) (accounts v)
  | _ => ∅
  end.

(** The answer of a statement that need not wait: a locking read returns the
    versions that were locked. *)
Definition execute {B} (e : env) (q : stmt B) (locks : gmap string account_row) (v : db) :
    result B * db :=
  match q in stmt B return result B * db → result B * db with
  | SelectForUpdate ids => λ _,
    select ids (select_accounts (λ id _, bool_decide (id ∈ ids)) (with_accounts locks v)) v
  | _ => λ r, r
  end (sql e q v).

(** One step of a transaction beside the [others]; [None] when it has to wait, or
    has nothing left to send. *)
Definition advance (d : db) (others : list txn) (x : txn) : option txn :=
  match x_prog x with
  | Ret _ => None
  | Ask q k =>
    let v := view d x in
    match next_lock q v (x_locks x) with
    | Some (id, row) =>
      if held others id then None
      else Some (mk_txn (x_job x) (x_prog x) (<[id := row]> (x_locks x)) (x_writes x))
    | None =>
      if blocked others q v (j_env (x_job x)) then None
      else
        let locks := x_locks x ∪ claim q v in
        let '(a, v') := execute (j_env (x_job x)) q (x_locks x) v in
        Some (mk_txn (x_job x) (k a) locks (diff locks d v'))
    end
  end.

(** ** Executions *)

Record cstate := mk_cstate {
  committed : db;
  active : gmap nat txn }.

Definition others (n : nat) (s : cstate) : list txn := (map_to_list (delete n (active s))).*2.

(** The response of a program that has come to an error. *)
Definition failure (x : txn) : option (job * result answer) :=
  match x_prog x with
  | Ret (Err e) => Some (x_job x, Err e)
  | _ => None
  end.

(** The steps of the server.  A label is the response decided by the step: an
    answer is decided by its commit, an error by the statement that led to it.
    A transaction may be lost at any point, with its writes. *)
Inductive cstep (s : cstate) : option (job * result answer) → cstate → Prop :=
| cs_begin n j :
    active s !! n = None → admitted j →
    cstep s None (mk_cstate (committed s) (<[n := start j]> (active s)))
| cs_advance n x x' :
    active s !! n = Some x → advance (committed s) (others n s) x = Some x' →
    cstep s (failure x') (mk_cstate (committed s) (<[n := x']> (active s)))
| cs_commit n x a :
    active s !! n = Some x → x_prog x = Ret (Ok a) →
    cstep s (Some (x_job x, Ok a))
      (mk_cstate (install (x_writes x) (committed s)) (delete n (active s)))
| cs_rollback n x e :
    active s !! n = Some x → x_prog x = Ret (Err e) →
    cstep s None (mk_cstate (committed s) (delete n (active s)))
| cs_lost n x :
    active s !! n = Some x →
    cstep s None (mk_cstate (committed s) (delete n (active s))).

(** The steps a transaction takes by itself, as a function: [n] moves if it can. *)
Definition tick (n : nat) (s : cstate) : option (option (job * result answer) * cstate) :=
  match active s !! n with
  | None => None
  | Some x =>
    match x_prog x with
    | Ret (Ok a) =>
      Some (Some (x_job x, Ok a),
            mk_cstate (install (x_writes x) (committed s)) (delete n (active s)))
    | Ret (Err _) => Some (None, mk_cstate (committed s) (delete n (active s)))
    | Ask _ _ =>
      match advance (committed s) (others n s) x with
      | Some x' => Some (failure x', mk_cstate (committed s) (<[n := x']> (active s)))
      | None => None
      end
    end
  end.

(** A schedule says who moves next; [None] if one of them cannot. *)
Fixpoint schedule (ns : list nat) (s : cstate) : option (list (job * result answer) * cstate) :=
  match ns with
  | [] => Some ([], s)
  | n :: ns' =>
    match tick n s with
    | None => None
    | Some (l, s1) =>
      match schedule ns' s1 with
      | None => None
      | Some (h, s2) => Some (option_list l ++ h, s2)
      end
    end
  end.

(** The executions from a database without transactions, with the responses in
    the order in which they were decided. *)
Inductive execution (d : db) : list (job * result answer) → cstate → Prop :=
| ex_start : execution d [] (mk_cstate d ∅)
| ex_step h s l s' :
    execution d h s → cstep s l s' → execution d (h ++ option_list l) s'.

(** ** The serial reference *)

(** A driver without faults: each statement has its SQL meaning. *)
Definition server (e : env) : querier db := {| query := λ A q d, sql e q d |}.

(** One request alone: its response, and the database after it. *)
Definition serial (j : job) (d : db) : result answer * db :=
  match @create_tx db (@txRepositories _ db (server (j_env j))) (j_user j) (j_key j) (j_request j) d with
  | (Ok a, d') => (Ok a, d')
  | (Err e, _) => (Err e, d)
  end.

(** Requests one after the other. *)
Fixpoint serial_all (js : list job) (d : db) : list (result answer) * db :=
  match js with
  | [] => ([], d)
  | j :: js' =>
    let '(res, d1) := serial j d in
    let '(ress, d2) := serial_all js' d1 in (res :: ress, d2)
  end.

End locking.

Arguments job {_}.
Arguments writes {_}.
Arguments txn {_}.
Arguments cstate {_}.
