(* ===== verification/LockingLocal.v ===== *)
(** * What statements depend on under locks

    Facts used for concurrent transactions: writes and their installation, the
    rows and the order of the locks, and the part of each statement's answer that
    only depends on what its transaction has locked or written. *)
From S2P Require Import Prelude GoStrings GoErrors Entities Json Database BankSpec Contracts TransferService Repository RepositoryCorrect Programs Locking.

Section local.
Context `{!Platform} `{!PlatformLaws}.
Implicit Types (d v : db) (L : gmap string account_row) (j : job) (x y : txn) (s : cstate).

(** ** Installed writes *)

Lemma install_locked L d : L ⊆ accounts d → install (mk_writes L [] []) d = d.
Proof.
  intros HL. unfold install. simpl. rewrite !app_nil_r, (map_subseteq_union _ _ HL). by destruct d.
Qed.

Lemma install_no_writes d : install no_writes d = d.
Proof. apply install_locked, map_empty_subseteq. Qed.

(** The writes are recovered from the database they lead to. *)
Lemma diff_install L w d :
  (∀ id, is_Some (w_accounts w !! id) ↔ is_Some (L !! id)) → diff L d (install w d) = w.
Proof.
  intros HL. unfold diff, install. simpl. rewrite !drop_app_length. destruct w as [wa wt wl]. simpl in *.
  f_equal. apply map_eq. intros id. apply option_eq. intros r.
  rewrite map_lookup_filter_Some, lookup_union_Some_raw. simpl. rewrite <-HL.
  destruct (wa !! id) as [r'|] eqn:E; [naive_solver|]. split; [|done]. intros [_ [? ?]]. done.
Qed.

(** ** Locked rows *)

Definition lock_rows j d : list (string * account_row) :=
  select_accounts (λ id _, bool_decide (id ∈ lock_ids (j_request j))) d.

Lemma elem_of_lock_rows j d id r :
  (id, r) ∈ lock_rows j d ↔ accounts d !! id = Some r ∧ id ∈ lock_ids (j_request j).
Proof. unfold lock_rows. by rewrite elem_of_select, bool_decide_eq_true. Qed.

Lemma elem_of_lock_keys j d id :
  id ∈ (lock_rows j d).*1 ↔ is_Some (accounts d !! id) ∧ id ∈ lock_ids (j_request j).
Proof.
  rewrite list_elem_of_fmap. split.
  - intros ([i r] & -> & [? ?]%elem_of_lock_rows). by split.
  - intros [[r Hr] Hid]. exists (id, r). by rewrite elem_of_lock_rows.
Qed.

#[global] Instance id_le_trans {A} : Transitive (@id_le _ A).
Proof. intros x y z. unfold id_le. apply (transitivity (R:=collate)). Qed.

#[global] Instance id_le_total {A} : Total (@id_le _ A).
Proof. intros x y. unfold id_le. apply (base.total collate). Qed.

Lemma select_sorted p d : Sorted id_le (select_accounts p d).
Proof. apply (Sorted_merge_sort id_le). Qed.

(** A select is determined by the rows it returns. *)
Lemma select_eq p d p' d' :
  (∀ id r, accounts d !! id = Some r ∧ p id r = true ↔ accounts d' !! id = Some r ∧ p' id r = true) →
  select_accounts p d = select_accounts p' d'.
Proof.
  intros Heq.
  assert (∀ kv, kv ∈ select_accounts p d ↔ kv ∈ select_accounts p' d') as Hin.
  { intros [id r]. by rewrite !elem_of_select, Heq. }
  apply (Sorted_unique_strong id_le); [|apply select_sorted..|].
  - intros [i1 r1] [i2 r2] H1 H2%Hin H12 H21. simpl in *.
    assert (i1 = i2) as -> by by apply (anti_symm collate).
    f_equal. apply elem_of_select in H1 as [H1 _], H2 as [H2 _]. congruence.
  - apply NoDup_Permutation; [eapply NoDup_fmap_1, NoDup_select..|done].
Qed.

Lemma lock_keys_sorted j d : Sorted collate (lock_rows j d).*1.
Proof. apply (Sorted_fmap fst id_le collate); [done|apply select_sorted]. Qed.

(** The order of the locks is that of the ids present, whatever their versions. *)
Lemma lock_keys_eq j d d' :
  (∀ id, is_Some (accounts d !! id) ↔ is_Some (accounts d' !! id)) →
  (lock_rows j d).*1 = (lock_rows j d').*1.
Proof.
  intros Hdom. apply (Sorted_unique collate); [apply lock_keys_sorted..|].
  apply NoDup_Permutation; [apply NoDup_select..|]. intros id.
  by rewrite !elem_of_lock_keys, Hdom.
Qed.

(** The first [n] rows are locked, at their committed versions. *)
Definition locked_upto (n : nat) j d L : Prop :=
  L ⊆ accounts d ∧ ∀ id, is_Some (L !! id) ↔ id ∈ take n (lock_rows j d).*1.

Definition locked_all j d L : Prop := locked_upto (length (lock_rows j d)) j d L.

Lemma locked_all_iff j d L :
  locked_all j d L ↔ L ⊆ accounts d ∧ ∀ id, is_Some (L !! id) ↔ id ∈ (lock_rows j d).*1.
Proof. unfold locked_all, locked_upto. by rewrite take_ge by by rewrite length_fmap. Qed.

(** A locking read that holds all its rows answers what a plain read would. *)
Lemma locked_select j d L v :
  locked_all j d L → accounts v = accounts d →
  select_accounts (λ id _, bool_decide (id ∈ lock_ids (j_request j))) (with_accounts L v) = lock_rows j d.
Proof.
  intros [HL Hall]%locked_all_iff Hv. apply select_eq. intros id r. simpl. rewrite bool_decide_eq_true.
  split; intros [Hr Hid]; (split; [|done]).
  - by eapply lookup_weaken.
  - destruct (L !! id) as [r'|] eqn:E; [by rewrite (lookup_weaken _ _ _ _ E HL) in Hr|].
    exfalso. apply (is_Some_None (A:=account_row)). rewrite <-E. apply Hall, elem_of_lock_keys. by rewrite Hr.
Qed.

(** ** Statements on locked rows *)

(** The writes alone, as a database. *)
Definition only (w : writes) : db := mk_db (w_accounts w) (w_transfers w) (w_ledger w) ∅.

Lemma matched_all vs v :
  (∀ id, id ∈ vs.*1 → is_Some (accounts v !! id)) → matched vs v = remove_dups vs.*1.
Proof.
  intros Hall. apply filter_all, Forall_forall. intros id Hid. apply Hall. by apply elem_of_remove_dups.
Qed.

(** An update of rows that the transaction has written or locked depends on them only. *)
Lemma update_local e vs w d :
  (∀ id, id ∈ vs.*1 → is_Some (w_accounts w !! id)) →
  update_balances e vs (install w d) =
  let '(res, v) := update_balances e vs (only w) in
  (res, install (mk_writes (accounts v) (w_transfers w) (w_ledger w)) d).
Proof.
  intros Hall.
  assert (matched vs (install w d) = matched vs (only w)) as Hm.
  { rewrite !matched_all; [done|auto|]. intros id Hid. simpl. apply lookup_union_is_Some. auto. }
  unfold update_balances. rewrite Hm.
  destruct (negb _); [by destruct w|]. destruct (existsb _ _); [by destruct w|].
  f_equal. unfold with_accounts, install. simpl. f_equal. apply map_eq. intros id.
  rewrite lookup_union, !map_lookup_imap, lookup_union.
  destruct (w_accounts w !! id) as [r|] eqn:Hw; simpl.
  - by rewrite !union_Some_l.
  - rewrite !(left_id_L None (∪)). destruct (accounts d !! id) as [r|]; simpl; [|done].
    destruct (list_to_map vs !! id) as [z|] eqn:Hz; [|done].
    apply elem_of_list_to_map_2 in Hz. exfalso. apply (is_Some_None (A:=account_row)). rewrite <-Hw.
    apply Hall, list_elem_of_fmap. by exists (id, z).
Qed.

(** Ledger rows of an uncommitted transfer on locked accounts depend on the writes only. *)
Lemma ledger_local e vs w d rows :
  ledger_rows e vs = Some rows →
  Forall (λ l, l_transfer_id l ∈ t_id <$> w_transfers w ∧ is_Some (w_accounts w !! l_account_id l)) rows →
  insert_ledger e vs (install w d) =
  let '(res, v) := insert_ledger e vs (only w) in
  (res, install (mk_writes (w_accounts w) (w_transfers w) (ledger_entries v)) d).
Proof.
  intros Hrows Hrefs. unfold insert_ledger. rewrite Hrows.
  assert (∀ v, w_accounts w ⊆ accounts v → (∃ l, transfers v = l ++ w_transfers w) →
            forallb (ledger_refs v) rows = true) as Hv.
  { intros v Ha [l Hl]. apply forallb_forall. intros x Hx%list_elem_of_In.
    rewrite Forall_forall in Hrefs. destruct (Hrefs x Hx) as [(t & Ht & Hin)%list_elem_of_fmap [a Hacc]].
    unfold ledger_refs. rewrite (bool_decide_eq_true_2 (is_Some _)) by (exists a; by eapply lookup_weaken).
    rewrite andb_true_r. apply existsb_exists. exists t. split; [|by apply bool_decide_eq_true].
    rewrite Hl. apply in_or_app. right. by apply list_elem_of_In. }
  rewrite (Hv (install w d) (map_union_subseteq_l _ _) (ex_intro _ (transfers d) eq_refl)).
  rewrite (Hv (only w) (reflexivity _) (ex_intro _ [] eq_refl)).
  destruct (negb _); [by destruct w|]. destruct (negb _); [by destruct w|]. simpl.
  unfold with_ledger, install. simpl. by rewrite app_assoc.
Qed.

(** The part of an insert that does not depend on the database. *)
Definition insertable e (a : insert_args) (row : transfer_row) : Prop :=
  texts_ok [i_user_id a; i_from a; i_to a; i_currency a; i_description a;
            i_status a; i_failure_reason a] = true ∧
  ∃ payload, jsonb_in (i_payload a) = Ok payload ∧ row = new_transfer_row e a payload ∧
    transfers_check row = true.

(** No stored transfer has the row's key or id. *)
Record unused (row : transfer_row) d : Prop := {
  unused_key : find_key (t_user_id row) (t_idempotency_key row) d = None;
  unused_id : Forall (λ r, t_id r ≠ t_id row) (transfers d) }.

Lemma insert_new e a row d :
  insertable e a row → unused row d →
  is_Some (accounts d !! i_from a) → is_Some (accounts d !! i_to a) →
  insert_transfer e a d = (Ok (Some row), with_transfers (transfers d ++ [row]) d).
Proof.
  intros (Ht & payload & Hj & -> & Hc) [Hk Hi] Hf Hto. unfold insert_transfer. simpl in Hk, Hi.
  rewrite Ht, Hj, Hc. simpl. rewrite Hk, bool_decide_eq_true_2 by done.
  destruct (existsb _ _) eqn:E; [|done]. apply existsb_exists in E as (r & Hr%list_elem_of_In & He).
  reflect. rewrite Forall_forall in Hi. by apply Hi in Hr.
Qed.

Lemma insert_taken e a row d r0 :
  insertable e a row → find_key (i_user_id a) (i_key a) d = Some r0 →
  insert_transfer e a d = (Ok None, d).
Proof.
  intros (Ht & payload & Hj & -> & Hc) Hk. unfold insert_transfer. rewrite Ht, Hj, Hc. simpl. by rewrite Hk.
Qed.

Lemma insert_answers e a d o d' :
  insert_transfer e a d = (Ok o, d') →
  ∃ row, insertable e a row ∧
    ((∃ r0, o = None ∧ d' = d ∧ find_key (i_user_id a) (i_key a) d = Some r0) ∨
     (o = Some row ∧ d' = with_transfers (transfers d ++ [row]) d ∧ unused row d)).
Proof.
  intros (payload & Hj & Ht & Hc & Hcase)%insert_transfer_Ok.
  exists (new_transfer_row e a payload). split; [by repeat (esplit; eauto)|].
  destruct Hcase as [(r & ? & ? & ?)|(? & ? & ? & ? & _)]; [left; eauto|right]. by repeat split.
Qed.

End local.
