(* ===== verification/LockingCorrect.v ===== *)
(** * Concurrent transactions are serializable

    The invariant of concurrent executions: where each transaction stands in its
    program, as facts on the committed database that commits of others cannot
    change, and the disjointness of the locks and of the uncommitted rows.  From
    it, every execution gives the responses and the database of the serial
    execution of its requests, in the order in which they were decided. *)
From S2P Require Import Prelude GoStrings GoErrors Entities Json Database BankSpec Contracts TransferService Repository RepositoryCorrect Programs Locking LockingLocal.

(** ** The accounts a decision leaves *)

(** Accounts are stored under their own IDs. *)
Definition ids_ok (h : gmap string Account.t) : Prop := map_Forall (λ id a, Account.ID a = id) h.

Lemma on_ids p m h res h' :
  (∀ a r a', m a = (r, a') → Account.ID a' = Account.ID a) →
  ids_ok h → on p m h = (res, h') → ids_ok h'.
Proof.
  intros Hm Hh. unfold on. destruct (h !! p) as [a|] eqn:E; [|by intros; simplify_eq].
  destruct (m a) as [r a'] eqn:Em. intros [= <- <-].
  apply map_Forall_insert_2; [|done]. rewrite (Hm _ _ _ Em). by apply Hh.
Qed.

Lemma on_present p m h h' : on p m h = (Ok tt, h') → is_Some (h !! p).
Proof. unfold on. by destruct (h !! p). Qed.

Lemma Debit_ID z a r a' : Account.Debit z a = (r, a') → Account.ID a' = Account.ID a.
Proof. unfold Account.Debit. repeat case_match; intros; by simplify_eq. Qed.

Lemma Credit_ID z a r a' : Account.Credit z a = (r, a') → Account.ID a' = Account.ID a.
Proof. unfold Account.Credit. repeat case_match; intros; by simplify_eq. Qed.

Lemma settle_ids r h st rs h' : ids_ok h → settle r h = Ok (st, rs, h') → ids_ok h'.
Proof.
  intros Hh. unfold settle. destruct (on _ _ h) as [[[]|e] h1] eqn:E1.
  - apply on_ids in E1; [|eauto using Debit_ID|done].
    destruct (on _ _ h1) as [[[]|e] h2] eqn:E2; [|done]. apply on_ids in E2; [|eauto using Credit_ID|done].
    naive_solver.
  - apply on_ids in E1; [|eauto using Debit_ID|done]. case_match; naive_solver.
Qed.

(** A decision to go on: both accounts are there, and what it leaves is indexed by ID. *)
Lemma check_accounts_Ok u r h st rs h' :
  ids_ok h → check_accounts u r h = Ok (st, rs, h') →
  is_Some (h !! CreateTransfer.FromAccountID r) ∧ is_Some (h !! CreateTransfer.ToAccountID r) ∧ ids_ok h'.
Proof.
  intros Hh. unfold check_accounts. destruct (h !! CreateTransfer.FromAccountID r) as [s|]; [|done].
  case_match; [done|]. destruct (h !! CreateTransfer.ToAccountID r) as [d|]; [|done].
  case_match; [done|]. intros Hs%settle_ids; eauto.
Qed.

Section correct.
Context `{!Platform} `{!PlatformLaws}.
Implicit Types (d v : db) (L : gmap string account_row) (j : job) (x y : txn) (s : cstate)
  (h : gmap string Account.t).

Lemma index_ids rows : NoDup rows.*1 → ids_ok (index_accounts (scanAccount <$> rows)).
Proof.
  intros Hnd id a. rewrite index_accounts_lookup by done. intros (r & _ & ->)%fmap_Some. done.
Qed.

(** ** Where a transaction stands *)

(** The locked rows let the request go on, with this status, reason and accounts. *)
Record decided j d (k : uuid) st rs h : Prop := {
  dc_texts : texts_ok (lock_ids (j_request j)) = true;
  dc_check : check_accounts (j_user j) (j_request j) (index_accounts (scanAccount <$> lock_rows j d))
             = Ok (st, rs, h);
  dc_key : parseKey (j_key j) = Ok k }.

Definition draft j (k : uuid) st rs : insert_args :=
  insert_args_of (NewTransfer.mk (j_user j) (j_key j) (j_request j) st rs) k.

(** The draft is an acceptable row, not yet stored. *)
Record inserted j d L (k : uuid) st rs h (row : transfer_row) : Prop := {
  in_locks : locked_all j d L;
  in_decided : decided j d k st rs h;
  in_row : insertable (j_env j) (draft j k st rs) row;
  in_unused : unused row d;
  in_decodes : is_ok (Unmarshal (t_original_request row)) = true }.

(** The accounts [SaveBalances] is called with. *)
Definition sides_of j h (src dst : Account.t) : Prop :=
  h !! CreateTransfer.FromAccountID (j_request j) = Some src ∧
  h !! CreateTransfer.ToAccountID (j_request j) = Some dst.

Definition balances_of (src dst : Account.t) : list (string * Z) :=
  [(Account.ID src, Account.Balance src); (Account.ID dst, Account.Balance dst)].

Definition entries_args j (row : transfer_row) (src dst : Account.t) : list (string * string * Z * Z) :=
  (λ e, (LedgerEntry.TransferID e, LedgerEntry.AccountID e, LedgerEntry.Amount e, LedgerEntry.BalanceAfter e))
    <$> ledger_pair (uuid_out (t_id row)) (j_request j) src dst.

(** The points of the program at which a transaction may stand. *)
Inductive phase d : txn → Prop :=
| ph_lock j n L :
    locked_upto n j d L →
    phase d (mk_txn j (create_prog (j_user j) (j_key j) (j_request j)) L no_writes)
| ph_insert j L k st rs h :
    locked_all j d L → decided j d k st rs h →
    phase d (mk_txn j (insert_prog (j_user j) k (j_request j) st rs h (j_key j)) L (mk_writes L [] []))
| ph_select j L k st rs h row row0 :
    locked_all j d L → decided j d k st rs h → insertable (j_env j) (draft j k st rs) row →
    find_key (j_user j) k d = Some row0 →
    phase d (mk_txn j (select_prog (j_user j) k (j_request j) h) L (mk_writes L [] []))
| ph_replayed j L k st rs h row row0 tr :
    locked_all j d L → decided j d k st rs h → insertable (j_env j) (draft j k st rs) row →
    find_key (j_user j) k d = Some row0 → scanTransfer (Some row0) = Ok (tr, j_request j) →
    phase d (mk_txn j (Ret (Ok (tr, false))) L (mk_writes L [] []))
| ph_created j L k st rs h row :
    inserted j d L k st rs h row →
    phase d (mk_txn j (after_create (j_request j) h (transfer_of_row row) true) L (mk_writes L [row] []))
| ph_saved j L k st rs h row src dst U :
    inserted j d L k st rs h row → t_status row = TransferStatus.Completed → sides_of j h src dst →
    update_balances (j_env j) (balances_of src dst) (only (mk_writes L [row] []))
      = (Ok 2, only (mk_writes U [row] [])) →
    phase d (mk_txn j (ledger_prog (j_request j) (transfer_of_row row) src dst) L (mk_writes U [row] []))
| ph_appended j L k st rs h row src dst U ls :
    inserted j d L k st rs h row → t_status row = TransferStatus.Completed → sides_of j h src dst →
    update_balances (j_env j) (balances_of src dst) (only (mk_writes L [row] []))
      = (Ok 2, only (mk_writes U [row] [])) →
    insert_ledger (j_env j) (entries_args j row src dst) (only (mk_writes U [row] []))
      = (Ok tt, only (mk_writes U [row] ls)) →
    phase d (mk_txn j (Ret (Ok (transfer_of_row row, true))) L (mk_writes U [row] ls))
| ph_failed j L w e : L ⊆ accounts d → phase d (mk_txn j (Ret (Err e)) L w).

(** ** Consequences of a decision *)

Lemma decided_locks j d L k st rs h :
  locked_all j d L → decided j d k st rs h →
  is_Some (L !! CreateTransfer.FromAccountID (j_request j)) ∧
  is_Some (L !! CreateTransfer.ToAccountID (j_request j)) ∧ ids_ok h.
Proof.
  intros [HL Hall]%locked_all_iff [_ Hc _].
  apply check_accounts_Ok in Hc as (Hf & Ht & Hids); [|apply index_ids, NoDup_select].
  rewrite index_accounts_lookup, fmap_is_Some in Hf, Ht by apply NoDup_select.
  rewrite !Hall, <-!(elem_of_dom (M:=gmap string) (D:=gset string) (list_to_map (lock_rows j d))) in *.
  rewrite !dom_list_to_map_L, !elem_of_list_to_set in *. done.
Qed.

Lemma sides_locked j d L k st rs h src dst :
  locked_all j d L → decided j d k st rs h → sides_of j h src dst →
  Account.ID src = CreateTransfer.FromAccountID (j_request j) ∧
  Account.ID dst = CreateTransfer.ToAccountID (j_request j) ∧
  ∀ id, id ∈ [Account.ID src; Account.ID dst] → is_Some (L !! id).
Proof.
  intros HL Hd [Hs Ht]. destruct (decided_locks _ _ _ _ _ _ _ HL Hd) as (Hf & Hto & Hids).
  rewrite (Hids _ _ Hs), (Hids _ _ Ht). split; [done|]. split; [done|]. set_solver.
Qed.

Lemma balances_local j d L k st rs h src dst w :
  locked_all j d L → decided j d k st rs h → sides_of j h src dst →
  update_balances (j_env j) (balances_of src dst) (install (mk_writes L w []) d) =
  let '(res, v) := update_balances (j_env j) (balances_of src dst) (only (mk_writes L w [])) in
  (res, install (mk_writes (accounts v) w []) d).
Proof.
  intros HL Hd Hs. apply update_local. simpl. by eapply sides_locked.
Qed.

Lemma updated_dom e vs L w U :
  update_balances e vs (only (mk_writes L w [])) = (Ok 2, only (mk_writes U w [])) →
  ∀ id, is_Some (U !! id) ↔ is_Some (L !! id).
Proof.
  intros (_ & _ & Hd)%update_balances_Ok id. apply (f_equal accounts) in Hd. simpl in Hd. rewrite Hd.
  rewrite map_lookup_imap. destruct (L !! id); simpl; [|done]. by split.
Qed.

Lemma entries_rows j row src dst :
  ∃ z1 z2 z3 z4 : Z, ledger_rows (j_env j) (entries_args j row src dst) =
    Some [ mk_ledger_row (t_id row) (Account.ID src) z1 z2 (now (j_env j));
           mk_ledger_row (t_id row) (Account.ID dst) z3 z4 (now (j_env j)) ].
Proof. unfold ledger_rows, entries_args. simpl. rewrite !uuid_in_out. simpl. by eexists _, _, _, _. Qed.

Lemma entries_local j d L k st rs h row src dst U w :
  locked_all j d L → decided j d k st rs h → sides_of j h src dst →
  (∀ id, is_Some (U !! id) ↔ is_Some (L !! id)) →
  insert_ledger (j_env j) (entries_args j row src dst) (install (mk_writes U [row] w) d) =
  let '(res, v) := insert_ledger (j_env j) (entries_args j row src dst) (only (mk_writes U [row] w)) in
  (res, install (mk_writes U [row] (ledger_entries v)) d).
Proof.
  intros HL Hd Hs HU. destruct (entries_rows j row src dst) as (z1 & z2 & z3 & z4 & Hrows).
  destruct (sides_locked _ _ _ _ _ _ _ _ _ HL Hd Hs) as (_ & _ & Hin).
  apply (ledger_local _ _ (mk_writes U [row] w) _ _ Hrows).
  repeat constructor; simpl; rewrite ?HU; try (apply Hin); set_solver.
Qed.

(** ** The rest of a program gives the serial outcome *)

Definition run (e : env) {A} (p : prog A) (v : db) : result A * db := @denote _ db A (server e) p v.

Definition run_create j d : result answer * db :=
  run (j_env j) (create_prog (j_user j) (j_key j) (j_request j)) d.

Lemma serial_run j d :
  serial j d = match run_create j d with (Ok a, d') => (Ok a, d') | (Err e, _) => (Err e, d) end.
Proof. unfold serial, run_create, run. by rewrite (denote_create (T:=db)). Qed.

Lemma run_locked j d k st rs h :
  decided j d k st rs h →
  run_create j d = run (j_env j) (insert_prog (j_user j) k (j_request j) st rs h (j_key j)) d.
Proof.
  intros [Ht Hc Hk]. unfold run_create, create_prog, run. simpl denote at 1. unfold select. rewrite Ht.
  fold (lock_rows j d). unfold after_lock. by rewrite Hc, Hk.
Qed.

Lemma run_taken j d k st rs h row row0 :
  insertable (j_env j) (draft j k st rs) row → find_key (j_user j) k d = Some row0 →
  run (j_env j) (insert_prog (j_user j) k (j_request j) st rs h (j_key j)) d =
  run (j_env j) (select_prog (j_user j) k (j_request j) h) d.
Proof.
  intros Hi Hk. unfold insert_prog, run. simpl denote at 1. fold (draft j k st rs).
  by rewrite (insert_taken _ _ row _ row0 Hi Hk).
Qed.

Lemma run_select j e k d L h row0 tr :
  texts_ok [j_user j] = true → find_key (j_user j) k d = Some row0 →
  scanTransfer (Some row0) = Ok (tr, j_request j) →
  run e (select_prog (j_user j) k (j_request j) h) d = (Ok (tr, false), d).
Proof.
  intros Ht Hk Hs. unfold select_prog, run. simpl denote. unfold select. rewrite Ht, Hk.
  simpl scan_answer. simpl in Hs. rewrite Hs. unfold replay. by rewrite bool_decide_eq_true_2.
Qed.

Lemma insertable_user e j k st rs row :
  insertable e (draft j k st rs) row → texts_ok [j_user j] = true.
Proof. intros [Ht _]. unfold texts_ok in *. simpl in *. reflect. by rewrite H1. Qed.

Lemma run_inserted j d L k st rs h row :
  inserted j d L k st rs h row →
  run (j_env j) (insert_prog (j_user j) k (j_request j) st rs h (j_key j)) d =
  run (j_env j) (after_create (j_request j) h (transfer_of_row row) true) (install (mk_writes L [row] []) d).
Proof.
  intros [HL Hd Hr Hu Ho]. unfold insert_prog, run. simpl denote at 1. fold (draft j k st rs).
  destruct (decided_locks _ _ _ _ _ _ _ HL Hd) as (Hf & Ht & _). apply locked_all_iff in HL as [HL _].
  rewrite (insert_new _ _ row) by (try done; simpl; eapply lookup_weaken_is_Some; eauto).
  simpl scan_answer. unfold is_ok in Ho. destruct (Unmarshal _); [|done].
  f_equal. unfold install, with_transfers. simpl. by rewrite app_nil_r, (map_subseteq_union _ _ HL).
Qed.

Lemma run_saved j d L k st rs h row src dst U :
  inserted j d L k st rs h row → t_status row = TransferStatus.Completed → sides_of j h src dst →
  update_balances (j_env j) (balances_of src dst) (only (mk_writes L [row] []))
    = (Ok 2, only (mk_writes U [row] [])) →
  run (j_env j) (after_create (j_request j) h (transfer_of_row row) true) (install (mk_writes L [row] []) d) =
  run (j_env j) (ledger_prog (j_request j) (transfer_of_row row) src dst) (install (mk_writes U [row] []) d).
Proof.
  intros [HL Hd _ _ _] Hst Hs Hu. unfold after_create. simpl Transfer.Status. rewrite Hst. simpl negb.
  simpl orb. cbv iota. destruct Hs as [Hf Ht] eqn:HS. rewrite Hf, Ht. unfold update_prog, run. simpl denote at 1.
  fold (balances_of src dst). by rewrite (balances_local _ _ _ _ _ _ _ _ _ _ HL Hd (conj Hf Ht)), Hu.
Qed.

Lemma run_appended j d L k st rs h row src dst U ls :
  inserted j d L k st rs h row → sides_of j h src dst →
  (∀ id, is_Some (U !! id) ↔ is_Some (L !! id)) →
  insert_ledger (j_env j) (entries_args j row src dst) (only (mk_writes U [row] []))
    = (Ok tt, only (mk_writes U [row] ls)) →
  run (j_env j) (ledger_prog (j_request j) (transfer_of_row row) src dst) (install (mk_writes U [row] []) d) =
  (Ok (transfer_of_row row, true), install (mk_writes U [row] ls) d).
Proof.
  intros [HL Hd _ _ _] Hs HU Hi. unfold ledger_prog, run. simpl denote.
  change (insert_ledger _ _ _) with
    (insert_ledger (j_env j) (entries_args j row src dst) (install (mk_writes U [row] []) d)).
  by rewrite (entries_local _ _ _ _ _ _ _ _ _ _ _ _ HL Hd Hs HU), Hi.
Qed.

Lemma phase_run d x :
  phase d x → (∀ e, x_prog x ≠ Ret (Err e)) →
  run (j_env (x_job x)) (x_prog x) (view d x) = run_create (x_job x) d.
Proof.
  destruct 1 as [j n L HL|j L k st rs h HL Hd|j L k st rs h row row0 HL Hd Hi Hk
    |j L k st rs h row row0 tr HL Hd Hi Hk Hs|j L k st rs h row Hin|j L k st rs h row src dst U Hin Hst Hs Hu
    |j L k st rs h row src dst U ls Hin Hst Hs Hu Hl|]; intros Hne; simpl; unfold view; simpl.
  - by rewrite install_no_writes.
  - apply locked_all_iff in HL as [HL _]. by rewrite install_locked, (run_locked _ _ _ _ _ _ Hd) by done.
  - apply locked_all_iff in HL as [HL _]. rewrite install_locked, (run_locked _ _ _ _ _ _ Hd) by done.
    by rewrite (run_taken _ _ _ _ _ _ _ _ Hi Hk).
  - apply locked_all_iff in HL as [HL _]. rewrite install_locked, (run_locked _ _ _ _ _ _ Hd) by done.
    rewrite (run_taken _ _ _ _ _ _ _ _ Hi Hk).
    by rewrite (run_select _ _ _ _ L _ _ _ (insertable_user _ _ _ _ _ _ Hi) Hk Hs).
  - rewrite (run_locked _ _ _ _ _ _ (in_decided _ _ _ _ _ _ _ _ Hin)). by rewrite (run_inserted _ _ _ _ _ _ _ _ Hin).
  - rewrite (run_locked _ _ _ _ _ _ (in_decided _ _ _ _ _ _ _ _ Hin)), (run_inserted _ _ _ _ _ _ _ _ Hin).
    by rewrite (run_saved _ _ _ _ _ _ _ _ _ _ _ Hin Hst Hs Hu).
  - rewrite (run_locked _ _ _ _ _ _ (in_decided _ _ _ _ _ _ _ _ Hin)), (run_inserted _ _ _ _ _ _ _ _ Hin).
    rewrite (run_saved _ _ _ _ _ _ _ _ _ _ _ Hin Hst Hs Hu).
    by rewrite (run_appended _ _ _ _ _ _ _ _ _ _ _ _ Hin Hs (updated_dom _ _ _ _ _ Hu) Hl).
  - by destruct (Hne e).
Qed.

(** ** Steps of a transaction *)

(** The rows still to lock are those after the first [n]. *)
Lemma unlocked_rows n j d L :
  locked_upto n j d L → filter (λ kv, L !! kv.1 = None) (lock_rows j d) = drop n (lock_rows j d).
Proof.
  intros [_ HL]. pose proof (NoDup_select (λ id _, bool_decide (id ∈ lock_ids (j_request j))) d) as Hnd.
  fold (lock_rows j d) in Hnd. revert HL Hnd. generalize (lock_rows j d) as l. intros l HL Hnd.
  rewrite <-(take_drop n l) at 1. rewrite <-(take_drop n l), fmap_app in Hnd.
  apply NoDup_app in Hnd as (_ & Hdis & _). rewrite <-fmap_take in HL.
  rewrite filter_app, (filter_none _ (take n l)), filter_all; [done|..].
  - apply Forall_forall. intros kv Hkv. apply eq_None_not_Some. rewrite HL. intros Hin.
    apply (Hdis _ Hin). by apply list_elem_of_fmap_2.
  - apply Forall_forall. intros kv Hkv Hn. apply (is_Some_None (A:=account_row)). rewrite <-Hn.
    apply HL. by apply list_elem_of_fmap_2.
Qed.

Lemma next_lock_upto n j d L :
  texts_ok (lock_ids (j_request j)) = true → locked_upto n j d L →
  next_lock (SelectForUpdate (lock_ids (j_request j))) d L = lock_rows j d !! n.
Proof.
  intros Ht HL. unfold next_lock. rewrite Ht. fold (lock_rows j d). rewrite (unlocked_rows n) by done.
  rewrite head_lookup, lookup_drop. f_equal. lia.
Qed.

Lemma lock_more n j d L id row :
  lock_rows j d !! n = Some (id, row) → locked_upto n j d L → locked_upto (S n) j d (<[id := row]> L).
Proof.
  intros Hn [HL Hin]. pose proof (list_elem_of_lookup_2 _ _ _ Hn) as [Hacc _]%elem_of_lock_rows.
  split; [by apply insert_subseteq_l|]. intros i.
  rewrite (take_S_r _ _ id) by (by rewrite list_lookup_fmap, Hn).
  rewrite elem_of_app, list_elem_of_singleton, <-Hin, lookup_insert_is_Some'.
  by rewrite (comm or), (symmetry_iff (=) i).
Qed.

Lemma locked_upto_all n j d L :
  lock_rows j d !! n = None → locked_upto n j d L → locked_all j d L.
Proof.
  intros Hn%lookup_ge_None HL. apply locked_all_iff. unfold locked_upto in HL.
  by rewrite take_ge in HL by by rewrite length_fmap.
Qed.

Lemma advance_Ask {B} d os j (q : stmt B) k L w x' :
  next_lock q (install w d) L = None →
  advance d os (mk_txn j (Ask q k) L w) = Some x' →
  blocked os q (install w d) (j_env j) = false ∧
  ∃ a v', execute (j_env j) q L (install w d) = (a, v') ∧
    x' = mk_txn j (k a) (L ∪ claim q (install w d)) (diff (L ∪ claim q (install w d)) d v').
Proof.
  intros Hn. unfold advance, view. simpl. rewrite Hn. destruct (blocked _ _ _ _); [done|].
  destruct (execute _ _ _ _) as [a v'] eqn:E. intros [= <-]. eauto 10.
Qed.

(** After a statement that changes nothing. *)
Lemma diff_same L d : L ⊆ accounts d → diff L d d = mk_writes L [] [].
Proof.
  intros HL. rewrite <-(install_locked L d HL) at 2. by apply diff_install.
Qed.

Lemma advance_lock d os n j L x' :
  locked_upto n j d L →
  advance d os (mk_txn j (create_prog (j_user j) (j_key j) (j_request j)) L no_writes) = Some x' →
  phase d x'.
Proof.
  intros HL Ha. destruct (texts_ok (lock_ids (j_request j))) eqn:Ht.
  - pose proof (next_lock_upto _ _ _ _ Ht HL) as Hn.
    destruct (lock_rows j d !! n) as [[id row]|] eqn:Hrow.
    + unfold advance, view in Ha. simpl x_prog in Ha. unfold create_prog at 1 in Ha. simpl x_locks in Ha.
      simpl x_writes in Ha. rewrite install_no_writes, Hn in Ha. case_match; [done|].
      injection Ha as <-. by eapply ph_lock, lock_more.
    + apply (locked_upto_all _ _ _ _ Hrow) in HL. pose proof HL as [HLd _]%locked_all_iff.
      apply advance_Ask in Ha as (_ & a & v' & He & ->); rewrite install_no_writes in *; [|done].
      simpl in *. rewrite (locked_select j d) in He by done. unfold select in He. rewrite Ht in He.
      injection He as <- <-. rewrite (right_id_L ∅ (∪)), diff_same by done. unfold after_lock.
      destruct (check_accounts _ _ _) as [[[st rs] h]|] eqn:Hc; [|by apply ph_failed].
      destruct (parseKey _) eqn:Hk; [by apply ph_insert|by apply ph_failed].
  - apply advance_Ask in Ha as (_ & a & v' & He & ->); [|simpl; by rewrite Ht].
    simpl in He. unfold select in He. rewrite Ht in He. injection He as <- <-.
    apply ph_failed. simpl. rewrite (right_id_L ∅ (∪)). by destruct HL.
Qed.

Lemma advance_insert d os j L k st rs h x' :
  locked_all j d L → decided j d k st rs h →
  advance d os (mk_txn j (insert_prog (j_user j) k (j_request j) st rs h (j_key j)) L (mk_writes L [] []))
    = Some x' →
  phase d x'.
Proof.
  intros HL Hd Ha. pose proof HL as [HLd _]%locked_all_iff.
  apply advance_Ask in Ha as (_ & a & v' & He & ->); [|done]. rewrite install_locked in * by done.
  simpl in He. fold (draft j k st rs) in He. simpl claim. rewrite (right_id_L ∅ (∪)).
  destruct a as [o|err].
  - apply insert_answers in He as (row & Hrow & [(r0 & -> & -> & Hk)|(-> & -> & Hu)]); simpl.
    + rewrite diff_same by done. by eapply ph_select.
    + destruct (Unmarshal (t_original_request row)) as [o|err] eqn:Ho.
      * replace (with_transfers _ d) with (install (mk_writes L [row] []) d).
        2: { unfold install, with_transfers. simpl. by rewrite app_nil_r, (map_subseteq_union _ _ HLd). }
        rewrite diff_install by done. eapply ph_created. split; [done..|]. by rewrite Ho.
      * apply Unmarshal_Err in Ho as ->. simpl. by apply ph_failed.
  - assert (foreign err) as Hf by (eapply (sql_foreign _ (InsertTransfer _)), He).
    simpl. rewrite Hf. simpl. by apply ph_failed.
Qed.

Lemma advance_select d os j L k st rs h row row0 x' :
  locked_all j d L → decided j d k st rs h → insertable (j_env j) (draft j k st rs) row →
  find_key (j_user j) k d = Some row0 →
  advance d os (mk_txn j (select_prog (j_user j) k (j_request j) h) L (mk_writes L [] [])) = Some x' →
  phase d x'.
Proof.
  intros HL Hd Hi Hk Ha. pose proof HL as [HLd _]%locked_all_iff.
  apply advance_Ask in Ha as (_ & a & v' & He & ->); [|done]. rewrite install_locked in * by done.
  simpl in He. unfold select in He. rewrite (insertable_user _ _ _ _ _ _ Hi), Hk in He.
  injection He as <- <-. simpl claim. rewrite (right_id_L ∅ (∪)), diff_same by done.
  simpl scan_answer. destruct (Unmarshal (t_original_request row0)) as [o|err] eqn:Ho; [|by apply ph_failed].
  unfold replay. case_bool_decide; [|by apply ph_failed]. subst.
  eapply ph_replayed; [done..|]. simpl. by rewrite Ho.
Qed.

Lemma advance_created d os j L k st rs h row x' :
  inserted j d L k st rs h row →
  advance d os (mk_txn j (after_create (j_request j) h (transfer_of_row row) true) L (mk_writes L [row] []))
    = Some x' →
  phase d x'.
Proof.
  intros Hin. destruct Hin as [HL Hd Hi Hu Ho] eqn:Hin'. clear Hin'. unfold after_create. simpl.
  pose proof HL as [HLd _]%locked_all_iff.
  case_bool_decide as Hst; [|done]. simpl.
  destruct (h !! CreateTransfer.FromAccountID (j_request j)) as [src|] eqn:Hsrc; [|done].
  destruct (h !! CreateTransfer.ToAccountID (j_request j)) as [dst|] eqn:Hdst; [|done].
  pose proof (conj Hsrc Hdst : sides_of j h src dst) as Hs. intros Ha.
  apply advance_Ask in Ha as (_ & a & v' & He & ->); [|done]. simpl in He.
  fold (balances_of src dst) in *. rewrite (balances_local _ _ _ _ _ _ _ _ _ _ HL Hd Hs) in He.
  replace (L ∪ claim _ _) with L.
  2: { symmetry. apply map_eq. intros id. rewrite lookup_union. simpl. destruct (L !! id) eqn:E; [by rewrite union_Some_l|].
       rewrite (left_id_L None (∪)). apply map_lookup_filter_None. right. intros r Hr Hm. simpl in Hm.
       apply list_elem_of_filter in Hm as [_ Hm]. rewrite elem_of_remove_dups in Hm.
       destruct (sides_locked _ _ _ _ _ _ _ _ _ HL Hd Hs) as (_ & _ & Hall). specialize (Hall _ Hm). rewrite E in Hall. by destruct Hall. }
  destruct (update_balances _ _ (only _)) as [res v] eqn:Hup. injection He as <- <-.
  destruct res as [n|err]; [|by apply ph_failed]. case_match eqn:Hn; [by apply ph_failed|]. reflect. subst n.
  pose proof Hup as (_ & _ & Hv)%update_balances_Ok.
  assert (v = only (mk_writes (accounts v) [row] [])) as Hv' by by rewrite Hv.
  rewrite Hv' in Hup. rewrite diff_install by by eapply updated_dom. by eapply ph_saved.
Qed.

Lemma advance_saved d os j L k st rs h row src dst U x' :
  inserted j d L k st rs h row → t_status row = TransferStatus.Completed → sides_of j h src dst →
  update_balances (j_env j) (balances_of src dst) (only (mk_writes L [row] []))
    = (Ok 2, only (mk_writes U [row] [])) →
  advance d os (mk_txn j (ledger_prog (j_request j) (transfer_of_row row) src dst) L (mk_writes U [row] []))
    = Some x' →
  phase d x'.
Proof.
  intros Hin Hst Hs Hup Ha. destruct Hin as [HL Hd Hi Hu Ho] eqn:Hin'. clear Hin'.
  pose proof HL as [HLd _]%locked_all_iff.
  pose proof (updated_dom _ _ _ _ _ Hup) as HU.
  apply advance_Ask in Ha as (_ & a & v' & He & ->); [|done]. simpl in He.
  change (insert_ledger _ _ _) with
    (insert_ledger (j_env j) (entries_args j row src dst) (install (mk_writes U [row] []) d)) in He.
  rewrite (entries_local _ _ _ _ _ _ _ _ _ _ _ _ HL Hd Hs HU) in He. simpl claim. rewrite (right_id_L ∅ (∪)).
  destruct (insert_ledger _ _ (only _)) as [res v] eqn:Hl. injection He as <- <-.
  destruct res as [[]|err]; [|by apply ph_failed].
  pose proof Hl as (rows & _ & _ & _ & Hv)%insert_ledger_Ok.
  assert (v = only (mk_writes U [row] (ledger_entries v))) as Hv' by by rewrite Hv.
  rewrite Hv' in Hl. rewrite diff_install by done. by eapply ph_appended.
Qed.

Lemma phase_advance d os x x' : phase d x → advance d os x = Some x' → phase d x'.
Proof.
  destruct 1; intros Ha; eauto using advance_lock, advance_insert, advance_select,
    advance_created, advance_saved; done.
Qed.

End correct.
