(* ===== verification/Serializability.v ===== *)
(** * Every concurrent execution is a serial one

    The invariant of concurrent executions, its preservation by every step, and
    serializability: the responses decided so far and the committed database are
    those of the serial execution of the same requests, in the same order. *)
From S2P Require Import Prelude GoStrings GoErrors Entities Json Database BankSpec Contracts TransferService Repository RepositoryCorrect Programs Locking LockingLocal LockingCorrect.

Section serializability.
Context `{!Platform} `{!PlatformLaws}.
Implicit Types (d v : db) (L : gmap string account_row) (j : job) (x y : txn) (s : cstate)
  (h : gmap string Account.t) (w : writes).

(** ** A statement that leads to an error gives the serial error *)

Lemma execute_sql d x :
  phase d x →
  match x_prog x with
  | Ret _ => True
  | Ask q k =>
    next_lock q (view d x) (x_locks x) = None →
    execute (j_env (x_job x)) q (x_locks x) (view d x) = sql (j_env (x_job x)) q (view d x)
  end.
Proof.
  destruct 1 as [j n L HL| | | |j L k st rs h row|j L k st rs h row src dst U| |]; try done.
  - unfold view. cbn [x_prog x_writes x_locks x_job create_prog]. rewrite install_no_writes. intros Hn. simpl.
    destruct (texts_ok (lock_ids (j_request j))) eqn:Ht; [|unfold select; by rewrite Ht].
    rewrite (next_lock_upto n) in Hn by done. apply (locked_upto_all n) in HL; [|done].
    by rewrite (locked_select j d).
  - simpl. unfold after_create. destruct (negb true || _); [done|].
    destruct (h !! CreateTransfer.FromAccountID _); [|done].
    by destruct (h !! CreateTransfer.ToAccountID _).
Qed.

Lemma failure_serial d os x x' e :
  phase d x → advance d os x = Some x' → x_prog x' = Ret (Err e) →
  serial (x_job x) d = (Err e, d).
Proof.
  intros Hph Ha He. rewrite serial_run. pose proof (execute_sql d x Hph) as Hex.
  pose proof (phase_run d x Hph) as Hrun. unfold advance in Ha.
  destruct (x_prog x) as [res|B q k] eqn:Hp; [done|].
  rewrite <-Hrun by done. unfold run. simpl.
  destruct (next_lock _ _ _) as [[id row]|] eqn:Hn.
  - destruct (held os id); [done|]. injection Ha as <-. simpl in He. congruence.
  - destruct (blocked _ _ _ _); [done|]. rewrite Hex in Ha by done.
    destruct (sql _ q _) as [a v']. injection Ha as <-. simpl in He. by rewrite He.
Qed.

(** ** Commits of others *)

(** The writes [w] leave alone what [y] has locked and inserted. *)
Record apart w d y : Prop := {
  ap_locks id : is_Some (w_accounts w !! id) → x_locks y !! id = None;
  ap_rows id : is_Some (w_accounts w !! id) → is_Some (accounts d !! id);
  ap_transfers r1 r2 : r1 ∈ w_transfers w → r2 ∈ w_transfers (x_writes y) →
    key_of_row r1 ≠ key_of_row r2 ∧ t_id r1 ≠ t_id r2 }.

Lemma install_dom w d :
  (∀ id, is_Some (w_accounts w !! id) → is_Some (accounts d !! id)) →
  ∀ id, is_Some (accounts d !! id) ↔ is_Some (accounts (install w d) !! id).
Proof. intros Hw id. simpl. rewrite lookup_union_is_Some. naive_solver. Qed.

Lemma install_lookup w d id :
  w_accounts w !! id = None → accounts (install w d) !! id = accounts d !! id.
Proof. intros Hw. simpl. by rewrite lookup_union_r. Qed.

Section commit.
Context (w : writes) (d : db) (y : txn) (Hap : apart w d y).

Lemma locks_stable : x_locks y ⊆ accounts d → x_locks y ⊆ accounts (install w d).
Proof.
  intros HL. apply map_subseteq_spec. intros id r Hr. rewrite install_lookup; [by eapply lookup_weaken|].
  apply eq_None_not_Some. intros Hw. apply (ap_locks _ _ _ Hap) in Hw. congruence.
Qed.

Lemma locked_stable n j :
  locked_upto n j d (x_locks y) → locked_upto n j (install w d) (x_locks y).
Proof.
  intros [HL Hin]. split; [by apply locks_stable|].
  intros id. rewrite Hin. by rewrite (lock_keys_eq j d _ (install_dom w d (ap_rows _ _ _ Hap))).
Qed.

Lemma locked_all_stable j :
  locked_all j d (x_locks y) → locked_all j (install w d) (x_locks y).
Proof.
  intros HL%locked_stable. revert HL. unfold locked_all.
  by rewrite <-!(length_fmap fst), (lock_keys_eq j d _ (install_dom w d (ap_rows _ _ _ Hap))).
Qed.

Lemma lock_rows_stable j :
  locked_all j d (x_locks y) → lock_rows j (install w d) = lock_rows j d.
Proof.
  intros [HL Hall]%locked_all_iff. apply select_eq. intros id r. rewrite bool_decide_eq_true.
  assert (id ∈ lock_ids (j_request j) → is_Some (accounts d !! id) →
          accounts (install w d) !! id = accounts d !! id) as Heq.
  { intros Hid Hacc. apply install_lookup, eq_None_not_Some. intros Hw%(ap_locks _ _ _ Hap).
    assert (is_Some (x_locks y !! id)) as [? ?] by by apply Hall, elem_of_lock_keys. congruence. }
  pose proof (install_dom w d (ap_rows _ _ _ Hap) id) as Hdom.
  split; intros [Hr Hid]; (split; [|done]).
  - rewrite <-Heq; [done|done|]. apply Hdom. by rewrite Hr.
  - rewrite Heq; [done|done|]. by rewrite Hr.
Qed.

Lemma decided_stable j k st rs h :
  locked_all j d (x_locks y) → decided j d k st rs h → decided j (install w d) k st rs h.
Proof. intros HL [Ht Hc Hk]. split; [done| |done]. by rewrite lock_rows_stable. Qed.

Lemma find_key_stable u k row : find_key u k d = Some row → find_key u k (install w d) = Some row.
Proof.
  clear. unfold find_key. simpl. induction (transfers d) as [|r l IH]; simpl; [done|]. by destruct (same_key u k r).
Qed.

Lemma unused_stable row : row ∈ w_transfers (x_writes y) → unused row d → unused row (install w d).
Proof.
  intros Hrow [Hk Hi]. split.
  - unfold find_key in *. simpl. destruct (find _ (transfers d ++ _)) as [r|] eqn:E; [|done].
    apply find_some in E as [[Hin|Hin]%in_app_or Hs].
    + pose proof (find_none _ _ Hk r Hin). congruence.
    + apply list_elem_of_In in Hin. destruct (ap_transfers _ _ _ Hap _ _ Hin Hrow) as [Hne _].
      unfold same_key in Hs. reflect. by destruct Hne; unfold key_of_row; f_equal.
  - simpl. apply Forall_app. split; [done|]. apply Forall_forall. intros r Hr.
    by apply (ap_transfers _ _ _ Hap).
Qed.

Lemma inserted_stable j k st rs h row :
  row ∈ w_transfers (x_writes y) → inserted j d (x_locks y) k st rs h row →
  inserted j (install w d) (x_locks y) k st rs h row.
Proof.
  intros Hrow []. split; eauto using locked_all_stable, decided_stable, unused_stable.
Qed.

End commit.

Lemma phase_commit w d y : apart w d y → phase d y → phase (install w d) y.
Proof.
  intros Hap Hph. destruct Hph as [j n L HL|j L k st rs h HL Hd|j L k st rs h row row0 HL Hd Hi Hk
    |j L k st rs h row row0 tr HL Hd Hi Hk Hs|j L k st rs h row Hin|j L k st rs h row src dst U Hin Hst Hs Hu
    |j L k st rs h row src dst U ls Hin Hst Hs Hu Hl|].
  - by eapply ph_lock, (locked_stable _ _ _ Hap).
  - eapply ph_insert; [by apply (locked_all_stable _ _ _ Hap)|by apply (decided_stable _ _ _ Hap)].
  - eapply ph_select; [by apply (locked_all_stable _ _ _ Hap)|by apply (decided_stable _ _ _ Hap)|done|by apply find_key_stable].
  - eapply ph_replayed; [by apply (locked_all_stable _ _ _ Hap)|by apply (decided_stable _ _ _ Hap)|done|by apply find_key_stable|done].
  - eapply ph_created, (inserted_stable _ _ _ Hap); [by apply list_elem_of_here|done].
  - eapply ph_saved; [|done..]. apply (inserted_stable _ _ _ Hap); [by apply list_elem_of_here|done].
  - eapply ph_appended; [|done..]. apply (inserted_stable _ _ _ Hap); [by apply list_elem_of_here|done].
  - by apply ph_failed, (locks_stable _ _ _ Hap).
Qed.


(** ** The invariant *)

Record inv s : Prop := {
  inv_phase : map_Forall (λ _ x, phase (committed s) x) (active s);
  inv_admitted : map_Forall (λ _ x, admitted (x_job x)) (active s);
  (** A row is locked by one transaction at most. *)
  inv_locks n m x y id : n ≠ m → active s !! n = Some x → active s !! m = Some y →
    is_Some (x_locks x !! id) → x_locks y !! id = None;
  (** Uncommitted transfers have different keys and ids. *)
  inv_rows n m x y r1 r2 : n ≠ m → active s !! n = Some x → active s !! m = Some y →
    r1 ∈ w_transfers (x_writes x) → r2 ∈ w_transfers (x_writes y) →
    key_of_row r1 ≠ key_of_row r2 ∧ t_id r1 ≠ t_id r2 }.

Lemma elem_of_others n s y : y ∈ others n s ↔ ∃ m, m ≠ n ∧ active s !! m = Some y.
Proof.
  unfold others. rewrite list_elem_of_fmap. split.
  - intros ([m y'] & -> & Hm%elem_of_map_to_list). apply lookup_delete_Some in Hm as [? ?]. eauto.
  - intros (m & Hm & Hy). exists (m, y). split; [done|]. apply elem_of_map_to_list.
    by rewrite lookup_delete_ne by done.
Qed.

Lemma held_false os id y : held os id = false → y ∈ os → x_locks y !! id = None.
Proof.
  intros Hh Hy. apply eq_None_not_Some. intros Hid. apply not_true_iff_false in Hh. apply Hh.
  apply existsb_exists. exists y. split; [by apply list_elem_of_In|]. by apply bool_decide_eq_true.
Qed.

Lemma held_true os id : held os id = true → ∃ y, y ∈ os ∧ is_Some (x_locks y !! id).
Proof.
  intros (y & Hy & Hid)%existsb_exists. exists y. reflect. by rewrite list_elem_of_In.
Qed.

(** The locks a step takes are held by nobody else. *)
Lemma advance_locks d os x x' id y :
  advance d os x = Some x' → y ∈ os → is_Some (x_locks x' !! id) →
  is_Some (x_locks x !! id) ∨ x_locks y !! id = None.
Proof.
  unfold advance. intros Ha Hy Hid. destruct (x_prog x) as [|B q k]; [done|].
  destruct (next_lock _ _ _) as [[i row]|].
  - destruct (held os i) eqn:Hh; [done|]. injection Ha as <-. simpl in Hid.
    apply lookup_insert_is_Some in Hid as [<-|[_ ?]]; [right; by eapply held_false|by left].
  - destruct (blocked _ _ _ _) eqn:Hb; [done|]. destruct (execute _ _ _ _) as [a v']. injection Ha as <-.
    simpl in Hid. apply lookup_union_is_Some in Hid as [?|[r Hc]]; [by left|right].
    apply orb_false_iff in Hb as [Hb _]. eapply held_false; [|done].
    destruct q; simpl in Hc; rewrite ?lookup_empty in Hc; try done. simpl in Hb.
    apply map_lookup_filter_Some in Hc as [_ Hc]. apply not_true_iff_false. intros Hh.
    apply not_true_iff_false in Hb. apply Hb, existsb_exists. exists id. by rewrite <-list_elem_of_In.
Qed.

(** The transfers after a statement: those before, and perhaps the one it inserts. *)
Lemma execute_transfers {B} e (q : stmt B) L v a v' :
  execute e q L v = (a, v') →
  transfers v' = transfers v ∨
  ∃ row, transfers v' = transfers v ++ [row] ∧
    ∀ y r, r ∈ w_transfers (x_writes y) → conflicts q e y = false →
      key_of_row r ≠ key_of_row row ∧ t_id r ≠ t_id row.
Proof.
  destruct q; simpl; unfold select, update_balances, insert_ledger, insert_transfer; intros He;
    try (left; repeat case_match; by simplify_eq).
  repeat case_match; simplify_eq; auto. right. eexists. split; [done|]. intros y r Hr Hc. simpl.
  apply not_true_iff_false in Hc. split; intros Heq; apply Hc, existsb_exists; exists r;
    (split; [by apply list_elem_of_In|]); apply orb_true_iff; [left|right].
  - unfold key_of_row in Heq. simpl in Heq. injection Heq as <- <-. unfold same_key.
    by rewrite !bool_decide_eq_true_2.
  - by apply bool_decide_eq_true.
Qed.

(** The row a step inserts conflicts with no uncommitted row. *)
Lemma advance_rows d os x x' r1 y r2 :
  advance d os x = Some x' → y ∈ os → r1 ∈ w_transfers (x_writes x') →
  r2 ∈ w_transfers (x_writes y) →
  r1 ∈ w_transfers (x_writes x) ∨ (key_of_row r1 ≠ key_of_row r2 ∧ t_id r1 ≠ t_id r2).
Proof.
  unfold advance. intros Ha Hy H1 H2. destruct (x_prog x) as [|B q k]; [done|].
  destruct (next_lock _ _ _) as [[i row]|].
  { destruct (held os i); [done|]. injection Ha as <-. by left. }
  destruct (blocked _ _ _ _) eqn:Hb; [done|]. destruct (execute _ _ _ _) as [a v'] eqn:He.
  injection Ha as <-. simpl in H1. apply orb_false_iff in Hb as [_ Hb].
  apply execute_transfers in He as [Ht|(row & Ht & Hrow)]; unfold view, install in Ht; simpl in Ht;
    rewrite Ht in H1.
  - rewrite drop_app_length in H1. by left.
  - rewrite <-app_assoc, drop_app_length in H1.
    apply elem_of_app in H1 as [?|Hr1]; [by left|right]. apply list_elem_of_singleton in Hr1 as ->.
    destruct (Hrow y r2 H2) as [Hk Hi]; [|by split; apply not_eq_sym].
    apply not_true_iff_false. intros Hc. apply not_true_iff_false in Hb. apply Hb, existsb_exists.
    exists y. by rewrite <-list_elem_of_In.
Qed.

Lemma advance_job d os x x' : advance d os x = Some x' → x_job x' = x_job x.
Proof. unfold advance. intros Ha. repeat (case_hyp Ha; try done); by simplify_eq. Qed.

(** A transaction that commits has written rows it has locked. *)
Lemma writes_locked d x a :
  phase d x → x_prog x = Ret (Ok a) →
  ∀ id, is_Some (w_accounts (x_writes x) !! id) →
    is_Some (x_locks x !! id) ∧ is_Some (accounts d !! id).
Proof.
  assert (∀ j L id, locked_all j d L → is_Some (L !! id) → is_Some (accounts d !! id)) as Hacc.
  { intros j L id [HL _]%locked_all_iff. intros. by eapply lookup_weaken_is_Some. }
  destruct 1 as [| | | |j L k st rs h row Hin|j L k st rs h row src dst U Hin _ _ Hu
    |j L k st rs h row src dst U ls Hin _ _ Hu _|]; simpl; intros Hp id Hid; try done;
    try rewrite (updated_dom _ _ _ _ _ Hu) in Hid; try destruct Hin; eauto.
Qed.

(** The versions locked are the committed ones. *)
Lemma phase_locks d x : phase d x → x_locks x ⊆ accounts d.
Proof.
  destruct 1 as [j n L [HL _]|j L k st rs h HL|j L k st rs h row row0 HL|j L k st rs h row row0 tr HL
    |j L k st rs h row [HL]|j L k st rs h row src dst U [HL]|j L k st rs h row src dst U ls [HL]|j L w e HL];
    simpl; try apply locked_all_iff in HL as [HL _]; done.
Qed.

(** ** Preservation *)

Lemma inv_start d : inv (mk_cstate d ∅).
Proof. split; simpl; [apply map_Forall_empty..|done|done]. Qed.

Lemma inv_begin s n j :
  inv s → active s !! n = None → admitted j →
  inv (mk_cstate (committed s) (<[n := start j]> (active s))).
Proof.
  intros [Hph Hadm Hl Hr] Hn Hj. split; simpl.
  - apply map_Forall_insert_2; [|done]. apply (ph_lock _ _ 0). split; [apply map_empty_subseteq|].
    intros id. rewrite lookup_empty. simpl. split; [by intros []|by intros ?%elem_of_nil].
  - by apply map_Forall_insert_2.
  - intros m1 m2 x y id Hne [[<- <-]|[? Hx]]%lookup_insert_Some [[<- <-]|[? Hy]]%lookup_insert_Some;
      [done|simpl; rewrite lookup_empty; by intros []|intros _; apply lookup_empty|by apply (Hl m1 m2 x y)].
  - intros m1 m2 x y r1 r2 Hne [[<- <-]|[? Hx]]%lookup_insert_Some [[<- <-]|[? Hy]]%lookup_insert_Some;
      [done|by intros ?%elem_of_nil|by intros _ ?%elem_of_nil|by apply (Hr m1 m2 x y)].
Qed.

Lemma inv_advance s n x x' :
  inv s → active s !! n = Some x → advance (committed s) (others n s) x = Some x' →
  inv (mk_cstate (committed s) (<[n := x']> (active s))).
Proof.
  intros [Hph Hadm Hl Hr] Hn Ha.
  assert (∀ m y, m ≠ n → active s !! m = Some y → y ∈ others n s) as Ho.
  { intros m y ? ?. apply elem_of_others. eauto. }
  assert (∀ m y id, m ≠ n → active s !! m = Some y → is_Some (x_locks x' !! id) → x_locks y !! id = None) as Hl'.
  { intros m y id Hm Hy Hid. destruct (advance_locks _ _ _ _ _ y Ha (Ho _ _ Hm Hy) Hid); [|done].
    by eapply (Hl n m). }
  assert (∀ m y r1 r2, m ≠ n → active s !! m = Some y → r1 ∈ w_transfers (x_writes x') →
            r2 ∈ w_transfers (x_writes y) → key_of_row r1 ≠ key_of_row r2 ∧ t_id r1 ≠ t_id r2) as Hr'.
  { intros m y r1 r2 Hm Hy Hr1 Hr2. destruct (advance_rows _ _ _ _ _ y r2 Ha (Ho _ _ Hm Hy) Hr1 Hr2); [|done].
    by eapply (Hr n m). }
  split; simpl.
  - apply map_Forall_insert_2; [|done]. eapply phase_advance; [|done]. by eapply Hph.
  - apply map_Forall_insert_2; [|done]. rewrite (advance_job _ _ _ _ Ha). by eapply Hadm.
  - intros m1 m2 y1 y2 id Hne [[<- <-]|[? Hy1]]%lookup_insert_Some [[<- <-]|[? Hy2]]%lookup_insert_Some Hid;
      [done|by eapply Hl'| |by eapply (Hl m1 m2)].
    apply eq_None_not_Some. intros Hid'%(Hl' m1 y1); [|done..]. rewrite Hid' in Hid. by destruct Hid.
  - intros m1 m2 y1 y2 r1 r2 Hne [[<- <-]|[? Hy1]]%lookup_insert_Some [[<- <-]|[? Hy2]]%lookup_insert_Some Hr1 Hr2;
      [done|by eapply Hr'| |by eapply (Hr m1 m2)].
    destruct (Hr' m1 y1 r2 r1) as [? ?]; [done..|]. by split; apply not_eq_sym.
Qed.

(** The end of a transaction without its writes. *)
Lemma inv_drop s n : inv s → inv (mk_cstate (committed s) (delete n (active s))).
Proof.
  intros [Hph Hadm Hl Hr]. split; simpl; [by apply map_Forall_delete..| |].
  - intros m1 m2 x y id Hne [_ Hx]%lookup_delete_Some [_ Hy]%lookup_delete_Some. by apply (Hl m1 m2 x y).
  - intros m1 m2 x y r1 r2 Hne [_ Hx]%lookup_delete_Some [_ Hy]%lookup_delete_Some. by apply (Hr m1 m2 x y).
Qed.

Lemma commit_apart s n m x y a :
  inv s → n ≠ m → active s !! n = Some x → x_prog x = Ret (Ok a) → active s !! m = Some y →
  apart (x_writes x) (committed s) y.
Proof.
  intros [Hph Hadm Hl Hr] Hne Hx Hp Hy. pose proof (writes_locked _ _ _ (Hph _ _ Hx) Hp) as Hw. split.
  - intros id Hid. apply (Hl n m x y); [done..|]. by apply Hw.
  - intros id Hid. by apply Hw.
  - intros r1 r2. by apply (Hr n m).
Qed.

Lemma inv_commit s n x a :
  inv s → active s !! n = Some x → x_prog x = Ret (Ok a) →
  inv (mk_cstate (install (x_writes x) (committed s)) (delete n (active s))).
Proof.
  intros Hinv Hx Hp. destruct (inv_drop s n Hinv) as [_ Hadm Hl Hr]. split; simpl; [|done..].
  intros m y [Hne Hy]%lookup_delete_Some. apply phase_commit; [by eapply commit_apart|].
  by eapply (inv_phase _ Hinv).
Qed.

Lemma inv_step s l s' : inv s → cstep s l s' → inv s'.
Proof. intros Hinv []; eauto using inv_begin, inv_advance, inv_commit, inv_drop. Qed.

Lemma inv_execution d hist s : execution d hist s → inv s.
Proof. induction 1; eauto using inv_start, inv_step. Qed.

(** ** Serializability *)

(** What the step decides is what the request alone would give. *)
Lemma step_serial s l s' :
  inv s → cstep s l s' →
  match l with
  | Some (j, res) => serial j (committed s) = (res, committed s')
  | None => committed s' = committed s
  end.
Proof.
  intros Hinv Hs. destruct Hs as [|n x x' Hx Ha|n x a Hx Hp| |]; try done.
  - pose proof (inv_phase _ Hinv _ _ Hx) as Hph. unfold failure.
    destruct (x_prog x') as [[|e]|] eqn:Hp; [done| |done]. rewrite (advance_job _ _ _ _ Ha). simpl.
    by eapply failure_serial.
  - pose proof (inv_phase _ Hinv _ _ Hx) as Hph. simpl in Hph. rewrite serial_run, <-(phase_run _ _ Hph), Hp; [done|].
    by rewrite Hp.
Qed.

Lemma serial_all_snoc js j d :
  serial_all (js ++ [j]) d =
  let '(ress, d1) := serial_all js d in
  let '(res, d2) := serial j d1 in (ress ++ [res], d2).
Proof.
  revert d. induction js as [|j' js IH]; intros d; simpl.
  - by destruct (serial j d).
  - destruct (serial j' d) as [res d1]. rewrite IH. destruct (serial_all js d1) as [ress d2].
    by destruct (serial j d2).
Qed.

Lemma execution_serial d hist s :
  execution d hist s → serial_all hist.*1 d = (hist.*2, committed s).
Proof.
  induction 1 as [|hist s l s' Hex IH Hs]; [done|].
  pose proof (step_serial _ _ _ (inv_execution _ _ _ Hex) Hs) as Hser.
  rewrite !fmap_app. destruct l as [[j res]|]; simpl.
  - by rewrite serial_all_snoc, IH, Hser.
  - by rewrite !app_nil_r, IH, Hser.
Qed.

End serializability.
