(* ===== verification/LockingProgress.v ===== *)
(** * No deadlock

    Account rows are locked in the order of their ids, and a transaction that has
    inserted its transfer waits for nobody: as long as transactions are active,
    one of them can move, and a transaction ends after a bounded number of its own
    steps. *)
From S2P Require Import Prelude GoStrings GoErrors Entities Json Database BankSpec Contracts TransferService Repository RepositoryCorrect Programs Locking LockingLocal LockingCorrect Serializability.

Section progress.
Context `{!Platform} `{!PlatformLaws}.
Implicit Types (d v : db) (L : gmap string account_row) (j : job) (x y : txn) (s : cstate)
  (h : gmap string Account.t) (w : writes).

(** ** Who waits for whom *)

(** The row a locking transaction asks for next. *)
Definition waiting d x : option string :=
  match x_prog x with
  | Ask q _ => fst <$> next_lock q (view d x) (x_locks x)
  | Ret _ => None
  end.

Lemma own_rows s n x ids :
  inv s → active s !! n = Some x → (∀ id, id ∈ ids → is_Some (x_locks x !! id)) →
  existsb (held (others n s)) ids = false.
Proof.
  intros Hinv Hx Hids. apply not_true_iff_false. intros (id & Hid & Hh)%existsb_exists.
  apply held_true in Hh as (y & (m & Hm & Hy)%elem_of_others & Hl).
  rewrite <-list_elem_of_In in Hid. rewrite (inv_locks _ Hinv n m x y) in Hl by eauto. by destruct Hl.
Qed.

Lemma advance_free {B} d os j (q : stmt B) k L w :
  next_lock q (install w d) L = None → blocked os q (install w d) (j_env j) = false →
  is_Some (advance d os (mk_txn j (Ask q k) L w)).
Proof.
  intros Hn Hb. unfold advance, view. simpl. rewrite Hn, Hb. destruct (execute _ _ _ _). by eexists.
Qed.

Lemma no_conflicts {B} (q : stmt B) e os :
  (∀ y, conflicts q e y = false) → existsb (conflicts q e) os = false.
Proof. intros Hq. induction os as [|y os IH]; simpl; [done|]. by rewrite Hq. Qed.

Definition moves n s : Prop := is_Some (tick n s).

Lemma moves_intro n s x :
  active s !! n = Some x →
  match x_prog x with Ret _ => True | Ask _ _ => is_Some (advance (committed s) (others n s) x) end →
  moves n s.
Proof.
  intros Hx Hm. unfold moves, tick. rewrite Hx. destruct (x_prog x) as [[]|]; [by eexists..|].
  destruct Hm as [x' ->]. by eexists.
Qed.

(** A transaction that has inserted its transfer can move. *)
Lemma inserted_moves s n x row :
  inv s → active s !! n = Some x → row ∈ w_transfers (x_writes x) → moves n s.
Proof.
  intros Hinv Hx Hrow. eapply moves_intro; [done|].
  pose proof (inv_phase _ Hinv _ _ Hx) as Hph. simpl in Hph.
  destruct Hph as [| | | |j L k st rs h row' Hin|j L k st rs h row' src dst U Hin Hst Hs Hu| |];
    simpl in *; try by apply elem_of_nil in Hrow.
  3, 4: done.
  - unfold after_create. simpl. case_bool_decide; [|done]. simpl.
    destruct (h !! CreateTransfer.FromAccountID (j_request j)) as [src|] eqn:Hsrc; [|done].
    destruct (h !! CreateTransfer.ToAccountID (j_request j)) as [dst|] eqn:Hdst; [|done].
    apply advance_free; [done|]. unfold blocked. rewrite (own_rows _ _ _ _ Hinv Hx).
    + by apply no_conflicts.
    + intros id Hid. simpl in Hid. apply list_elem_of_filter in Hid as [_ Hid].
      rewrite elem_of_remove_dups in Hid.
      by eapply (sides_locked _ _ _ _ _ _ _ _ _ (in_locks _ _ _ _ _ _ _ _ Hin)
                   (in_decided _ _ _ _ _ _ _ _ Hin) (conj Hsrc Hdst)).
  - apply advance_free; [done|]. unfold blocked. rewrite (own_rows _ _ _ _ Hinv Hx).
    + by apply no_conflicts.
    + by eapply (sides_locked _ _ _ _ _ _ _ _ _ (in_locks _ _ _ _ _ _ _ _ Hin)
                   (in_decided _ _ _ _ _ _ _ _ Hin) Hs).
Qed.

(** A transaction moves, or another does, or it waits for a row that another holds. *)
Lemma waits s n x :
  inv s → active s !! n = Some x →
  (∃ m, moves m s) ∨
  ∃ id m y, waiting (committed s) x = Some id ∧ active s !! m = Some y ∧ is_Some (x_locks y !! id).
Proof.
  intros Hinv Hx. pose proof (inv_phase _ Hinv _ _ Hx) as Hph. simpl in Hph.
  destruct (decide (moves n s)) as [|Hno]; [left; eauto|].
  assert (∀ row, row ∉ w_transfers (x_writes x)) as Hnone
    by (intros row Hrow; by eapply Hno, inserted_moves).
  pose proof (moves_intro n s x Hx) as Hmv.
  destruct Hph as [j i L HL|j L k st rs h HL Hd|j L k st rs h row row0 HL Hd Hi Hk| |j L k st rs h row Hin
    |j L k st rs h row src dst U Hin| |]; simpl in *;
    try (by destruct Hno; apply Hmv); try by destruct (Hnone row); apply list_elem_of_here.
  - unfold waiting, view. simpl x_prog. unfold create_prog at 1. simpl x_locks. simpl x_writes.
    destruct (next_lock (SelectForUpdate (lock_ids (j_request j))) (install no_writes (committed s)) L)
      as [[id row]|] eqn:Hn.
    + destruct (held (others n s) id) eqn:Hh.
      * apply held_true in Hh as (y & (m & _ & Hy)%elem_of_others & Hl). right. simpl. eauto 10.
      * destruct Hno. apply Hmv. unfold advance, view, create_prog. simpl x_prog. simpl x_locks. simpl x_writes.
        cbv beta iota. rewrite Hn, Hh. by eexists.
    + destruct Hno. apply Hmv. apply advance_free; [done|]. by apply no_conflicts.
  - destruct (existsb (conflicts (InsertTransfer (draft j k st rs)) (j_env j)) (others n s)) eqn:Hc.
    + apply existsb_exists in Hc as (y & Hy & Hc). apply list_elem_of_In, elem_of_others in Hy as (m & _ & Hy).
      left. exists m. apply existsb_exists in Hc as (row & Hrow & _).
      eapply inserted_moves; [done..|]. by apply list_elem_of_In.
    + destruct Hno. apply Hmv. apply advance_free; [done|]. unfold blocked. fold (draft j k st rs).
      rewrite Hc, (own_rows _ _ _ _ Hinv Hx); [done|].
      destruct (decided_locks _ _ _ _ _ _ _ HL Hd) as (? & ? & _). simpl. set_solver.
  - destruct Hno. apply Hmv. apply advance_free; [done|]. by apply no_conflicts.
Qed.

(** ** Locks are taken in order *)

Lemma sorted_take (l : list string) n a b :
  Sorted collate l → NoDup l → l !! n = Some b → a ∈ take n l → collate a b ∧ a ≠ b.
Proof.
  intros Hs Hnd Hn Ha. rewrite <-(take_drop n l) in Hs, Hnd.
  assert (b ∈ drop n l) as Hb.
  { apply (list_elem_of_lookup_2 _ 0). by rewrite lookup_drop, Nat.add_0_r. }
  apply NoDup_app in Hnd as (_ & Hdis & _). split; [|intros ->; by apply (Hdis b)].
  apply Sorted_StronglySorted in Hs; [|apply _]. by eapply StronglySorted_app_1_elem_of.
Qed.

(** A transaction that holds a row waits for rows further on only. *)
Lemma waiting_order d x held_id id :
  phase d x → is_Some (x_locks x !! held_id) → waiting d x = Some id →
  collate held_id id ∧ held_id ≠ id.
Proof.
  destruct 1 as [j n L [HL Hin]| | | |j L k st rs h row _| | |]; simpl; intros Hh; try done.
  - unfold waiting, view. cbn [x_prog x_writes x_locks x_job create_prog]. rewrite install_no_writes.
    destruct (texts_ok (lock_ids (j_request j))) eqn:Ht; [|simpl; by rewrite Ht].
    rewrite (next_lock_upto n) by (try done; by split). rewrite <-list_lookup_fmap. intros Hn.
    apply Hin in Hh. eapply sorted_take; [apply lock_keys_sorted|apply NoDup_select|done|done].
  - unfold waiting. simpl. unfold after_create. destruct (negb true || _); [done|].
    destruct (h !! CreateTransfer.FromAccountID _); [|done].
    by destruct (h !! CreateTransfer.ToAccountID _).
Qed.

(** The rows waited for. *)
Definition waited s : gset string :=
  list_to_set (omap (waiting (committed s)) (map_to_list (active s)).*2).

Lemma elem_of_waited s id :
  id ∈ waited s ↔ ∃ n x, active s !! n = Some x ∧ waiting (committed s) x = Some id.
Proof.
  unfold waited. rewrite elem_of_list_to_set, list_elem_of_omap. split.
  - intros (x & ([n x'] & -> & Hx%elem_of_map_to_list)%list_elem_of_fmap & Hw). eauto.
  - intros (n & x & Hx & Hw). exists x. split; [|done]. apply list_elem_of_fmap. exists (n, x).
    split; [done|]. by apply elem_of_map_to_list.
Qed.

(** As long as transactions are active, one of them can move. *)
Lemma someone_moves s : inv s → active s ≠ ∅ → ∃ n, moves n s.
Proof.
  intros Hinv (n0 & x0 & Hx0)%map_choose.
  destruct (waits s n0 x0 Hinv Hx0) as [|(id0 & _ & _ & Hw0 & _)]; [done|].
  destruct (minimal_exists_elem_of (flip collate) (waited s)) as (id & Hid & Hmax).
  { intros He. apply (not_elem_of_empty (C:=gset string) id0). rewrite <-He. apply elem_of_waited. eauto. }
  apply elem_of_waited in Hid as (n & x & Hx & Hw).
  destruct (waits s n x Hinv Hx) as [|(id' & m & y & Hw' & Hy & Hl)]; [done|].
  rewrite Hw in Hw'. injection Hw' as <-.
  destruct (waits s m y Hinv Hy) as [|(id' & _ & _ & Hwy & _)]; [done|]. exfalso.
  destruct (waiting_order _ _ _ _ (inv_phase _ Hinv _ _ Hy) Hl Hwy) as [Hle Hne]. apply Hne.
  apply (anti_symm collate); [done|]. apply Hmax; [|done]. apply elem_of_waited. eauto.
Qed.

(** ** Transactions end *)

(** The number of own steps a transaction may still take before it ends. *)
Definition rank x : nat :=
  match x_prog x with
  | Ret _ => 0
  | Ask q _ =>
    match q with
    | SelectForUpdate ids => 4 + length (filter (λ id, x_locks x !! id = None) ids)
    | InsertTransfer _ => 3
    | UpdateBalances _ => 2
    | _ => 1
    end
  end.

Ltac rank_lia := unfold rank in *; simpl in *; lia.

Lemma rank_after_create j L w r h tr c : (rank (mk_txn j (after_create r h tr c) L w) <= 2)%nat.
Proof.
  unfold after_create. destruct (negb c || _); [rank_lia|].
  destruct (h !! CreateTransfer.FromAccountID r); [|rank_lia].
  destruct (h !! CreateTransfer.ToAccountID r); rank_lia.
Qed.

Lemma rank_after_lock j L w u key r rows : (rank (mk_txn j (after_lock u key r rows) L w) <= 3)%nat.
Proof.
  unfold after_lock. destruct (check_accounts _ _ _) as [[[st rs] h]|]; [|rank_lia].
  destruct (parseKey key); rank_lia.
Qed.

Lemma rank_create j L w u key r : (4 <= rank (mk_txn j (create_prog u key r) L w))%nat.
Proof. rank_lia. Qed.

Lemma rank_select j L w u k r h : rank (mk_txn j (select_prog u k r h) L w) = 1%nat.
Proof. done. Qed.

Lemma filter_insert_lt L id row (ids : list string) :
  id ∈ ids → L !! id = None →
  (length (filter (λ i, <[id:=row]> L !! i = None) ids) < length (filter (λ i, L !! i = None) ids))%nat.
Proof.
  intros Hin Hn. induction ids as [|i ids IH]; [by apply elem_of_nil in Hin|].
  assert (∀ l, (length (filter (λ i, <[id:=row]> L !! i = None) l) <= length (filter (λ i, L !! i = None) l))%nat) as Hle.
  { intros l. clear. induction l as [|i l IH]; [done|]. rewrite !filter_cons.
    destruct (decide (i = id)) as [->|Hne].
    - rewrite lookup_insert_eq. destruct (decide (Some row = None)); [done|]. case_decide; simpl; lia.
    - rewrite lookup_insert_ne by done. case_decide; simpl; lia. }
  destruct (decide (i = id)) as [->|Hne].
  - rewrite filter_cons_False by by rewrite lookup_insert_eq. rewrite filter_cons_True by done.
    specialize (Hle ids). simpl. lia.
  - apply elem_of_cons in Hin as [?|Hin]; [done|]. specialize (IH Hin). rewrite !filter_cons, lookup_insert_ne by done.
    case_decide; simpl; lia.
Qed.

Lemma rank_advance d os x x' : phase d x → advance d os x = Some x' → (rank x' < rank x)%nat.
Proof.
  destruct 1 as [j n L HL|j L k st rs h HL Hd| | |j L k st rs h row Hin|j L k st rs h row src dst U Hin| |];
    intros Ha; try done.
  - destruct (texts_ok (lock_ids (j_request j))) eqn:Ht.
    + pose proof (next_lock_upto _ _ _ _ Ht HL) as Hn. destruct (lock_rows j d !! n) as [[id row]|] eqn:Hrow.
      * unfold advance, view in Ha. simpl x_prog in Ha. unfold create_prog at 1 in Ha. simpl x_locks in Ha.
        simpl x_writes in Ha. rewrite install_no_writes, Hn in Ha. case_match; [done|]. injection Ha as <-.
        unfold rank. simpl.
        assert (¬ is_Some (L !! id)) as Hfree%eq_None_not_Some.
        { intros [_ Hne]%(waiting_order d (mk_txn j (create_prog (j_user j) (j_key j) (j_request j)) L no_writes) _ id).
          - done.
          - by eapply ph_lock.
          - unfold waiting, view. cbn [x_prog x_writes x_locks x_job create_prog]. by rewrite install_no_writes, Hn. }
        pose proof (list_elem_of_lookup_2 _ _ _ Hrow) as [_ Hid]%elem_of_lock_rows.
        pose proof (filter_insert_lt _ _ row _ Hid Hfree). lia.
      * apply advance_Ask in Ha as (_ & a & v' & _ & ->); [|by rewrite install_no_writes].
        eapply Nat.lt_le_trans; [|apply rank_create].
        destruct a as [rows|]; [|rank_lia]. apply Nat.lt_succ_r, rank_after_lock.
    + apply advance_Ask in Ha as (_ & a & v' & _ & ->); [|simpl; by rewrite Ht].
      eapply Nat.lt_le_trans; [|apply rank_create].
      destruct a as [rows|]; [|rank_lia]. apply Nat.lt_succ_r, rank_after_lock.
  - apply advance_Ask in Ha as (_ & a & v' & _ & ->); [|done].
    change (rank (mk_txn j (insert_prog _ _ _ _ _ _ _) _ _)) with 3%nat.
    destruct (scan_answer a) as [[tr o]|]; [apply Nat.lt_succ_r, rank_after_create|].
    destruct (negb _); rank_lia.
  - apply advance_Ask in Ha as (_ & a & v' & _ & ->); [|done]. rewrite rank_select.
    destruct (scan_answer a) as [[tr o]|]; [|rank_lia].
    unfold replay. case_bool_decide; rank_lia.
  - unfold after_create in *. simpl negb in *. simpl orb in *.
    destruct (negb _); [done|].
    destruct (h !! CreateTransfer.FromAccountID _); [|done]. destruct (h !! CreateTransfer.ToAccountID _); [|done].
    apply advance_Ask in Ha as (_ & a & v' & _ & ->); [|done].
    change (rank (mk_txn j (update_prog _ _ _ _) _ _)) with 2%nat.
    destruct a; [|rank_lia]. destruct (negb _); rank_lia.
  - apply advance_Ask in Ha as (_ & a & v' & _ & ->); [|done].
    change (rank (mk_txn j (ledger_prog _ _ _ _) _ _)) with 1%nat. destruct a; rank_lia.
Qed.

Lemma Compact_length l : (length (Compact l) <= length l)%nat.
Proof.
  induction l as [|x l IH]; [done|]. simpl. destruct (Compact l) as [|y l']; [simpl; lia|].
  case_bool_decide; simpl in *; lia.
Qed.

Lemma lock_ids_length r : (length (lock_ids r) <= 2)%nat.
Proof.
  unfold lock_ids. etrans; [apply Compact_length|].
  unfold Sort. by rewrite (Permutation_length (merge_sort_Permutation _ _)).
Qed.

Lemma rank_bound d x : phase d x → (rank x <= 6)%nat.
Proof.
  destruct 1 as [j n L HL| | | |j L k st rs h row Hin| | |]; try rank_lia.
  - change (4 + length (filter (λ id, L !! id = None) (lock_ids (j_request j))) <= 6)%nat.
    pose proof (length_filter (λ id, L !! id = None) (lock_ids (j_request j))).
    pose proof (lock_ids_length (j_request j)). lia.
  - etrans; [apply rank_after_create|lia].
Qed.

Definition cost x : Z := 1 + Z.of_nat (rank x).
Definition measure s : Z := map_sum cost (active s).

Lemma cost_pos x : 0 < cost x.
Proof. unfold cost. lia. Qed.

Lemma map_sum_nonneg (m : gmap nat txn) : 0 <= map_sum cost m.
Proof.
  induction m as [|i x m Hi IH] using map_ind; [done|].
  rewrite map_sum_insert_None by done. unfold cost at 1. lia.
Qed.

Lemma measure_bound s : inv s → measure s <= 7 * Z.of_nat (size (active s)).
Proof.
  intros [Hph _ _ _]. unfold measure. revert Hph. generalize (committed s) as d. intros d.
  induction (active s) as [|i x m Hi IH] using map_ind; intros Hph; [done|].
  apply map_Forall_insert in Hph as [Hx Hm]; [|done]. rewrite map_sum_insert_None, map_size_insert_None by done.
  specialize (IH Hm). pose proof (rank_bound _ _ Hx). unfold cost at 1. lia.
Qed.

Lemma tick_measure n s l s' : inv s → tick n s = Some (l, s') → measure s' < measure s.
Proof.
  intros Hinv. unfold tick, measure. destruct (active s !! n) as [x|] eqn:Hx; [|done].
  pose proof (map_sum_delete cost _ _ _ Hx) as Hdel.
  destruct (x_prog x) as [[a|e]|B q k] eqn:Hp; [intros; simplify_eq; simpl; pose proof (cost_pos x); lia..|].
  destruct (advance _ _ x) as [x'|] eqn:Ha; [|done]. intros [= <- <-]. simpl.
  rewrite (map_sum_insert cost _ _ x) by done.
  pose proof (rank_advance _ _ _ _ (inv_phase _ Hinv _ _ Hx) Ha). unfold cost at 2 3. lia.
Qed.

(** ** Schedules *)

Lemma tick_step n s l s' : tick n s = Some (l, s') → cstep s l s'.
Proof.
  unfold tick. destruct (active s !! n) as [x|] eqn:Hx; [|done].
  destruct (x_prog x) as [[a|e]|B q k] eqn:Hp.
  - intros [= <- <-]. by eapply cs_commit.
  - intros [= <- <-]. by eapply cs_rollback.
  - destruct (advance _ _ x) as [x'|] eqn:Ha; [|done]. intros [= <- <-]. by eapply cs_advance.
Qed.

Lemma schedule_execution d hist ns s hs s' :
  execution d hist s → schedule ns s = Some (hs, s') → execution d (hist ++ hs) s'.
Proof.
  revert hist s hs. induction ns as [|n ns IH]; intros hist s hs Hex; simpl.
  - intros [= <- <-]. by rewrite app_nil_r.
  - destruct (tick n s) as [[l s1]|] eqn:Ht; [|done].
    destruct (schedule ns s1) as [[hs2 s2]|] eqn:Hs; [|done]. intros [= <- <-].
    rewrite app_assoc. eapply IH; [|done]. eapply ex_step; [done|by eapply tick_step].
Qed.

Lemma schedule_bound ns s hs s' :
  inv s → schedule ns s = Some (hs, s') → Z.of_nat (length ns) <= measure s - measure s' ∧ inv s'.
Proof.
  revert s hs. induction ns as [|n ns IH]; intros s hs Hinv; simpl.
  - intros [= <- <-]. split; [lia|done].
  - destruct (tick n s) as [[l s1]|] eqn:Ht; [|done].
    destruct (schedule ns s1) as [[hs2 s2]|] eqn:Hs; [|done]. intros [= <- <-].
    pose proof (tick_measure _ _ _ _ Hinv Ht).
    destruct (IH s1 hs2) as [? ?]; [by eapply inv_step, tick_step|done|]. split; [lia|done].
Qed.

(** Any state can be run until no transaction is active. *)
Lemma schedule_drain s :
  inv s → ∃ ns hs s', schedule ns s = Some (hs, s') ∧ active s' = ∅.
Proof.
  intros Hinv. remember (Z.to_nat (measure s)) as m eqn:Hm. revert s Hinv Hm.
  induction m as [m IH] using lt_wf_ind. intros s Hinv ->.
  destruct (decide (active s = ∅)) as [He|Hne]; [by exists [], [], s|].
  destruct (someone_moves s Hinv Hne) as (n & [l s1] & Ht).
  pose proof (tick_measure _ _ _ _ Hinv Ht) as Hlt. pose proof (map_sum_nonneg (active s1)) as H0'.
  destruct (IH (Z.to_nat (measure s1))) with (s := s1) as (ns & hs & s' & Hs & He);
    [unfold measure in *; lia|by eapply inv_step, tick_step|done|].
  exists (n :: ns), (option_list l ++ hs), s'. simpl. by rewrite Ht, Hs.
Qed.

End progress.
