(* ===== verification/Outcome.v ===== *)
(** * What a create request answers

    When no fault strikes, a create request gives the answer that the bank it finds
    calls for: one of the errors, the stored transfer, a rejection or a completed
    transfer.  [verdict] is that decision as a function of the bank alone; the code
    over the pgx repositories is shown to answer it, on every branch. *)
From S2P Require Import Prelude GoStrings GoErrors Entities Json Database BankSpec Contracts TransferService Repository RepositoryCorrect Programs Locking LockingLocal LockingCorrect.

(** ** The decision *)

Inductive verdict {K : Type} :=
| VForbidden | VInvalid | VNoDestination | VCurrency | VOverflow | VBadKey | VConflict
| VReplay (st : s_transfer)
| VRejected (k : K)
| VCompleted (k : K) (s d : s_account).
Arguments verdict K : clear implicits.

Definition verdict_of `{Countable K} (u : string) (key : option K) (r : CreateTransfer.t) (b : bank K) :
    verdict K :=
  if TrimSpace u == "" then VForbidden
  else if negb (is_ok (CreateTransfer.Validate r)) then VInvalid
  else
    match b_accounts b !! CreateTransfer.FromAccountID r with
    | None => VForbidden
    | Some s =>
      if s_user s != u then VForbidden
      else
        match b_accounts b !! CreateTransfer.ToAccountID r with
        | None => VNoDestination
        | Some d =>
          if (s_currency s != CreateTransfer.Currency r) || (s_currency d != CreateTransfer.Currency r)
          then VCurrency
          else if (CreateTransfer.Amount r <=? s_balance s) && (MaxInt64 <? s_balance d + CreateTransfer.Amount r)
          then VOverflow
          else
            match key with
            | None => VBadKey
            | Some k =>
              match b_transfers b !! (u, k) with
              | Some st => if bool_decide (s_request st = r) then VReplay st else VConflict
              | None =>
                if s_balance s <? CreateTransfer.Amount r then VRejected k else VCompleted k s d
              end
            end
        end
    end.

(** The response and the bank a verdict calls for. *)
Definition verdict_met `{Countable K} (u : string) (r : CreateTransfer.t) (b : bank K) (v : verdict K)
    (res : result answer) (b' : bank K) : Prop :=
  match v with
  | VForbidden => fails_with res ErrForbidden ∧ b' = b
  | VInvalid | VBadKey => fails_with res ErrInvalidTransfer ∧ b' = b
  | VNoDestination => fails_with res ErrDestinationNotFound ∧ b' = b
  | VCurrency => fails_with res ErrCurrencyMismatch ∧ b' = b
  | VOverflow => fails_with res ErrBalanceOverflow ∧ b' = b
  | VConflict => fails_with res ErrIdempotencyConflict ∧ b' = b
  | VReplay st => ∃ tr, res = Ok (tr, false) ∧ shows tr st ∧ b' = b
  | VRejected k =>
    ∃ tr st, res = Ok (tr, true) ∧ shows tr st ∧
      st = mk_s_transfer (Transfer.ID tr) r TransferStatus.Failed FailureReason.InsufficientFunds ∧
      b' = add_transfer u k st b
  | VCompleted k s d =>
    ∃ tr, res = Ok (tr, true) ∧
      shows tr (mk_s_transfer (Transfer.ID tr) r TransferStatus.Completed FailureReason.None) ∧
      b' = moved u k r (Transfer.ID tr) s d b
  end.

(** ** Rows that the constraints accept *)

Lemma btrim_TrimSpace s : TrimSpace s ≠ "" → btrim_nonempty s = true.
Proof.
  intros Hs. apply not_false_iff_true. intros Hb. apply Hs, TrimSpace_empty. clear Hs.
  unfold btrim_nonempty in Hb. induction s as [|a s IH]; [done|]. simpl in Hb.
  apply orb_false_iff in Hb as [Ha Hb]. reflect. simpl. unfold space1. rewrite Ha. simpl. rewrite orb_true_r. simpl. auto.
Qed.

Lemma iso_currency_check c : iso_currency c → currency_check c = true.
Proof.
  intros [Hl Hu]. unfold currency_check. rewrite Hl. simpl. apply forallb_forall.
  rewrite Forall_forall in Hu. intros a Ha. apply Hu. by apply list_elem_of_In.
Qed.

Section outcome.
Context `{!Platform} `{!PlatformLaws}.
Implicit Types (d v : db) (j : job) (h : gmap string Account.t).

(** A request whose texts the database accepts, with an unused UUID. *)
Record storable j d : Prop := {
  sto_user : plain (j_user j) = true;
  sto_request : plain_request (j_request j) = true;
  sto_id : Forall (λ r, t_id r ≠ gen_random_uuid (j_env j)) (transfers d) }.

Lemma texts_plain l : Forall (λ s, plain s = true) l → texts_ok l = true.
Proof. unfold texts_ok. induction 1 as [|s l Hs _ IH]; [done|]. simpl. by rewrite Hs. Qed.

Lemma plain_request_inv r :
  plain_request r = true →
  plain (CreateTransfer.FromAccountID r) = true ∧ plain (CreateTransfer.ToAccountID r) = true ∧
  plain (CreateTransfer.Currency r) = true ∧ plain (CreateTransfer.Description r) = true.
Proof. unfold plain_request. intros Hp. by reflect. Qed.

Lemma lock_texts j d : storable j d → texts_ok (lock_ids (j_request j)) = true.
Proof.
  intros [_ (Hf & Ht & _)%plain_request_inv _]. apply texts_plain, Forall_forall. intros s.
  unfold lock_ids. rewrite elem_of_Compact, elem_of_Sort. set_solver.
Qed.

(** The map of locked accounts. *)
Lemma locked_lookup j d id :
  id ∈ [CreateTransfer.FromAccountID (j_request j); CreateTransfer.ToAccountID (j_request j)] →
  index_accounts (scanAccount <$> lock_rows j d) !! id = (λ r, scanAccount (id, r)) <$> accounts d !! id.
Proof.
  intros Hid. rewrite index_accounts_lookup by apply NoDup_select. f_equal.
  destruct (accounts d !! id) as [r|] eqn:Hr.
  - apply elem_of_list_to_map_1; [apply NoDup_select|]. apply elem_of_lock_rows.
    split; [done|]. unfold lock_ids. by rewrite elem_of_Compact, elem_of_Sort.
  - apply not_elem_of_list_to_map_1. rewrite elem_of_lock_keys, Hr. by intros [[] ?].
Qed.

Lemma locked_int64 j d : db_ok d → balances_int64 (index_accounts (scanAccount <$> lock_rows j d)).
Proof.
  intros Hok id a. rewrite index_accounts_lookup by apply NoDup_select.
  intros (r & Hr & ->)%fmap_Some. apply elem_of_list_to_map_2, elem_of_select in Hr as [Hr _].
  pose proof (db_balances _ Hok _ _ Hr). simpl in *. int64_lia.
Qed.

Lemma locked_nonneg j d id a :
  db_ok d → index_accounts (scanAccount <$> lock_rows j d) !! id = Some a → 0 <= Account.Balance a.
Proof.
  intros Hok. rewrite index_accounts_lookup by apply NoDup_select.
  intros (r & Hr & ->)%fmap_Some. apply elem_of_list_to_map_2, elem_of_select in Hr as [Hr _].
  by apply (db_balances _ Hok _ _ Hr).
Qed.

(** The draft of an admitted request is an acceptable row. *)
Lemma draft_insertable j d k st rs :
  admitted j → storable j d →
  (st = TransferStatus.Completed ∧ rs = FailureReason.None ∨
   st = TransferStatus.Failed ∧ rs = FailureReason.InsufficientFunds) →
  ∃ row, insertable (j_env j) (draft j k st rs) row ∧ Unmarshal (t_original_request row) = Ok (j_request j) ∧
    t_id row = gen_random_uuid (j_env j) ∧ t_user_id row = j_user j ∧ t_idempotency_key row = k ∧ t_status row = st.
Proof.
  intros [Hu Hv Hz] [Hpu Hpr _] Hst. apply Validate_Ok in Hv as [Hf Ht Hne Ha Hc _].
  pose proof (plain_request_inv _ Hpr) as (? & ? & ? & ?).
  destruct (payload_roundtrip _ Hpr Hz) as (p & Hp & Ho & Hun).
  exists (new_transfer_row (j_env j) (draft j k st rs) p). split; [|done]. split.
  - apply texts_plain. simpl. repeat constructor; try done; by destruct Hst as [[-> ->]|[-> ->]].
  - exists p. split; [done|]. split; [done|]. unfold transfers_check. simpl.
    rewrite !btrim_TrimSpace, (iso_currency_check _ Hc), Ho by done.
    rewrite (proj2 (Z.ltb_lt _ _)) by done. simpl. rewrite bool_decide_eq_false_2 by done.
    destruct Hst as [[-> ->]|[-> ->]]; done.
Qed.

(** ** Statements that succeed *)

Lemma update_two e i1 z1 i2 z2 L w :
  i1 ≠ i2 → plain i1 = true → plain i2 = true → 0 <= z1 → 0 <= z2 →
  is_Some (L !! i1) → is_Some (L !! i2) →
  ∃ U, update_balances e [(i1, z1); (i2, z2)] (only (mk_writes L w [])) = (Ok 2, only (mk_writes U w [])).
Proof.
  intros Hne Hp1 Hp2 Hz1 Hz2 Hl1 Hl2. unfold update_balances.
  rewrite matched_all by (simpl; set_solver). rewrite texts_plain by (by repeat constructor). cbv [negb].
  change ([(i1, z1); (i2, z2)].*1) with [i1; i2].
  assert (remove_dups [i1; i2] = [i1; i2]) as ->.
  { simpl. repeat case_decide; done || set_solver. }
  simpl.
  rewrite lookup_insert_eq, lookup_insert_ne, lookup_insert_eq by done. simpl.
  rewrite !(proj2 (Z.ltb_ge _ _)) by done. simpl. by eexists.
Qed.

Lemma ledger_two j row src dst U :
  0 < CreateTransfer.Amount (j_request j) → is_int64 (CreateTransfer.Amount (j_request j)) →
  plain (Account.ID src) = true → plain (Account.ID dst) = true →
  0 <= Account.Balance src → 0 <= Account.Balance dst →
  is_Some (U !! Account.ID src) → is_Some (U !! Account.ID dst) →
  ∃ ls, insert_ledger (j_env j) (entries_args j row src dst) (only (mk_writes U [row] []))
        = (Ok tt, only (mk_writes U [row] ls)).
Proof.
  intros Ha Hz Hp1 Hp2 Hb1 Hb2 Hu1 Hu2. unfold insert_ledger.
  rewrite texts_plain by (simpl; by repeat constructor).
  unfold entries_args, ledger_rows. simpl. rewrite !uuid_in_out. simpl.
  unfold ledger_check. simpl. rewrite wrap64_id by int64_lia.
  rewrite (proj2 (Z.eqb_neq (- _) 0)), (proj2 (Z.eqb_neq _ 0)), !(proj2 (Z.leb_le _ _)) by lia. simpl.
  unfold ledger_refs. simpl. rewrite !bool_decide_eq_true_2 by done. simpl. by eexists.
Qed.

(** ** The program, branch by branch *)

Lemma run_checked j d :
  storable j d →
  run_create j d = run (j_env j) (after_lock (j_user j) (j_key j) (j_request j) (lock_rows j d)) d.
Proof.
  intros Hs. unfold run_create, create_prog, run. simpl denote at 1. unfold select.
  by rewrite (lock_texts j d Hs).
Qed.

Lemma run_refused j d e :
  storable j d →
  check_accounts (j_user j) (j_request j) (index_accounts (scanAccount <$> lock_rows j d)) = Err e →
  run_create j d = (Err e, d).
Proof. intros Hs Hc. rewrite run_checked by done. unfold after_lock. by rewrite Hc. Qed.

(** The key is taken: a replay of the same request, a conflict otherwise. *)
Lemma run_stored j d k st rs h row r0 :
  db_ok d → decided j d k st rs h → insertable (j_env j) (draft j k st rs) row →
  find_key (j_user j) k d = Some r0 →
  run_create j d =
  (if bool_decide (request_of_row r0 = j_request j) then Ok (transfer_of_row r0, false)
   else Err (Sentinel ErrIdempotencyConflict), d).
Proof.
  intros Hok Hd Hi Hk. rewrite (run_locked _ _ _ _ _ _ Hd), (run_taken _ _ _ _ _ _ _ _ Hi Hk).
  unfold select_prog, run. simpl denote. unfold select. rewrite (insertable_user _ _ _ _ _ _ Hi), Hk.
  simpl scan_answer. destruct (find_key_stored (j_user j) k d Hok) as [|(r & Hr & Hu & _)]; [congruence|].
  rewrite Hk in Hr. injection Hr as <-. rewrite Hu. unfold replay. by case_bool_decide.
Qed.

Lemma locked_all_rows j d : locked_all j d (list_to_map (lock_rows j d)).
Proof.
  apply locked_all_iff. split.
  - apply map_subseteq_spec. intros id r Hr%elem_of_list_to_map_2. by apply elem_of_lock_rows in Hr as [? _].
  - intros id. rewrite <-(elem_of_dom (M:=gmap string) (D:=gset string)), dom_list_to_map_L.
    apply elem_of_list_to_set.
Qed.

(** The key is free and the funds do not suffice: the rejection is stored. *)
Lemma run_rejected j d L k st rs h row :
  inserted j d L k st rs h row → t_status row ≠ TransferStatus.Completed →
  run_create j d = (Ok (transfer_of_row row, true), install (mk_writes L [row] []) d).
Proof.
  intros Hin Hst. rewrite (run_locked _ _ _ _ _ _ (in_decided _ _ _ _ _ _ _ _ Hin)).
  rewrite (run_inserted _ _ _ _ _ _ _ _ Hin). unfold after_create. simpl.
  by rewrite bool_decide_eq_false_2.
Qed.

(** The key is free and the decision is to complete: the transfer goes through. *)
Lemma run_completed j d L k st rs h row src dst :
  admitted j → storable j d →
  inserted j d L k st rs h row → t_status row = TransferStatus.Completed → sides_of j h src dst →
  0 <= Account.Balance src → 0 <= Account.Balance dst →
  ∃ d', run_create j d = (Ok (transfer_of_row row, true), d').
Proof.
  intros [_ Hv Hz] [_ (Hpf & Hpt & _ & _)%plain_request_inv _] Hin Hst Hs Hb1 Hb2.
  apply Validate_Ok in Hv as [_ _ Hne Ha _ _].
  pose proof (in_decided _ _ _ _ _ _ _ _ Hin) as Hd. pose proof (in_locks _ _ _ _ _ _ _ _ Hin) as HL.
  destruct (sides_locked _ _ _ _ _ _ _ _ _ HL Hd Hs) as (Hi1 & Hi2 & Hlk).
  destruct (update_two (j_env j) (Account.ID src) (Account.Balance src) (Account.ID dst) (Account.Balance dst) L [row])
    as [U HU]; [congruence|congruence..|done|done|apply Hlk; set_solver|apply Hlk; set_solver|].
  pose proof (updated_dom _ _ _ _ _ HU) as Hdom.
  destruct (ledger_two j row src dst U) as [ls Hls]; try congruence; [apply Hdom, Hlk; set_solver..|].
  eexists. rewrite (run_locked _ _ _ _ _ _ Hd), (run_inserted _ _ _ _ _ _ _ _ Hin).
  rewrite (run_saved _ _ _ _ _ _ _ _ _ _ _ Hin Hst Hs HU).
  by apply (run_appended _ _ _ _ _ _ _ _ _ _ _ _ Hin Hs Hdom Hls).
Qed.

(** ** The verdict *)

#[local] Instance server_documented e : @querier_documented _ db (server e) id.
Proof.
  split.
  - intros A q t a t' Hq. by exists e.
  - intros A q t err t' Hq. exact (sql_foreign e q t err t' Hq).
Qed.

(** A request served alone that answers does what the abstract bank allows. *)
Lemma serial_creates j d tr c d' :
  db_ok d → admitted j → serial j d = (Ok (tr, c), d') →
  db_ok d' ∧ ∃ k, key_of (j_key j) = Some k ∧
    creates (j_user j) k (j_request j) (bank_of d) tr c (bank_of d').
Proof.
  intros Hok [_ Hv Hz] Hs. unfold serial in Hs.
  destruct (create_tx _ _ _ d) as [[a|e] d1] eqn:Hc; simplify_eq.
  pose proof (@pg_promises _ _ db (server (j_env j)) id (server_documented (j_env j))) as Hp.
  apply Validate_Ok in Hv. exact (create_tx_creates key_of (tx_ok id) (tx_view id) _ _ _ d _ _ _ Hok Hv Hz Hc).
Qed.

Lemma serial_error j d e d' : serial j d = (Err e, d') → d' = d.
Proof. unfold serial. destruct (create_tx _ _ _ d) as [[a|e'] d1]; by intros; simplify_eq. Qed.

(** The accounts as the decision sees them and as the bank shows them. *)
Lemma locked_bank j d id :
  id ∈ [CreateTransfer.FromAccountID (j_request j); CreateTransfer.ToAccountID (j_request j)] →
  b_accounts (bank_of d) !! id = s_account_of <$> index_accounts (scanAccount <$> lock_rows j d) !! id.
Proof.
  intros Hid. rewrite locked_lookup by done. simpl. rewrite lookup_fmap. by destruct (accounts d !! id).
Qed.

(** The verdict once the accounts allow the transfer. *)
Definition key_verdict (u : string) (key : option uuid) (r : CreateTransfer.t) (b : bank uuid)
    (s d : s_account) : verdict uuid :=
  match key with
  | None => VBadKey
  | Some k =>
    match b_transfers b !! (u, k) with
    | Some st => if bool_decide (s_request st = r) then VReplay st else VConflict
    | None => if s_balance s <? CreateTransfer.Amount r then VRejected k else VCompleted k s d
    end
  end.

(** The accounts allow the transfer: the key decides. *)
Lemma allowed_verdict j d (s0 d0 : s_account) st rs h :
  admitted j → storable j d → db_ok d →
  check_accounts (j_user j) (j_request j) (index_accounts (scanAccount <$> lock_rows j d)) = Ok (st, rs, h) →
  may_send (j_user j) (j_request j) s0 d0 (bank_of d) →
  (s_balance s0 < CreateTransfer.Amount (j_request j) ∧
   st = TransferStatus.Failed ∧ rs = FailureReason.InsufficientFunds ∨
   CreateTransfer.Amount (j_request j) <= s_balance s0 ∧
   st = TransferStatus.Completed ∧ rs = FailureReason.None ∧
   ∃ src dst, sides_of j h src dst ∧ 0 <= Account.Balance src ∧ 0 <= Account.Balance dst) →
  verdict_met (j_user j) (j_request j) (bank_of d)
    (key_verdict (j_user j) (key_of (j_key j)) (j_request j) (bank_of d) s0 d0)
    (serial j d).1 (bank_of (serial j d).2).
Proof.
  intros Hadm Hsto Hok Hc Hms Hcase. unfold key_verdict, key_of.
  destruct (parseKey (j_key j)) as [k|e] eqn:Hk.
  2: { rewrite serial_run, run_checked by done. unfold after_lock. rewrite Hc, Hk. simpl.
       split; [|done]. exists e. split; [done|]. unfold parseKey in Hk. repeat case_match; by simplify_eq. }
  assert (decided j d k st rs h) as Hd by (split; [by eapply lock_texts|done..]).
  destruct (draft_insertable j d k st rs Hadm Hsto) as (row & Hrow & Hun & Hid & Huser & Hkey & Hst); [naive_solver|].
  rewrite bank_of_key. destruct (find_key (j_user j) k d) as [r0|] eqn:Hf; simpl.
  { rewrite serial_run, (run_stored _ _ _ _ _ _ _ _ Hok Hd Hrow Hf).
    case_bool_decide; simpl; [by eexists|]. split; [by eexists|done]. }
  assert (inserted j d (list_to_map (lock_rows j d)) k st rs h row) as Hin.
  { split; [apply locked_all_rows|done..| |by rewrite Hun]. split; [by rewrite Huser, Hkey|].
    rewrite Hid. apply Hsto. }
  assert (∃ d', run_create j d = (Ok (transfer_of_row row, true), d')) as [d' Hrun].
  { destruct Hcase as [(_ & Hs & _)|(_ & Hs & _ & src & dst & Hsd & ? & ?)].
    - eexists. eapply run_rejected; [done|]. rewrite Hst, Hs. done.
    - eapply run_completed; eauto. by rewrite Hst. }
  assert (serial j d = (Ok (transfer_of_row row, true), d')) as Hser by by rewrite serial_run, Hrun.
  rewrite Hser. simpl. apply serial_creates in Hser as (_ & k' & Hk' & Hcr); [|done..].
  unfold key_of in Hk'. rewrite Hk in Hk'. injection Hk' as <-.
  destruct (creates_new _ _ _ _ _ _ _ _ Hcr Hms) as [(Hle & Hsh & ->)|(Hlt & Hsh & ->)].
  - rewrite (proj2 (Z.ltb_ge _ _)) by done. by eexists.
  - rewrite (proj2 (Z.ltb_lt _ _)) by done. by eexists _, _.
Qed.

Lemma serial_verdict j d :
  admitted j → storable j d → db_ok d →
  verdict_met (j_user j) (j_request j) (bank_of d)
    (verdict_of (j_user j) (key_of (j_key j)) (j_request j) (bank_of d))
    (serial j d).1 (bank_of (serial j d).2).
Proof.
  intros Hadm Hsto Hok. destruct Hadm as [Hu Hv Hz] eqn:E. clear E. unfold verdict_of.
  rewrite bool_decide_eq_false_2, Hv by done. simpl negb. cbv iota.
  rewrite !(locked_bank j d) by set_solver. set (h0 := index_accounts _).
  pose proof (check_accounts_decision (j_user j) (j_request j) h0 (locked_int64 j d Hok) Hz
                (proj1 (Validate_Ok _) Hv)) as Hdec.
  remember (check_accounts (j_user j) (j_request j) h0) as res eqn:Hc. symmetry in Hc.
  assert (∀ e, res = Err e → serial j d = (Err e, d)) as Herr.
  { intros e ->. by rewrite serial_run, (run_refused _ _ _ Hsto Hc). }
  assert (∀ id a, id ∈ [CreateTransfer.FromAccountID (j_request j); CreateTransfer.ToAccountID (j_request j)] →
            h0 !! id = Some a → b_accounts (bank_of d) !! id = Some (s_account_of a)) as Hb.
  { intros id a Hid Ha. rewrite (locked_bank j d) by done. fold h0. by rewrite Ha. }
  destruct Hdec as [Hno|s Hs Hown Hd|s d0 Hs Hown Hd Hcur|s d0 Hs Hown Hd Hcs Hcd Hlt
    |s d0 Hs Hown Hd Hcs Hcd Hle Hmax|s d0 Hs Hown Hd Hcs Hcd Hle Hmax].
  - rewrite (Herr _ eq_refl). destruct (h0 !! CreateTransfer.FromAccountID (j_request j)) as [s|]; simpl.
    + rewrite bool_decide_eq_false_2 by eauto. simpl. by split; [eexists|].
    + by split; [eexists|].
  - rewrite (Herr _ eq_refl), Hs, Hd. simpl. rewrite bool_decide_eq_true_2 by done. by split; [eexists|].
  - rewrite (Herr _ eq_refl), Hs, Hd. simpl. rewrite bool_decide_eq_true_2 by done. simpl.
    destruct Hcur as [Hcur|Hcur]; rewrite (bool_decide_eq_false_2 _ Hcur); simpl; rewrite ?orb_true_r;
      by split; [eexists|].
  - rewrite Hs, Hd. simpl. rewrite !bool_decide_eq_true_2 by done. simpl.
    rewrite (proj2 (Z.leb_gt _ _)) by done. simpl. refine (allowed_verdict j d (s_account_of s) (s_account_of d0) _ _ _ Hadm Hsto Hok Hc _ _).
    + split; try done; eauto; [apply Hb; [set_solver|done]|apply Hb; [set_solver|done]].
    + left. done.
  - rewrite (Herr _ eq_refl), Hs, Hd. simpl. rewrite !bool_decide_eq_true_2 by done. simpl.
    rewrite (proj2 (Z.leb_le _ _)), (proj2 (Z.ltb_lt _ _)) by done. by split; [eexists|].
  - rewrite Hs, Hd. simpl. rewrite !bool_decide_eq_true_2 by done. simpl.
    rewrite (proj2 (Z.ltb_ge MaxInt64 _)), andb_false_r by done. refine (allowed_verdict j d (s_account_of s) (s_account_of d0) _ _ _ Hadm Hsto Hok Hc _ _).
    + split; try done; eauto; [apply Hb; [set_solver|done]|apply Hb; [set_solver|done]].
    + right. split; [done|]. split; [done|]. split; [done|].
      pose proof (valid_differ _ (proj1 (Validate_Ok _) Hv)) as Hne.
      pose proof (valid_amount _ (proj1 (Validate_Ok _) Hv)) as Hpos.
      pose proof (locked_nonneg _ _ _ _ Hok Hd).
      eexists _, _. split; [split; [by rewrite lookup_insert_ne, lookup_insert_eq|by rewrite lookup_insert_eq]|].
      simpl. lia.
Qed.

End outcome.
