(* ===== verification/Driver.v ===== *)
(** * A concrete driver

    An executable instance of the parameters of [Database] and [Repository]: a
    platform whose UUIDs are named by their text, a connection that runs each
    statement by its SQL meaning unless a scheduled fault strikes it, and a pool
    whose transactions follow a script (environment, faults, fate of the commit).
    It shows that the hypotheses on the driver can hold, and it is the reference
    against which concurrent executions are compared. *)
From S2P Require Import Prelude GoStrings GoErrors Entities Json Database BankSpec Contracts Repository RepositoryCorrect TransferService Programs Locking.

(** ** Platform *)

Fixpoint lower_string (s : string) : string :=
  match s with
  | EmptyString => ""
  | String a s' => String (ascii_lower a) (lower_string s')
  end.

#[global] Instance text_platform : Platform := {|
  uuid := string;
  zero_uuid := "00000000-0000-0000-0000-000000000000";
  uuid_in := Some;
  uuid_out := λ u, u;
  UUID_Scan := Some;
  lower := lower_string;
  collate := String.le |}.

#[global] Instance text_platform_laws : PlatformLaws.
Proof.
  split; [done|done|]. split; [apply _|]. intros x y.
  destruct (decide (x = y)) as [->|Hne]; [by right; left|].
  destruct (base.total String.le x y); [left|right; right]; split; try done;
    intros Hle; by apply Hne, (anti_symm String.le).
Qed.

(** ** Connections *)

Section driver.
Context `{!Platform}.

Record session := mk_session {
  c_db : db;
  c_env : env;
  c_faults : list (option string) }.

(** A statement consumes one entry of the fault schedule. *)
#[global] Instance session_querier : querier session := {|
  query A q t :=
    match c_faults t with
    | Some msg :: fs => (Err (External msg), mk_session (c_db t) (c_env t) fs)
    | fs => let '(r, d) := sql (c_env t) q (c_db t) in (r, mk_session d (c_env t) (tail fs))
    end |}.

(** ** The pool *)

Inductive fate := Committed | CommitFailed | CommitLost.

Record script := mk_script {
  sc_env : env;
  sc_faults : list (option string);
  sc_fate : fate }.

Record pool := mk_pool {
  p_db : db;
  p_scripts : list script }.

(** The next transaction follows the next script; without one, it cannot begin. *)
#[global] Instance pool_pgx : Pgx pool session := {|
  BeginTxFunc A fn p :=
    match p_scripts p with
    | [] => (Err (External "begin failed"), p)
    | sc :: scs =>
      match fn (mk_session (p_db p) (sc_env sc) (sc_faults sc)) with
      | (Err err, _) => (Err err, mk_pool (p_db p) scs)
      | (Ok a, t) =>
        match sc_fate sc with
        | Committed => (Ok a, mk_pool (c_db t) scs)
        | CommitFailed => (Err (External "commit failed"), mk_pool (p_db p) scs)
        | CommitLost => (Err (External "connection lost"), mk_pool (c_db t) scs)
        end
      end
    end |}.

(** A statement sent to the pool runs on its own, under the next script. *)
#[global] Instance pool_querier : querier pool := {|
  query A q p :=
    match p_scripts p with
    | [] => (Err (External "closed pool"), p)
    | sc :: scs =>
      match sc_faults sc with
      | Some msg :: _ => (Err (External msg), mk_pool (p_db p) scs)
      | _ => let '(r, d) := sql (sc_env sc) q (p_db p) in (r, mk_pool d scs)
      end
    end |}.

(** ** They behave as documented *)

#[global] Instance session_documented : querier_documented c_db.
Proof.
  split.
  - intros A q t a t' Hq. exists (c_env t). simpl in Hq.
    destruct (c_faults t) as [|[|] fs]; [|done|];
      destruct (sql (c_env t) q (c_db t)) as [r d]; by simplify_eq.
  - intros A q t e t' Hq. simpl in Hq.
    destruct (c_faults t) as [|[|] fs]; simplify_eq; [|done|];
      destruct (sql (c_env t) q (c_db t)) as [r d] eqn:E; simplify_eq; by eapply sql_foreign.
Qed.

#[global] Instance pool_querier_documented : querier_documented p_db.
Proof.
  split.
  - intros A q p a p' Hq. simpl in Hq. destruct (p_scripts p) as [|sc scs]; [done|]. exists (sc_env sc).
    destruct (sc_faults sc) as [|[|] fs]; [|done|]; destruct (sql (sc_env sc) q (p_db p)) as [r d]; by simplify_eq.
  - intros A q p e p' Hq. simpl in Hq. destruct (p_scripts p) as [|sc scs]; [by simplify_eq|].
    destruct (sc_faults sc) as [|[|] fs]; [|by simplify_eq|];
      destruct (sql (sc_env sc) q (p_db p)) as [r d] eqn:E; simplify_eq; by eapply sql_foreign.
Qed.

#[global] Instance pool_documented : Pgx_documented p_db c_db.
Proof.
  split.
  - intros A fn s a s' Hb. simpl in Hb. destruct (p_scripts s) as [|sc scs]; [done|].
    destruct (fn _) as [[y|y] t] eqn:Hfn; [|done].
    destruct (sc_fate sc); simplify_eq. eexists _, t. split; [|split; [exact Hfn|]]; done.
  - intros A fn s e s' Hb. simpl in Hb. destruct (p_scripts s) as [|sc scs]; [simplify_eq; by left; split; [|left]|].
    destruct (fn _) as [[y|y] t] eqn:Hfn.
    + destruct (sc_fate sc); simplify_eq; [by left; split; [|left]|right].
      split; [done|]. eexists _, t, y. split; [|split; [exact Hfn|]]; done.
    + simplify_eq. left. split; [done|right]. eexists _, t. by split; [|exact Hfn].
Qed.

End driver.

(** A run without faults is the run on the database. *)
Lemma denote_session `{!Platform} {A} (p : Programs.prog A) d e :
  denote p (mk_session d e []) =
  let '(res, d') := @denote _ db A (server e) p d in (res, mk_session d' e []).
Proof.
  revert d. induction p as [res|B q k IH]; intros d; [done|]. simpl.
  destruct (sql e q d) as [a d']. apply IH.
Qed.

(** ** Sample data *)

Definition sample_account (user : string) (balance : Z) : account_row :=
  mk_account_row user "PEN" balance 0 0.

(** Two accounts of Alice and one of Bob; no transfer yet. *)
Definition sample_db : db :=
  mk_db (list_to_map [ ("acc-alice", sample_account "alice" 100);
                       ("acc-bob", sample_account "bob" 5);
                       ("acc-spare", sample_account "alice" 20) ]) [] [] ∅.

Definition sample_request : CreateTransfer.t :=
  CreateTransfer.mk "acc-alice" "acc-bob" 30 "PEN" "rent".

Definition sample_pool : pool :=
  mk_pool sample_db
    [ mk_script (mk_env 7 "t-1") [] Committed;
      mk_script (mk_env 8 "t-2") [] Committed;
      mk_script (mk_env 9 "t-3") [] Committed ].

Definition sample_session : session := mk_session sample_db (mk_env 0 "t-0") [].

(** The transfer the first script makes of the request. *)
Definition sample_transfer : Transfer.t :=
  Transfer.mk "t-1" "k-1" "acc-alice" "acc-bob" 30 "PEN" "rent"
    TransferStatus.Completed FailureReason.None 7 7.

Lemma sample_rows id r :
  accounts sample_db !! id = Some r →
  (id, r) ∈ [ ("acc-alice", sample_account "alice" 100); ("acc-bob", sample_account "bob" 5);
              ("acc-spare", sample_account "alice" 20) ].
Proof. apply elem_of_list_to_map_2. Qed.

Lemma sample_db_ok : db_ok sample_db.
Proof.
  split; [|apply NoDup_nil_2|apply NoDup_nil_2|constructor].
  intros id r Hr%sample_rows.
  repeat (apply elem_of_cons in Hr as [Hr|Hr]; [by simplify_eq; vm_compute; split; discriminate|]).
  by apply elem_of_nil in Hr.
Qed.

Lemma sample_bank_ok : bank_ok (bank_of sample_db).
Proof.
  split; [|done|done|constructor].
  intros id a Ha. simpl in Ha. rewrite lookup_fmap in Ha. apply fmap_Some in Ha as (r & Hr & ->).
  by apply (db_balances _ sample_db_ok) in Hr.
Qed.

(** The opening balances of the sample. *)
Definition sample_opening : gmap string Z :=
  list_to_map [("acc-alice", 100); ("acc-bob", 5); ("acc-spare", 20)].

Lemma sample_reconciles : reconciles sample_opening (bank_of sample_db).
Proof.
  intros id a Ha. unfold bank_of in Ha. cbn [b_accounts] in Ha. rewrite lookup_fmap in Ha.
  apply fmap_Some in Ha as (r & Hr%sample_rows & ->).
  repeat (apply elem_of_cons in Hr as [Hr|Hr]; [by simplify_eq|]). by apply elem_of_nil in Hr.
Qed.
