(* ===== verification/TransferTheorems.v ===== *)
(** * The transfer service over PostgreSQL

    The theorems on [Service.Create] composed with the pgx repositories and a driver
    that behaves as documented: it implements the abstract bank, errors leave no
    trace, every history of requests keeps the bank sound and answers each
    idempotency key once, and without faults each branch gives its answer. *)
From S2P Require Import Prelude GoStrings GoErrors Entities Json Database BankSpec Contracts TransferService Repository RepositoryCorrect Programs Locking LockingCorrect Outcome Driver.

(** ** Sequences of requests *)

Record call := mk_call {
  c_user : string;
  c_key : string;
  c_request : CreateTransfer.t }.

Definition sample_call : call := mk_call "alice" "k-1" sample_request.

Section serve.
Context {S T : Type} `{!Tx T} `{!TxManager S T}.

(** Requests served one after the other. *)
Fixpoint serve (cs : list call) (s : S) : list (result (Transfer.t * bool)) * S :=
  match cs with
  | [] => ([], s)
  | c :: cs' =>
    let '(res, s1) := Create (T:=T) (c_user c) (c_key c) (c_request c) s in
    let '(ress, s2) := serve cs' s1 in (res :: ress, s2)
  end.

Lemma serve_app cs1 cs2 s :
  serve (cs1 ++ cs2) s =
  let '(r1, s1) := serve cs1 s in let '(r2, s2) := serve cs2 s1 in (r1 ++ r2, s2).
Proof.
  revert s. induction cs1 as [|c cs1 IH]; intros s; simpl; [by destruct (serve cs2 s)|].
  destruct (Create _ _ _ s) as [res s1]. rewrite IH. destruct (serve cs1 s1) as [r1 s2].
  by destruct (serve cs2 s2).
Qed.

End serve.

Section theorems.
Context `{!Platform} `{!PlatformLaws} {S T : Type} `{!Pgx S T} `{!querier T}.
Context (pool_db : S → db) (tx_db : T → db).
Context `{!querier_documented tx_db} `{!Pgx_documented pool_db tx_db}.
Implicit Types (s : S) (r : CreateTransfer.t).

(** The answers among the responses, with the keys they were given under. *)
Definition answer_of (c : call) (res : result (Transfer.t * bool)) : option (answered uuid) :=
  match key_of (c_key c), res with
  | Some k, Ok (tr, created) => Some (mk_answered (c_user c) k (c_request c) tr created)
  | _, _ => None
  end.

Definition answers (cs : list call) (ress : list (result (Transfer.t * bool))) : list (answered uuid) :=
  omap (λ cr, answer_of cr.1 cr.2) (zip cs ress).

Lemma create_answer u key r s tr c s' :
  db_ok (pool_db s) → is_int64 (CreateTransfer.Amount r) →
  Create (T:=T) u key r s = (Ok (tr, c), s') →
  db_ok (pool_db s') ∧ ∃ k, key_of key = Some k ∧
    creates u k r (bank_of (pool_db s)) tr c (bank_of (pool_db s')).
Proof.
  intros Hok Hz Hc.
  destruct (Create_answer key_of (tx_ok tx_db) (tx_view tx_db) (store_ok pool_db) (store_view pool_db)
              u key r s tr c s' Hok Hz Hc) as (? & _ & ?). done.
Qed.

Lemma create_error u key r s e s' :
  db_ok (pool_db s) → is_int64 (CreateTransfer.Amount r) →
  Create (T:=T) u key r s = (Err e, s') →
  db_ok (pool_db s') ∧
  (bank_of (pool_db s') = bank_of (pool_db s) ∨
   ∃ k tr c, key_of key = Some k ∧ creates u k r (bank_of (pool_db s)) tr c (bank_of (pool_db s'))).
Proof.
  intros Hok Hz Hc.
  destruct (Create_error key_of (tx_ok tx_db) (tx_view tx_db) (store_ok pool_db) (store_view pool_db)
              u key r s e s' Hok Hz Hc) as ([-> |Hok'] & Hb); (split; [done|]);
    destruct Hb as [?|(k & tr & c & ? & _ & ?)]; eauto 10.
Qed.

(** An error of [Create] comes from its own checks or from the transaction. *)
Lemma Create_begins u key r s e s' :
  Create (T:=T) u key r s = (Err e, s') →
  s' = s ∨ ∃ err, e = Errorf "create transfer: %w" err ∧ valid_request r ∧
    BeginTxFunc (create_tx (T:=T) u key r) s = (Err err, s').
Proof.
  unfold Create. case_bool_decide; [intros [_ <-]%fail_Err; auto|].
  destruct (CreateTransfer.Validate r) as [[]|] eqn:Hv; [|intros [_ <-]%fail_Err; auto].
  apply Validate_Ok in Hv. intros (err & Hrun & ->)%map_err_Err. right. by exists err.
Qed.

Lemma serve_length cs s : length (serve (T:=T) cs s).1 = length cs.
Proof.
  revert s. induction cs as [|c cs IH]; intros s; simpl; [done|].
  destruct (Create _ _ _ s) as [res s1]. specialize (IH s1). destruct (serve cs s1). simpl in *. lia.
Qed.

Lemma answers_snoc cs ress c res :
  length ress = length cs →
  answers (cs ++ [c]) (ress ++ [res]) = answers cs ress ++ option_list (answer_of c res).
Proof.
  intros Hl. unfold answers. rewrite zip_with_app by done. rewrite omap_app. simpl.
  by destruct (answer_of c res).
Qed.

(** Requests in sequence take the bank through a history of the abstract bank. *)
Lemma serve_history cs s :
  db_ok (pool_db s) → Forall (λ c, is_int64 (CreateTransfer.Amount (c_request c))) cs →
  db_ok (pool_db (serve (T:=T) cs s).2) ∧
  history (bank_of (pool_db s)) (answers cs (serve (T:=T) cs s).1) (bank_of (pool_db (serve (T:=T) cs s).2)).
Proof.
  intros Hok. induction cs as [|c cs IH] using rev_ind; intros Hz; [split; [done|constructor]|].
  apply Forall_app in Hz as [Hz Hzc]. rewrite Forall_singleton in Hzc.
  destruct (IH Hz) as [Hok1 Hh]. rewrite serve_app. pose proof (serve_length cs s) as Hl.
  destruct (serve cs s) as [r1 s1]. simpl in *.
  destruct (Create (c_user c) (c_key c) (c_request c) s1) as [[[tr b]|e] s2] eqn:Hc; simpl;
    rewrite answers_snoc by done; unfold answer_of at 1.
  - apply create_answer in Hc as (? & k & Hk & Hcr); [|done..]. rewrite Hk. split; [done|].
    by eapply hs_answered.
  - apply create_error in Hc as (? & Hb); [|done..]. split; [done|]. destruct (key_of (c_key c)); simpl;
      rewrite app_nil_r; (destruct Hb as [->|(k & tr & b & _ & Hcr)]; [done|by eapply hs_lost]).
Qed.

(** ** Theorems *)

(** C3: [Create] refines the abstract bank.  An answered request was valid and has a
    usable key, and it either moved the amount once between two accounts of its
    currency, from one the user owns to another, together with the transfer and its
    two ledger entries, or stored the rejection, or replayed what the key holds. *)
Theorem create_refines_bank u key r s tr c s' :
  db_ok (pool_db s) → is_int64 (CreateTransfer.Amount r) →
  Create (T:=T) u key r s = (Ok (tr, c), s') →
  db_ok (pool_db s') ∧ valid_request r ∧ ∃ k, key_of key = Some k ∧
    creates u k r (bank_of (pool_db s)) tr c (bank_of (pool_db s')).
Proof.
  intros Hok Hz Hc.
  by destruct (Create_answer key_of (tx_ok tx_db) (tx_view tx_db) (store_ok pool_db) (store_view pool_db)
                 u key r s tr c s' Hok Hz Hc).
Qed.

(** The confirmation of the commit was lost: the function of the transaction succeeded,
    [BeginTxFunc] reported an error of the driver, and the committed database is the one
    the function left. *)
Definition commit_lost u key r s err s' tr c : Prop :=
  BeginTxFunc (create_tx (T:=T) u key r) s = (Err err, s') ∧ foreign err ∧
  ∃ t t', tx_db t = pool_db s ∧ create_tx u key r t = (Ok (tr, c), t') ∧ pool_db s' = tx_db t'.

(** C10: an error of [Create], whatever statement failed, leaves the database as it was; the
    one exception is a commit whose confirmation was lost: the function of the transaction
    had succeeded, [BeginTxFunc] reported an error of the driver, [Create] returns that
    error, which is none of the service's, and the whole transfer is there. *)
Theorem create_error_atomic u key r s e s' :
  db_ok (pool_db s) → is_int64 (CreateTransfer.Amount r) →
  Create (T:=T) u key r s = (Err e, s') →
  db_ok (pool_db s') ∧
  (pool_db s' = pool_db s ∨
   ∃ err tr c k, e = Errorf "create transfer: %w" err ∧ (∀ x, Is e x = false) ∧
     commit_lost u key r s err s' tr c ∧
     key_of key = Some k ∧ creates u k r (bank_of (pool_db s)) tr c (bank_of (pool_db s'))).
Proof.
  intros Hok Hz Hc. destruct (create_error _ _ _ _ _ _ Hok Hz Hc) as [Hok' _]. split; [done|].
  apply Create_begins in Hc as [->|(err & -> & Hv & Hb)]; [by left|].
  pose proof Hb as [[Hs' _]|(Hf & t & t' & [tr c] & Ht & Hfn & Hs')]%(begin_err (pool_db:=pool_db) (tx_db:=tx_db));
    [by left|right].
  assert (tx_ok tx_db t) as Htok by (unfold tx_ok; by rewrite Ht).
  destruct (create_tx_creates key_of (tx_ok tx_db) (tx_view tx_db) _ _ _ _ _ _ _ Htok Hv Hz Hfn) as (_ & k & Hk & Hcr).
  unfold tx_view in Hcr. rewrite Ht, <-Hs' in Hcr.
  exists err, tr, c, k. split; [done|]. split; [exact Hf|]. split; [|done]. split; [done|]. by split; [|eauto].
Qed.

(** After any sequence of requests, with any faults, no account is overdrawn, every
    completed transfer has exactly its debit and its credit in the ledger and a failed
    one none, the total of the balances is unchanged, and each balance is the opening
    balance plus the account's ledger entries. *)
Theorem serve_keeps_books cs s opening :
  db_ok (pool_db s) → bank_ok (bank_of (pool_db s)) → reconciles opening (bank_of (pool_db s)) →
  Forall (λ c, is_int64 (CreateTransfer.Amount (c_request c))) cs →
  let b' := bank_of (pool_db (serve (T:=T) cs s).2) in
  bank_ok b' ∧ total b' = total (bank_of (pool_db s)) ∧ reconciles opening b'.
Proof.
  intros Hok Hb Hr Hz b'. destruct (serve_history cs s Hok Hz) as [_ Hh].
  split; [|split]; [by eapply history_ok|by eapply history_total|by eapply history_reconciles].
Qed.

(** Exactly once.  Of two answers to the same user and key in a sequence of requests,
    the later one is a replay: it was given to the same request and shows the same
    transfer, whatever happened in between. *)
Theorem serve_exactly_once cs s i j a1 a2 :
  db_ok (pool_db s) → Forall (λ c, is_int64 (CreateTransfer.Amount (c_request c))) cs →
  (i < j)%nat →
  answers cs (serve (T:=T) cs s).1 !! i = Some a1 → answers cs (serve (T:=T) cs s).1 !! j = Some a2 →
  an_user a1 = an_user a2 → an_key a1 = an_key a2 →
  an_created a2 = false ∧ an_request a2 = an_request a1 ∧
  ∃ st, shows (an_transfer a1) st ∧ shows (an_transfer a2) st.
Proof. intros Hok Hz. destruct (serve_history cs s Hok Hz) as [_ Hh]. eauto using history_once. Qed.

(** A key that holds a transfer is never used again: a request under it leaves the
    bank as it is, whatever it answers, and is answered only if it is the stored
    request. *)
Theorem stored_key_is_final u key k r s st :
  db_ok (pool_db s) → is_int64 (CreateTransfer.Amount r) → key_of key = Some k →
  b_transfers (bank_of (pool_db s)) !! (u, k) = Some st →
  let '(res, s') := Create (T:=T) u key r s in
  bank_of (pool_db s') = bank_of (pool_db s) ∧
  (is_ok res = true → r = s_request st ∧ ∃ tr, res = Ok (tr, false) ∧ shows tr st).
Proof.
  intros Hok Hz Hk Hst. destruct (Create u key r s) as [[[tr c]|e] s'] eqn:Hc.
  - apply create_answer in Hc as (_ & k' & Hk' & Hcr); [|done..]. rewrite Hk in Hk'. injection Hk' as <-.
    destruct (creates_taken _ _ _ _ _ _ _ _ Hcr Hst) as (-> & -> & Hsh & ->). eauto 10.
  - split; [|done]. apply create_error in Hc as (_ & [?|(k' & tr & c & Hk' & Hcr)]); [done| |done..].
    rewrite Hk in Hk'. injection Hk' as <-. by destruct (creates_taken _ _ _ _ _ _ _ _ Hcr Hst) as (_ & _ & _ & ->).
Qed.

(** Only the owner's money moves.  Whatever [Create] answers, an account whose balance
    went down is the source account of the request and belongs to the user who sent
    it, and no account changes owner or currency. *)
Theorem create_debits_owner_only u key r s id a a' :
  db_ok (pool_db s) → is_int64 (CreateTransfer.Amount r) →
  b_accounts (bank_of (pool_db s)) !! id = Some a →
  b_accounts (bank_of (pool_db (Create (T:=T) u key r s).2)) !! id = Some a' →
  s_user a' = s_user a ∧ s_currency a' = s_currency a ∧
  (s_balance a' < s_balance a → id = CreateTransfer.FromAccountID r ∧ s_user a = u).
Proof.
  intros Hok Hz Ha Ha'.
  assert (bank_of (pool_db (Create (T:=T) u key r s).2) = bank_of (pool_db s) ∨
    ∃ k tr c, creates u k r (bank_of (pool_db s)) tr c (bank_of (pool_db (Create (T:=T) u key r s).2))) as Hb.
  { destruct (Create u key r s) as [[[tr c]|e] s'] eqn:Hc; simpl.
    - apply create_answer in Hc as (_ & k & _ & Hcr); eauto.
    - apply create_error in Hc as (_ & [?|(k & tr & c & _ & Hcr)]); eauto 10. }
  destruct Hb as [Hb|(k & tr & c & Hcr)]; [rewrite Hb in Ha'; simplify_eq; repeat split; lia|].
  by eapply creates_debits.
Qed.

End theorems.

(** ** Fault-free behaviour *)

(** A run without faults gives the verdict. *)
Lemma create_verdict `{!Platform} `{!PlatformLaws} u key r e p scs :
  db_ok (p_db p) → is_int64 (CreateTransfer.Amount r) →
  p_scripts p = mk_script e [] Committed :: scs →
  storable (mk_job u key r e) (p_db p) →
  let '(res, p') := Create u key r p in
  verdict_met u r (bank_of (p_db p)) (verdict_of u (key_of key) r (bank_of (p_db p))) res (bank_of (p_db p')).
Proof.
  intros Hok Hz Hsc Hsto. unfold Create.
  destruct (bool_decide_reflect (TrimSpace u = "")) as [Hu|Hu].
  { unfold verdict_of. rewrite bool_decide_eq_true_2 by done. split; [by eexists|done]. }
  destruct (CreateTransfer.Validate r) as [[]|err] eqn:Hv.
  2: { unfold verdict_of. rewrite bool_decide_eq_false_2, Hv by done.
       split; [|done]. exists err. split; [done|]. by apply Validate_Err in Hv as [? _]. }
  pose proof (serial_verdict (mk_job u key r e) (p_db p) (Build_admitted (mk_job u key r e) Hu Hv Hz) Hsto Hok)
    as Hserial. simpl in Hserial. revert Hserial. generalize (verdict_of u (key_of key) r (bank_of (p_db p))).
  intros v Hserial. rewrite serial_run in Hserial. unfold map_err, WithinTx, Store. simpl. rewrite Hsc.
  rewrite <-denote_create, denote_session. unfold run_create, run in Hserial.
  cbn [j_user j_key j_request j_env] in Hserial. destruct (denote _ (p_db p)) as [[a|err] d']; simpl in *; [done|].
  destruct v; simpl in *; unfold fails_with in *; naive_solver.
Qed.

(** C5: total and correct on every branch.  In a transaction that no fault strikes, whose
    texts PostgreSQL can store and whose drawn UUID is unused, [Create] gives exactly
    the verdict on the bank it finds: each of the seven refusals with its error and no
    change, the replay, the stored rejection, or the completed transfer. *)
Theorem create_gives_verdict `{!Platform} `{!PlatformLaws} u key r e p scs :
  db_ok (p_db p) → is_int64 (CreateTransfer.Amount r) →
  p_scripts p = mk_script e [] Committed :: scs →
  storable (mk_job u key r e) (p_db p) →
  let '(res, p') := Create u key r p in
  verdict_met u r (bank_of (p_db p)) (verdict_of u (key_of key) r (bank_of (p_db p))) res (bank_of (p_db p')).
Proof. apply create_verdict. Qed.

(** ** Witnesses *)

Definition sample_after : pool := (Create "alice" "k-1" sample_request sample_pool).2.

Lemma sample_run :
  Create "alice" "k-1" sample_request sample_pool = (Ok (sample_transfer, true), sample_after).
Proof. apply injective_projections; [vm_compute|]; reflexivity. Qed.

Lemma sample_int64 : is_int64 (CreateTransfer.Amount sample_request).
Proof. vm_compute. by split. Qed.

Lemma create_refines_bank_witness :
  ∃ k, key_of "k-1" = Some k ∧
    creates "alice" k sample_request (bank_of sample_db) sample_transfer true (bank_of (p_db sample_after)).
Proof.
  destruct (create_refines_bank p_db c_db "alice" "k-1" sample_request sample_pool sample_transfer true sample_after
              sample_db_ok sample_int64 sample_run) as (_ & _ & Hk). exact Hk.
Defined.

(** A connection that is lost while the commit is confirmed. *)
Definition broken_pool : pool := mk_pool sample_db [mk_script (mk_env 7 "t-1") [] CommitLost].

Definition broken_error : error := Errorf "create transfer: %w" (External "connection lost").

Lemma broken_run :
  Create "alice" "k-1" sample_request broken_pool =
  (Err broken_error, (Create "alice" "k-1" sample_request broken_pool).2).
Proof. apply injective_projections; [vm_compute|]; reflexivity. Qed.

Lemma broken_kept :
  length (transfers (p_db (Create "alice" "k-1" sample_request broken_pool).2)) ≠ length (transfers (p_db broken_pool)).
Proof. vm_compute. discriminate. Qed.

Lemma create_error_atomic_witness :
  ∃ k tr c, creates "alice" k sample_request (bank_of sample_db) tr c
    (bank_of (p_db (Create "alice" "k-1" sample_request broken_pool).2)).
Proof.
  destruct (create_error_atomic p_db c_db "alice" "k-1" sample_request broken_pool _ _
              sample_db_ok sample_int64 broken_run) as [_ [Hs|(_ & tr & c & k & _ & _ & _ & _ & Hcr)]].
  - destruct broken_kept. by rewrite Hs.
  - by exists k, tr, c.
Defined.

Definition sample_calls : list call := [sample_call; mk_call "bob" "k-2" sample_request; sample_call].

Lemma sample_calls_int64 : Forall (λ c, is_int64 (CreateTransfer.Amount (c_request c))) sample_calls.
Proof. repeat constructor; vm_compute; done. Qed.

Lemma serve_keeps_books_witness :
  total (bank_of (p_db (serve sample_calls sample_pool).2)) = 125.
Proof.
  destruct (serve_keeps_books p_db c_db sample_calls sample_pool sample_opening
              sample_db_ok sample_bank_ok sample_reconciles sample_calls_int64) as (_ & Ht & _).
  rewrite Ht. vm_compute. reflexivity.
Defined.

Lemma serve_exactly_once_witness :
  ∃ a1 a2, answers sample_calls (serve sample_calls sample_pool).1 = [a1; a2] ∧ an_created a2 = false.
Proof.
  eexists _, _. split; [vm_compute; reflexivity|].
  eapply (serve_exactly_once p_db c_db sample_calls sample_pool 0 1);
    [exact sample_db_ok|exact sample_calls_int64|lia|vm_compute; reflexivity..].
Defined.

Lemma stored_key_is_final_witness :
  bank_of (p_db (Create "alice" "k-1" sample_request sample_after).2) = bank_of (p_db sample_after).
Proof.
  destruct (create_answer p_db c_db "alice" "k-1" sample_request sample_pool sample_transfer true sample_after
              sample_db_ok sample_int64 sample_run) as (Hok & k & Hk & Hc).
  destruct (creates_answer _ _ _ _ _ _ _ Hc) as (st & Hst & _).
  pose proof (stored_key_is_final p_db c_db "alice" "k-1" k sample_request sample_after st
                Hok sample_int64 Hk Hst) as Hfin.
  destruct (Create "alice" "k-1" sample_request sample_after) as [res s']. exact (proj1 Hfin).
Defined.

Lemma create_debits_owner_only_witness :
  "acc-alice" = CreateTransfer.FromAccountID sample_request ∧
  s_user (mk_s_account "alice" "PEN" 100) = "alice".
Proof.
  destruct (create_debits_owner_only p_db c_db "alice" "k-1" sample_request sample_pool "acc-alice"
              (mk_s_account "alice" "PEN" 100) (mk_s_account "alice" "PEN" 70))
    as (_ & _ & Hown); [exact sample_db_ok|exact sample_int64|vm_compute; reflexivity..|].
  exact (Hown eq_refl).
Defined.

Lemma sample_storable : storable (mk_job "alice" "k-1" sample_request (mk_env 7 "t-1")) sample_db.
Proof. split; [done|done|constructor]. Qed.

Lemma create_gives_verdict_witness :
  ∃ tr s d, (Create "alice" "k-1" sample_request sample_pool).1 = Ok (tr, true) ∧
    bank_of (p_db sample_after) = moved "alice" "k-1" sample_request (Transfer.ID tr) s d (bank_of sample_db).
Proof.
  pose proof (create_gives_verdict "alice" "k-1" sample_request (mk_env 7 "t-1") sample_pool
                (tail (p_scripts sample_pool)) sample_db_ok sample_int64 eq_refl sample_storable) as Hv.
  rewrite sample_run in Hv.
  assert (∃ s d, verdict_of "alice" (key_of "k-1") sample_request (bank_of (p_db sample_pool)) =
                 VCompleted "k-1" s d) as (s & d & Hver) by (eexists _, _; vm_compute; reflexivity).
  rewrite Hver in Hv. destruct Hv as (tr & Hres & _ & Hb). rewrite sample_run.
  exists tr, s, d. split; [exact Hres|exact Hb].
Defined.
