(* ===== verification/ConcurrencyTheorems.v ===== *)
(** * The transfer service under concurrency

    The theorems on concurrent executions of create requests: they are serializable,
    so the guarantees of the sequential service hold in every interleaving; rows are
    locked by one transaction at a time; and the service neither deadlocks nor runs
    for ever. *)
From S2P Require Import Prelude GoStrings GoErrors Entities Json Database BankSpec Contracts TransferService Repository RepositoryCorrect Programs Locking LockingLocal LockingCorrect Serializability LockingProgress Outcome Driver.

Section theorems.
Context `{!Platform} `{!PlatformLaws}.
Implicit Types (d : db) (s : cstate) (hist : list (job * result answer)).

(** The answers among the responses of an execution. *)
Definition response_answer (jr : job * result answer) : option (answered uuid) :=
  match key_of (j_key jr.1), jr.2 with
  | Some k, Ok (tr, created) => Some (mk_answered (j_user jr.1) k (j_request jr.1) tr created)
  | _, _ => None
  end.

Definition given hist : list (answered uuid) := omap response_answer hist.

(** ** Executions take the bank through histories *)

Lemma step_admitted s l s' : inv s → cstep s l s' → ∀ jr, l = Some jr → admitted jr.1.
Proof.
  intros Hinv [|n x x' Hx Ha|n x a Hx Hp| |] jr Hl; simplify_eq.
  - unfold failure in Hl. repeat case_match; simplify_eq. simpl. rewrite (advance_job _ _ _ _ Ha).
    by apply (inv_admitted _ Hinv) in Hx.
  - by apply (inv_admitted _ Hinv) in Hx.
Qed.

Lemma execution_history d hist s :
  db_ok d → execution d hist s →
  db_ok (committed s) ∧ history (bank_of d) (given hist) (bank_of (committed s)).
Proof.
  intros Hok. induction 1 as [|hist s l s' Hex IH Hs]; [split; [done|constructor]|].
  destruct IH as [Hok1 Hh]. pose proof (inv_execution _ _ _ Hex) as Hinv.
  pose proof (step_serial _ _ _ Hinv Hs) as Hser. pose proof (step_admitted _ _ _ Hinv Hs) as Hadm.
  unfold given. rewrite omap_app. destruct l as [[j res]|]; simpl; [|by rewrite Hser, app_nil_r].
  specialize (Hadm _ eq_refl). simpl in Hadm. unfold response_answer at 2. simpl. destruct res as [[tr c]|e].
  - apply serial_creates in Hser as (? & k & Hk & Hc); [|done..]. rewrite Hk. split; [done|].
    by eapply hs_answered.
  - apply serial_error in Hser as ->. by destruct (key_of (j_key j)); rewrite app_nil_r.
Qed.

(** ** Theorems *)

(** C1: concurrent executions are serializable.  Whatever the interleaving of statements,
    lock waits, rollbacks and lost connections, the responses decided so far and the
    committed database are those of running the same requests one at a time, in the
    order in which they were decided, each as [Create]'s transaction alone. *)
Theorem executions_are_serializable d hist s :
  execution d hist s → serial_all hist.*1 d = (hist.*2, committed s).
Proof. apply execution_serial. Qed.

(** The books stay right under concurrency.  In every state of every execution, no
    committed balance is negative or beyond 64 bits, completed transfers have exactly
    their two ledger entries, no money is created or lost, and balances reconcile
    with the ledger. *)
Theorem concurrent_books d hist s opening :
  db_ok d → bank_ok (bank_of d) → reconciles opening (bank_of d) → execution d hist s →
  bank_ok (bank_of (committed s)) ∧ total (bank_of (committed s)) = total (bank_of d) ∧
  reconciles opening (bank_of (committed s)).
Proof.
  intros Hok Hb Hr Hex. destruct (execution_history _ _ _ Hok Hex) as [_ Hh].
  split; [|split]; [by eapply history_ok|by eapply history_total|by eapply history_reconciles].
Qed.

(** C9: exactly once under concurrency.  However requests with the same user and key race,
    one of them at most creates the transfer; every later answer replays it, for the
    same request. *)
Theorem concurrent_exactly_once d hist s i j a1 a2 :
  db_ok d → execution d hist s → (i < j)%nat →
  given hist !! i = Some a1 → given hist !! j = Some a2 →
  an_user a1 = an_user a2 → an_key a1 = an_key a2 →
  an_created a2 = false ∧ an_request a2 = an_request a1 ∧
  ∃ st, shows (an_transfer a1) st ∧ shows (an_transfer a2) st.
Proof. intros Hok Hex. destruct (execution_history _ _ _ Hok Hex) as [_ Hh]. eauto using history_once. Qed.

(** Mutual exclusion.  An account row is locked by one transaction at most, and the
    version a transaction locked is the committed one, however long it holds it; so
    two requests never decide on the same funds. *)
Theorem locked_rows_are_exclusive d hist s n m x y id row :
  execution d hist s → n ≠ m → active s !! n = Some x → active s !! m = Some y →
  x_locks x !! id = Some row →
  x_locks y !! id = None ∧ accounts (committed s) !! id = Some row.
Proof.
  intros Hex%inv_execution Hne Hx Hy Hl. split; [by eapply (inv_locks _ Hex n m)|].
  eapply lookup_weaken; [done|]. by eapply phase_locks, (inv_phase _ Hex).
Qed.

(** C7: no deadlock.  As long as a transaction is active, one of them can take its next
    step: locks are taken in the order of the account ids, and a transaction that has
    inserted its transfer waits for nobody. *)
Theorem no_deadlock d hist s :
  execution d hist s → active s ≠ ∅ → ∃ n, is_Some (tick n s).
Proof. intros Hex%inv_execution. by apply someone_moves. Qed.

(** C18: every transaction ends.  Left alone, the active transactions take at most seven
    steps each, in any order, and some order of steps ends them all. *)
Theorem transactions_end d hist s :
  execution d hist s →
  (∀ ns hs s', schedule ns s = Some (hs, s') → Z.of_nat (length ns) <= 7 * Z.of_nat (size (active s))) ∧
  ∃ ns hs s', schedule ns s = Some (hs, s') ∧ active s' = ∅ ∧ execution d (hist ++ hs) s'.
Proof.
  intros Hex. pose proof (inv_execution _ _ _ Hex) as Hinv. split.
  - intros ns hs s' Hs. destruct (schedule_bound _ _ _ _ Hinv Hs) as [Hl _].
    pose proof (measure_bound _ Hinv). pose proof (map_sum_nonneg (active s')). unfold measure in *. lia.
  - destruct (schedule_drain s Hinv) as (ns & hs & s' & Hs & He). exists ns, hs, s'.
    split; [done|]. split; [done|]. by eapply schedule_execution.
Qed.

End theorems.

(** ** Witnesses *)

Definition present {A} (o : option A) : bool := match o with Some _ => true | None => false end.

Lemma default_Some {A} (o : option A) x : present o = true → o = Some (default x o).
Proof. by destruct o. Qed.

(** The same request of Alice sent twice at once, and one of hers from another account:
    the first two race for both rows and for the key. *)
Definition race_job (id : string) : job := mk_job "alice" "k-1" sample_request (mk_env 7 id).
Definition other_job : job :=
  mk_job "alice" "k-2" (CreateTransfer.mk "acc-spare" "acc-bob" 5 "PEN" "") (mk_env 8 "t-3").

Definition race_start : cstate :=
  mk_cstate sample_db
    (<[2%nat := start other_job]> (<[1%nat := start (race_job "t-2")]> (<[0%nat := start (race_job "t-1")]> ∅))).

Lemma race_admitted id : admitted (race_job id).
Proof. split; [by vm_compute|by vm_compute|vm_compute; by split]. Qed.

Lemma other_admitted : admitted other_job.
Proof. split; [by vm_compute|by vm_compute|vm_compute; by split]. Qed.

Lemma begin_execution `{!Platform} d hist s n j :
  execution d hist s → active s !! n = None → admitted j →
  execution d hist (mk_cstate (committed s) (<[n := start j]> (active s))).
Proof.
  intros Hex Hn Hj. rewrite <-(app_nil_r hist). by eapply (ex_step _ _ _ None), cs_begin.
Qed.

Lemma race_execution : execution sample_db [] race_start.
Proof.
  assert (execution sample_db [] (mk_cstate sample_db (<[0%nat := start (race_job "t-1")]> ∅))) as H0.
  { apply (begin_execution _ _ (mk_cstate sample_db ∅)); [apply ex_start|done|apply race_admitted]. }
  assert (execution sample_db []
            (mk_cstate sample_db (<[1%nat := start (race_job "t-2")]> (<[0%nat := start (race_job "t-1")]> ∅)))) as H1.
  { by apply (begin_execution _ _ _ 1%nat (race_job "t-2") H0), race_admitted. }
  by apply (begin_execution _ _ _ 2%nat other_job H1), other_admitted.
Qed.

(** The third transaction takes Bob's row before the first, which holds Alice's, gets to
    it; the first and the second then go through in turn. *)
Definition race_schedule : list nat :=
  [2; 0; 2; 2; 2; 2; 2; 2; 0; 0; 0; 0; 0; 0; 1; 1; 1; 1; 1; 1]%nat.

Definition race_end : list (job * result answer) * cstate :=
  default ([], race_start) (schedule race_schedule race_start).

Lemma race_runs : schedule race_schedule race_start = Some race_end.
Proof.
  apply default_Some. vm_compute. reflexivity.
Qed.

Lemma race_ended : execution sample_db race_end.1 race_end.2.
Proof.
  pose proof (schedule_execution sample_db [] race_schedule race_start race_end.1 race_end.2 race_execution) as Hex.
  rewrite <-surjective_pairing in Hex. exact (Hex race_runs).
Qed.

Lemma executions_are_serializable_witness :
  serial_all race_end.1.*1 sample_db = (race_end.1.*2, committed race_end.2) ∧ length race_end.1 = 3%nat.
Proof.
  split; [exact (executions_are_serializable _ _ _ race_ended)|vm_compute; reflexivity].
Defined.

Lemma concurrent_books_witness : total (bank_of (committed race_end.2)) = 125.
Proof.
  destruct (concurrent_books _ _ _ sample_opening sample_db_ok sample_bank_ok sample_reconciles race_ended)
    as (_ & Ht & _). rewrite Ht. vm_compute. reflexivity.
Defined.

Lemma concurrent_exactly_once_witness :
  ∃ a1 a2, given race_end.1 !! 1%nat = Some a1 ∧ given race_end.1 !! 2%nat = Some a2 ∧
    an_created a1 = true ∧ an_created a2 = false.
Proof.
  eexists _, _. split; [vm_compute; reflexivity|]. split; [vm_compute; reflexivity|].
  split; [reflexivity|].
  eapply (concurrent_exactly_once _ _ _ 1 2 _ _ sample_db_ok race_ended);
    [lia|vm_compute; reflexivity|vm_compute; reflexivity|reflexivity|reflexivity].
Defined.

(** The first transaction holds Alice's row, the third holds Bob's. *)
Definition race_middle : list (job * result answer) * cstate :=
  default ([], race_start) (schedule [2; 0]%nat race_start).

Lemma race_middle_runs : schedule [2; 0]%nat race_start = Some race_middle.
Proof.
  apply default_Some. vm_compute. reflexivity.
Qed.

Lemma race_middle_reached : execution sample_db race_middle.1 race_middle.2.
Proof.
  pose proof (schedule_execution sample_db [] [2; 0]%nat race_start race_middle.1 race_middle.2 race_execution) as Hex.
  rewrite <-surjective_pairing in Hex. exact (Hex race_middle_runs).
Qed.

Definition middle_txn (n : nat) : txn := default (start other_job) (active race_middle.2 !! n).

Lemma middle_txn_active n :
  present (active race_middle.2 !! n) = true → active race_middle.2 !! n = Some (middle_txn n).
Proof. apply default_Some. Qed.

Lemma locked_rows_are_exclusive_witness :
  x_locks (middle_txn 2) !! "acc-alice" = None ∧
  accounts (committed race_middle.2) !! "acc-alice" = Some (sample_account "alice" 100).
Proof.
  apply (locked_rows_are_exclusive _ _ _ 0 2 (middle_txn 0) (middle_txn 2) "acc-alice"
           (sample_account "alice" 100) race_middle_reached).
  - lia.
  - apply middle_txn_active. vm_compute. reflexivity.
  - apply middle_txn_active. vm_compute. reflexivity.
  - vm_compute. reflexivity.
Defined.

Lemma no_deadlock_witness : tick 0 race_middle.2 = None ∧ ∃ n, is_Some (tick n race_middle.2).
Proof.
  split; [vm_compute; reflexivity|].
  apply (no_deadlock _ _ _ race_middle_reached). intros He.
  assert (present (active race_middle.2 !! 0%nat) = true) as Hn by (vm_compute; reflexivity).
  rewrite He in Hn. discriminate Hn.
Defined.

Lemma transactions_end_witness :
  ∃ ns hs s', schedule ns race_start = Some (hs, s') ∧ active s' = ∅.
Proof.
  destruct (transactions_end _ _ _ race_execution) as [_ (ns & hs & s' & Hs & He & _)].
  exists ns, hs, s'. split; [exact Hs|exact He].
Defined.
