(* ===== verification/Reads.v ===== *)
(** * Reading accounts and transfers

    [internal/service/account] and the read side of [internal/service/transfer],
    over the pgx repositories: who may see what, and that what is read is what is
    stored. *)
From S2P Require Import Prelude GoStrings GoErrors Entities Json Database BankSpec Contracts TransferService Repository RepositoryCorrect Programs Locking LockingLocal Driver TransferTheorems.

Module AccountService.
Section service.
Context {R : Type} `{!AccountRepository R}.

Definition List (userID : string) : tx R (list Account.t) := ListByUser userID.

Definition Get (userID accountID : string) : tx R Account.t :=
  map_err (λ err, if Is err RepositoryErrNotFound then Sentinel AccountErrNotFound else err)
    (FindOwned userID accountID).

End service.
End AccountService.

(** The rows of one account, for its owner. *)
Lemma select_owned `{!Platform} d accountID userID :
  select_accounts (λ id r, (id == accountID) && (a_user_id r == userID)) d =
  match accounts d !! accountID with
  | Some r => if a_user_id r == userID then [(accountID, r)] else []
  | None => []
  end.
Proof.
  pose proof (NoDup_select (λ id r, (id == accountID) && (a_user_id r == userID)) d) as Hnd.
  pose proof (elem_of_select (λ id r, (id == accountID) && (a_user_id r == userID)) d) as Hin.
  revert Hnd Hin. generalize (select_accounts (λ id r, (id == accountID) && (a_user_id r == userID)) d).
  intros l Hnd Hin.
  assert (∀ kv, kv ∈ l → kv.1 = accountID) as Hid.
  { intros [i r] [_ Hp]%Hin. by reflect. }
  destruct l as [|[i r] l].
  - destruct (accounts d !! accountID) as [r|] eqn:Hr; [|done]. case_bool_decide as Hu; [|done].
    exfalso. apply (not_elem_of_nil (accountID, r)), Hin. split; [done|].
    by rewrite !bool_decide_eq_true_2.
  - destruct (proj1 (Hin i r)) as [Hr Hp]; [by apply list_elem_of_here|]. reflect. subst i.
    rewrite Hr, bool_decide_eq_true_2 by done. f_equal. destruct l as [|[i r'] l]; [done|].
    specialize (Hid (i, r') (list_elem_of_further _ _ _ (list_elem_of_here _ _))). simpl in Hid. subst i.
    simpl in Hnd. apply NoDup_cons in Hnd as [Hno _]. set_solver.
Qed.

Section reads.
Context `{!Platform} `{!PlatformLaws} {T : Type} `{!querier T} (tx_db : T → db) `{!querier_documented tx_db}.
Implicit Types (t : T).

(** ** The account repository *)

(** An account as the database has it. *)
Definition stored_account (d : db) (a : Account.t) : Prop :=
  ∃ r, accounts d !! Account.ID a = Some r ∧ a = scanAccount (Account.ID a, r).

Lemma pg_find_owned u i t res t' :
  pg_FindOwned u i t = (res, t') →
  match res with
  | Ok a => tx_db t' = tx_db t ∧ Account.ID a = i ∧ Account.UserID a = u ∧ stored_account (tx_db t) a
  | Err e => Is e RepositoryErrNotFound = true →
             tx_db t' = tx_db t ∧ ∀ r, accounts (tx_db t) !! i = Some r → a_user_id r ≠ u
  end.
Proof.
  unfold pg_FindOwned. destruct res as [a|e]; intros Hf.
  - apply tx_bind_Ok in Hf as (rows & t1 & Hq & Hm). apply map_err_Ok in Hq.
    eapply (query_select tx_db) in Hq as [Hrows Hdb]; [|by intros; simpl]. subst rows. rewrite select_owned in Hm.
    destruct (accounts (tx_db t) !! i) as [r|] eqn:Hr; [|by apply fail_Ok in Hm].
    case_bool_decide; [|by apply fail_Ok in Hm]. apply mret_Ok in Hm as [<- <-].
    split; [done|]. split; [done|]. split; [done|]. by exists r.
  - intros Hnf. apply tx_bind_Err in Hf as [Hq|(rows & t1 & Hq & Hm)].
    + apply map_err_Err in Hq as (e0 & Hq & ->). apply (query_err (tx_db:=tx_db)) in Hq. rewrite Is_Errorf, Hq in Hnf. done.
    + apply map_err_Ok in Hq. eapply (query_select tx_db) in Hq as [Hrows Hdb]; [|by intros; simpl]. subst rows.
      rewrite select_owned in Hm. destruct (accounts (tx_db t) !! i) as [r|] eqn:Hr.
      * case_bool_decide; [by apply mret_Err in Hm|]. apply fail_Err in Hm as [_ <-].
        split; [done|]. by intros ? [= <-].
      * apply fail_Err in Hm as [_ <-]. by split.
Qed.

Lemma pg_list_by_user u t l t' :
  pg_ListByUser u t = (Ok l, t') →
  tx_db t' = tx_db t ∧ Sorted collate (Account.ID <$> l) ∧ NoDup (Account.ID <$> l) ∧
  ∀ a, a ∈ l ↔ Account.UserID a = u ∧ stored_account (tx_db t) a.
Proof.
  unfold pg_ListByUser. intros (rows & t1 & Hq & Hm)%tx_bind_Ok. apply map_err_Ok in Hq.
  eapply (query_select tx_db) in Hq as [Hrows Hdb]; [|by intros; simpl]. subst rows. apply mret_Ok in Hm as [<- <-].
  set (l := select_accounts _ _).
  assert (Account.ID <$> (scanAccount <$> l) = l.*1) as Hids.
  { rewrite <-list_fmap_compose. by apply list_fmap_ext. }
  rewrite Hids. split; [done|]. split; [apply (Sorted_fmap fst id_le collate), select_sorted; done|].
  split; [apply NoDup_select|]. intros a. rewrite list_elem_of_fmap. split.
  - intros ([i r] & -> & [Hr Hu]%elem_of_select). reflect. split; [done|]. by exists r.
  - intros [Hu (r & Hr & Ha)]. exists (Account.ID a, r). split; [done|]. apply elem_of_select.
    split; [done|]. apply bool_decide_eq_true. rewrite Ha in Hu. done.
Qed.

(** ** The transfer repository *)

Lemma pg_find_by_id u tid t tr t' :
  pg_FindByID u tid t = (Ok tr, t') →
  tx_db t' = tx_db t ∧ ∃ row, row ∈ transfers (tx_db t) ∧ t_user_id row = u ∧
    UUID_Scan tid = Some (t_id row) ∧ tr = transfer_of_row row.
Proof.
  unfold pg_FindByID. destruct (UUID_Scan tid) as [id|]; [|done].
  destruct (query_transfer _ t) as [[[tr0 o]|err] t1] eqn:Hq; [|case_match; done]. intros [= <- <-].
  apply query_transfer_Ok in Hq as (row & Hq & -> & _).
  eapply (query_select tx_db) in Hq as [Hrow Hdb]; [|by intros; simpl]. split; [done|]. exists row.
  symmetry in Hrow. apply find_some in Hrow as [Hin Hp]. reflect. subst. by rewrite list_elem_of_In.
Qed.

Lemma transfer_unique d r1 r2 :
  db_ok d → r1 ∈ transfers d → r2 ∈ transfers d → t_id r1 = t_id r2 → r1 = r2.
Proof.
  intros Hok [i Hi]%list_elem_of_lookup [j Hj]%list_elem_of_lookup Heq.
  assert (i = j) as -> by (eapply NoDup_lookup; [apply (db_ids _ Hok)|by rewrite list_lookup_fmap, Hi|];
                           by rewrite list_lookup_fmap, Hj, Heq). congruence.
Qed.

(** A stored transfer is found by its owner under its ID. *)
Lemma pg_find_stored u row t res t' :
  db_ok (tx_db t) → row ∈ transfers (tx_db t) → t_user_id row = u →
  pg_FindByID u (uuid_out (t_id row)) t = (res, t') →
  match res with Ok tr => tr = transfer_of_row row | Err e => foreign e end.
Proof.
  intros Hok Hrow Hu Hf. destruct res as [tr|e].
  - apply pg_find_by_id in Hf as (_ & row' & Hrow' & _ & Hid & ->). rewrite UUID_Scan_out in Hid.
    injection Hid as Hid. by rewrite (transfer_unique _ _ _ Hok Hrow Hrow' Hid).
  - unfold pg_FindByID in Hf. rewrite UUID_Scan_out in Hf.
    destruct (query_transfer _ t) as [[[tr0 o]|err] t1] eqn:Hq; [done|].
    apply (query_transfer_Err tx_db) in Hq as [Hfor|[-> Hq]].
    + rewrite Hfor in Hf. by simplify_eq.
    + eapply (query_select tx_db) in Hq as [Hrow' _]; [|by intros; simpl].
      symmetry in Hrow'. apply (find_none _ _) with (x := row) in Hrow'; [|by apply list_elem_of_In].
      by rewrite !bool_decide_eq_true_2 in Hrow'.
    + intros r Hr. eapply (query_select tx_db) in Hr as [Hr _]; [|by intros; simpl].
      symmetry in Hr. apply find_some in Hr as [Hr%list_elem_of_In _].
      pose proof (db_payloads _ Hok) as Hp. rewrite Forall_forall in Hp. by rewrite Hp.
Qed.

(** ** Theorems *)

(** An account is shown to its owner only.  [Get] of the account service answers with
    the stored account of that ID, and that account belongs to the user who asks; the
    read changes nothing. *)
Theorem account_get_is_owned u i t a t' :
  AccountService.Get u i t = (Ok a, t') →
  Account.ID a = i ∧ Account.UserID a = u ∧ stored_account (tx_db t) a ∧ tx_db t' = tx_db t.
Proof.
  intros Hg%map_err_Ok. apply pg_find_owned in Hg. naive_solver.
Qed.

(** [List] of the account service answers with exactly the user's accounts, as stored,
    each once, in the order of their IDs. *)
Theorem account_list_is_complete u t l t' :
  AccountService.List u t = (Ok l, t') →
  (∀ a, a ∈ l ↔ Account.UserID a = u ∧ stored_account (tx_db t) a) ∧
  Sorted collate (Account.ID <$> l) ∧ NoDup (Account.ID <$> l) ∧ tx_db t' = tx_db t.
Proof. intros Hl%pg_list_by_user. naive_solver. Qed.

(** A transfer is shown to the user who created it only: [Get] of the transfer service
    answers with a stored transfer of that ID that this user has made. *)
Theorem transfer_get_is_own u tid t tr t' :
  Get u tid t = (Ok tr, t') →
  ∃ row, row ∈ transfers (tx_db t) ∧ t_user_id row = u ∧ UUID_Scan tid = Some (t_id row) ∧
    tr = transfer_of_row row ∧ tx_db t' = tx_db t.
Proof.
  intros Hg%map_err_Ok. apply pg_find_by_id in Hg as (? & row & ? & ? & ? & ?). eauto 10.
Qed.

End reads.

(** Read your writes.  After an answer of [Create], the same user's [Get] of the transfer's
    ID never answers "not found", and what it shows agrees with what was answered. *)
Theorem created_transfer_is_found `{!Platform} `{!PlatformLaws} {S T : Type} `{!Pgx S T} `{!querier T} `{!querier S}
    (pool_db : S → db) (tx_db : T → db) `{!querier_documented tx_db} `{!Pgx_documented pool_db tx_db}
    `{!querier_documented pool_db} u key r s tr c s' res s'' :
  db_ok (pool_db s) → is_int64 (CreateTransfer.Amount r) →
  Create (T:=T) u key r s = (Ok (tr, c), s') → Get u (Transfer.ID tr) s' = (res, s'') →
  match res with
  | Ok tr' => ∃ st, shows tr st ∧ shows tr' st
  | Err e => Is e TransferErrNotFound = false
  end.
Proof.
  intros Hok Hz Hc Hg. destruct (create_answer pool_db tx_db _ _ _ _ _ _ _ Hok Hz Hc) as (Hok' & k & _ & Hcr).
  apply creates_answer in Hcr as (st & Hst & _ & Hsh). rewrite bank_of_key in Hst.
  apply fmap_Some in Hst as (row & Hrow & ->).
  apply find_key_Some in Hrow as (Hin & Hu & _). unfold Get in Hg. simpl in Hg.
  rewrite (shows_id _ _ Hsh) in Hg. simpl in Hg. destruct res as [tr'|e].
  - apply map_err_Ok, (pg_find_stored pool_db) in Hg as ->; [|done..]. eexists. split; [done|]. apply shows_row.
  - apply map_err_Err in Hg as (e0 & Hg & ->). apply (pg_find_stored pool_db) in Hg; [|done..].
    rewrite (Hg RepositoryErrNotFound). apply Hg.
Qed.

(** ** Fault-free reads *)

(** An account ID cannot be probed.  Without faults, [Get] answers with the account
    when the user owns it, and with the very same error when the account belongs to
    someone else as when it does not exist. *)
Theorem account_get_hides_others `{!Platform} `{!PlatformLaws} u i d e :
  plain u = true → plain i = true →
  (AccountService.Get u i (mk_session d e [])).1 =
  match accounts d !! i with
  | Some r => if a_user_id r == u then Ok (scanAccount (i, r)) else Err (Sentinel AccountErrNotFound)
  | None => Err (Sentinel AccountErrNotFound)
  end.
Proof.
  intros Hu Hi. unfold AccountService.Get, map_err. simpl. unfold pg_FindOwned, mbind, tx_bind, map_err. simpl.
  unfold select, texts_ok. simpl. rewrite Hu, Hi. simpl. rewrite select_owned.
  destruct (accounts d !! i) as [r|]; [|done]. by case_bool_decide.
Qed.

(** ** Witnesses *)

Lemma account_get_is_owned_witness : Account.UserID (scanAccount ("acc-bob", sample_account "bob" 5)) = "bob".
Proof.
  eapply (account_get_is_owned c_db "bob" "acc-bob" sample_session).
  apply injective_projections; [vm_compute|]; reflexivity.
Defined.

Lemma account_list_is_complete_witness :
  ∃ l, (AccountService.List "alice" sample_session).1 = Ok l ∧
    length l = 2%nat ∧ NoDup (Account.ID <$> l).
Proof.
  eexists. split; [vm_compute; reflexivity|]. split; [reflexivity|].
  eapply (account_list_is_complete c_db "alice" sample_session).
  apply injective_projections; [vm_compute|]; reflexivity.
Defined.

Lemma transfer_get_is_own_witness :
  ∃ row, row ∈ transfers (p_db sample_after) ∧ t_user_id row = "alice".
Proof.
  destruct (transfer_get_is_own p_db "alice" "t-1" sample_after sample_transfer (Get "alice" "t-1" sample_after).2)
    as (row & Hrow & Hu & _); [apply injective_projections; [vm_compute|]; reflexivity|].
  exists row. split; [exact Hrow|exact Hu].
Defined.

Lemma created_transfer_is_found_witness : ∃ st, shows sample_transfer st ∧ shows sample_transfer st.
Proof.
  apply (created_transfer_is_found p_db c_db "alice" "k-1" sample_request sample_pool sample_transfer true
           sample_after (Ok sample_transfer) (Get "alice" "t-1" sample_after).2
           sample_db_ok sample_int64 sample_run).
  apply injective_projections; [vm_compute|]; reflexivity.
Defined.

Lemma account_get_hides_others_witness :
  (AccountService.Get "bob" "acc-alice" sample_session).1 =
  (AccountService.Get "bob" "no-such" sample_session).1.
Proof.
  unfold sample_session.
  rewrite (account_get_hides_others "bob" "acc-alice"), (account_get_hides_others "bob" "no-such")
    by (vm_compute; reflexivity). vm_compute. reflexivity.
Defined.
