(* ===== verification/Mime.v ===== *)
(** * Media types

    [mime.ParseMediaType], which a handler applies to the [Content-Type] header: the type in
    lower case, after a check of its form and of the form of its parameters. *)
From S2P Require Import Prelude GoStrings GoErrors.
From Stdlib Require Import Ascii.

(** [strings.TrimLeftFunc(v, unicode.IsSpace)] *)
Definition trim_left (v : string) : string := spell (drop_while fst (units v)).

(** [strings.ToLower], up to code points other than ASCII: those that have an ASCII lower case,
    U+0130 and U+212A, are given it, the others stay; no check below accepts any of them. *)
Fixpoint ToLower (s : string) : string :=
  match s with
  | EmptyString => ""
  | String a s1 =>
    match s1 with
    | String b s2 =>
      if (byte a =? 196) && (byte b =? 176) then "i" +:+ ToLower s2
      else
        match s2 with
        | String c s3 =>
          if (byte a =? 226) && (byte b =? 132) && (byte c =? 170) then "k" +:+ ToLower s3
          else String (ascii_lower a) (ToLower s1)
        | EmptyString => String (ascii_lower a) (ToLower s1)
        end
    | EmptyString => String (ascii_lower a) ""
    end
  end.

Definition isTSpecial (c : ascii) : bool :=
  (byte c =? 34) || existsb (Ascii.eqb c) (bytes_of "()<>@,;:\/[]?=").

Definition isTokenChar (c : ascii) : bool := (32 <? byte c) && (byte c <? 127) && negb (isTSpecial c).

(** The longest prefix of token characters, and the rest. *)
Fixpoint consumeToken (v : string) : string * string :=
  match v with
  | EmptyString => ("", "")
  | String c v' =>
    if isTokenChar c then let '(token, rest) := consumeToken v' in (String c token, rest) else ("", v)
  end.

Fixpoint quoted_value (buffer v : string) : option (string * string) :=
  match v with
  | EmptyString => None
  | String r v' =>
    if byte r =? 34 then Some (buffer, v')
    else if byte r =? 92 then
      match v' with
      | String e v'' =>
        if isTSpecial e then quoted_value (buffer +:+ String e "") v''
        else quoted_value (buffer +:+ String r "") v'
      | EmptyString => quoted_value (buffer +:+ String r "") v'
      end
    else if (byte r =? 13) || (byte r =? 10) then None
    else quoted_value (buffer +:+ String r "") v'
  end.

(** A value and the rest, or [None] where Go consumes nothing. *)
Definition consumeValue (v : string) : option (string * string) :=
  match v with
  | EmptyString => None
  | String c v' =>
    if byte c =? 34 then quoted_value "" v'
    else let '(token, rest) := consumeToken v in if token == "" then None else Some (token, rest)
  end.

(** [strings.CutPrefix(v, c)] *)
Definition cut (c : ascii) (v : string) : option string :=
  match v with
  | String a v' => if Ascii.eqb a c then Some v' else None
  | EmptyString => None
  end.

(** Parameter, value and rest, or [None] when the parameter is malformed. *)
Definition consumeMediaParam (v : string) : option (string * string * string) :=
  rest ← cut ";" (trim_left v);
  let '(param, rest) := consumeToken (trim_left rest) in
  let param := ToLower param in
  if param == "" then None
  else
    rest ← cut "=" (trim_left rest);
    '(value, rest) ← consumeValue (trim_left rest);
    Some (param, value, rest).

Definition checkMediaTypeDisposition (s : string) : result unit :=
  let '(typ, rest) := consumeToken s in
  if typ == "" then Err (New "mime: no media type")
  else if rest == "" then Ok tt
  else
    match cut "/" rest with
    | None => Err (New "mime: expected slash after first token")
    | Some rest =>
      let '(subtype, rest) := consumeToken rest in
      if subtype == "" then Err (New "mime: expected token after slash")
      else if rest == "" then Ok tt
      else Err (New "mime: unexpected content after media subtype")
    end.

(** The loop over the parameters.  Every round consumes a byte, so the length of the header is
    fuel enough. *)
Fixpoint media_params (fuel : nat) (params : gmap string string) (v : string) : result unit :=
  let v := trim_left v in
  if v == "" then Ok tt
  else
    match consumeMediaParam v with
    | None => if TrimSpace v == ";" then Ok tt else Err (New "mime: invalid media parameter")
    | Some (param, value, rest) =>
      match params !! param with
      | Some value' =>
        if value' == value then
          match fuel with O => Err (New "out of fuel") | S fuel' => media_params fuel' params rest end
        else Err (New "mime: duplicate parameter name")
      | None =>
        match fuel with
        | O => Err (New "out of fuel")
        | S fuel' => media_params fuel' (<[param := value]> params) rest
        end
      end
    end.

(** [strings.Cut(v, ";")]: what comes before, and the rest with the separator. *)
Fixpoint before_semicolon (v : string) : string * string :=
  match v with
  | EmptyString => ("", "")
  | String c v' =>
    if Ascii.eqb c ";" then ("", v) else let '(base, rest) := before_semicolon v' in (String c base, rest)
  end.

Definition ParseMediaType (v : string) : result string :=
  let '(base, rest) := before_semicolon v in
  let mediatype := TrimSpace (ToLower base) in
  _ ← checkMediaTypeDisposition mediatype;
  _ ← media_params (String.length rest) ∅ rest;
  Ok mediatype.

(** ** The fuel is enough *)

Lemma length_trim_left v : (String.length (trim_left v) <= String.length v)%nat.
Proof.
  destruct (drop_while_suffix fst (units v)) as (k & Hk & _). unfold trim_left.
  rewrite <-(spell_units v) at 2. rewrite Hk at 2. rewrite spell_app, length_string_app. lia.
Qed.

Lemma length_cut c v rest : cut c v = Some rest → (String.length rest < String.length v)%nat.
Proof. unfold cut. destruct v as [|a v]; [done|]. case_match; [|done]. intros [= <-]. simpl. lia. Qed.

Lemma length_consumeToken v token rest :
  consumeToken v = (token, rest) → (String.length rest <= String.length v)%nat.
Proof.
  revert token rest. induction v as [|c v IH]; simpl; intros token rest; [by intros [= _ <-]|].
  destruct (isTokenChar c).
  - destruct (consumeToken v) as [token' rest'] eqn:E. intros [= _ <-]. specialize (IH _ _ eq_refl). lia.
  - intros [= _ <-]. simpl. lia.
Qed.

Lemma length_quoted_value v buffer x rest :
  quoted_value buffer v = Some (x, rest) → (String.length rest <= String.length v)%nat.
Proof.
  remember (String.length v) as n eqn:Hn. revert v buffer Hn.
  induction (lt_wf n) as [n _ IH]; intros v buffer ->. destruct v as [|r v]; simpl; [done|].
  destruct (byte r =? 34); [intros [= _ <-]; lia|].
  assert (∀ buffer, quoted_value buffer v = Some (x, rest) → (String.length rest <= S (String.length v))%nat) as Hv.
  { intros buffer' Hq. apply (IH (String.length v)) in Hq; [lia|simpl; lia|done]. }
  destruct (byte r =? 92).
  - destruct v as [|e v]; [done|]. destruct (isTSpecial e); [|apply Hv].
    intros Hq. apply (IH (String.length v)) in Hq; [|simpl; lia|done]. simpl. lia.
  - destruct (_ || _); [done|]. apply Hv.
Qed.

Lemma length_consumeValue v x rest : consumeValue v = Some (x, rest) → (String.length rest <= String.length v)%nat.
Proof.
  unfold consumeValue. destruct v as [|c v]; [done|]. case_match.
  - intros Hq%length_quoted_value. simpl. lia.
  - destruct (consumeToken _) as [token rest'] eqn:E. case_match; [done|]. intros [= _ <-]. by eapply length_consumeToken.
Qed.

Lemma length_consumeMediaParam v param x rest :
  consumeMediaParam v = Some (param, x, rest) → (String.length rest < String.length v)%nat.
Proof.
  unfold consumeMediaParam. destruct (cut _ (trim_left v)) as [v1|] eqn:H1; [|done]. simpl.
  destruct (consumeToken _) as [token v2] eqn:H2. case_match; [done|].
  destruct (cut _ (trim_left v2)) as [v3|] eqn:H3; [|done]. simpl.
  destruct (consumeValue _) as [[y v4]|] eqn:H4; [|done]. simpl. intros [= _ _ <-].
  apply length_cut in H1, H3. apply length_consumeToken in H2. apply length_consumeValue in H4.
  pose proof (length_trim_left v). pose proof (length_trim_left v1). pose proof (length_trim_left v2).
  pose proof (length_trim_left v3). lia.
Qed.

(** More fuel than the length of the parameters changes nothing. *)
Lemma media_params_fuel fuel fuel' params v :
  (String.length v <= fuel)%nat → (String.length v <= fuel')%nat →
  media_params fuel params v = media_params fuel' params v.
Proof.
  revert fuel' params v. induction fuel as [|fuel IH]; intros fuel' params v Hf Hf'.
  - destruct v; [|simpl in Hf; lia]. by destruct fuel'.
  - destruct fuel' as [|fuel']; [destruct v; [done|simpl in Hf'; lia]|]. cbn [media_params]. case_match; [done|].
    pose proof (length_trim_left v) as Ht. destruct (consumeMediaParam _) as [[[param x] rest]|] eqn:Hp; [|done].
    apply length_consumeMediaParam in Hp. repeat case_match; try done; apply IH; lia.
Qed.
