(* ===== verification/JsonText.v ===== *)
(** * JSON text

    The text side of [encoding/json]: the scanner that [json.Decoder] runs over the bytes of a
    request body, one byte at a time, with its stack of open objects and arrays and its limit
    on nesting; the unquoting of strings; the text [json.Marshal] and [json.Encoder] write;
    and the decoder over a reader that ends, fails, or is cut by [http.MaxBytesReader].  The
    scanner is a state machine on bytes, so what is read does not depend on how the bytes
    arrive. *)
From S2P Require Import Prelude GoStrings GoErrors Entities Json.
From Stdlib Require Import Ascii Decimal DecimalString DecimalFacts DecimalN DecimalZ.
From Stdlib Require String.

(** Equality of a byte with a character. *)
Local Notation "c =c x" := (Ascii.eqb c x%char) (at level 70, no associativity).

(** ** Code points and string literals *)

Definition chr (z : Z) : ascii := ascii_of_N (Z.to_N z).

(** [utf8.EncodeRune] *)
Definition EncodeRune (r : Z) : string :=
  if r <? 128 then String (chr r) ""
  else if r <? 2048 then String (chr (192 + r / 64)) (String (chr (128 + r mod 64)) "")
  else if r <? 65536 then
    String (chr (224 + r / 4096)) (String (chr (128 + r / 64 mod 64)) (String (chr (128 + r mod 64)) ""))
  else
    String (chr (240 + r / 262144)) (String (chr (128 + r / 4096 mod 64))
      (String (chr (128 + r / 64 mod 64)) (String (chr (128 + r mod 64)) ""))).

Definition hex_value (c : ascii) : option Z :=
  if between 48 c 57 then Some (byte c - 48)
  else if between 97 c 102 then Some (byte c - 87)
  else if between 65 c 70 then Some (byte c - 55)
  else None.

Definition is_hex (c : ascii) : bool := match hex_value c with Some _ => true | None => false end.

(** The four digits of an escape [\uXXXX]. *)
Definition getu4 (a b c d : ascii) : Z :=
  let h x := default 0 (hex_value x) in
  ((h a * 16 + h b) * 16 + h c) * 16 + h d.

(** The character an escape of one letter stands for. *)
Definition escape_value (c : ascii) : Z :=
  if c =c "b" then 8 else if c =c "f" then 12 else if c =c "n" then 10
  else if c =c "r" then 13 else if c =c "t" then 9 else byte c.

(** What stands between the quotes: bytes and escapes. *)
Inductive piece := Plain (a : ascii) | Escaped (r : Z) | Unicode (r : Z).

Fixpoint pieces (s : string) : list piece :=
  match s with
  | EmptyString => []
  | String a s1 =>
    if a =c "\" then
      match s1 with
      | EmptyString => []
      | String e s2 =>
        if e =c "u" then
          match s2 with
          | String h1 (String h2 (String h3 (String h4 s3))) => Unicode (getu4 h1 h2 h3 h4) :: pieces s3
          | _ => []
          end
        else Escaped (escape_value e) :: pieces s2
      end
    else Plain a :: pieces s1
  end.

Definition is_high (r : Z) : bool := (55296 <=? r) && (r <? 56320).
Definition is_low (r : Z) : bool := (56320 <=? r) && (r <? 57344).

Definition ReplacementChar : Z := 65533.

(** The string the pieces stand for: a pair of surrogates is one code point, a lone one and
    every byte that is not UTF-8 become U+FFFD.  [run] holds the bytes since the last escape. *)
Fixpoint render (run : string) (ps : list piece) : string :=
  match ps with
  | [] => ToValidUTF8 run
  | Plain a :: ps1 => render (run +:+ String a "") ps1
  | Escaped r :: ps1 => ToValidUTF8 run +:+ EncodeRune r +:+ render "" ps1
  | Unicode r :: ps1 =>
    ToValidUTF8 run +:+
    (if is_high r then
       match ps1 with
       | Unicode r' :: ps2 =>
         if is_low r' then EncodeRune ((r - 55296) * 1024 + (r' - 56320) + 65536) +:+ render "" ps2
         else EncodeRune ReplacementChar +:+ render "" ps1
       | _ => EncodeRune ReplacementChar +:+ render "" ps1
       end
     else if is_low r then EncodeRune ReplacementChar +:+ render "" ps1
     else EncodeRune r +:+ render "" ps1)
  end.

Definition unquote (literal : string) : string := render "" (pieces literal).

(** A number is an integer unless it is written with a fraction or an exponent. *)
Definition number (literal : string) : json :=
  match NilZero.int_of_string literal with
  | Some d => JNum (Z.of_int d)
  | None => JReal literal
  end.

(** ** The scanner *)

(** An object or array that is open, with what it holds so far. *)
Inductive frame :=
| ObjectKey (done : list (string * json))
| ObjectValue (done : list (string * json)) (key : string)
| ArrayValue (done : list json).

(** Where the scanner is; a literal carries the bytes read of it. *)
Inductive state :=
| BeginValue | BeginValueOrEmpty | BeginStringOrEmpty | BeginString
| EndValue (v : json)
| InString (lit : string) | InStringEsc (lit : string) | InStringEscU (n : nat) (lit : string)
| Neg (lit : string) | Digit0 (lit : string) | Digit1 (lit : string)
| Dot (lit : string) | Dot0 (lit : string)
| Exp (lit : string) | ExpSign (lit : string) | Exp0 (lit : string)
| Word (rest : string) (v : json).

(** What a byte does: go on, complain, end a value before the byte, or close one with it. *)
Inductive outcome :=
| Continue (st : state) (fs : list frame)
| Bad
| End (v : json)
| Closed (v : json).

Definition isSpace (c : ascii) : bool := (c =c " ") || (byte c =? 9) || (byte c =? 13) || (byte c =? 10).

Definition digit (c : ascii) : bool := between 48 c 57.

Definition snoc (lit : string) (c : ascii) : string := lit +:+ String c "".

Definition maxNestingDepth : nat := Z.to_nat 10000.
#[global] Arguments maxNestingDepth : simpl never.

Definition push (st : state) (f : frame) (fs : list frame) : outcome :=
  if (S (length fs) <=? maxNestingDepth)%nat then Continue st (f :: fs) else Bad.

Definition pop (v : json) (fs : list frame) : outcome :=
  match fs with
  | [] => Closed v
  | _ => Continue (EndValue v) fs
  end.

Definition end_value (v : json) (fs : list frame) (c : ascii) : outcome :=
  match fs with
  | [] => End v
  | f :: fs' =>
    if isSpace c then Continue (EndValue v) fs
    else
      match f with
      | ObjectKey done =>
        match v with
        | JString key => if c =c ":" then Continue BeginValue (ObjectValue done key :: fs') else Bad
        | _ => Bad
        end
      | ObjectValue done key =>
        if c =c "," then Continue BeginString (ObjectKey (done ++ [(key, v)]) :: fs')
        else if c =c "}" then pop (JObject (done ++ [(key, v)])) fs'
        else Bad
      | ArrayValue done =>
        if c =c "," then Continue BeginValue (ArrayValue (done ++ [v]) :: fs')
        else if c =c "]" then pop (JArray (done ++ [v])) fs'
        else Bad
      end
  end.

Definition begin_string (fs : list frame) (c : ascii) : outcome :=
  if isSpace c then Continue BeginString fs
  else if byte c =? 34 then Continue (InString "") fs
  else Bad.

Definition begin_value (fs : list frame) (c : ascii) : outcome :=
  if isSpace c then Continue BeginValue fs
  else if c =c "{" then push BeginStringOrEmpty (ObjectKey []) fs
  else if c =c "[" then push BeginValueOrEmpty (ArrayValue []) fs
  else if byte c =? 34 then Continue (InString "") fs
  else if c =c "-" then Continue (Neg "-") fs
  else if c =c "0" then Continue (Digit0 "0") fs
  else if c =c "t" then Continue (Word "rue" (JBool true)) fs
  else if c =c "f" then Continue (Word "alse" (JBool false)) fs
  else if c =c "n" then Continue (Word "ull" JNull) fs
  else if digit c then Continue (Digit1 (String c "")) fs
  else Bad.

Definition is_e (c : ascii) : bool := (c =c "e") || (c =c "E").

Definition scan (st : state) (fs : list frame) (c : ascii) : outcome :=
  match st with
  | BeginValue => begin_value fs c
  | BeginValueOrEmpty =>
    if isSpace c then Continue BeginValueOrEmpty fs
    else if c =c "]" then match fs with _ :: fs' => pop (JArray []) fs' | [] => Bad end
    else begin_value fs c
  | BeginStringOrEmpty =>
    if isSpace c then Continue BeginStringOrEmpty fs
    else if c =c "}" then match fs with _ :: fs' => pop (JObject []) fs' | [] => Bad end
    else begin_string fs c
  | BeginString => begin_string fs c
  | EndValue v => end_value v fs c
  | InString lit =>
    if byte c =? 34 then Continue (EndValue (JString (unquote lit))) fs
    else if c =c "\" then Continue (InStringEsc (snoc lit c)) fs
    else if byte c <? 32 then Bad
    else Continue (InString (snoc lit c)) fs
  | InStringEsc lit =>
    if c =c "u" then Continue (InStringEscU 4 (snoc lit c)) fs
    else if existsb (Ascii.eqb c) (chr 34 :: bytes_of "bfnrt\/") then Continue (InString (snoc lit c)) fs
    else Bad
  | InStringEscU n lit =>
    if is_hex c then
      Continue (match n with S (S n1) => InStringEscU (S n1) (snoc lit c) | _ => InString (snoc lit c) end) fs
    else Bad
  | Neg lit =>
    if c =c "0" then Continue (Digit0 (snoc lit c)) fs
    else if digit c then Continue (Digit1 (snoc lit c)) fs else Bad
  | Digit1 lit =>
    if digit c then Continue (Digit1 (snoc lit c)) fs
    else if c =c "." then Continue (Dot (snoc lit c)) fs
    else if is_e c then Continue (Exp (snoc lit c)) fs
    else end_value (number lit) fs c
  | Digit0 lit =>
    if c =c "." then Continue (Dot (snoc lit c)) fs
    else if is_e c then Continue (Exp (snoc lit c)) fs
    else end_value (number lit) fs c
  | Dot lit => if digit c then Continue (Dot0 (snoc lit c)) fs else Bad
  | Dot0 lit =>
    if digit c then Continue (Dot0 (snoc lit c)) fs
    else if is_e c then Continue (Exp (snoc lit c)) fs
    else end_value (number lit) fs c
  | Exp lit =>
    if (c =c "+") || (c =c "-") then Continue (ExpSign (snoc lit c)) fs
    else if digit c then Continue (Exp0 (snoc lit c)) fs else Bad
  | ExpSign lit => if digit c then Continue (Exp0 (snoc lit c)) fs else Bad
  | Exp0 lit => if digit c then Continue (Exp0 (snoc lit c)) fs else end_value (number lit) fs c
  | Word rest v =>
    match rest with
    | String a rest' =>
      if c =c a then Continue (if (rest' == "") then EndValue v else Word rest' v) fs else Bad
    | EmptyString => Bad
    end
  end.

(** Scan bytes for one value: the value and the bytes after it, a syntax error, or neither yet. *)
Inductive scanned :=
| Value (v : json) (rest : string)
| SyntaxError
| More (st : state) (fs : list frame).

Fixpoint scan_value (st : state) (fs : list frame) (s : string) : scanned :=
  match s with
  | EmptyString => More st fs
  | String c s' =>
    match scan st fs c with
    | Continue st' fs' => scan_value st' fs' s'
    | Bad => SyntaxError
    | End v => Value v s
    | Closed v => Value v s'
    end
  end.

(** ** Readers *)

(** How a body ends: at its end, at the limit of [http.MaxBytesReader], or with another
    error of the connection. *)
Inductive read_error := EOF | MaxBytesError | ReadError.

Record reader := mk_reader {
  content : string;
  ending : read_error }.

(** [http.MaxBytesReader(w, r, n)] *)
Definition MaxBytesReader (r : reader) (n : Z) : reader :=
  if n <? len (content r) then mk_reader (String.substring 0 (Z.to_nat n) (content r)) MaxBytesError
  else r.

Inductive decode_error :=
| DecodeSyntax
| DecodeUnexpectedEOF
| DecodeValue (e : error)
| DecodeRead (e : read_error).

Definition decoded : Type := (json * reader) + decode_error.

(** [Decoder.Decode]: the next value of the stream. *)
Definition read_json (r : reader) : decoded :=
  match scan_value BeginValue [] (content r) with
  | Value v rest => inl (v, mk_reader rest (ending r))
  | SyntaxError => inr DecodeSyntax
  | More st fs =>
    match ending r with
    | EOF =>
      match scan st fs " "%char with
      | End v => inl (v, mk_reader "" EOF)
      | _ => if forallb isSpace (bytes_of (content r)) then inr (DecodeRead EOF) else inr DecodeUnexpectedEOF
      end
    | e => inr (DecodeRead e)
    end
  end.

(** ** What [json.Marshal] writes *)

Definition hex_digit (z : Z) : ascii := if z <? 10 then chr (48 + z) else chr (87 + z).

(** The bytes written as they are: printable ASCII less the quote, the backslash and the
    three characters that are escaped for HTML. *)
Definition safe (a : ascii) : bool :=
  (32 <=? byte a) && (byte a <? 128) && negb (existsb (Ascii.eqb a) (chr 34 :: bytes_of "\<>&")).

Definition escape (a : ascii) : string :=
  if (byte a =? 34) || (a =c "\") then String "\" (String a "")
  else if byte a =? 8 then "\b" else if byte a =? 12 then "\f" else if byte a =? 10 then "\n"
  else if byte a =? 13 then "\r" else if byte a =? 9 then "\t"
  else "\u00" +:+ String (hex_digit (byte a / 16)) (String (hex_digit (byte a mod 16)) "").

(** U+2028 and U+2029 are escaped too. *)
Definition separator (a b c : ascii) : bool :=
  (byte a =? 226) && (byte b =? 128) && ((byte c =? 168) || (byte c =? 169)).

Fixpoint quoted (s : string) : string :=
  match s with
  | EmptyString => ""
  | String a s1 =>
    if byte a <? 128 then (if safe a then String a "" else escape a) +:+ quoted s1
    else
      match s1 with
      | EmptyString => "\ufffd"
      | String b s2 =>
        if utf8_2 a b then String a (String b (quoted s2))
        else
          match s2 with
          | EmptyString => "\ufffd" +:+ quoted s1
          | String c s3 =>
            if utf8_3 a b c then
              (if separator a b c then "\u202" +:+ String (hex_digit (byte c mod 16)) ""
               else String a (String b (String c ""))) +:+ quoted s3
            else
              match s3 with
              | EmptyString => "\ufffd" +:+ quoted s1
              | String d s4 =>
                if utf8_4 a b c d
                then String a (String b (String c (String d (quoted s4))))
                else "\ufffd" +:+ quoted s1
              end
          end
      end
  end.

Definition quote (s : string) : string := String (chr 34) (quoted s +:+ String (chr 34) "").

Fixpoint join (l : list string) : string :=
  match l with
  | [] => ""
  | [s] => s
  | s :: l' => s +:+ "," +:+ join l'
  end.

Fixpoint json_text (j : json) : string :=
  match j with
  | JNull => "null"
  | JBool b => if b then "true" else "false"
  | JNum z => NilZero.string_of_int (Z.to_int z)
  | JReal literal => literal
  | JString s => quote s
  | JArray l => "[" +:+ join (map json_text l) +:+ "]"
  | JObject kvs => "{" +:+ join (map (λ kv, quote kv.1 +:+ ":" +:+ json_text kv.2) kvs) +:+ "}"
  end.

(** ** Lemmas *)

#[local] Arguments String.append !s1 s2 / : simpl nomatch.

Lemma byte_range a : 0 <= byte a < 256.
Proof. unfold byte. pose proof (N_ascii_bounded a). lia. Qed.

Lemma byte_inj a b : byte a = byte b → a = b.
Proof.
  unfold byte. intros H. rewrite <-(ascii_N_embedding a), <-(ascii_N_embedding b). f_equal. lia.
Qed.

(** A property of all bytes, by enumeration. *)
Lemma ascii_forall (P : ascii → bool) :
  forallb (λ n, P (ascii_of_nat n)) (seq 0 256) = true → ∀ a, P a = true.
Proof.
  intros H a. rewrite forallb_forall in H. rewrite <-(ascii_nat_embedding a). apply H, in_seq.
  pose proof (nat_ascii_bounded a). lia.
Qed.

(** *** Strings *)

(** A byte of ASCII, written in a string literal, and the pieces it is read as. *)
Definition ascii_text (a : ascii) : string := if safe a then String a "" else escape a.

Lemma scan_ascii_text a lit fs t :
  byte a < 128 →
  scan_value (InString lit) fs (ascii_text a +:+ t) = scan_value (InString (lit +:+ ascii_text a)) fs t.
Proof.
  intros Ha. destruct a as [[] [] [] [] [] [] [] []]; try (exfalso; vm_compute in Ha; discriminate).
  all: match goal with |- context [ascii_text ?a] =>
         let x := eval vm_compute in (ascii_text a) in change (ascii_text a) with x end.
  all: simpl; unfold snoc; rewrite ?app_string_assoc; reflexivity.
Qed.

Lemma pieces_ascii_text a t :
  byte a < 128 → pieces (ascii_text a +:+ t) = (if safe a then Plain a else
    if (byte a =? 34) || (a =c "\") || existsb (Z.eqb (byte a)) [8; 12; 10; 13; 9] then Escaped (byte a) else Unicode (byte a)) :: pieces t.
Proof.
  intros Ha. destruct a as [[] [] [] [] [] [] [] []]; try (exfalso; vm_compute in Ha; discriminate).
  all: reflexivity.
Qed.

(** The bytes of a code point that is not ASCII. *)
Lemma utf8_high_2 a b : utf8_2 a b = true → 128 <= byte b.
Proof. unfold utf8_2, cont, between. intros H. reflect. lia. Qed.

Lemma utf8_high_3 a b c : utf8_3 a b c = true → 128 <= byte b ∧ 128 <= byte c.
Proof.
  unfold utf8_3, cont, between. rewrite !andb_true_iff, !orb_true_iff, !andb_true_iff, !Z.leb_le, !Z.eqb_eq. lia.
Qed.

Lemma utf8_high_4 a b c d : utf8_4 a b c d = true → 128 <= byte b ∧ 128 <= byte c ∧ 128 <= byte d.
Proof.
  unfold utf8_4, cont, between. rewrite !andb_true_iff, !orb_true_iff, !andb_true_iff, !Z.leb_le, !Z.eqb_eq. lia.
Qed.

Lemma eqb_byte a x : byte a ≠ byte x → Ascii.eqb a x = false.
Proof. intros H. apply Ascii.eqb_neq. congruence. Qed.

Lemma scan_high a lit fs t :
  128 <= byte a → scan_value (InString lit) fs (String a t) = scan_value (InString (lit +:+ String a "")) fs t.
Proof.
  intros Ha. simpl. rewrite (proj2 (Z.eqb_neq _ _)), eqb_byte, (proj2 (Z.ltb_ge _ _)) by (try change (byte "\") with 92; lia).
  done.
Qed.

Lemma pieces_high a t : 128 <= byte a → pieces (String a t) = Plain a :: pieces t.
Proof. intros Ha. simpl. rewrite eqb_byte; [done|]. change (byte "\") with 92. lia. Qed.

Lemma separator_inv a b c :
  separator a b c = true →
  a = chr 226 ∧ b = chr 128 ∧ (c = chr 168 ∨ c = chr 169).
Proof.
  unfold separator. rewrite !andb_true_iff, orb_true_iff, !Z.eqb_eq. intros [[Ha Hb] Hc].
  split; [by apply byte_inj|]. split; [by apply byte_inj|]. destruct Hc; [left|right]; by apply byte_inj.
Qed.

(** The writer of each code point, as an equation. *)
Lemma quoted_ascii a s : byte a < 128 → quoted (String a s) = ascii_text a +:+ quoted s.
Proof. intros Ha. simpl. by rewrite (proj2 (Z.ltb_lt _ _) Ha). Qed.

Lemma quoted_2 a b s :
  128 <= byte a → utf8_2 a b = true → quoted (String a (String b s)) = String a (String b (quoted s)).
Proof. intros Ha Hb. simpl. by rewrite (proj2 (Z.ltb_ge _ _) Ha), Hb. Qed.

Lemma quoted_3 a b c s :
  128 <= byte a → utf8_2 a b = false → utf8_3 a b c = true →
  quoted (String a (String b (String c s))) =
  (if separator a b c then "\u202" +:+ String (hex_digit (byte c mod 16)) ""
   else String a (String b (String c ""))) +:+ quoted s.
Proof. intros Ha Hb Hc. simpl. by rewrite (proj2 (Z.ltb_ge _ _) Ha), Hb, Hc. Qed.

Lemma quoted_4 a b c d s :
  128 <= byte a → utf8_2 a b = false → utf8_3 a b c = false → utf8_4 a b c d = true →
  quoted (String a (String b (String c (String d s)))) = String a (String b (String c (String d (quoted s)))).
Proof. intros Ha Hb Hc Hd. simpl. by rewrite (proj2 (Z.ltb_ge _ _) Ha), Hb, Hc, Hd. Qed.

Lemma quoted_stray a s : 128 <= byte a → stray a s = true → quoted (String a s) = "\ufffd" +:+ quoted s.
Proof.
  intros Ha Hs. cbn [quoted]. rewrite (proj2 (Z.ltb_ge _ _) Ha). destruct s as [|b s2]; [done|].
  simpl in Hs. destruct (utf8_2 a b); [done|]. destruct s2 as [|c s3]; [done|].
  destruct (utf8_3 a b c); [done|]. destruct s3 as [|d s4]; [done|]. by destruct (utf8_4 a b c d).
Qed.

Lemma scan_quoted s fs t lit :
  scan_value (InString lit) fs (quoted s +:+ t) = scan_value (InString (lit +:+ quoted s)) fs t.
Proof.
  revert s lit. apply (rune_ind (λ s, ∀ lit,
    scan_value (InString lit) fs (quoted s +:+ t) = scan_value (InString (lit +:+ quoted s)) fs t)).
  - intros lit. simpl. by rewrite app_string_nil.
  - intros a s Ha IH lit. rewrite quoted_ascii, app_string_assoc, scan_ascii_text, IH by done.
    by rewrite app_string_assoc.
  - intros a b s Ha Hab IH lit. rewrite quoted_2 by done. simpl String.append.
    pose proof (utf8_high_2 _ _ Hab). rewrite !scan_high, IH by done. by rewrite !app_string_assoc.
  - intros a b c s Ha Hab Habc IH lit. rewrite quoted_3 by done. destruct (separator a b c) eqn:Hsep.
    + apply separator_inv in Hsep as (-> & -> & [-> | ->]); cbn -[scan_value quoted]; simpl scan_value; unfold snoc;
        rewrite IH, !app_string_assoc; done.
    + simpl String.append. destruct (utf8_high_3 _ _ _ Habc). rewrite !scan_high, IH by done.
      by rewrite !app_string_assoc.
  - intros a b c d s Ha Hab Habc Hd IH lit. rewrite quoted_4 by done. simpl String.append.
    destruct (utf8_high_4 _ _ _ _ Hd) as (? & ? & ?). rewrite !scan_high, IH by done. by rewrite !app_string_assoc.
  - intros a s Ha Hs IH lit. rewrite quoted_stray by done. cbn -[scan_value quoted]. simpl scan_value. unfold snoc.
    rewrite IH, !app_string_assoc. done.
Qed.

Lemma chr_byte a : chr (byte a) = a.
Proof. unfold chr, byte. by rewrite N2Z.id, ascii_N_embedding. Qed.

Lemma EncodeRune_ascii a : byte a < 128 → EncodeRune (byte a) = String a "".
Proof. intros Ha. unfold EncodeRune. by rewrite (proj2 (Z.ltb_lt _ _) Ha), chr_byte. Qed.

Lemma render_quoted s run :
  ValidString run = true → render run (pieces (quoted s)) = run +:+ ToValidUTF8 s.
Proof.
  revert s run. apply (rune_ind (λ s, ∀ run,
    ValidString run = true → render run (pieces (quoted s)) = run +:+ ToValidUTF8 s)).
  - intros run Hrun. simpl. by rewrite app_string_nil, ToValidUTF8_valid.
  - intros a s Ha IH run Hrun. rewrite quoted_ascii, pieces_ascii_text, ToValidUTF8_ascii by done.
    destruct (safe a); [|destruct (_ || _)]; simpl render.
    + rewrite IH; [by rewrite app_string_assoc|]. apply ValidString_app; [done|]. simpl.
      by rewrite (proj2 (Z.ltb_lt _ _) Ha).
    + rewrite ToValidUTF8_valid, EncodeRune_ascii, IH by done. done.
    + unfold is_high, is_low. rewrite !(proj2 (Z.leb_gt _ (byte a))) by lia. simpl.
      rewrite ToValidUTF8_valid, EncodeRune_ascii, IH by done. done.
  - intros a b s Ha Hab IH run Hrun. rewrite quoted_2, ToValidUTF8_2 by done. pose proof (utf8_high_2 _ _ Hab).
    rewrite !pieces_high by done. simpl render. rewrite app_string_assoc. simpl. rewrite IH, app_string_assoc; [done|].
    apply ValidString_app; [done|]. simpl. by rewrite (proj2 (Z.ltb_ge _ _) Ha), Hab.
  - intros a b c s Ha Hab Habc IH run Hrun. rewrite quoted_3, ToValidUTF8_3 by done. destruct (separator a b c) eqn:Hsep.
    + apply separator_inv in Hsep as (-> & -> & [-> | ->]); simpl; rewrite ToValidUTF8_valid, IH by done; done.
    + simpl String.append. destruct (utf8_high_3 _ _ _ Habc). rewrite !pieces_high by done. simpl render.
      rewrite !app_string_assoc. simpl. rewrite IH, app_string_assoc; [done|].
      apply ValidString_app; [done|]. simpl. by rewrite (proj2 (Z.ltb_ge _ _) Ha), Hab, Habc.
  - intros a b c d s Ha Hab Habc Hd IH run Hrun. rewrite quoted_4, ToValidUTF8_4 by done.
    destruct (utf8_high_4 _ _ _ _ Hd) as (? & ? & ?). rewrite !pieces_high by done. simpl render.
    rewrite !app_string_assoc. simpl. rewrite IH, app_string_assoc; [done|].
    apply ValidString_app; [done|]. simpl. by rewrite (proj2 (Z.ltb_ge _ _) Ha), Hab, Habc, Hd.
  - intros a s Ha Hs IH run Hrun. rewrite quoted_stray, ToValidUTF8_stray by done. simpl.
    by rewrite ToValidUTF8_valid, IH by done.
Qed.

(** Any string is read back with its stray bytes replaced. *)
Lemma unquote_quoted s : unquote (quoted s) = ToValidUTF8 s.
Proof. unfold unquote. by rewrite render_quoted. Qed.

(** *** Numbers *)

Definition delimiter (c : ascii) : bool := negb (digit c || (c =c ".") || is_e c).

(** The digits of a number have no leading zero. *)
Lemma to_uint_norm n : unorm (N.to_uint n) = N.to_uint n.
Proof. by rewrite <-DecimalN.Unsigned.to_of, DecimalN.Unsigned.of_to. Qed.

Lemma to_int_digits z :
  ∃ u, unorm u = u ∧ (Z.to_int z = Decimal.Pos u ∨ Z.to_int z = Decimal.Neg u).
Proof.
  destruct z as [|p|p].
  - exists Decimal.zero. auto.
  - exists (Pos.to_uint p). split; [apply (to_uint_norm (Npos p))|by left].
  - exists (Pos.to_uint p). split; [apply (to_uint_norm (Npos p))|by right].
Qed.

Lemma unorm_cases u :
  unorm u = u → u = Decimal.zero ∨
  ∃ a u', NilEmpty.string_of_uint u = String a (NilEmpty.string_of_uint u') ∧ 49 <= byte a <= 57.
Proof.
  intros Hu. destruct u as [|u|u|u|u|u|u|u|u|u|u].
  2: { left. unfold unorm in Hu. simpl in Hu. destruct (nzhead u) eqn:Hn; try discriminate.
    - by injection Hu as <-.
    - exfalso. by apply (nzhead_nonzero u u0). }
  1: { discriminate. }
  all: right; eexists _, u; split; [reflexivity|]; vm_compute; split; discriminate.
Qed.

Lemma scan_digits u lit fs t :
  scan_value (Digit1 lit) fs (NilEmpty.string_of_uint u +:+ t) =
  scan_value (Digit1 (lit +:+ NilEmpty.string_of_uint u)) fs t.
Proof.
  revert lit. induction u as [|u IH|u IH|u IH|u IH|u IH|u IH|u IH|u IH|u IH|u IH]; intros lit; simpl.
  1: by rewrite app_string_nil.
  all: unfold snoc; rewrite IH, app_string_assoc; reflexivity.
Qed.

Lemma number_text z : number (NilZero.string_of_int (Z.to_int z)) = JNum z.
Proof.
  unfold number. rewrite NilZero.isi, DecimalZ.of_to; [done|..].
  all: destruct (to_int_digits z) as (u & Hu & [-> | ->]); intros [= ->]; discriminate.
Qed.

Lemma scan_end lit fs c t :
  delimiter c = true →
  scan_value (Digit1 lit) fs (String c t) = scan_value (EndValue (number lit)) fs (String c t) ∧
  scan_value (Digit0 lit) fs (String c t) = scan_value (EndValue (number lit)) fs (String c t).
Proof.
  unfold delimiter. intros Hc. reflect. simpl.
  repeat match goal with H : _ = false |- _ => rewrite H; clear H end. done.
Qed.

Lemma begin_digit fs a :
  49 <= byte a <= 57 → scan BeginValue fs a = Continue (Digit1 (String a "")) fs.
Proof.
  intros Ha. simpl. unfold begin_value, isSpace, digit, between.
  rewrite !(proj2 (Z.eqb_neq (byte a) _)), !eqb_byte by (match goal with |- byte a ≠ byte ?x => let y := eval vm_compute in (byte x) in change (byte x) with y | _ => idtac end; lia).
  rewrite !(proj2 (Z.leb_le _ _)) by lia. done.
Qed.

Lemma neg_digit fs a lit :
  49 <= byte a <= 57 → scan (Neg lit) fs a = Continue (Digit1 (snoc lit a)) fs.
Proof.
  intros Ha. simpl. unfold digit, between. rewrite eqb_byte by (change (byte "0") with 48; lia).
  rewrite !(proj2 (Z.leb_le _ _)) by lia. done.
Qed.

Lemma scan_continue st fs c st' fs' t :
  scan st fs c = Continue st' fs' → scan_value st fs (String c t) = scan_value st' fs' t.
Proof. intros H. cbn [scan_value]. by rewrite H. Qed.

Lemma scan_number z fs c t :
  delimiter c = true →
  scan_value BeginValue fs (NilZero.string_of_int (Z.to_int z) +:+ String c t) =
  scan_value (EndValue (JNum z)) fs (String c t).
Proof.
  intros Hc. rewrite <-(number_text z). destruct (to_int_digits z) as (u & Hu & [Hz|Hz]); rewrite Hz; simpl.
  - destruct (unorm_cases u Hu) as [->|(a & u' & Heq & Ha)]; [by apply scan_end|].
    assert (NilZero.string_of_uint u = NilEmpty.string_of_uint u) as -> by (by destruct u).
    rewrite Heq. simpl String.append. rewrite (scan_continue _ _ _ _ _ _ (begin_digit fs a Ha)), scan_digits.
    by apply scan_end.
  - destruct (unorm_cases u Hu) as [->|(a & u' & Heq & Ha)]; [by apply scan_end|].
    assert (NilZero.string_of_uint u = NilEmpty.string_of_uint u) as -> by (by destruct u).
    rewrite Heq. simpl String.append.
    rewrite (scan_continue _ _ _ _ _ _ (neg_digit fs a "-" Ha)), scan_digits. by apply scan_end.
Qed.

(** *** Values *)

Lemma json_nested_ind (P : json → Prop) :
  P JNull → (∀ b, P (JBool b)) → (∀ z, P (JNum z)) → (∀ lit, P (JReal lit)) → (∀ s, P (JString s)) →
  (∀ l, Forall P l → P (JArray l)) → (∀ kvs, Forall (λ kv, P kv.2) kvs → P (JObject kvs)) →
  ∀ j, P j.
Proof.
  intros Hnull Hbool Hnum Hreal Hstr Harr Hobj. fix IH 1. intros [| | | | |l|kvs].
  1: exact Hnull. 1: apply Hbool. 1: apply Hnum. 1: apply Hreal. 1: apply Hstr.
  - apply Harr. induction l as [|j l IHl]; constructor; [apply IH|exact IHl].
  - apply Hobj. induction kvs as [|[k j] kvs IHl]; constructor; [apply IH|exact IHl].
Qed.

(** Values without fractions. *)
Fixpoint integral (j : json) : bool :=
  match j with
  | JReal _ => false
  | JArray l => forallb integral l
  | JObject kvs => forallb (λ kv, integral kv.2) kvs
  | _ => true
  end.

(** What a value is read back as: every stray byte of its strings is U+FFFD. *)
Fixpoint wire (j : json) : json :=
  match j with
  | JString s => JString (ToValidUTF8 s)
  | JArray l => JArray (map wire l)
  | JObject kvs => JObject (map (λ kv, (ToValidUTF8 kv.1, wire kv.2)) kvs)
  | _ => j
  end.

(** Values without fractions and in valid UTF-8, which are read back as they are. *)
Fixpoint text_ok (j : json) : bool :=
  match j with
  | JReal _ => false
  | JString s => ValidString s
  | JArray l => forallb text_ok l
  | JObject kvs => forallb (λ kv, ValidString kv.1 && text_ok kv.2) kvs
  | _ => true
  end.

Fixpoint depth (j : json) : nat :=
  match j with
  | JArray l => S (max_list (map depth l))
  | JObject kvs => S (max_list (map (λ kv, depth kv.2) kvs))
  | _ => 0
  end.

(** The scanner after a value that closes what was opened under [fs]. *)
Definition closes (v : json) (fs : list frame) (t : string) : scanned :=
  match fs with
  | [] => Value v t
  | _ => scan_value (EndValue v) fs t
  end.

(** [text] is scanned as the value [j] inside what is open. *)
Definition reads (text : string) (j : json) (room : nat) : Prop :=
  ∀ f fs c t, delimiter c = true → (length fs < room)%nat →
    scan_value BeginValue (f :: fs) (text +:+ String c t) = scan_value (EndValue j) (f :: fs) (String c t).

Lemma text_ok_wire j : text_ok j = true → integral j = true ∧ wire j = j.
Proof.
  induction j as [| | | |s|l IH|kvs IH] using json_nested_ind; simpl; intros Hok; try done.
  - by rewrite ToValidUTF8_valid.
  - assert (Forall (λ j, integral j = true ∧ wire j = j) l) as Hl.
    { rewrite Forall_forall in IH |- *. rewrite forallb_forall in Hok. intros j Hj. apply IH, Hok; [done|].
      by apply list_elem_of_In. }
    clear IH Hok. induction Hl as [|j l [Hi Hw] _ [IHi IHw]]; simpl; [done|]. rewrite Hi, Hw. simpl.
    split; [done|]. by injection IHw as ->.
  - assert (Forall (λ kv, ValidString kv.1 = true ∧ integral kv.2 = true ∧ wire kv.2 = kv.2) kvs) as Hl.
    { rewrite Forall_forall in IH |- *. rewrite forallb_forall in Hok. intros kv Hkv.
      pose proof (Hok kv (proj1 (list_elem_of_In _ _) Hkv)). reflect. split; [done|]. by apply IH. }
    clear IH Hok. induction Hl as [|[k j] kvs (Hk & Hi & Hw) _ [IHi IHw]]; simpl in *; [done|].
    rewrite Hi, Hw, ToValidUTF8_valid by done. simpl. split; [done|]. by injection IHw as ->.
Qed.

Abbreviation wire_members := (map (λ kv : string * json, (ToValidUTF8 kv.1, wire kv.2))).

Lemma scan_key k sofar fs t :
  scan_value BeginString (ObjectKey sofar :: fs) (quote k +:+ ":" +:+ t) =
  scan_value BeginValue (ObjectValue sofar (ToValidUTF8 k) :: fs) t.
Proof.
  unfold quote. simpl. rewrite app_string_assoc. rewrite scan_quoted. simpl. by rewrite unquote_quoted.
Qed.

Lemma join_cons s s' l : join (s :: s' :: l) = s +:+ "," +:+ join (s' :: l).
Proof. done. Qed.

Lemma scan_members kvs room fs t sofar :
  kvs ≠ [] → Forall (λ kv, reads (json_text kv.2) (wire kv.2) room) kvs → (length fs < room)%nat →
  scan_value BeginString (ObjectKey sofar :: fs)
    (join (map (λ kv, quote kv.1 +:+ ":" +:+ json_text kv.2) kvs) +:+ "}" +:+ t) =
  closes (JObject (sofar ++ wire_members kvs)) fs t.
Proof.
  intros Hne Hv Hroom. revert sofar Hne. induction Hv as [|[k v] kvs Hread Hv IH]; intros sofar Hne; [done|].
  destruct kvs as [|kv kvs].
  - cbn [map join fst snd]. rewrite !app_string_assoc, scan_key.
    etransitivity; [by apply (Hread (ObjectValue sofar (ToValidUTF8 k)) fs "}"%char t)|]. by destruct fs.
  - cbn [map fst snd]. rewrite join_cons, !app_string_assoc, scan_key.
    etransitivity; [by apply (Hread (ObjectValue sofar (ToValidUTF8 k)) fs ","%char)|]. cbn [scan_value scan end_value].
    etransitivity; [by apply IH|]. by rewrite <-app_assoc.
Qed.

Lemma scan_items l room fs t sofar :
  l ≠ [] → Forall (λ j, reads (json_text j) (wire j) room) l → (length fs < room)%nat →
  scan_value BeginValue (ArrayValue sofar :: fs) (join (map json_text l) +:+ "]" +:+ t) =
  closes (JArray (sofar ++ map wire l)) fs t.
Proof.
  intros Hne Hv Hroom. revert sofar Hne. induction Hv as [|v l Hread Hv IH]; intros sofar Hne; [done|].
  destruct l as [|v' l].
  - cbn [map join]. etransitivity; [by apply (Hread (ArrayValue sofar) fs "]"%char t)|]. by destruct fs.
  - cbn [map]. rewrite join_cons, !app_string_assoc.
    etransitivity; [by apply (Hread (ArrayValue sofar) fs ","%char)|]. cbn [scan_value scan end_value].
    etransitivity; [by apply IH|]. by rewrite <-app_assoc.
Qed.

(** The first byte of a value. *)
Lemma json_text_head j :
  integral j = true → ∃ c s, json_text j = String c s ∧ isSpace c = false ∧ (c =c "]") = false.
Proof.
  destruct j as [|[]|z|lit|s|l|kvs]; simpl; intros Hok; try done; try by eexists _, _.
  destruct (to_int_digits z) as (u & Hu & [-> | ->]); [|by eexists _, _].
  simpl. assert (u ≠ Decimal.Nil) as Hne by (by intros ->).
  destruct u; try done; by eexists _, _.
Qed.

Lemma max_list_elem {A} (f : A → nat) l x : x ∈ l → (f x <= max_list (map f l))%nat.
Proof. induction 1 as [|x y l _ IH]; simpl; lia. Qed.

Lemma forallb_elem {A} (p : A → bool) l x : forallb p l = true → x ∈ l → p x = true.
Proof. rewrite forallb_forall. intros H ?%list_elem_of_In. auto. Qed.

Lemma push_ok st f fs : (length fs < maxNestingDepth)%nat → push st f fs = Continue st (f :: fs).
Proof. intros H. unfold push. by rewrite (proj2 (Nat.leb_le _ _) H). Qed.

(** Opening and closing: an object or array of values that are read is read. *)
Lemma scan_object kvs fs t room :
  Forall (λ kv, reads (json_text kv.2) (wire kv.2) room) kvs →
  (length fs < room)%nat → (length fs < maxNestingDepth)%nat →
  scan_value BeginValue fs (json_text (JObject kvs) +:+ t) = closes (wire (JObject kvs)) fs t.
Proof.
  intros Hv Hroom Hmax. cbn [json_text]. rewrite !app_string_assoc.
  etransitivity; [apply (scan_continue BeginValue fs "{"%char BeginStringOrEmpty (ObjectKey [] :: fs)); by apply push_ok|].
  destruct kvs as [|[k v] kvs]; [by destruct fs|].
  transitivity (scan_value BeginString (ObjectKey [] :: fs)
    (join (map (λ kv, quote kv.1 +:+ ":" +:+ json_text kv.2) ((k, v) :: kvs)) +:+ "}" +:+ t)).
  - by destruct kvs.
  - by rewrite (scan_members _ room).
Qed.

Lemma scan_array l fs t room :
  forallb integral l = true → Forall (λ j, reads (json_text j) (wire j) room) l →
  (length fs < room)%nat → (length fs < maxNestingDepth)%nat →
  scan_value BeginValue fs (json_text (JArray l) +:+ t) = closes (wire (JArray l)) fs t.
Proof.
  intros Hk Hv Hroom Hmax. cbn [json_text]. rewrite !app_string_assoc.
  etransitivity; [apply (scan_continue BeginValue fs "["%char BeginValueOrEmpty (ArrayValue [] :: fs)); by apply push_ok|].
  destruct l as [|j l]; [by destruct fs|].
  transitivity (scan_value BeginValue (ArrayValue [] :: fs) (join (map json_text (j :: l)) +:+ "]" +:+ t)).
  - simpl in Hk. reflect. destruct (json_text_head j) as (c & s & Hc & Hsp & Hbr); [done|].
    cbn [map]. destruct (map json_text l); [cbn [join]|rewrite join_cons]; rewrite Hc; simpl; by rewrite Hsp, Hbr.
  - by rewrite (scan_items _ room).
Qed.

(** A value without fractions is read back from its text. *)
Lemma scan_json j : integral j = true → ∀ room, (room + depth j <= maxNestingDepth)%nat → reads (json_text j) (wire j) room.
Proof.
  induction j as [|b|z|lit|s|l IH|kvs IH] using json_nested_ind; simpl integral; intros Hok room Hd f fs c t Hc Hr.
  - done.
  - by destruct b.
  - by apply scan_number.
  - done.
  - unfold json_text, quote. simpl. rewrite app_string_assoc, scan_quoted. simpl. by rewrite unquote_quoted.
  - simpl in Hd. rewrite (scan_array l (f :: fs) _ (S room)); [done|done| |simpl; lia|simpl; lia].
    rewrite Forall_forall in IH |- *. intros j Hj. pose proof (max_list_elem depth _ _ Hj).
    apply IH; [done|by eapply forallb_elem|]. lia.
  - simpl in Hd. rewrite (scan_object kvs (f :: fs) _ (S room)); [done| |simpl; lia|simpl; lia].
    rewrite Forall_forall in IH |- *. intros kv Hkv. pose proof (max_list_elem (λ kv, depth kv.2) _ _ Hkv).
    pose proof (forallb_elem _ _ _ Hok Hkv). apply IH; [done|done|]. lia.
Qed.

(** The text of an object, followed by anything, is read as that object. *)
Lemma scan_object_wire kvs t :
  integral (JObject kvs) = true → (depth (JObject kvs) <= maxNestingDepth)%nat →
  scan_value BeginValue [] (json_text (JObject kvs) +:+ t) = Value (wire (JObject kvs)) t.
Proof.
  intros Hok Hd. simpl in Hok, Hd. apply (scan_object kvs [] t 1); [|simpl; lia..].
  apply Forall_forall. intros kv Hkv. pose proof (max_list_elem (λ kv, depth kv.2) _ _ Hkv).
  pose proof (forallb_elem _ _ _ Hok Hkv). apply scan_json; [done|]. lia.
Qed.

Lemma scan_object_text kvs t :
  text_ok (JObject kvs) = true → (depth (JObject kvs) <= maxNestingDepth)%nat →
  scan_value BeginValue [] (json_text (JObject kvs) +:+ t) = Value (JObject kvs) t.
Proof.
  intros Hok Hd. destruct (text_ok_wire _ Hok) as [Hi Hw]. rewrite <-Hw at 2. by apply scan_object_wire.
Qed.

(** Nothing but white space is left exactly when the next value is missing at the end. *)
Lemma scan_spaces s fs : forallb isSpace (bytes_of s) = true → scan_value BeginValue fs s = More BeginValue fs.
Proof.
  induction s as [|c s IH]; simpl; [done|]. intros [Hc Hs]%andb_true_iff. unfold begin_value. rewrite Hc. auto.
Qed.

Lemma read_json_EOF r :
  read_json r = inr (DecodeRead EOF) ↔ ending r = EOF ∧ forallb isSpace (bytes_of (content r)) = true.
Proof.
  unfold read_json. split.
  - destruct (scan_value _ _ _) as [| |st fs]; [done..|]. destruct (ending r); [|done..].
    destruct (scan st fs _), (forallb _ _); done.
  - intros [-> Hs]. by rewrite scan_spaces, Hs.
Qed.

(** ** Objects end with their last byte *)

Definition scalar (v : json) : bool := match v with JArray _ | JObject _ => false | _ => true end.

(** At the top, only a scalar can be pending. *)
Definition pending (st : state) (fs : list frame) : bool :=
  match fs, st with
  | [], (EndValue v | Word _ v) => scalar v
  | _, _ => true
  end.

Lemma number_scalar lit : scalar (number lit) = true.
Proof. unfold number. by destruct (NilZero.int_of_string lit). Qed.

(** What a step does to a pending value: an end gives a scalar. *)
Definition settled (o : outcome) : Prop :=
  match o with
  | Continue st fs => pending st fs = true
  | End v => scalar v = true
  | _ => True
  end.

Lemma end_value_settled v fs c : (fs = [] → scalar v = true) → settled (end_value v fs c).
Proof.
  intros Hv. destruct fs as [|f fs]; [by apply Hv|]. unfold end_value. destruct (isSpace c); [done|].
  assert (∀ v', settled (pop v' fs)) by (by destruct fs).
  destruct f; [destruct v| |]; repeat case_match; by destruct fs.
Qed.

Lemma begin_value_settled fs c : settled (begin_value fs c).
Proof. unfold begin_value, push. destruct fs; repeat case_match; done. Qed.

Lemma begin_string_settled fs c : settled (begin_string fs c).
Proof. unfold begin_string. destruct fs; repeat case_match; done. Qed.

Lemma scan_settled st fs c : pending st fs = true → settled (scan st fs c).
Proof.
  intros Hp. destruct st; simpl; repeat (case_match; try done);
    try apply begin_value_settled; try apply begin_string_settled; try (by destruct fs);
    try (apply end_value_settled; intros ->; first [done|apply number_scalar]).
  - subst. by destruct l.
  - subst. by destruct l.
Qed.

(** An object is read with its last byte, and the bytes after it do not matter. *)
Lemma scan_value_split st fs s v rest :
  pending st fs = true → scan_value st fs s = Value v rest → scalar v = false →
  ∃ text, s = text +:+ rest ∧ ∀ t, scan_value st fs (text +:+ t) = Value v t.
Proof.
  intros Hp Hs Hv. revert st fs Hp Hs. induction s as [|c s IH]; intros st fs Hp Hs; [done|].
  cbn [scan_value] in Hs. pose proof (scan_settled st fs c Hp) as Hset. destruct (scan st fs c) eqn:Hsc; [|done|..].
  - destruct (IH _ _ Hset Hs) as (text & -> & Ht). exists (String c text). split; [done|]. intros t.
    cbn [String.append scan_value]. by rewrite Hsc.
  - simplify_eq. simpl in Hset. congruence.
  - simplify_eq. exists (String c ""). split; [done|]. intros t. cbn [String.append scan_value]. by rewrite Hsc.
Qed.

Lemma scan_value_pending st fs s st' fs' :
  pending st fs = true → scan_value st fs s = More st' fs' → pending st' fs' = true.
Proof.
  revert st fs. induction s as [|c s IH]; intros st fs Hp; cbn [scan_value]; [by intros [= <- <-]|].
  pose proof (scan_settled st fs c Hp) as Hset. destruct (scan st fs c); try done. by apply IH.
Qed.

Lemma read_json_object r kvs rest :
  read_json r = inl (JObject kvs, rest) →
  ∃ text, content r = text +:+ content rest ∧ ending rest = ending r ∧
    ∀ t, scan_value BeginValue [] (text +:+ t) = Value (JObject kvs) t.
Proof.
  unfold read_json. destruct (scan_value _ _ _) as [v rest'| |st fs] eqn:Hs; [|done|].
  - intros [= -> <-]. apply scan_value_split in Hs as (text & Hc & Ht); [|done..]. by exists text.
  - apply scan_value_pending in Hs as Hp; [|done]. destruct (ending r); [|done..].
    pose proof (scan_settled st fs " "%char Hp) as Hset. destruct (scan st fs " "%char); try (by destruct (forallb _ _)).
    intros [= -> _]. done.
Qed.
