(* ===== verification/Http.v ===== *)
(** * HTTP

    What the program uses of [net/http]: headers under their canonical names, requests, the
    interface of a response writer with the server's own writer as an instance, loggers, and
    handlers.  The server's writer sends its header with the first [WriteHeader] or [Write] and
    ignores later ones.  A handler runs on a world (the writer, the state behind the services,
    the log); it returns, or it panics. *)
From S2P Require Import Prelude GoStrings GoErrors Entities Json Mime JsonText.
From Stdlib Require Import Ascii.

(** ** Headers *)

Definition ascii_upper (a : ascii) : ascii :=
  if between 97 a 122 then ascii_of_N (N_of_ascii a - 32) else a.

(** The bytes of a header name. *)
Definition header_byte (c : ascii) : bool := isTokenChar c && negb (Ascii.eqb c "{") && negb (Ascii.eqb c "}").

(** Upper case at the start and after a hyphen, lower case elsewhere. *)
Fixpoint canonical_case (upper : bool) (s : string) : string :=
  match s with
  | EmptyString => ""
  | String a s' => String (if upper then ascii_upper a else ascii_lower a) (canonical_case (Ascii.eqb a "-") s')
  end.

(** [textproto.CanonicalMIMEHeaderKey] *)
Definition CanonicalHeaderKey (s : string) : string :=
  if forallb header_byte (bytes_of s) then canonical_case true s else s.

Abbreviation header := (gmap string (list string)).

(** [h.Values(key)], [h.Get(key)], [h.Set(key, value)] *)
Definition Values (key : string) (h : header) : list string := default [] (h !! CanonicalHeaderKey key).

Definition Header_Get (key : string) (h : header) : string := default "" (head (Values key h)).

Definition Header_Set (key value : string) (h : header) : header := <[CanonicalHeaderKey key := [value]]> h.

(** ** Response writers *)

(** What is written: the text of a JSON value, as [json.Encoder] writes it, or bytes. *)
Inductive chunk :=
| Encoded (j : json)
| Raw (s : string).

Definition chunk_text (c : chunk) : string :=
  match c with
  | Encoded j => json_text j +:+ String (chr 10) ""
  | Raw s => s
  end.

(** [http.ResponseWriter] *)
Class ResponseWriter (W : Type) := {
  set_header : string → string → W → W;
  WriteHeader : Z → W → W;
  Write : chunk → W → W }.

(** The writer of the server: the header that is being prepared, the status and the header
    that were sent, and what was written. *)
Record response := mk_response {
  r_header : header;
  r_status : option Z;
  r_sent : header;
  r_body : list chunk }.

Definition new_response : response := mk_response ∅ None ∅ [].

Definition response_WriteHeader (status : Z) (w : response) : response :=
  match r_status w with
  | Some _ => w
  | None => mk_response (r_header w) (Some status) (r_header w) (r_body w)
  end.

#[global] Instance response_writer : ResponseWriter response := {|
  set_header key value w := mk_response (Header_Set key value (r_header w)) (r_status w) (r_sent w) (r_body w);
  WriteHeader := response_WriteHeader;
  Write c w :=
    let w := response_WriteHeader 200 w in
    mk_response (r_header w) (r_status w) (r_sent w) (r_body w ++ [c]) |}.

(** ** Requests *)

(** [EscapedPath] is [URL.EscapedPath()], [Path] is [URL.Path], [RawQuery] is [URL.RawQuery];
    [PathValue] is what the mux matched with the wildcard [{id}]. *)
Record request {C : Type} := mk_request {
  Method : string;
  EscapedPath : string;
  Path : string;
  RawQuery : string;
  PathValue : string;
  Header : header;
  Body : reader;
  Context : C }.
Arguments request C : clear implicits.

(** [r.WithContext(ctx)] *)
Definition WithContext {C} (ctx : C) (r : request C) : request C :=
  mk_request C (Method r) (EscapedPath r) (Path r) (RawQuery r) (PathValue r) (Header r) (Body r) ctx.

(** [r.SetPathValue("id", value)] *)
Definition SetPathValue {C} (value : string) (r : request C) : request C :=
  mk_request C (Method r) (EscapedPath r) (Path r) (RawQuery r) value (Header r) (Body r) (Context r).

(** ** Panics *)

(** The values a handler may panic with. *)
Inductive panic :=
| ErrAbortHandler
| RuntimeError (msg : string).

Inductive exit := Returned | Panicked (v : panic).

(** ** Logs *)

Inductive level := Debug | Info | Warn | Error.

(** The value of an attribute; a float is [m] divided by [2 ^ e]. *)
Inductive attr :=
| AString (s : string)
| AInt (z : Z)
| AFloat (m e : Z)
| AError (e : error)
| APanic (v : panic).

Record entry := mk_entry {
  log_level : level;
  log_message : string;
  log_attrs : list (string * attr) }.

(** A logger, by the levels it records. *)
Abbreviation logger := (level → bool) (only parsing).

(** ** Handlers *)

Record world {W S : Type} := mk_world {
  writer : W;
  store : S;
  log : list entry }.
Arguments world W S : clear implicits.
Arguments mk_world {W S} writer store log.

Section worlds.
Context {W S : Type}.
Implicit Types (w : world W S).

Definition on_writer (f : W → W) w : world W S := mk_world (f (writer w)) (store w) (log w).

Definition with_store (s : S) w : world W S := mk_world (writer w) s (log w).

Definition logged (l : logger) (e : entry) w : world W S :=
  if l (log_level e) then mk_world (writer w) (store w) (log w ++ [e]) else w.

Definition handler (C : Type) : Type := request C → world W S → exit * world W S.

End worlds.
Arguments handler W S C : clear implicits.

(** A call of a service: it returns a value or an error, or it panics. *)
Definition service (S A : Type) : Type := S → (panic + result A) * S.

Definition serving {S A} (m : tx S A) : service S A := λ s, let '(res, s') := m s in (inr res, s').

(** Call a service from a handler and go on with its result; a panic unwinds the handler. *)
Definition calling {W S A} (m : service S A) (w : world W S) (k : result A → world W S → exit * world W S) :
    exit * world W S :=
  match m (store w) with
  | (inl v, s) => (Panicked v, with_store s w)
  | (inr res, s) => k res (with_store s w)
  end.

(** ** Lemmas *)

Lemma set_header_status key value (w : response) : r_status (set_header key value w) = r_status w.
Proof. done. Qed.

Lemma Write_after status c (w : response) :
  r_status w = None →
  Write c (WriteHeader status w) = mk_response (r_header w) (Some status) (r_header w) (r_body w ++ [c]).
Proof. intros Hw. simpl. unfold response_WriteHeader at 1. simpl. unfold response_WriteHeader. by rewrite Hw. Qed.

Lemma Header_Get_Set key value h : Header_Get key (Header_Set key value h) = value.
Proof. unfold Header_Get, Header_Set, Values. by rewrite lookup_insert_eq. Qed.

Lemma Header_Get_Set_ne key key' value h :
  CanonicalHeaderKey key ≠ CanonicalHeaderKey key' → Header_Get key (Header_Set key' value h) = Header_Get key h.
Proof. intros Hne. unfold Header_Get, Header_Set, Values. by rewrite lookup_insert_ne. Qed.

(** Read a header through the settings of others. *)
Ltac headers :=
  repeat first [ rewrite Header_Get_Set | rewrite Header_Get_Set_ne by (vm_compute; discriminate) ].
