(* ===== verification/Auth.v ===== *)
(** * Authentication

    [internal/service/auth]: tokens ([token.go]), login ([login.go]) and the middleware
    that guards the routes ([middleware.go]).  The JWT and bcrypt libraries are
    parameters with their documented behaviour as laws.  Times are nanoseconds since the
    Unix epoch; the time of a call is an argument. *)
From S2P Require Import Prelude GoStrings GoErrors Entities Json Contracts JsonText Http.

(** ** Claims *)

Abbreviation Permission := string (only parsing).

Definition PermissionTransfersRead : Permission := "transfers:read".
Definition PermissionTransfersCreate : Permission := "transfers:create".
Definition PermissionAccountsRead : Permission := "accounts:read".

Definition Second : Z := 1000000000.
Definition AccessTokenTTL : Z := 15 * 60 * Second.

Module Claims.
Record t := mk {
  Subject : string;
  Issuer : string;
  Audience : list string;
  ExpiresAt : option time;
  NotBefore : option time;
  IssuedAt : option time;
  ID : string;
  Permissions : list Permission }.

#[global] Instance eq_dec : EqDecision t.
Proof. solve_decision. Defined.

(** [t.Sub(u)] on times: a [Duration], saturated. *)
Definition Sub (t u : time) : Z := Z.max MinInt64 (Z.min MaxInt64 (t - u)).

Definition Validate (c : t) : result unit :=
  if TrimSpace (Subject c) == "" then Err (Sentinel ErrInvalidToken)
  else
    match IssuedAt c, ExpiresAt c with
    | Some iat, Some exp =>
      if (exp <=? iat) || (AccessTokenTTL <? Sub exp iat) then Err (Sentinel ErrInvalidToken)
      else Ok tt
    | _, _ => Err (Sentinel ErrInvalidToken)
    end.

Fixpoint has_permission (granted : list Permission) (permission : Permission) : bool :=
  match granted with
  | [] => false
  | g :: granted' =>
    if (permission != "") && (g == permission) then true else has_permission granted' permission
  end.

Definition HasPermission (c : t) (permission : Permission) : bool :=
  has_permission (Permissions c) permission.
End Claims.

(** ** The JWT library *)

(** The options given to [ParseWithClaims]. *)
Record parse_options := mk_parse_options {
  WithValidMethods : list string;
  WithIssuer : string;
  WithAudience : string;
  WithExpirationRequired : bool;
  WithIssuedAt : bool;
  WithStrictDecoding : bool }.

Class Jwt := {
  (** [jwt.NewWithClaims(jwt.SigningMethodHS256, claims).SignedString(key)] *)
  SignedString : list Ascii.ascii → Claims.t → result string;
  (** [jwt.ParseWithClaims] with the key, the options, the [Validate] method of the claims and
      the current time: the claims, and whether the token is valid. *)
  ParseWithClaims : list Ascii.ascii → parse_options → (Claims.t → result unit) → time → string →
    result (Claims.t * bool);
  (** The token carries these claims under a signature made with this key and method. *)
  signed_by : string → list Ascii.ascii → string → Claims.t → Prop }.

(** [jwt.NewNumericDate]: whole seconds. *)
Definition NewNumericDate (t : time) : time := t / Second * Second.

(** What the validator of the library checks of the registered claims. *)
Record accepted (o : parse_options) (now : time) (c : Claims.t) : Prop := {
  acc_issuer : Claims.Issuer c = WithIssuer o;
  acc_audience : WithAudience o ∈ Claims.Audience c;
  acc_expires : match Claims.ExpiresAt c with
                | Some exp => now < exp
                | None => WithExpirationRequired o = false
                end;
  acc_not_before : ∀ nbf, Claims.NotBefore c = Some nbf → nbf <= now;
  acc_issued : WithIssuedAt o = true → ∀ iat, Claims.IssuedAt c = Some iat → iat <= now }.

(** Claims that survive their JSON encoding: valid UTF-8, whole seconds. *)
Definition whole_seconds (t : option time) : Prop := ∀ x, t = Some x → NewNumericDate x = x.

Record encodable (c : Claims.t) : Prop := {
  enc_texts : forallb ValidString
    (Claims.Subject c :: Claims.Issuer c :: Claims.ID c :: Claims.Audience c ++ Claims.Permissions c) = true;
  enc_expires : whole_seconds (Claims.ExpiresAt c);
  enc_not_before : whole_seconds (Claims.NotBefore c);
  enc_issued : whole_seconds (Claims.IssuedAt c) }.

(** The documented behaviour: a parsed token was signed with the key and an allowed method, and
    its claims pass the library's checks and their own [Validate]; a token that was signed and
    passes them is parsed back. *)
Class JwtLaws `{!Jwt} := {
  parse_sound key o validate now raw c v :
    ParseWithClaims key o validate now raw = Ok (c, v) →
    v = true ∧ (∃ alg, alg ∈ WithValidMethods o ∧ signed_by alg key raw c) ∧
    accepted o now c ∧ validate c = Ok tt;
  sign_sound key c raw : SignedString key c = Ok raw → signed_by "HS256" key raw c;
  (** An error of the library is none of the program's own. *)
  sign_errors key c e target : SignedString key c = Err e → Is e target = false;
  (** A token carries one set of claims. *)
  signed_once alg alg' key key' raw c c' :
    signed_by alg key raw c → signed_by alg' key' raw c' → c = c';
  parse_complete key o validate now raw c :
    SignedString key c = Ok raw → encodable c → "HS256" ∈ WithValidMethods o →
    accepted o now c → validate c = Ok tt →
    ParseWithClaims key o validate now raw = Ok (c, true) }.

(** ** Tokens *)

Record TokenService := mk_TokenService {
  key : list Ascii.ascii;
  issuer : string;
  audience : string }.

Definition NewTokenService (k : list Ascii.ascii) (iss aud : string) : result TokenService :=
  if (Z.of_nat (length k) <? 32) then Err (New "JWT signing key must contain at least 32 random bytes")
  else if (TrimSpace iss == "") || (TrimSpace aud == "")
  then Err (New "JWT issuer and audience are required")
  else Ok (mk_TokenService ([] ++ k) iss aud).

Section tokens.
Context `{!Jwt}.

(** The claims [Issue] signs. *)
Definition issued_claims (s : TokenService) (userID : string) (permissions : list Permission) (now : time) :
    Claims.t :=
  Claims.mk userID (issuer s) [audience s]
    (Some (NewNumericDate (now + AccessTokenTTL))) None (Some (NewNumericDate now)) ""
    ([] ++ permissions).

Definition Issue (s : TokenService) (userID : string) (permissions : list Permission) (now : time) :
    result string :=
  if TrimSpace userID == "" then Err (New "user ID is required")
  else SignedString (key s) (issued_claims s userID permissions now).

Definition verify_options (s : TokenService) : parse_options :=
  mk_parse_options ["HS256"] (issuer s) (audience s) true true true.

Definition Verify (s : TokenService) (raw : string) (now : time) : result Claims.t :=
  match ParseWithClaims (key s) (verify_options s) Claims.Validate now raw with
  | Err _ => Err (Sentinel ErrInvalidToken)
  | Ok (claims, valid) => if negb valid then Err (Sentinel ErrInvalidToken) else Ok claims
  end.

(** ** Lemmas on claims *)

Lemma Validate_claims c :
  Claims.Validate c = Ok tt ↔
  TrimSpace (Claims.Subject c) ≠ "" ∧
  ∃ iat exp, Claims.IssuedAt c = Some iat ∧ Claims.ExpiresAt c = Some exp ∧
    iat < exp ∧ exp - iat <= AccessTokenTTL.
Proof.
  unfold Claims.Validate. case_bool_decide as Hs.
  { split; [done|]. by intros [? _]. }
  destruct (Claims.IssuedAt c) as [iat|]; [|split; [done|by intros (_ & ? & ? & ? & _)]].
  destruct (Claims.ExpiresAt c) as [exp|]; [|split; [done|by intros (_ & ? & ? & _ & ? & _)]].
  assert (AccessTokenTTL <? Claims.Sub exp iat = (AccessTokenTTL <? exp - iat)) as ->.
  { unfold Claims.Sub. apply eq_bool_prop_intro.
    rewrite !Is_true_true, !Z.ltb_lt. unfold AccessTokenTTL, Second, MinInt64, MaxInt64. lia. }
  destruct (_ || _) eqn:E.
  - split; [done|]. intros (_ & ? & ? & ? & ? & ? & ?). simplify_eq.
    apply orb_true_iff in E as [E|E]; [apply Z.leb_le in E|apply Z.ltb_lt in E]; lia.
  - reflect. split; [|done]. intros _. split; [done|]. exists iat, exp. repeat split; lia.
Qed.

Lemma HasPermission_spec c p :
  Claims.HasPermission c p = true ↔ p ≠ "" ∧ p ∈ Claims.Permissions c.
Proof.
  unfold Claims.HasPermission. induction (Claims.Permissions c) as [|g l IH]; simpl.
  - split; [done|]. by intros [_ ?%elem_of_nil].
  - rewrite elem_of_cons. repeat case_bool_decide; simpl; naive_solver.
Qed.

Lemma Verify_Err s raw now e : Verify s raw now = Err e → e = Sentinel ErrInvalidToken.
Proof. unfold Verify. intros Hv. repeat case_match; by simplify_eq. Qed.

Lemma Issue_Ok s u ps now raw :
  Issue s u ps now = Ok raw →
  TrimSpace u ≠ "" ∧ SignedString (key s) (issued_claims s u ps now) = Ok raw.
Proof. unfold Issue. case_bool_decide; [done|]. auto. Qed.

Context `{!JwtLaws}.

(** A verified token: signed with the service's key, for it, by it, and current. *)
Lemma Verify_Ok s raw now c :
  Verify s raw now = Ok c →
  signed_by "HS256" (key s) raw c ∧ accepted (verify_options s) now c ∧ Claims.Validate c = Ok tt.
Proof.
  unfold Verify. destruct (ParseWithClaims _ _ _ _ _) as [[c' v]|] eqn:Hp; [|done].
  apply parse_sound in Hp as (-> & (alg & Halg & Hs) & Ha & Hv). simpl in *. intros [= <-].
  apply list_elem_of_singleton in Halg as ->. done.
Qed.

Lemma NewNumericDate_whole t : NewNumericDate (NewNumericDate t) = NewNumericDate t.
Proof. unfold NewNumericDate, Second. by rewrite Z.div_mul. Qed.

Lemma NewNumericDate_TTL t : NewNumericDate (t + AccessTokenTTL) = NewNumericDate t + AccessTokenTTL.
Proof.
  unfold NewNumericDate, AccessTokenTTL. rewrite Z.div_add by done. lia.
Qed.

(** The claims of a fresh token, at a time at which it is current. *)
Lemma issued_valid s u ps now : TrimSpace u ≠ "" → Claims.Validate (issued_claims s u ps now) = Ok tt.
Proof.
  intros Hu. apply Validate_claims. split; [done|]. eexists _, _. split; [done|]. split; [done|].
  rewrite NewNumericDate_TTL. unfold AccessTokenTTL, Second. lia.
Qed.

Lemma issued_accepted s u ps now now' :
  accepted (verify_options s) now' (issued_claims s u ps now) ↔
  NewNumericDate now <= now' < NewNumericDate now + AccessTokenTTL.
Proof.
  split.
  - intros [_ _ Hexp _ Hiat]. simpl in *. rewrite NewNumericDate_TTL in Hexp.
    specialize (Hiat eq_refl _ eq_refl). lia.
  - intros [Hlo Hhi]. split; simpl; [done|by apply list_elem_of_here| |done|by intros _ ? [= <-]].
    by rewrite NewNumericDate_TTL.
Qed.

Lemma issued_encodable s u ps now :
  forallb ValidString (u :: issuer s :: audience s :: ps) = true → encodable (issued_claims s u ps now).
Proof.
  intros Ht. split; simpl in *; [|by intros ? [= <-]; apply NewNumericDate_whole|done
    |by intros ? [= <-]; apply NewNumericDate_whole].
  reflect. repeat match goal with H : _ = true |- _ => rewrite H; clear H end. done.
Qed.

End tokens.

(** ** Login *)

Class Bcrypt := {
  (** [bcrypt.CompareHashAndPassword] *)
  CompareHashAndPassword : string → string → result unit;
  (** [bcrypt.GenerateFromPassword] with the default cost, and the salt it draws. *)
  GenerateFromPassword : string → string → result string }.

(** A hash fits the password it was made from. *)
Class BcryptLaws `{!Bcrypt} := {
  compare_generated password salt hash :
    GenerateFromPassword password salt = Ok hash → is_ok (CompareHashAndPassword hash password) = true }.

Definition HashPassword `{!Bcrypt} (password salt : string) : result string :=
  GenerateFromPassword password salt.

Record LoginService := mk_LoginService {
  tokens : TokenService;
  dummyHash : string }.

Definition NewLoginService `{!Bcrypt} (ts : TokenService) (salt : string) : LoginService :=
  mk_LoginService ts
    (match GenerateFromPassword "not-a-real-password" salt with Ok hash => hash | Err _ => "" end).

Section login.
Context {R : Type} `{!UserRepository R} `{!Jwt} `{!Bcrypt}.

(** The repository, and the hashes bcrypt has been made to compare with: the work that
    dominates the time of a login. *)
Record bench := mk_bench {
  repo : R;
  compared : list string }.

Definition ask {A} (m : tx R A) : tx bench A := λ b,
  let '(res, r) := m (repo b) in (res, mk_bench r (compared b)).

Definition compare (hash password : string) : tx bench unit := λ b,
  (CompareHashAndPassword hash password, mk_bench (repo b) (compared b ++ [hash])).

Definition Login (s : LoginService) (email password : string) (now : time) : tx bench string := λ b,
  let email := TrimSpace email in
  if (email == "") || (password == "") then (Err (Sentinel ErrInvalidCredentials), b)
  else
    match ask (FindByEmail email) b with
    | (Err err, b1) =>
      if Is err RepositoryErrNotFound then
        let '(_, b2) := compare (dummyHash s) password b1 in
        (Err (Sentinel ErrInvalidCredentials), b2)
      else (Err (Errorf "login: %w" err), b1)
    | (Ok user, b1) =>
      match compare (User.PasswordHash user) password b1 with
      | (Err _, b2) => (Err (Sentinel ErrInvalidCredentials), b2)
      | (Ok _, b2) => (Issue (tokens s) (User.ID user) (User.Permissions user) now, b2)
      end
    end.

End login.
Arguments bench R : clear implicits.

(** ** Middleware *)

(** The values the program stores in a request's context. *)
Record context := mk_context {
  claims_value : option Claims.t;
  request_id_value : option string;
  deadline : option time }.

Definition no_context : context := mk_context None None None.

(** [context.WithValue(ctx, claimsContextKey{}, claims)] *)
Definition with_claims (c : Claims.t) (ctx : context) : context :=
  mk_context (Some c) (request_id_value ctx) (deadline ctx).

Definition ClaimsFromContext (ctx : context) : option Claims.t := claims_value ctx.

(** The body of an error response. *)
Definition error_body (message : string) : json := JObject [("error", JString message)].

Section refusals.
Context {W : Type} `{!ResponseWriter W}.

Definition unauthorized (w : W) : W :=
  Write (Encoded (error_body "unauthorized"))
    (WriteHeader 401
       (set_header "Content-Type" "application/json" (set_header "WWW-Authenticate" "Bearer" w))).

Definition forbidden (w : W) : W :=
  Write (Encoded (error_body "forbidden"))
    (WriteHeader 403 (set_header "Content-Type" "application/json" w)).

End refusals.

Section middleware.
Context `{!Jwt} {W S : Type} `{!ResponseWriter W}.
Implicit Types (w : world W S) (r : request context) (next : handler W S context).

Definition Authenticate (s : TokenService) (now : time) next : handler W S context := λ r w,
  match Values "Authorization" (Header r) with
  | [value] =>
    match Fields value with
    | [scheme; raw] =>
      if EqualFold scheme "Bearer" then
        match Verify s raw now with
        | Err _ => (Returned, on_writer unauthorized w)
        | Ok claims => next (WithContext (with_claims claims (Context r)) r) w
        end
      else (Returned, on_writer unauthorized w)
    | _ => (Returned, on_writer unauthorized w)
    end
  | _ => (Returned, on_writer unauthorized w)
  end.

Definition RequirePermission (permission : Permission) next : handler W S context := λ r w,
  match ClaimsFromContext (Context r) with
  | None => (Returned, on_writer unauthorized w)
  | Some claims =>
    if negb (Claims.HasPermission claims permission) then (Returned, on_writer forbidden w)
    else next r w
  end.

(** Behind both guards: a refusal, or the handler with the identity of a genuine token that
    grants the permission. *)
Lemma guarded_cases `{!JwtLaws} (s : TokenService) (now : time) (p : Permission) next r w :
  p ≠ "" →
  let run := Authenticate s now (RequirePermission p next) r w in
  run = (Returned, on_writer unauthorized w) ∨ run = (Returned, on_writer forbidden w) ∨
  ∃ scheme raw c, Values "Authorization" (Header r) = [scheme] ∧ raw ∈ Fields scheme ∧
    signed_by "HS256" (key s) raw c ∧ accepted (verify_options s) now c ∧ p ∈ Claims.Permissions c ∧
    run = next (WithContext (with_claims c (Context r)) r) w.
Proof.
  intros Hp. unfold Authenticate. destruct (Values "Authorization" (Header r)) as [|v [|? ?]] eqn:Hv; auto.
  destruct (Fields v) as [|scheme [|raw [|? ?]]] eqn:Hf; auto.
  destruct (EqualFold scheme "Bearer"); auto.
  destruct (Verify s raw now) as [c|] eqn:Hver; auto. apply Verify_Ok in Hver as (Hs & Ha & _).
  unfold RequirePermission. simpl. destruct (Claims.HasPermission c p) eqn:Hperm; simpl; auto.
  apply HasPermission_spec in Hperm as [_ Hin]. right. right. exists v, raw, c.
  rewrite Hf. split; [done|]. split; [by apply list_elem_of_further, list_elem_of_here|done].
Qed.

End middleware.

(** ** A concrete JWT library

    Tokens spell the key and the claims out; it shows that the laws can hold. *)

(** The claims as a tree of texts and times. *)
Definition time_tree (t : option time) : gen_tree (string + Z) :=
  GenNode 0 (match t with Some x => [GenLeaf (inr x)] | None => [] end).
Definition text_tree (s : string) : gen_tree (string + Z) := GenLeaf (inl s).

Definition tree_time (t : gen_tree (string + Z)) : option time :=
  match t with GenNode _ [GenLeaf (inr x)] => Some x | _ => None end.
Definition tree_text (t : gen_tree (string + Z)) : string :=
  match t with GenLeaf (inl s) => s | _ => "" end.

Definition claims_tree (k : list Ascii.ascii) (c : Claims.t) : gen_tree (string + Z) :=
  GenNode 0
    [ text_tree (Stdlib.Strings.String.string_of_list_ascii k);
      text_tree (Claims.Subject c); text_tree (Claims.Issuer c);
      GenNode 0 (text_tree <$> Claims.Audience c);
      time_tree (Claims.ExpiresAt c); time_tree (Claims.NotBefore c); time_tree (Claims.IssuedAt c);
      text_tree (Claims.ID c); GenNode 0 (text_tree <$> Claims.Permissions c) ].

Definition tree_claims (t : gen_tree (string + Z)) : option (list Ascii.ascii * Claims.t) :=
  match t with
  | GenNode _ [k; sub; iss; GenNode _ aud; exp; nbf; iat; jti; GenNode _ ps] =>
    Some (bytes_of (tree_text k),
          Claims.mk (tree_text sub) (tree_text iss) (tree_text <$> aud) (tree_time exp) (tree_time nbf)
            (tree_time iat) (tree_text jti) (tree_text <$> ps))
  | _ => None
  end.

Lemma tree_texts (l : list string) : tree_text <$> (text_tree <$> l) = l.
Proof. induction l as [|x l IH]; [done|]. rewrite !fmap_cons, IH. done. Qed.

Lemma tree_claims_tree k c : tree_claims (claims_tree k c) = Some (k, c).
Proof.
  destruct c as [sub iss aud exp nbf iat jti ps]. simpl.
  rewrite Stdlib.Strings.String.list_ascii_of_string_of_list_ascii, !tree_texts.
  by destruct exp, nbf, iat.
Qed.

Definition bit_digit (b : bool) : Ascii.ascii := Ascii.Ascii b false false false true true false false.

Fixpoint bits (p : positive) : string :=
  match p with
  | xH => ""
  | xO p => String (bit_digit false) (bits p)
  | xI p => String (bit_digit true) (bits p)
  end.

Fixpoint unbits (s : string) : positive :=
  match s with
  | EmptyString => xH
  | String a s' => if Ascii.eqb a (bit_digit false) then xO (unbits s') else xI (unbits s')
  end.

Lemma unbits_bits p : unbits (bits p) = p.
Proof. by induction p as [p IH|p IH|]; simpl; rewrite ?IH. Qed.

#[global] Instance accepted_dec o now c : Decision (accepted o now c).
Proof.
  refine (cast_if (decide (
    Claims.Issuer c = WithIssuer o ∧ WithAudience o ∈ Claims.Audience c ∧
    match Claims.ExpiresAt c with Some exp => now < exp | None => WithExpirationRequired o = false end ∧
    match Claims.NotBefore c with Some nbf => nbf <= now | None => True end ∧
    (if WithIssuedAt o then match Claims.IssuedAt c with Some iat => iat <= now | None => True end else True)))).
  - destruct (Claims.ExpiresAt c), (Claims.NotBefore c), (WithIssuedAt o), (Claims.IssuedAt c); apply _.
  - match goal with Hall : _ ∧ _ |- _ => destruct Hall as (? & ? & ? & Hn & Hi) end. split; try done.
    + intros nbf Heq. by rewrite Heq in Hn.
    + intros Hw iat Heq. by rewrite Hw, Heq in Hi.
  - intros [? ? ? Hn Hi]. match goal with Hno : ¬ _ |- _ => apply Hno end. repeat split; try done.
    + destruct (Claims.NotBefore c); auto.
    + destruct (WithIssuedAt o); [|done]. destruct (Claims.IssuedAt c); auto.
Defined.

#[global] Instance plain_jwt : Jwt := {|
  SignedString k c := Ok (bits (encode (claims_tree k c)));
  ParseWithClaims k o validate now raw :=
    match decode (unbits raw) ≫= tree_claims with
    | Some (k', c) =>
      if bool_decide (raw = bits (encode (claims_tree k' c)) ∧ k' = k ∧ "HS256" ∈ WithValidMethods o ∧ accepted o now c)
         && is_ok (validate c)
      then Ok (c, true) else Err (External "token is invalid")
    | None => Err (External "token is malformed")
    end;
  signed_by alg k raw c := alg = "HS256" ∧ raw = bits (encode (claims_tree k c)) |}.

#[global] Instance plain_jwt_laws : JwtLaws.
Proof.
  split.
  - intros k o validate now raw c v. simpl. destruct (decode (unbits raw) ≫= tree_claims) as [[k' c']|] eqn:Hd; [|done].
    destruct (_ && _) eqn:E; [|done]. intros [= <- <-]. reflect. destruct H as (Hraw & -> & Hm & Ha).
    split; [done|]. split; [by exists "HS256"|]. split; [done|].
    destruct (validate c') as [[]|]; [done|]. discriminate.
  - intros k c raw [= <-]. done.
  - done.
  - intros alg alg' k k' raw c c' [_ Hraw] [_ Hraw']. rewrite Hraw in Hraw'.
    apply (f_equal unbits) in Hraw'. rewrite !unbits_bits in Hraw'. apply (inj encode), (f_equal tree_claims) in Hraw'.
    rewrite !tree_claims_tree in Hraw'. congruence.
  - intros k o validate now raw c [= <-] _ Hm Ha Hv. simpl. rewrite unbits_bits, decode_encode. unfold mbind, option_bind.
    rewrite tree_claims_tree.
    rewrite bool_decide_eq_true_2 by done. by rewrite Hv.
Qed.

#[global] Instance plain_bcrypt : Bcrypt := {|
  CompareHashAndPassword hash password := if hash == "hash of " +:+ password then Ok tt else Err (External "mismatch");
  GenerateFromPassword password salt := Ok ("hash of " +:+ password) |}.

#[global] Instance plain_bcrypt_laws : BcryptLaws.
Proof.
  split. intros password salt hash [= <-]. simpl. by rewrite bool_decide_eq_true_2.
Qed.
