(* ===== verification/AuthTheorems.v ===== *)
(** * Tokens, login and guarded routes

    The theorems on [internal/service/auth], for every JWT and bcrypt library that behaves
    as documented and, for login, over the pgx user repository. *)
From S2P Require Import Prelude GoStrings GoErrors Entities Json Database Contracts Repository RepositoryCorrect Driver JsonText Http Auth.

Section tokens.
Context `{!Jwt} `{!JwtLaws}.

(** C26: [Verify] accepts only genuine and current tokens: signed with the service's own key by
    HS256, naming the service as issuer and audience, for a named user, already issued, not
    yet expired, and with a lifetime of at most fifteen minutes.  Every other token gives the
    one error [ErrInvalidToken]. *)
Theorem verify_is_sound s raw now :
  match Verify s raw now with
  | Ok c =>
    signed_by "HS256" (key s) raw c ∧ Claims.Issuer c = issuer s ∧ audience s ∈ Claims.Audience c ∧
    TrimSpace (Claims.Subject c) ≠ "" ∧
    ∃ iat exp, Claims.IssuedAt c = Some iat ∧ Claims.ExpiresAt c = Some exp ∧
      iat <= now < exp ∧ exp - iat <= AccessTokenTTL
  | Err e => e = Sentinel ErrInvalidToken
  end.
Proof.
  destruct (Verify s raw now) as [c|e] eqn:Hv; [|by eapply Verify_Err].
  apply Verify_Ok in Hv as (Hs & [Hi Ha Hexp _ Hiat] & Hval).
  apply Validate_claims in Hval as (Hsub & iat & exp & Hi' & He' & Hlt & Httl).
  rewrite He' in Hexp. specialize (Hiat eq_refl _ Hi'). simpl in *. eauto 15.
Qed.

Lemma issued_verifies s u ps now raw now' c :
  forallb ValidString (u :: issuer s :: audience s :: ps) = true →
  Issue s u ps now = Ok raw →
  Verify s raw now' = Ok c ↔
  NewNumericDate now <= now' < NewNumericDate now + AccessTokenTTL ∧
  c = issued_claims s u ps now.
Proof.
  intros Ht (Hu & Hs)%Issue_Ok. split.
  - intros (Hsig & Hacc & _)%Verify_Ok. apply sign_sound in Hs.
    rewrite (signed_once _ _ _ _ _ _ _ Hsig Hs) in *. by rewrite issued_accepted in Hacc.
  - intros [Hnow ->]. unfold Verify.
    rewrite (parse_complete _ _ _ _ _ _ Hs); [done|by apply issued_encodable|by apply list_elem_of_here| |].
    + by apply issued_accepted.
    + by apply issued_valid.
Qed.

(** C27: the life of a token.  A token that [Issue] returned is accepted by [Verify] exactly from
    the second of its issue until fifteen minutes later, and it then gives back the user and
    the permissions it was issued with. *)
Theorem issued_token_lifetime s u ps now raw now' c :
  forallb ValidString (u :: issuer s :: audience s :: ps) = true →
  Issue s u ps now = Ok raw →
  Verify s raw now' = Ok c ↔
  NewNumericDate now <= now' < NewNumericDate now + AccessTokenTTL ∧
  c = issued_claims s u ps now.
Proof. apply issued_verifies. Qed.

End tokens.

(** ** Login over the user repository *)

Section login.
Context `{!Platform} `{!Jwt} `{!JwtLaws} `{!Bcrypt}.
Context {T : Type} `{!querier T} (tx_db : T → db) `{!querier_documented tx_db}.

Lemma pg_find_user email t u t' :
  pg_FindByEmail email t = (Ok u, t') →
  ∃ r, users (tx_db t) !! User.ID u = Some r ∧ lower (u_email r) = lower email ∧
    u = User.mk (User.ID u) (u_email r) (u_password_hash r) (u_permissions r).
Proof.
  unfold pg_FindByEmail. destruct (query _ t) as [[[[i r]|]|] t1] eqn:Hq; [|done..]. intros [= <- _].
  eapply (query_select tx_db) in Hq as [Hrow _]; [|by intros; simpl]. symmetry in Hrow.
  apply find_some in Hrow as [Hin%list_elem_of_In%elem_of_map_to_list He]. reflect. by exists r.
Qed.

(** C36: a login gives a token for the account holder only.  The token is signed for a stored
    user whose email is the one given, up to case and surrounding space, and whose password
    hash fits the password, and it carries the permissions stored for that user. *)
Theorem login_issues_for_user s email password now (b b' : bench T) raw :
  Login s email password now b = (Ok raw, b') →
  ∃ id r, users (tx_db (repo b)) !! id = Some r ∧ lower (u_email r) = lower (TrimSpace email) ∧
    is_ok (CompareHashAndPassword (u_password_hash r) password) = true ∧
    signed_by "HS256" (key (tokens s)) raw (issued_claims (tokens s) id (u_permissions r) now).
Proof.
  unfold Login, ask. destruct (_ || _); [done|].
  destruct (FindByEmail (TrimSpace email) (repo b)) as [[u|err] t1] eqn:Hf; [|case_match; done].
  apply pg_find_user in Hf as (r & Hr & He & Hu). unfold compare.
  destruct (CompareHashAndPassword (User.PasswordHash u) password) eqn:Hc; [|done]. intros [= Hi _].
  apply Issue_Ok in Hi as [_ Hi%sign_sound]. exists (User.ID u), r. rewrite Hu in Hc, Hi. simpl in Hc, Hi.
  by rewrite Hc.
Qed.


End login.

(** ** Guarded routes *)

(** C28: a guarded handler runs for authorized requests only.  Behind [Authenticate] and
    [RequirePermission], a request is answered 401 or 403 without any effect on the services,
    or it has exactly one Authorization header with a bearer token that the service signed, is
    current and grants the permission, and then the handler runs, with the identity of the
    token in its context. *)
Theorem guarded_handler_is_authorized `{!Jwt} `{!JwtLaws} {W S : Type} `{!ResponseWriter W} s now p
    (h : handler W S context) r w :
  p ≠ "" →
  let run := Authenticate s now (RequirePermission p h) r w in
  run = (Returned, on_writer unauthorized w) ∨ run = (Returned, on_writer forbidden w) ∨
  ∃ scheme raw c, Values "Authorization" (Header r) = [scheme] ∧ raw ∈ Fields scheme ∧
    signed_by "HS256" (key s) raw c ∧ accepted (verify_options s) now c ∧ p ∈ Claims.Permissions c ∧
    run = h (WithContext (with_claims c (Context r)) r) w.
Proof. apply guarded_cases. Qed.

(** A refused request gets a complete answer: with nothing sent before, the status is 401
    with the [Bearer] challenge, or 403, and the body says so in JSON. *)
Theorem refusals_are_complete (w : response) :
  r_status w = None →
  (r_status (unauthorized w) = Some 401 ∧ Header_Get "WWW-Authenticate" (r_sent (unauthorized w)) = "Bearer" ∧
   Header_Get "Content-Type" (r_sent (unauthorized w)) = "application/json") ∧
  (r_status (forbidden w) = Some 403 ∧
   Header_Get "Content-Type" (r_sent (forbidden w)) = "application/json").
Proof.
  intros Hw. unfold unauthorized, forbidden. rewrite !Write_after by done. simpl. headers. done.
Qed.

(** ** Witnesses *)

Definition sample_tokens : TokenService :=
  mk_TokenService (repeat Ascii.zero 32) "bankmonitoring" "bankmonitoring-api".

Definition sample_now : time := 1700000000500000000.

Definition sample_raw : string :=
  match Issue sample_tokens "alice" [PermissionAccountsRead] sample_now with Ok raw => raw | Err _ => "" end.

Lemma sample_issued : Issue sample_tokens "alice" [PermissionAccountsRead] sample_now = Ok sample_raw.
Proof. done. Qed.

Lemma issued_token_lifetime_witness :
  Verify sample_tokens sample_raw (sample_now + 60 * Second)
  = Ok (issued_claims sample_tokens "alice" [PermissionAccountsRead] sample_now).
Proof.
  apply (issued_token_lifetime sample_tokens "alice" [PermissionAccountsRead] sample_now sample_raw).
  - vm_compute. reflexivity.
  - apply sample_issued.
  - split; [|reflexivity]. vm_compute. split; [discriminate|reflexivity].
Defined.

Lemma sample_verifies :
  Verify sample_tokens sample_raw sample_now
  = Ok (issued_claims sample_tokens "alice" [PermissionAccountsRead] sample_now).
Proof. vm_compute. reflexivity. Qed.

Lemma verify_is_sound_witness :
  signed_by "HS256" (key sample_tokens) sample_raw
    (issued_claims sample_tokens "alice" [PermissionAccountsRead] sample_now).
Proof.
  pose proof (verify_is_sound sample_tokens sample_raw sample_now) as Hv. rewrite sample_verifies in Hv.
  exact (proj1 Hv).
Defined.

(** A user with a password, in the sample database. *)
Definition login_db : db :=
  mk_db (accounts sample_db) [] []
    {[ "alice" := mk_user_row "alice@example.com" "hash of secret-1" [PermissionAccountsRead] 0 ]}.

Definition sample_login : LoginService := NewLoginService sample_tokens "salt".

Definition login_bench : bench session := mk_bench (mk_session login_db (mk_env 0 "t-0") []) [].

Lemma login_issues_for_user_witness :
  ∃ id r, users login_db !! id = Some r ∧ lower (u_email r) = lower "ALICE@example.com" ∧
    is_ok (CompareHashAndPassword (u_password_hash r) "secret-1") = true.
Proof.
  destruct (login_issues_for_user c_db sample_login " ALICE@example.com" "secret-1" sample_now login_bench
              (Login sample_login " ALICE@example.com" "secret-1" sample_now login_bench).2 sample_raw)
    as (id & r & Hr & He & Hc & _).
  - apply injective_projections; [vm_compute; reflexivity|reflexivity].
  - exists id, r. split; [exact Hr|]. split; [exact He|exact Hc].
Defined.


(** A request without a token. *)
Definition sample_get : request context :=
  mk_request context "GET" "/accounts" "/accounts" "" "" ∅ (mk_reader "" EOF) no_context.

Lemma guarded_handler_is_authorized_witness :
  let run := Authenticate sample_tokens sample_now
               (RequirePermission PermissionAccountsRead (λ _ w, (Returned, on_writer (WriteHeader 204) w)))
               sample_get (mk_world new_response tt []) in
  r_status (writer run.2) = Some 401.
Proof.
  destruct (guarded_handler_is_authorized sample_tokens sample_now PermissionAccountsRead
              (λ _ w, (Returned, on_writer (WriteHeader 204) w))
              sample_get (mk_world new_response tt [])) as [Hr|Hr].
  - discriminate.
  - simpl. simpl in Hr. reflexivity.
  - simpl. reflexivity.
Defined.

Lemma refusals_are_complete_witness : r_status (unauthorized new_response) = Some 401.
Proof. apply (refusals_are_complete new_response). reflexivity. Defined.
