(* ===== verification/HttpApi.v ===== *)
(** * The HTTP interface

    [internal/httpapi]: reading and writing JSON ([respond.go]), the handlers ([transfer.go],
    [account.go], [login.go], [docs.go] and those of [routes.go]), the middleware
    ([middleware.go]) and the routes ([NewHandler]).  The services are the interfaces of
    [routes.go], as records of operations on the state behind them.  What a request reads of its
    surroundings (the clock, random bytes) is a record of readings. *)
From S2P Require Import Prelude GoStrings GoErrors Entities Json Database Mime JsonText Http Auth.
From Stdlib Require Import Ascii.

(** ** Reading and writing JSON: [respond.go] *)

Definition maxBodyBytes : Z := Z.shiftl 64 10.

Section respond.
Context {W : Type} `{!ResponseWriter W}.
Implicit Types (w : W).

Definition writeJSON (status : Z) (body : json) w : W :=
  Write (Encoded body) (WriteHeader status (set_header "Content-Type" "application/json" w)).

Definition writeError (status : Z) (message : string) w : W := writeJSON status (error_body message) w.

(** [errors.As(err, &tooLarge)] holds of the error of [http.MaxBytesReader]; [None] is [nil]. *)
Definition writeBodyError (err : option decode_error) w : W :=
  match err with
  | Some (DecodeRead MaxBytesError) => writeError 413 "request body too large" w
  | _ => writeError 400 "invalid JSON request" w
  end.

(** A struct that JSON objects are decoded into: its zero value, and how a member is stored in
    the field its key names, if it names one. *)
Class JsonStruct (T : Type) := {
  zero_value : T;
  store_field : T → string → json → option (result T) }.

Definition unknown_field (key : string) : error := External ("json: unknown field " +:+ key).

(** The members of an object, with [DisallowUnknownFields]. *)
Fixpoint decode_fields {T} `{!JsonStruct T} (t : T) (kvs : list (string * json)) : result T :=
  match kvs with
  | [] => Ok t
  | (key, v) :: kvs' =>
    match store_field t key v with
    | None => Err (unknown_field key)
    | Some res => t' ← res; decode_fields t' kvs'
    end
  end.

(** [decoder.Decode(&value)] for a pointer to a [T]: [null] is the nil pointer. *)
Definition Decode {T} `{!JsonStruct T} (body : reader) : (option T * reader) + decode_error :=
  match read_json body with
  | inr err => inr err
  | inl (JNull, rest) => inl (None, rest)
  | inl (JObject kvs, rest) =>
    match decode_fields zero_value kvs with
    | Ok t => inl (Some t, rest)
    | Err err => inr (DecodeValue err)
    end
  | inl (_, _) => inr (DecodeValue type_error)
  end.

(** The value that is decoded, or [None] when the error response is written. *)
Definition decodeJSON {T} `{!JsonStruct T} {C} (r : request C) w : option T * W :=
  let unsupported := writeError 415 "Content-Type must be application/json" w in
  match ParseMediaType (Header_Get "Content-Type" (Header r)) with
  | Err _ => (None, unsupported)
  | Ok contentType =>
    if contentType != "application/json" then (None, unsupported)
    else
      match Decode (MaxBytesReader (Body r) maxBodyBytes) with
      | inr err => (None, writeBodyError (Some err) w)
      | inl (None, _) => (None, writeError 400 "request must be a JSON object" w)
      | inl (Some value, rest) =>
        match read_json rest with
        | inr (DecodeRead EOF) => (Some value, w)
        | inr err => (None, writeBodyError (Some err) w)
        | inl _ => (None, writeBodyError None w)
        end
      end
  end.

End respond.

(** [entities.CreateTransfer] *)
#[global] Instance CreateTransfer_struct : JsonStruct CreateTransfer.t := {|
  zero_value := zero_request;
  store_field r key v :=
    match field_of key with
    | None => None
    | Some _ => Some (set_field r (key, v))
    end |}.

Module loginRequest.
Record t := mk { Email : string; Password : string }.

Inductive field := FEmail | FPassword.

Definition tags : list (string * field) := [("email", FEmail); ("password", FPassword)].

Definition field_of (key : string) : option field :=
  match find (λ nf, key == nf.1) tags with
  | Some nf => Some nf.2
  | None => snd <$> find (λ nf, EqualFold key nf.1) tags
  end.

Definition set (r : t) (key : string) (v : json) : option (result t) :=
  match field_of key with
  | None => None
  | Some FEmail => Some ((λ s, mk s (Password r)) <$> decode_string v (Email r))
  | Some FPassword => Some ((λ s, mk (Email r) s) <$> decode_string v (Password r))
  end.
End loginRequest.

#[global] Instance loginRequest_struct : JsonStruct loginRequest.t := {|
  zero_value := loginRequest.mk "" "";
  store_field := loginRequest.set |}.

(** ** What the handlers depend on: [routes.go] *)

Record TransferService {S : Type} := mk_TransferService {
  ts_Create : context → string → string → CreateTransfer.t → service S (Transfer.t * bool);
  ts_Get : context → string → string → service S Transfer.t }.
Arguments TransferService S : clear implicits.

Record AccountService {S : Type} := mk_AccountService {
  as_List : context → string → service S (list Account.t);
  as_Get : context → string → string → service S Account.t }.
Arguments AccountService S : clear implicits.

(** [Login] issues a token at the time of the call. *)
Record Authenticator {S : Type} := mk_Authenticator {
  au_Login : context → time → string → string → service S string }.
Arguments Authenticator S : clear implicits.

Record Dependencies {S : Type} := mk_Dependencies {
  Tokens : TokenService;
  LoginOf : Authenticator S;
  Transfers : TransferService S;
  Accounts : AccountService S;
  Ready : option (context → service S unit);
  Logger : option logger;
  RequestTimeout : Z }.
Arguments Dependencies S : clear implicits.

(** What a request reads of its surroundings: the times at which the access log starts, the
    deadline is set, a token is verified or issued, readiness is probed, the header is sent and
    the request ends, and eight random bytes. *)
Record readings := mk_readings {
  at_start : time;
  at_timeout : time;
  at_token : time;
  at_probe : time;
  at_header : time;
  at_end : time;
  random : list ascii }.

(** ** The context of a request *)

Definition with_request_id (id : string) (ctx : context) : context :=
  mk_context (claims_value ctx) (Some id) (deadline ctx).

Definition requestIDFrom (ctx : context) : string := default "" (request_id_value ctx).

(** [context.WithTimeout]: an earlier deadline of the parent stays. *)
Definition with_timeout (now timeout : time) (ctx : context) : context :=
  mk_context (claims_value ctx) (request_id_value ctx)
    (Some (match deadline ctx with Some d => Z.min d (now + timeout) | None => now + timeout end)).

(** ** JSON of the answers *)

Section answers.
(** [time.Time] as JSON: RFC 3339 in the time zone of the process, which is not the program's. *)
Context (format_time : time → string).

(** A member that is left out when it is empty ([omitempty]). *)
Definition omitempty (key s : string) : list (string * json) := if s == "" then [] else [(key, JString s)].

Definition transfer_json (t : Transfer.t) : json :=
  JObject
    ([ ("id", JString (Transfer.ID t));
       ("idempotency_key", JString (Transfer.IdempotencyKey t));
       ("from_account_id", JString (Transfer.FromAccountID t));
       ("to_account_id", JString (Transfer.ToAccountID t));
       ("amount", JNum (Transfer.Amount t));
       ("currency", JString (Transfer.Currency t)) ]
     ++ omitempty "description" (Transfer.Description t)
     ++ [("status", JString (Transfer.Status t))]
     ++ omitempty "failure_reason" (Transfer.FailureReason t)
     ++ [ ("created_at", JString (format_time (Transfer.CreatedAt t)));
          ("updated_at", JString (format_time (Transfer.UpdatedAt t))) ]).

(** The owner of an account is not shown. *)
Definition account_json (a : Account.t) : json :=
  JObject
    [ ("id", JString (Account.ID a));
      ("currency", JString (Account.Currency a));
      ("balance", JNum (Account.Balance a));
      ("created_at", JString (format_time (Account.CreatedAt a)));
      ("updated_at", JString (format_time (Account.UpdatedAt a))) ].

End answers.

(** [loginResponse] *)
Definition login_json (token : string) : json :=
  JObject
    [ ("access_token", JString token); ("token_type", JString "Bearer");
      ("expires_in", JNum (AccessTokenTTL / Second)) ].

(** A text of several lines, with [~] for the quotation mark. *)
Definition raw_text (lines : list string) : string :=
  string_of (map (λ a, if Ascii.eqb a "~" then chr 34 else a)
    (bytes_of (String.concat (String (chr 10) "") lines))).

Definition swaggerPage : string := raw_text
  ["<!doctype html>";
   "<html lang=~en~>";
   "<head>";
   "  <meta charset=~utf-8~>";
   "  <title>BankMonitoring API</title>";
   "  <link rel=~stylesheet~ href=~https://cdn.jsdelivr.net/npm/swagger-ui-dist@5/swagger-ui.css~>";
   "</head>";
   "<body>";
   "  <div id=~swagger-ui~></div>";
   "  <script src=~https://cdn.jsdelivr.net/npm/swagger-ui-dist@5/swagger-ui-bundle.js~></script>";
   "  <script>";
   "    window.ui = SwaggerUIBundle({ url: ~/openapi.yaml~, dom_id: ~#swagger-ui~, persistAuthorization: true });";
   "  </script>";
   "</body>";
   "</html>"].

(** ** Handlers *)

(** [transferStatusCode] *)
Definition transferStatusCode (t : Transfer.t) (created : bool) : Z :=
  if Transfer.Status t == TransferStatus.Failed then 422
  else if created then 201
  else 200.

Section handlers.
Context `{!Platform} {W S : Type} `{!ResponseWriter W} (format_time : time → string) (l : logger).
Implicit Types (w : world W S) (r : request context).

(** Answer and return. *)
Definition respond (f : W → W) w : exit * world W S := (Returned, on_writer f w).

(** [logger.ErrorContext(ctx, message, "request_id", ..., "error", err)] *)
Definition log_failure (message : string) r (err : error) w : world W S :=
  logged l (mk_entry Error message
    [("request_id", AString (requestIDFrom (Context r))); ("error", AError err)]) w.

(** The subject of the claims; without claims, the zero value. *)
Definition subject_of r : string :=
  match ClaimsFromContext (Context r) with Some claims => Claims.Subject claims | None => "" end.

(** *** [transfer.go] *)

(** The answer to an error of [Create], for the errors that have one. *)
Definition create_refusal (err : error) : option (Z * string) :=
  if Is err ErrForbidden then Some (403, "forbidden")
  else if Is err ErrInvalidTransfer then Some (400, "invalid transfer request")
  else if Is err ErrIdempotencyConflict then Some (409, "idempotency key already used with a different request")
  else if Is err ErrDestinationNotFound then Some (422, "destination account not found")
  else if Is err ErrCurrencyMismatch then Some (422, "currency does not match the accounts")
  else if Is err ErrBalanceOverflow then Some (422, "destination balance limit reached")
  else None.

(** The key of a request: [uuid.Scan(key)] succeeds with a nonzero UUID. *)
Definition usable_key (key : string) : bool :=
  match UUID_Scan key with
  | Some u => negb (bool_decide (u = zero_uuid))
  | None => false
  end.

Definition created_response (result : Transfer.t) (created : bool) (w : W) : W :=
  writeJSON (transferStatusCode result created) (transfer_json format_time result)
    (if created then w else set_header "Idempotent-Replayed" "true" w).

Definition createTransfer (svc : TransferService S) : handler W S context := λ r w,
  let w := on_writer (set_header "Cache-Control" "no-store") w in
  match ClaimsFromContext (Context r) with
  | None => respond (writeError 401 "unauthorized") w
  | Some claims =>
    match Values "Idempotency-Key" (Header r) with
    | [raw] =>
      let key := TrimSpace raw in
      if negb (usable_key key) then respond (writeError 400 "Idempotency-Key must be a nonzero UUID") w
      else
        match decodeJSON r (writer w) with
        | (None, wr) => (Returned, on_writer (λ _, wr) w)
        | (Some request, wr) =>
          calling (ts_Create svc (Context r) (Claims.Subject claims) key request) (on_writer (λ _, wr) w)
            (λ res w,
              match res with
              | Ok (result, created) => respond (created_response result created) w
              | Err err =>
                match create_refusal err with
                | Some (status, message) => respond (writeError status message) w
                | None => respond (writeError 500 "could not create transfer")
                            (log_failure "create transfer failed" r err w)
                end
              end)
        end
    | _ => respond (writeError 400 "a single Idempotency-Key header is required") w
    end
  end.

(** The tail of the three handlers that read: not found, failed, or the answer. *)
Definition answer_read {A} (missing : sentinel) (not_found failed failure : string) (body : A → json) r
    (res : result A) w : exit * world W S :=
  match res with
  | Err err =>
    if Is err missing then respond (writeError 404 not_found) w
    else respond (writeError 500 failure) (log_failure failed r err w)
  | Ok a => respond (λ wr, writeJSON 200 (body a) (set_header "Cache-Control" "no-store" wr)) w
  end.

Definition getTransfer (svc : TransferService S) : handler W S context := λ r w,
  calling (ts_Get svc (Context r) (subject_of r) (PathValue r)) w
    (answer_read TransferErrNotFound "transfer not found" "get transfer failed" "could not load transfer"
       (transfer_json format_time) r).

(** *** [account.go] *)

Definition listAccounts (svc : AccountService S) : handler W S context := λ r w,
  calling (as_List svc (Context r) (subject_of r)) w
    (λ res w,
      match res with
      | Err err => respond (writeError 500 "could not load accounts") (log_failure "list accounts failed" r err w)
      | Ok accounts =>
        respond (λ wr, writeJSON 200 (JObject [("accounts", JArray (map (account_json format_time) accounts))])
                         (set_header "Cache-Control" "no-store" wr)) w
      end).

Definition getAccount (svc : AccountService S) : handler W S context := λ r w,
  calling (as_Get svc (Context r) (subject_of r) (PathValue r)) w
    (answer_read AccountErrNotFound "account not found" "get account failed" "could not load account"
       (account_json format_time) r).

(** *** [login.go] *)

Definition login (svc : Authenticator S) (now : time) : handler W S context := λ r w,
  let w := on_writer (set_header "Cache-Control" "no-store") w in
  match decodeJSON r (writer w) with
  | (None, wr) => (Returned, on_writer (λ _, wr) w)
  | (Some request, wr) =>
    calling (au_Login svc (Context r) now (loginRequest.Email request) (loginRequest.Password request))
      (on_writer (λ _, wr) w)
      (λ res w,
        match res with
        | Err err =>
          if Is err ErrInvalidCredentials then respond (writeError 401 "invalid email or password") w
          else respond (writeError 500 "could not log in") (log_failure "login failed" r err w)
        | Ok token => respond (writeJSON 200 (login_json token)) w
        end)
  end.

(** *** [routes.go] *)

Definition health : handler W S context := λ _ w,
  respond (writeJSON 200 (JObject [("status", JString "ok")])) w.

Definition ready (check : option (context → service S unit)) (now : time) : handler W S context := λ r w,
  let is_ready := respond (writeJSON 200 (JObject [("status", JString "ready")])) in
  match check with
  | None => is_ready w
  | Some check =>
    calling (check (with_timeout now (2 * Second) (Context r))) w
      (λ res w,
        match res with
        | Err _ => respond (writeError 503 "database unavailable") w
        | Ok _ => is_ready w
        end)
  end.

Definition me : handler W S context := λ r w,
  match ClaimsFromContext (Context r) with
  | None => respond (writeError 401 "unauthorized") w
  | Some claims =>
    respond (λ wr,
      writeJSON 200
        (JObject [ ("user_id", JString (Claims.Subject claims));
                   ("permissions", JArray (map JString (Claims.Permissions claims))) ])
        (set_header "Cache-Control" "no-store" wr)) w
  end.

(** *** [docs.go], for a document of [api/] given as bytes *)

Definition openAPISpec (OpenAPISpec : string) : handler W S context := λ _ w,
  respond (λ wr, Write (Raw OpenAPISpec) (set_header "Content-Type" "application/yaml" wr)) w.

Definition swaggerUI : handler W S context := λ _ w,
  respond (λ wr, Write (Raw swaggerPage) (set_header "Content-Type" "text/html; charset=utf-8" wr)) w.

End handlers.

(** ** Middleware: [middleware.go] *)

(** [`^[A-Za-z0-9._-]{1,64}$`] *)
Definition id_byte (c : ascii) : bool :=
  between 65 c 90 || between 97 c 122 || between 48 c 57 || existsb (Ascii.eqb c) (bytes_of "._-").

Definition validRequestID (id : string) : bool :=
  (1 <=? len id) && (len id <=? 64) && forallb id_byte (bytes_of id).

(** [hex.EncodeToString] *)
Definition EncodeToString (b : list ascii) : string :=
  string_of (flat_map (λ a, [hex_digit (byte a / 16); hex_digit (byte a mod 16)]) b).

Definition requestID {W S} `{!ResponseWriter W} (e : readings) (next : handler W S context) : handler W S context :=
  λ r w,
    let id := Header_Get "X-Request-ID" (Header r) in
    let id := if negb (validRequestID id) then EncodeToString (random e) else id in
    next (WithContext (with_request_id id (Context r)) r) (on_writer (set_header "X-Request-ID" id) w).

(** *** Milliseconds as a [float64] *)

(** [float64(us) / 1000] for [0 <= us < 2^53]: the mantissa and the negated exponent of the
    nearest [float64], with a mantissa of 53 bits. *)
Definition milliseconds (d : Z) : Z * Z :=
  let us := Z.quot d 1000 in
  if us <=? 0 then (0, 0)
  else
    let e := 62 - Z.log2 us in
    let e := if us * 2 ^ e <? 1000 * 2 ^ 53 then e else e - 1 in
    (round_even (us * 2 ^ e) 1000, e).

(** [fmt.Sprintf("%.1f", ...)] of such a number. *)
Definition format_tenths (f : Z * Z) : string :=
  let tenths := round_even (f.1 * 10) (2 ^ f.2) in
  json_text (JNum (tenths / 10)) +:+ "." +:+ json_text (JNum (tenths mod 10)).

(** *** The status recorder *)

(** [sent_at] is the time at which its [WriteHeader] reads the clock. *)
Record statusRecorder {W : Type} := mk_statusRecorder {
  under : W;
  start : time;
  status : Z;
  wroteHeader : bool;
  sent_at : time }.
Arguments statusRecorder W : clear implicits.
Arguments mk_statusRecorder {W} under start status wroteHeader sent_at.

Section recorder.
Context {W : Type} `{!ResponseWriter W}.
Implicit Types (r : statusRecorder W).

Definition on_under (f : W → W) r : statusRecorder W :=
  mk_statusRecorder (f (under r)) (start r) (status r) (wroteHeader r) (sent_at r).

Definition recorder_WriteHeader (code : Z) r : statusRecorder W :=
  let r :=
    if wroteHeader r then r
    else
      let dur := format_tenths (milliseconds (sent_at r - start r)) in
      on_under (set_header "Server-Timing" ("app;dur=" +:+ dur))
        (mk_statusRecorder (under r) (start r) code true (sent_at r)) in
  on_under (WriteHeader code) r.

Definition recorder_Write (c : chunk) r : statusRecorder W :=
  let r := if wroteHeader r then r else recorder_WriteHeader 200 r in
  on_under (Write c) r.

#[global] Instance recorder_writer : ResponseWriter (statusRecorder W) := {|
  set_header key value := on_under (set_header key value);
  WriteHeader := recorder_WriteHeader;
  Write := recorder_Write |}.

End recorder.

Section middleware.
Context {W S : Type} `{!ResponseWriter W} (l : logger) (e : readings).

(** The request goes on with the recorder in place of the writer; a panic unwinds it. *)
Definition accessLog (routeOf : request context → string) (next : handler (statusRecorder W) S context) :
    handler W S context := λ r w,
  let rec := mk_statusRecorder (writer w) (at_start e) 200 false (at_header e) in
  match next r (mk_world rec (store w) (log w)) with
  | (Panicked v, w') => (Panicked v, mk_world (under (writer w')) (store w') (log w'))
  | (Returned, w') =>
    let code := status (writer w') in
    let lv := if 500 <=? code then Error else Info in
    let lv := if (Path r == "/health") || (Path r == "/ready") then Debug else lv in
    let dur := milliseconds (at_end e - at_start e) in
    (Returned,
     logged l (mk_entry lv "http request"
       [ ("request_id", AString (requestIDFrom (Context r)));
         ("method", AString (Method r));
         ("path", AString (Path r));
         ("route", AString (routeOf r));
         ("status", AInt code);
         ("duration_ms", AFloat dur.1 dur.2) ])
       (mk_world (under (writer w')) (store w') (log w')))
  end.

Definition withTimeout (timeout : time) (next : handler W S context) : handler W S context := λ r w,
  next (WithContext (with_timeout (at_timeout e) timeout (Context r)) r) w.

(** The stack trace is left out of the log record. *)
Definition recoverPanics (next : handler W S context) : handler W S context := λ r w,
  match next r w with
  | (Panicked ErrAbortHandler, w') => (Panicked ErrAbortHandler, w')
  | (Panicked v, w') =>
    (Returned,
     on_writer (writeError 500 "internal server error")
       (logged l (mk_entry Error "panic while serving request"
          [("request_id", AString (requestIDFrom (Context r))); ("panic", APanic v)]) w'))
  | (Returned, w') => (Returned, w')
  end.

End middleware.

(** ** The mux of [net/http] *)

Fixpoint split_slash (s : string) : list string :=
  match s with
  | EmptyString => [""]
  | String a s' =>
    if Ascii.eqb a "/" then "" :: split_slash s'
    else match split_slash s' with seg :: segs => String a seg :: segs | [] => [String a ""] end
  end.

(** [path.Clean] on the segments of a rooted path. *)
Definition clean_segment (kept : list string) (seg : string) : list string :=
  if (seg == "") || (seg == ".") then kept
  else if seg == ".." then removelast kept
  else kept ++ [seg].

Definition rooted (segs : list string) : string := foldr (λ seg s, "/" +:+ seg +:+ s) "" segs.

Definition cleanPath (p : string) : string :=
  let segs := split_slash p in
  let segs' := if head segs == Some "" then tail segs else segs in
  let kept := fold_left clean_segment segs' [] in
  if bool_decide (kept = []) then "/"
  else rooted kept +:+ (if last segs' == Some "" then "/" else "").

(** [url.PathUnescape]; a malformed escape leaves the segment as it is. *)
Fixpoint unescape (s : string) : option string :=
  match s with
  | EmptyString => Some ""
  | String a s1 =>
    if Ascii.eqb a "%" then
      match s1 with
      | String h1 (String h2 s2) =>
        match hex_value h1, hex_value h2 with
        | Some x, Some y => String (chr (x * 16 + y)) <$> unescape s2
        | _, _ => None
        end
      | _ => None
      end
    else String a <$> unescape s1
  end.

Definition pathUnescape (s : string) : string := default s (unescape s).

(** A pattern: its method, and its segments, with [None] for the wildcard [{id}]. *)
Record pattern := mk_pattern {
  p_method : string;
  p_segments : list (option string) }.

(** The handlers that [NewHandler] registers. *)
Inductive endpoint :=
| Health | Probe | Spec | Docs | LogIn | Me | ListAccounts | GetAccount | CreateTransfers | GetTransfer.

#[global] Instance endpoint_eq_dec : EqDecision endpoint.
Proof. solve_decision. Defined.

Definition endpoints : list endpoint :=
  [Health; Probe; Spec; Docs; LogIn; Me; ListAccounts; GetAccount; CreateTransfers; GetTransfer].

Definition pattern_of (ep : endpoint) : pattern :=
  match ep with
  | Health => mk_pattern "GET" [Some "health"]
  | Probe => mk_pattern "GET" [Some "ready"]
  | Spec => mk_pattern "GET" [Some "openapi.yaml"]
  | Docs => mk_pattern "GET" [Some "docs"]
  | LogIn => mk_pattern "POST" [Some "auth"; Some "login"]
  | Me => mk_pattern "GET" [Some "me"]
  | ListAccounts => mk_pattern "GET" [Some "accounts"]
  | GetAccount => mk_pattern "GET" [Some "accounts"; None]
  | CreateTransfers => mk_pattern "POST" [Some "transfers"]
  | GetTransfer => mk_pattern "GET" [Some "transfers"; None]
  end.

(** The pattern as it is written in [NewHandler]. *)
Definition pattern_text (p : pattern) : string :=
  p_method p +:+ " " +:+ rooted (map (default "{id}") (p_segments p)).

(** Match segments; the value of the wildcard is empty without one.  A wildcard matches neither
    the empty segment that a trailing slash leaves nor a segment that unescapes to a slash. *)
Fixpoint match_segments (pat : list (option string)) (segs : list string) : option string :=
  match pat, segs with
  | [], [] => Some ""
  | Some s :: pat', seg :: segs' => if s == pathUnescape seg then match_segments pat' segs' else None
  | None :: pat', seg :: segs' =>
    if (seg == "") || (pathUnescape seg == "/") then None
    else match match_segments pat' segs' with Some _ => Some (pathUnescape seg) | None => None end
  | _, _ => None
  end.

Definition match_path (path : string) (ep : endpoint) : option string :=
  match split_slash path with
  | "" :: segs => match_segments (p_segments (pattern_of ep)) segs
  | _ => None
  end.

(** A pattern with [GET] matches [HEAD] too. *)
Definition match_method (method : string) (ep : endpoint) : bool :=
  (p_method (pattern_of ep) == method) || ((p_method (pattern_of ep) == "GET") && (method == "HEAD")).

(** The endpoint of a request, with the value of its wildcard. *)
Definition find_endpoint (method path : string) : option (endpoint * string) :=
  head (omap (λ ep, if match_method method ep then pair ep <$> match_path path ep else None) endpoints).

(** The methods of the patterns that match the path, in order. *)
Definition allowed_methods (path : string) : list string :=
  let ms := omap (λ ep, (λ _, p_method (pattern_of ep)) <$> match_path path ep) endpoints in
  (if bool_decide ("GET" ∈ ms) then ["GET"; "HEAD"] else [])
  ++ (if bool_decide ("POST" ∈ ms) then ["POST"] else []).

(** The path that is looked up: a [CONNECT] is not cleaned. *)
Definition lookup_path {C} (r : request C) : string :=
  if Method r == "CONNECT" then EscapedPath r else cleanPath (EscapedPath r).

(** [_, pattern := mux.Handler(r)] *)
Definition routeOf {C} (r : request C) : string :=
  match find_endpoint (Method r) (lookup_path r) with
  | Some (ep, _) => pattern_text (pattern_of ep)
  | None => ""
  end.

(** [http.Error] *)
Definition http_Error {W} `{!ResponseWriter W} (message : string) (status : Z) (w : W) : W :=
  Write (Raw (message +:+ String (chr 10) ""))
    (WriteHeader status
       (set_header "X-Content-Type-Options" "nosniff" (set_header "Content-Type" "text/plain; charset=utf-8" w))).

Definition comma (l : list string) : string :=
  match l with
  | [] => ""
  | s :: l' => foldl (λ acc t, acc +:+ ", " +:+ t) s l'
  end.

(** *** Redirects *)

(** The bytes that [URL.EscapedPath] leaves in a path; the others become [%XX]. *)
Definition path_byte (a : ascii) : bool :=
  between 48 a 57 || between 65 a 90 || between 97 a 122 || existsb (Ascii.eqb a) (bytes_of "-_.~$&+,/:;=@").

Definition percent (digit : Z → ascii) (a : ascii) : string :=
  String "%" (String (digit (byte a / 16)) (String (digit (byte a mod 16)) "")).

(** Replace each byte by a text. *)
Fixpoint replace_bytes (f : ascii → string) (s : string) : string :=
  match s with
  | EmptyString => ""
  | String a s' => f a +:+ replace_bytes f s'
  end.

Definition escape_path (s : string) : string :=
  replace_bytes (λ a, if path_byte a then String a "" else percent (λ z, ascii_upper (hex_digit z)) a) s.

(** [hexEscapeNonASCII] *)
Definition hexEscapeNonASCII (s : string) : string :=
  replace_bytes (λ a, if byte a <? 128 then String a "" else percent hex_digit a) s.

(** [htmlEscape] *)
Definition htmlEscape (s : string) : string :=
  replace_bytes (λ a,
    if Ascii.eqb a "&" then "&amp;" else if Ascii.eqb a "<" then "&lt;" else if Ascii.eqb a ">" then "&gt;"
    else if byte a =? 34 then "&#34;" else if Ascii.eqb a "'" then "&#39;" else String a "") s.

(** [(&url.URL{Path: path, RawQuery: r.URL.RawQuery}).String()] for the path that is looked up;
    it is escaped already, so its percent signs are escaped again. *)
Definition redirect_url {C} (r : request C) : string :=
  escape_path (lookup_path r) +:+ (if RawQuery r == "" then "" else "?" +:+ RawQuery r).

(** [http.StatusText] of a redirect. *)
Definition StatusText (code : Z) : string :=
  if code =? 301 then "Moved Permanently" else if code =? 307 then "Temporary Redirect" else "".

(** The short page of a redirect. *)
Definition redirect_page (url : string) (code : Z) : string :=
  "<a href=" +:+ String (chr 34) (htmlEscape url +:+ String (chr 34)
    (">" +:+ StatusText code +:+ "</a>." +:+ String (chr 10) (String (chr 10) ""))).

(** [http.Redirect], to a rooted and clean URL, on a writer without a [Content-Type]. *)
Definition Redirect {W} `{!ResponseWriter W} (method url : string) (code : Z) (w : W) : W :=
  let w := set_header "Location" (hexEscapeNonASCII url) w in
  let w := if (method == "GET") || (method == "HEAD")
           then set_header "Content-Type" "text/html; charset=utf-8" w else w in
  let w := WriteHeader code w in
  if method == "GET" then Write (Raw (redirect_page url code)) w else w.

(** [mux.ServeHTTP]: redirect to the clean path, run the handler of the endpoint, or answer 405
    or 404.  The status of a redirect (301, or 307 in recent releases) is a parameter. *)
Definition mux_ServeHTTP {W S} `{!ResponseWriter W} (redirect_status : Z)
    (handlers : endpoint → handler W S context) : handler W S context := λ r w,
  let path := lookup_path r in
  if path != EscapedPath r then
    respond (Redirect (Method r) (redirect_url r) redirect_status) w
  else
    match find_endpoint (Method r) path with
    | Some (ep, value) => handlers ep (SetPathValue value r) w
    | None =>
      match allowed_methods path with
      | [] => respond (http_Error "404 page not found" 404) w
      | ms => respond (λ wr, http_Error "Method Not Allowed" 405 (set_header "Allow" (comma ms) wr)) w
      end
    end.

(** ** [NewHandler] *)

Section new_handler.
Context `{!Platform} `{!Jwt} {S : Type} (format_time : time → string) (redirect_status : Z)
  (OpenAPISpec : string).

(** [slog.DiscardHandler] *)
Definition discard : logger := λ _, false.

Section endpoints.
Context {W : Type} `{!ResponseWriter W} (d : Dependencies S) (l : logger) (e : readings).

Definition protect (permission : Permission) (h : handler W S context) : handler W S context :=
  Authenticate (Tokens d) (at_token e) (RequirePermission permission h).

Definition handler_of (ep : endpoint) : handler W S context :=
  match ep with
  | Health => health
  | Probe => ready (Ready d) (at_probe e)
  | Spec => openAPISpec OpenAPISpec
  | Docs => swaggerUI
  | LogIn => login l (LoginOf d) (at_token e)
  | Me => Authenticate (Tokens d) (at_token e) me
  | ListAccounts => protect PermissionAccountsRead (listAccounts format_time l (Accounts d))
  | GetAccount => protect PermissionAccountsRead (getAccount format_time l (Accounts d))
  | CreateTransfers => protect PermissionTransfersCreate (createTransfer format_time l (Transfers d))
  | GetTransfer => protect PermissionTransfersRead (getTransfer format_time l (Transfers d))
  end.
End endpoints.

Definition NewHandler (d : Dependencies S) (e : readings) : handler response S context :=
  let l := match Logger d with Some l => l | None => discard end in
  let timeout := if RequestTimeout d <=? 0 then 10 * Second else RequestTimeout d in
  recoverPanics l
    (requestID e
       (accessLog l e routeOf
          (withTimeout e timeout
             (mux_ServeHTTP redirect_status (handler_of d l e))))).

End new_handler.

(** [pattern_text] spells the patterns of [NewHandler]. *)
Example patterns_spelled :
  map (λ ep, pattern_text (pattern_of ep)) endpoints =
  ["GET /health"; "GET /ready"; "GET /openapi.yaml"; "GET /docs"; "POST /auth/login"; "GET /me";
   "GET /accounts"; "GET /accounts/{id}"; "POST /transfers"; "GET /transfers/{id}"].
Proof. reflexivity. Qed.
