(* ===== verification/HttpCorrect.v ===== *)
(** * The HTTP interface, lemma by lemma

    How handlers use their writer: every handler sets headers and then responds once.  What the
    middleware makes of that: the status recorder sees the status that is sent, and the request
    ID survives.  What a handler may do to the state behind the services. *)
From S2P Require Import Prelude GoStrings GoErrors Entities Json Database Mime JsonText Http Auth HttpApi.
From Stdlib Require Import Ascii.

(** ** Responses *)

Section responses.
Context {W : Type} `{!ResponseWriter W}.
Implicit Types (w : W) (hs : list (string * string)).

Definition set_headers hs w : W := foldl (λ w kv, set_header kv.1 kv.2 w) w hs.

(** Headers are set, then the status is sent, with a body or without. *)
Inductive responds (st : Z) w : list (string * string) → W → Prop :=
| responds_status hs c : responds st w hs (Write c (WriteHeader st (set_headers hs w)))
| responds_implicit hs c : st = 200 → responds st w hs (Write c (set_headers hs w))
| responds_empty hs : responds st w hs (WriteHeader st (set_headers hs w)).

(** The headers the handlers set. *)
Definition api_headers : list string :=
  ["Cache-Control"; "Content-Type"; "WWW-Authenticate"; "Idempotent-Replayed"; "X-Content-Type-Options"; "Allow";
   "Location"].

(** The media type among headers that are set, the last one. *)
Definition content_type hs : option string := last (filter (λ kv, kv.1 = "Content-Type") hs).*2.

(** A JSON object without fractions, nested three deep at most. *)
Definition small_object (j : json) : bool :=
  match j with JObject _ => (depth j <=? 3)%nat && integral j | _ => false end.

Definition text_types : list string := ["text/plain; charset=utf-8"; "text/html; charset=utf-8"; "application/yaml"].

Definition fits hs (c : chunk) : Prop :=
  match c with
  | Encoded j => small_object j = true ∧ content_type hs = Some "application/json"
  | Raw _ => ∃ ct, content_type hs = Some ct ∧ ct ∈ text_types
  end.

(** What is written is of the type that the headers tell. *)
Inductive media w hs : W → Prop :=
| media_status st c : fits hs c → media w hs (Write c (WriteHeader st (set_headers hs w)))
| media_implicit c : fits hs c → media w hs (Write c (set_headers hs w))
| media_empty st : "Location" ∈ hs.*1 → media w hs (WriteHeader st (set_headers hs w)).

Definition answered w w' : Prop := ∃ st hs, responds st w hs w' ∧ hs.*1 ⊆ api_headers ∧ media w hs w'.

(** Nothing but headers. *)
Definition prepared w w' : Prop := ∃ hs, w' = set_headers hs w ∧ hs.*1 ⊆ api_headers.

Lemma set_headers_app hs hs' w : set_headers (hs ++ hs') w = set_headers hs' (set_headers hs w).
Proof. unfold set_headers. by rewrite foldl_app. Qed.

Lemma responds_after st hs hs' w w' : responds st (set_headers hs w) hs' w' → responds st w (hs ++ hs') w'.
Proof. inversion 1; subst; rewrite <-set_headers_app; by constructor. Qed.

Lemma content_type_app hs hs' ct : content_type hs' = Some ct → content_type (hs ++ hs') = Some ct.
Proof. unfold content_type. rewrite filter_app, fmap_app, last_app. by intros ->. Qed.

Lemma fits_app hs hs' c : fits hs' c → fits (hs ++ hs') c.
Proof.
  destruct c as [j|s]; simpl.
  - intros [? ?]. split; [done|by apply content_type_app].
  - intros (ct & ? & ?). exists ct. split; [by apply content_type_app|done].
Qed.

Lemma media_after hs hs' w w' : media (set_headers hs w) hs' w' → media w (hs ++ hs') w'.
Proof.
  destruct 1; rewrite <-set_headers_app; constructor; try by apply fits_app. rewrite fmap_app. set_solver.
Qed.

Lemma prepared_answered w w1 w2 : prepared w w1 → answered w1 w2 → answered w w2.
Proof.
  intros (hs & -> & Hhs) (st & hs' & Hr & Hhs' & Hm). exists st, (hs ++ hs'). split; [by apply responds_after|].
  split; [rewrite fmap_app; set_solver|by apply media_after].
Qed.

Lemma prepared_refl w : prepared w w.
Proof. exists []. split; [done|]. simpl. set_solver. Qed.

Lemma prepared_set w key value : key ∈ api_headers → prepared w (set_header key value w).
Proof. intros Hk. exists [(key, value)]. split; [done|]. simpl. set_solver. Qed.

Lemma prepared_trans w w1 w2 : prepared w w1 → prepared w1 w2 → prepared w w2.
Proof.
  intros (hs & -> & Hhs) (hs' & -> & Hhs'). exists (hs ++ hs'). rewrite set_headers_app. split; [done|].
  rewrite fmap_app. set_solver.
Qed.

Lemma writeJSON_answered st body w : small_object body = true → answered w (writeJSON st body w).
Proof.
  intros Hb. exists st, [("Content-Type", "application/json")]. split; [by apply (responds_status st w)|].
  split; [simpl; set_solver|].
  exact (media_status w [("Content-Type", "application/json")] st (Encoded body) (conj Hb eq_refl)).
Qed.

Lemma writeError_answered st message w : answered w (writeError st message w).
Proof. by apply writeJSON_answered. Qed.

Lemma unauthorized_answered w : answered w (unauthorized w).
Proof.
  exists 401, [("WWW-Authenticate", "Bearer"); ("Content-Type", "application/json")].
  split; [by apply (responds_status 401 w)|]. split; [simpl; set_solver|]. 
  exact (media_status w [("WWW-Authenticate", "Bearer"); ("Content-Type", "application/json")] 401
           (Encoded (error_body "unauthorized")) (conj eq_refl eq_refl)).
Qed.

Lemma forbidden_answered w : answered w (forbidden w).
Proof.
  exists 403, [("Content-Type", "application/json")]. split; [by apply (responds_status 403 w)|].
  split; [simpl; set_solver|]. exact (media_status w [("Content-Type", "application/json")] 403 (Encoded (error_body "forbidden")) (conj eq_refl eq_refl)).
Qed.

Lemma http_Error_answered message st w : answered w (http_Error message st w).
Proof.
  exists st, [("Content-Type", "text/plain; charset=utf-8"); ("X-Content-Type-Options", "nosniff")].
  split; [by apply (responds_status st w)|]. split; [simpl; set_solver|].
  refine (media_status w [("Content-Type", "text/plain; charset=utf-8"); ("X-Content-Type-Options", "nosniff")] st
            (Raw (message +:+ String (chr 10) "")) _).
  exists "text/plain; charset=utf-8". split; [done|]. unfold text_types. set_solver.
Qed.

(** What a redirect sets. *)
Definition redirect_headers (method url : string) : list (string * string) :=
  ("Location", hexEscapeNonASCII url) ::
  (if (method == "GET") || (method == "HEAD") then [("Content-Type", "text/html; charset=utf-8")] else []).

Lemma Redirect_responds method url code w : responds code w (redirect_headers method url) (Redirect method url code w).
Proof.
  unfold redirect_headers, Redirect. destruct (decide (method = "GET")) as [->|Hget].
  - exact (responds_status code w (redirect_headers "GET" url) (Raw (redirect_page url code))).
  - rewrite (bool_decide_eq_false_2 _ Hget). cbn [orb].
    destruct (method == "HEAD"); match goal with |- responds _ _ ?hs _ => exact (responds_empty code w hs) end.
Qed.

Lemma writeBodyError_answered err w : answered w (writeBodyError err w).
Proof. unfold writeBodyError. repeat case_match; apply writeError_answered. Qed.

Lemma decodeJSON_answered {T} `{!JsonStruct T} {C} (r : request C) w :
  match decodeJSON (T:=T) r w with (Some _, w') => w' = w | (None, w') => answered w w' end.
Proof.
  unfold decodeJSON. repeat case_match; simplify_eq; try done;
    first [apply writeError_answered|apply writeBodyError_answered].
Qed.

End responses.

(** ** The bodies are small objects *)

Lemma max_list_map {A} (f : A → nat) l n : (∀ x, (f x <= n)%nat) → (max_list (map f l) <= n)%nat.
Proof. intros Hf. induction l as [|x l IH]; simpl; [lia|]. specialize (Hf x). lia. Qed.

Lemma depth_array {A} (f : A → json) l n : (∀ x, (depth (f x) <= n)%nat) → (depth (JArray (map f l)) <= S n)%nat.
Proof. intros Hf. simpl. rewrite map_map. by apply le_n_S, max_list_map. Qed.

Lemma transfer_small format_time t : small_object (transfer_json format_time t) = true.
Proof. unfold transfer_json, omitempty. by repeat case_bool_decide. Qed.

Lemma integral_array {A} (f : A → json) l : (∀ x, integral (f x) = true) → integral (JArray (map f l)) = true.
Proof. intros Hf. simpl. apply forallb_forall. intros j (x & <- & _)%in_map_iff. apply Hf. Qed.

Lemma small_objectI kvs : (depth (JObject kvs) <= 3)%nat → integral (JObject kvs) = true → small_object (JObject kvs) = true.
Proof. intros Hd Hi. apply andb_true_iff. split; [by apply Nat.leb_le|done]. Qed.

Lemma accounts_small format_time l :
  small_object (JObject [("accounts", JArray (map (account_json format_time) l))]) = true.
Proof.
  pose proof (depth_array (account_json format_time) l 1 ltac:(simpl; lia)) as Hd.
  pose proof (integral_array (account_json format_time) l (λ _, eq_refl)) as Hi.
  apply small_objectI; [revert Hd; simpl; lia|]. cbn [integral forallb snd] in *. by rewrite Hi.
Qed.

Lemma me_small u l :
  small_object (JObject [("user_id", JString u); ("permissions", JArray (map JString l))]) = true.
Proof.
  pose proof (depth_array JString l 0 ltac:(simpl; lia)) as Hd. pose proof (integral_array JString l (λ _, eq_refl)) as Hi.
  apply small_objectI; [revert Hd; simpl; lia|]. cbn [integral forallb snd andb] in *. by rewrite Hi.
Qed.

#[local] Hint Resolve transfer_small accounts_small me_small : api.

(** ** Handlers *)

Section tidy.
Context {W S : Type} `{!ResponseWriter W}.
Implicit Types (w : world W S) (out : exit * world W S).

(** A handler that returns has responded; one that panics has at most set headers. *)
Definition tidy w out : Prop :=
  match out.1 with
  | Returned => answered (writer w) (writer out.2)
  | Panicked _ => prepared (writer w) (writer out.2)
  end.

Lemma tidy_prepared f w out :
  (∀ wr, prepared wr (f wr)) → tidy (on_writer f w) out → tidy w out.
Proof.
  intros Hf. unfold tidy. destruct out as [[] w']; simpl; [by apply prepared_answered|by apply prepared_trans].
Qed.

Lemma tidy_respond f w : (∀ wr, answered wr (f wr)) → tidy w (respond f w).
Proof. intros Hf. apply Hf. Qed.

Lemma logged_writer l en w : writer (logged l en w) = writer w.
Proof. unfold logged. by destruct (l _). Qed.

Lemma logged_store l en w : store (logged l en w) = store w.
Proof. unfold logged. by destruct (l _). Qed.

Lemma tidy_logged l en w out : tidy (logged l en w) out → tidy w out.
Proof. unfold tidy. by rewrite logged_writer. Qed.

Lemma tidy_calling {A} (m : service S A) w k :
  (∀ res w', writer w' = writer w → tidy w' (k res w')) → tidy w (calling m w k).
Proof.
  intros Hk. unfold calling. destruct (m (store w)) as [[v|res] s]; [apply prepared_refl|].
  specialize (Hk res (with_store s w) eq_refl). done.
Qed.

Hint Extern 1 (small_object _ = true) => reflexivity : api.
Hint Resolve writeJSON_answered writeError_answered unauthorized_answered forbidden_answered http_Error_answered : api.

Lemma set_writeJSON_answered key value st body (wr : W) :
  key ∈ api_headers → small_object body = true → answered wr (writeJSON st body (set_header key value wr)).
Proof. intros Hk Hb. eapply prepared_answered; [by apply prepared_set|by apply writeJSON_answered]. Qed.

Lemma Redirect_answered method url code wr : answered wr (Redirect (W:=W) method url code wr).
Proof.
  exists code, (redirect_headers method url). split; [apply Redirect_responds|]. unfold redirect_headers, Redirect.
  split; [destruct (_ || _); simpl; set_solver|]. destruct (decide (method = "GET")) as [->|Hget].
  - refine (media_status wr (redirect_headers "GET" url) code (Raw (redirect_page url code)) _).
    exists "text/html; charset=utf-8". split; [done|]. unfold text_types. set_solver.
  - rewrite (bool_decide_eq_false_2 _ Hget). cbn [orb].
    destruct (method == "HEAD"); match goal with |- media _ ?hs _ => refine (media_empty wr hs code _) end; simpl; set_solver.
Qed.

Lemma mux_tidy rs (hs : endpoint → handler W S context) r w :
  (∀ ep r w, tidy w (hs ep r w)) → tidy w (mux_ServeHTTP rs hs r w).
Proof.
  intros Hh. unfold mux_ServeHTTP. destruct (negb _).
  - apply tidy_respond. intros wr. apply Redirect_answered.
  - destruct (find_endpoint _ _) as [[ep value]|]; [apply Hh|]. destruct (allowed_methods _); apply tidy_respond; auto with api.
    intros wr. eapply prepared_answered; [apply (prepared_set wr "Allow"); set_solver|apply http_Error_answered].
Qed.

Context `{!Platform} `{!Jwt} (format_time : time → string) (OpenAPISpec : string).

Lemma createTransfer_tidy l (svc : TransferService S) r w : tidy w (createTransfer format_time l svc r w).
Proof.
  unfold createTransfer. apply (tidy_prepared (set_header "Cache-Control" "no-store")); [intros; by apply prepared_set; set_solver|].
  set (w0 := on_writer _ w). clearbody w0. destruct (ClaimsFromContext _); [|apply tidy_respond; auto with api].
  destruct (Values _ _) as [|raw [|? ?]]; [apply tidy_respond; auto with api| |apply tidy_respond; auto with api].
  destruct (negb _); [apply tidy_respond; auto with api|].
  pose proof (decodeJSON_answered (T:=CreateTransfer.t) r (writer w0)) as Hd.
  destruct (decodeJSON r (writer w0)) as [[request|] wr]; [subst wr|exact Hd].
  apply (tidy_calling _ (on_writer (λ _, writer w0) w0)). intros [[result created]|err] w' _.
  - apply tidy_respond. intros wr. unfold created_response. destruct created; [auto with api|].
    apply set_writeJSON_answered; [set_solver|auto with api].
  - destruct (create_refusal err) as [[st message]|]; [apply tidy_respond; auto with api|].
    unfold log_failure. eapply tidy_logged, tidy_respond. auto with api.
Qed.

Lemma answer_read_tidy {A} l missing nf failed failure (body : A → json) r res w :
  (∀ a, small_object (body a) = true) →
  tidy w (answer_read l missing nf failed failure body r res w).
Proof.
  intros Hbody. unfold answer_read. destruct res as [a|err].
  - apply tidy_respond. intros wr. apply set_writeJSON_answered; [set_solver|done].
  - destruct (Is err missing); [apply tidy_respond; auto with api|].
    unfold log_failure. eapply tidy_logged, tidy_respond. auto with api.
Qed.

Lemma login_tidy l (svc : Authenticator S) now r w : tidy w (login l svc now r w).
Proof.
  unfold login. apply (tidy_prepared (set_header "Cache-Control" "no-store")); [intros; by apply prepared_set; set_solver|].
  set (w0 := on_writer _ w). clearbody w0.
  pose proof (decodeJSON_answered (T:=loginRequest.t) r (writer w0)) as Hd.
  destruct (decodeJSON r (writer w0)) as [[request|] wr]; [subst wr|exact Hd].
  apply (tidy_calling _ (on_writer (λ _, writer w0) w0)). intros [token|err] w' _; [apply tidy_respond; auto with api|].
  destruct (Is err _); [apply tidy_respond; auto with api|].
  unfold log_failure. eapply tidy_logged, tidy_respond. auto with api.
Qed.

Lemma guarded_tidy ts now p (h : handler W S context) r w :
  (∀ r w, tidy w (h r w)) → tidy w (Authenticate ts now (RequirePermission p h) r w).
Proof.
  intros Hh. unfold Authenticate, RequirePermission.
  repeat case_match; try apply Hh; apply tidy_respond; auto with api.
Qed.

Lemma handler_of_tidy d l e ep r w : tidy w (handler_of format_time OpenAPISpec d l e ep r w).
Proof.
  assert (∀ ct (s : string) wr, ct ∈ text_types → answered wr (Write (Raw s) (set_header "Content-Type" ct wr))) as Hraw.
  { intros ct s wr Hct. exists 200, [("Content-Type", ct)]. split; [by apply (responds_implicit 200 wr [("Content-Type", ct)])|].
    split; [simpl; set_solver|]. refine (media_implicit wr [("Content-Type", ct)] (Raw s) _). by exists ct. }
  destruct ep; simpl.
  - apply tidy_respond. auto with api.
  - unfold ready. destruct (Ready d) as [check|]; [|apply tidy_respond; auto with api].
    apply tidy_calling. intros [?|?] w' _; apply tidy_respond; auto with api.
  - apply tidy_respond. intros wr. apply Hraw. unfold text_types. set_solver.
  - apply tidy_respond. intros wr. apply Hraw. unfold text_types. set_solver.
  - apply login_tidy.
  - unfold Authenticate, me. repeat case_match; apply tidy_respond; auto with api.
    intros wr. apply set_writeJSON_answered; [set_solver|auto with api].
  - apply guarded_tidy. intros r' w'. apply tidy_calling. intros [?|?] w1 _.
    + apply tidy_respond. intros wr. apply set_writeJSON_answered; [set_solver|auto with api].
    + unfold log_failure. eapply tidy_logged, tidy_respond. auto with api.
  - apply guarded_tidy. intros r' w'. apply tidy_calling. intros res w1 _. apply answer_read_tidy. auto with api.
  - apply guarded_tidy. intros r' w'. apply createTransfer_tidy.
  - apply guarded_tidy. intros r' w'. apply tidy_calling. intros res w1 _. apply answer_read_tidy. auto with api.
Qed.

End tidy.

(** ** The status recorder over the server's writer *)

Lemma set_headers_status hs (w : response) : r_status (set_headers hs w) = r_status w.
Proof. revert w. induction hs as [|kv hs IH]; intros w; [done|]. exact (IH (set_header kv.1 kv.2 w)). Qed.

Lemma set_headers_body hs (w : response) : r_body (set_headers hs w) = r_body w.
Proof. revert w. induction hs as [|kv hs IH]; intros w; [done|]. exact (IH (set_header kv.1 kv.2 w)). Qed.

(** The headers of the handlers leave the others alone. *)
Lemma set_headers_other key hs (w : response) :
  CanonicalHeaderKey key ∉ CanonicalHeaderKey <$> api_headers → hs.*1 ⊆ api_headers →
  Header_Get key (r_header (set_headers hs w)) = Header_Get key (r_header w).
Proof.
  intros Hk. revert w. induction hs as [|[k v] hs IH]; intros w Hhs; [done|].
  simpl in Hhs. etransitivity; [apply IH; set_solver|]. simpl. apply Header_Get_Set_ne. intros Heq. apply Hk.
  rewrite Heq. apply list_elem_of_fmap_2. set_solver.
Qed.

Lemma set_headers_recorder hs (rec : statusRecorder response) :
  set_headers hs rec = on_under (set_headers hs) rec.
Proof.
  revert rec. induction hs as [|kv hs IH]; intros [w st code b t]; [done|].
  exact (IH (on_under (set_header kv.1 kv.2) (mk_statusRecorder w st code b t))).
Qed.

(** The media type that was set last is the one in the header. *)
Lemma set_headers_content_type hs (w : response) :
  hs.*1 ⊆ api_headers →
  Header_Get "Content-Type" (r_header (set_headers hs w)) = default (Header_Get "Content-Type" (r_header w)) (content_type hs).
Proof.
  induction hs as [|[k v] hs IH] using rev_ind; intros Hhs; [done|].
  rewrite fmap_app in Hhs. rewrite set_headers_app. simpl.
  destruct (decide (k = "Content-Type")) as [->|Hne].
  - rewrite Header_Get_Set. unfold content_type. rewrite filter_app, filter_cons_True by done.
    by rewrite fmap_app, last_app.
  - rewrite Header_Get_Set_ne.
    + rewrite IH by set_solver. unfold content_type. by rewrite filter_app, filter_cons_False, filter_nil, app_nil_r by done.
    + assert (k ∈ api_headers) as Hk by set_solver.
      apply list_elem_of_In in Hk. repeat (destruct Hk as [<-|Hk]; [by vm_compute|]). destruct Hk.
Qed.

Lemma set_headers_kept key hs (w : response) :
  Values key (r_header w) ≠ [] → Values key (r_header (set_headers hs w)) ≠ [].
Proof.
  revert w. induction hs as [|[k v] hs IH]; intros w Hw; [done|]. apply IH. simpl. unfold Values, Header_Set in *.
  destruct (decide (CanonicalHeaderKey key = CanonicalHeaderKey k)) as [->|Hne];
    [by rewrite lookup_insert_eq|by rewrite lookup_insert_ne].
Qed.

Lemma set_headers_has key hs (w : response) : key ∈ hs.*1 → Values key (r_header (set_headers hs w)) ≠ [].
Proof.
  revert w. induction hs as [|[k v] hs IH]; intros w; simpl; [set_solver|]. intros [<-|Hk]%elem_of_cons; [|by apply IH].
  apply set_headers_kept. simpl. unfold Values, Header_Set. by rewrite lookup_insert_eq.
Qed.

(** What a client sees: the media type and the body agree. *)
Definition media_agrees (a : response) : Prop :=
  let ct := Header_Get "Content-Type" (r_sent a) in
  match r_body a with
  | [] => Values "Location" (r_sent a) ≠ []
  | [Encoded (JObject kvs)] =>
    ct = "application/json" ∧ (depth (JObject kvs) <= 3)%nat ∧ integral (JObject kvs) = true
  | [Raw _] => ct ∈ text_types
  | _ => False
  end.

Lemma fits_agrees hs c (w a : response) :
  hs.*1 ⊆ api_headers → fits hs c → r_body a = [c] →
  Header_Get "Content-Type" (r_sent a) = Header_Get "Content-Type" (r_header (set_headers hs w)) →
  media_agrees a.
Proof.
  intros Hhs Hf Hb Hct. unfold media_agrees. rewrite Hb, Hct, set_headers_content_type by done.
  destruct c as [j|s]; simpl in Hf.
  - destruct Hf as [Hs ->]. destruct j; try done. split; [done|]. apply andb_true_iff in Hs as [Hd ?]. split; [by apply Nat.leb_le|done].
  - by destruct Hf as (ct & -> & Hin).
Qed.

(** A response through a fresh recorder: the recorder has the status that was sent. *)
Lemma recorder_responds st (rec rec' : statusRecorder response) hs :
  wroteHeader rec = false → r_status (under rec) = None → responds st rec hs rec' →
  status rec' = st ∧ r_status (under rec') = Some st ∧
  ∃ dur, r_sent (under rec') = Header_Set "Server-Timing" ("app;dur=" +:+ dur) (r_header (set_headers hs (under rec))).
Proof.
  intros Hwrote Hnone Hr. pose proof (set_headers_status hs (under rec)) as Hst. rewrite Hnone in Hst.
  destruct Hr as [hs c|hs c ->|hs]; rewrite set_headers_recorder; destruct rec as [w t0 code b t1];
    simpl in Hwrote, Hst |- *; subst b; unfold recorder_Write, recorder_WriteHeader; simpl;
    unfold response_WriteHeader; simpl; rewrite Hst; simpl; eauto.
Qed.

Lemma recorder_media (rec rec' : statusRecorder response) hs :
  wroteHeader rec = false → r_status (under rec) = None → r_body (under rec) = [] → hs.*1 ⊆ api_headers →
  media rec hs rec' → media_agrees (under rec').
Proof.
  intros Hwrote Hnone Hbody Hhs Hm.
  pose proof (set_headers_status hs (under rec)) as Hst. rewrite Hnone in Hst.
  pose proof (set_headers_body hs (under rec)) as Hb. rewrite Hbody in Hb.
  destruct Hm as [st c Hf|c Hf|st Hl]; rewrite set_headers_recorder; destruct rec as [w t0 code b t1];
    simpl in Hwrote, Hst, Hb |- *; subst b; unfold recorder_Write, recorder_WriteHeader; simpl;
    unfold response_WriteHeader; simpl; rewrite Hst; simpl.
  1-2: apply (fits_agrees hs c w); [done|done|simpl; by rewrite Hb|simpl; by headers].
  unfold media_agrees. simpl. rewrite Hb. apply (set_headers_has "Location" hs w) in Hl. revert Hl.
  unfold Values, Header_Set. rewrite lookup_insert_ne by (vm_compute; discriminate). done.
Qed.

Lemma recorder_writeJSON st body hs (rec : statusRecorder response) :
  wroteHeader rec = false → r_status (under rec) = None → r_body (under rec) = [] →
  r_status (under (writeJSON st body (set_headers hs rec))) = Some st ∧
  r_body (under (writeJSON st body (set_headers hs rec))) = [Encoded body].
Proof.
  intros Hwrote Hnone Hbody. rewrite set_headers_recorder.
  pose proof (set_headers_status hs (under rec)) as Hst. rewrite Hnone in Hst.
  pose proof (set_headers_body hs (under rec)) as Hb. rewrite Hbody in Hb.
  destruct rec as [w t0 code b t1]. simpl in *. subst b.
  unfold recorder_Write, recorder_WriteHeader. simpl. unfold response_WriteHeader. simpl. rewrite Hst. simpl. by rewrite Hb.
Qed.

(** ** The middleware around the mux *)

Section new_handler.
Context `{!Platform} `{!Jwt} {S : Type} (format_time : time → string) (redirect_status : Z)
  (OpenAPISpec : string).
Implicit Types (d : Dependencies S) (e : readings) (r : request context) (w : world response S).

Definition logger_of d : logger := match Logger d with Some l => l | None => discard end.

Definition timeout_of d : time := if RequestTimeout d <=? 0 then 10 * Second else RequestTimeout d.

(** The ID that [requestID] gives a request. *)
Definition request_id e r : string :=
  let id := Header_Get "X-Request-ID" (Header r) in
  if validRequestID id then id else EncodeToString (random e).

(** The request and the world that reach the mux. *)
Definition inner_request d e r : request context :=
  WithContext (with_timeout (at_timeout e) (timeout_of d) (with_request_id (request_id e r) (Context r))) r.

Definition inner_world e r w : world (statusRecorder response) S :=
  mk_world (mk_statusRecorder (set_header "X-Request-ID" (request_id e r) (writer w)) (at_start e) 200 false (at_header e))
    (store w) (log w).

(** What the mux makes of it. *)
Definition inner_run d e r w : exit * world (statusRecorder response) S :=
  mux_ServeHTTP redirect_status (handler_of format_time OpenAPISpec d (logger_of d) e)
    (inner_request d e r) (inner_world e r w).

(** The access-log entry of a request that is answered with [code]. *)
Definition access_entry e r (code : Z) : entry :=
  let lv := if 500 <=? code then Error else Info in
  let lv := if (Path r == "/health") || (Path r == "/ready") then Debug else lv in
  let dur := milliseconds (at_end e - at_start e) in
  mk_entry lv "http request"
    [ ("request_id", AString (request_id e r)); ("method", AString (Method r)); ("path", AString (Path r));
      ("route", AString (routeOf r)); ("status", AInt code); ("duration_ms", AFloat dur.1 dur.2) ].

Definition panic_entry r (v : panic) : entry :=
  mk_entry Error "panic while serving request"
    [("request_id", AString (requestIDFrom (Context r))); ("panic", APanic v)].

Abbreviation run d e r w := (NewHandler format_time redirect_status OpenAPISpec d e r w).

(** [NewHandler], with the middleware unfolded. *)
Lemma NewHandler_run d e r w :
  run d e r w =
  match inner_run d e r w with
  | (Returned, w') =>
    (Returned, logged (logger_of d) (access_entry e r (status (writer w')))
                 (mk_world (under (writer w')) (store w') (log w')))
  | (Panicked ErrAbortHandler, w') =>
    (Panicked ErrAbortHandler, mk_world (under (writer w')) (store w') (log w'))
  | (Panicked v, w') =>
    (Returned, on_writer (writeError 500 "internal server error")
       (logged (logger_of d) (panic_entry r v) (mk_world (under (writer w')) (store w') (log w'))))
  end.
Proof.
  unfold NewHandler, recoverPanics, requestID, accessLog, withTimeout. cbv zeta.
  change (match Logger d with Some l => l | None => discard end) with (logger_of d).
  assert ((if negb (validRequestID (Header_Get "X-Request-ID" (Header r))) then EncodeToString (random e)
           else Header_Get "X-Request-ID" (Header r)) = request_id e r) as Hid.
  { unfold request_id. by destruct (validRequestID _). }
  rewrite Hid.
  match goal with |- match match ?x with _ => _ end with _ => _ end = _ => change x with (inner_run d e r w) end.
  destruct (inner_run d e r w) as [[|[|msg]] w']; reflexivity.
Qed.

Lemma NewHandler_store d e r w : store (run d e r w).2 = store (inner_run d e r w).2.
Proof.
  rewrite NewHandler_run. destruct (inner_run d e r w) as [[|[|msg]] w']; simpl; by rewrite ?logged_store.
Qed.

Lemma inner_tidy d e r w : tidy (inner_world e r w) (inner_run d e r w).
Proof. apply mux_tidy. intros. apply handler_of_tidy. Qed.

End new_handler.

(** ** The endpoint of a request *)

Lemma find_endpoint_Some method path ep value :
  find_endpoint method path = Some (ep, value) → match_method method ep = true ∧ match_path path ep = Some value.
Proof.
  unfold find_endpoint. intros Hh.
  assert ((ep, value) ∈ omap (λ ep, if match_method method ep then pair ep <$> match_path path ep else None) endpoints)
    as Hin.
  { destruct (omap _ endpoints) as [|x l]; [done|]. simpl in Hh. injection Hh as ->. apply list_elem_of_here. }
  apply list_elem_of_omap in Hin as (ep' & _ & Hep). destruct (match_method method ep') eqn:Hm; [|done].
  apply fmap_Some in Hep as (v & Hv & [= -> ->]). done.
Qed.

(** ** The state behind the services *)

Section stores.
Context {W S : Type} `{!ResponseWriter W}.
Implicit Types (w : world W S).

Lemma calling_store {A} (m : service S A) w k :
  (∀ res w', store (k res w').2 = store w') → store (calling m w k).2 = (m (store w)).2.
Proof. intros Hk. unfold calling. destruct (m (store w)) as [[v|res] s]; [done|]. by rewrite Hk. Qed.

Lemma respond_store f w : store (respond f w).2 = store w.
Proof. done. Qed.

Lemma answer_read_store {A} l missing nf failed failure (body : A → json) r res w :
  store (answer_read l missing nf failed failure body r res w).2 = store w.
Proof.
  unfold answer_read. destruct res as [a|err]; [done|]. destruct (Is err missing); [done|].
  simpl. apply logged_store.
Qed.

End stores.

(** A decoded body has an amount of 64 bits. *)
Lemma decode_fields_int64 kvs (r r' : CreateTransfer.t) :
  is_int64 (CreateTransfer.Amount r) → decode_fields r kvs = Ok r' → is_int64 (CreateTransfer.Amount r').
Proof.
  revert r. induction kvs as [|[k v] kvs IH]; intros r Hz; cbn [decode_fields].
  { by intros [= <-]. }
  unfold store_field. simpl. destruct (field_of k) as [f|] eqn:Hf; [|done].
  destruct (set_field r (k, v)) as [r1|] eqn:Hs; [|done]. simpl. apply IH. clear IH.
  destruct r as [from to amount currency description]. unfold set_field in Hs. simpl in Hs, Hz. rewrite Hf in Hs.
  unfold fmap, result_fmap in Hs.
  destruct f; repeat (case_hyp Hs; try discriminate); simplify_eq; simpl; try done.
  unfold decode_int64 in E. destruct v; simplify_eq; [done|]. case_bool_decide; by simplify_eq.
Qed.

Lemma Decode_int64 body (r : CreateTransfer.t) rest :
  Decode body = inl (Some r, rest) → is_int64 (CreateTransfer.Amount r).
Proof.
  unfold Decode. intros Hd. repeat (case_hyp Hd; try discriminate). simplify_eq.
  eapply decode_fields_int64; [|done]. done.
Qed.

Lemma decodeJSON_Some {W} `{!ResponseWriter W} {T} `{!JsonStruct T} {C} (r : request C) (w w' : W) (t : T) :
  decodeJSON r w = (Some t, w') →
  w' = w ∧ ∃ rest, Decode (MaxBytesReader (Body r) maxBodyBytes) = inl (Some t, rest) ∧
    read_json rest = inr (DecodeRead EOF).
Proof. unfold decodeJSON. intros Hd. repeat (case_hyp Hd; try discriminate). simplify_eq. eauto. Qed.

(** ** Request IDs *)

Lemma hex_digit_id z : 0 <= z < 16 → id_byte (hex_digit z) = true.
Proof.
  intros Hz. assert (forallb (λ n, id_byte (hex_digit (Z.of_nat n))) (seq 0 16) = true) as Hall by done.
  rewrite forallb_forall in Hall. rewrite <-(Z2Nat.id z) by lia. apply Hall, in_seq. lia.
Qed.

Lemma EncodeToString_valid b : length b = 8%nat → validRequestID (EncodeToString b) = true.
Proof.
  intros Hb. unfold validRequestID, len, EncodeToString.
  assert (String.length (string_of (flat_map (λ a, [hex_digit (byte a / 16); hex_digit (byte a mod 16)]) b))
          = (2 * length b)%nat) as ->.
  { clear Hb. induction b as [|a b IH]; simpl in *; [done|]. lia. }
  rewrite Hb. simpl. rewrite Stdlib.Strings.String.list_ascii_of_string_of_list_ascii. clear Hb.
  induction b as [|a b IH]; simpl; [done|]. pose proof (byte_range a).
  rewrite !hex_digit_id; [done|apply Z.mod_pos_bound; lia|].
  split; [apply Z.div_pos; lia|apply Z.div_lt_upper_bound; lia].
Qed.

Lemma request_id_valid e (r : request context) :
  length (random e) = 8%nat → validRequestID (request_id e r) = true.
Proof.
  intros Hl. unfold request_id. destruct (validRequestID (Header_Get _ _)) eqn:Hv; [done|]. by apply EncodeToString_valid.
Qed.

(** ** Services that do not panic *)

Record never_panics {S} (d : Dependencies S) : Prop := {
  np_login ctx now email password s v : (au_Login (LoginOf d) ctx now email password s).1 ≠ inl v;
  np_create ctx u k req s v : (ts_Create (Transfers d) ctx u k req s).1 ≠ inl v;
  np_get ctx u i s v : (ts_Get (Transfers d) ctx u i s).1 ≠ inl v;
  np_list ctx u s v : (as_List (Accounts d) ctx u s).1 ≠ inl v;
  np_account ctx u i s v : (as_Get (Accounts d) ctx u i s).1 ≠ inl v;
  np_ready check ctx s v : Ready d = Some check → (check ctx s).1 ≠ inl v }.

Section orderly.
Context {W S : Type} `{!ResponseWriter W}.
Implicit Types (w : world W S) (out : exit * world W S).

(** An error entry of a handler, for the request [id]. *)
Definition failure_entry (id : string) (en : entry) : Prop :=
  log_level en = Error ∧ log_message en ≠ "http request" ∧ ("request_id", AString id) ∈ log_attrs en.

(** A handler that returns logs at most one error; it panics only if it [may], and then without an
    entry. *)
Definition orderly (may : Prop) (id : string) w out : Prop :=
  match out.1 with
  | Returned => ∃ es, log out.2 = log w ++ es ∧ (length es <= 1)%nat ∧ Forall (failure_entry id) es
  | Panicked _ => may ∧ log out.2 = log w
  end.

Lemma orderly_respond may id f w : orderly may id w (respond f w).
Proof. exists []. rewrite app_nil_r. simpl. auto with lia. Qed.

Lemma orderly_on may id f w out : orderly may id (on_writer f w) out → orderly may id w out.
Proof. done. Qed.

Lemma orderly_failure may id l message f (r : request context) err w :
  requestIDFrom (Context r) = id → message ≠ "http request" →
  orderly may id w (respond f (log_failure l message r err w)).
Proof.
  intros Hid Hm. unfold orderly, log_failure, logged. simpl. destruct (l Error); simpl.
  - eexists. split; [reflexivity|]. split; [done|].
    constructor; [|constructor]. split; [done|]. split; [done|]. simpl. rewrite Hid. apply list_elem_of_here.
  - exists []. rewrite app_nil_r. auto with lia.
Qed.

Lemma orderly_calling {A} may id (m : service S A) w k :
  (∀ v, (m (store w)).1 = inl v → may) → (∀ res w', orderly may id w' (k res w')) → orderly may id w (calling m w k).
Proof.
  intros Hm Hk. unfold calling. destruct (m (store w)) as [[v|res] s]; [split; [by apply (Hm v)|done]|].
  apply (Hk res (with_store s w)).
Qed.

Hint Resolve orderly_respond orderly_failure : api.

Context `{!Platform} `{!Jwt} (format_time : time → string) (OpenAPISpec : string).

Lemma answer_read_orderly {A} may id l missing nf failed failure (body : A → json) (r : request context) res w :
  requestIDFrom (Context r) = id → failed ≠ "http request" →
  orderly may id w (answer_read l missing nf failed failure body r res w).
Proof. intros Hid Hm. unfold answer_read. destruct res as [a|err]; [|destruct (Is err missing)]; auto with api. Qed.

Lemma guarded_orderly may id ts now p (h : handler W S context) r w :
  requestIDFrom (Context r) = id →
  (∀ r w, requestIDFrom (Context r) = id → orderly may id w (h r w)) →
  orderly may id w (Authenticate ts now (RequirePermission p h) r w).
Proof.
  intros Hid Hh. unfold Authenticate, RequirePermission.
  repeat case_match; try apply Hh; try apply orderly_respond; done.
Qed.

Lemma createTransfer_orderly id d l (r : request context) w :
  requestIDFrom (Context r) = id →
  orderly (¬ never_panics d) id w (createTransfer format_time l (Transfers d) r w).
Proof.
  intros Hid. unfold createTransfer. apply (orderly_on _ id (set_header "Cache-Control" "no-store")).
  destruct (ClaimsFromContext _); [|apply orderly_respond].
  destruct (Values _ _) as [|raw [|? ?]]; [apply orderly_respond| |apply orderly_respond].
  destruct (negb _); [apply orderly_respond|].
  destruct (decodeJSON r _) as [[request|] wr]; [|apply (orderly_respond _ id (λ _, wr) (on_writer _ w))].
  apply (orderly_calling _ id _ (on_writer (λ _, wr) (on_writer _ w))); [intros v Hv Hd; revert Hv; apply (np_create _ Hd)|].
  intros [[result created]|err] w'; [apply orderly_respond|].
  destruct (create_refusal err) as [[st message]|]; [apply orderly_respond|by apply orderly_failure].
Qed.

Lemma handler_of_orderly id d l e ep (r : request context) w :
  requestIDFrom (Context r) = id →
  orderly (¬ never_panics d) id w (handler_of format_time OpenAPISpec d l e ep r w).
Proof.
  intros Hid. destruct ep; simpl; try apply orderly_respond.
  - unfold ready. destruct (Ready d) as [check|] eqn:Hr; [|apply orderly_respond].
    apply orderly_calling; [intros v Hv Hd; revert Hv; by apply (np_ready _ Hd)|]. intros [?|?] w'; apply orderly_respond.
  - unfold login. apply (orderly_on _ id (set_header "Cache-Control" "no-store")).
    destruct (decodeJSON r _) as [[request|] wr]; [|apply (orderly_respond _ id (λ _, wr) (on_writer _ w))].
    apply (orderly_calling _ id _ (on_writer (λ _, wr) (on_writer _ w))); [intros v Hv Hd; revert Hv; apply (np_login _ Hd)|].
    intros [token|err] w'; [apply orderly_respond|]. destruct (Is err _); [apply orderly_respond|by apply orderly_failure].
  - unfold Authenticate, me. repeat case_match; apply orderly_respond.
  - apply guarded_orderly; [done|]. intros r' w' Hid'. apply orderly_calling; [intros v Hv Hd; revert Hv; apply (np_list _ Hd)|].
    intros [?|?] w1; [apply orderly_respond|by apply orderly_failure].
  - apply guarded_orderly; [done|]. intros r' w' Hid'. apply orderly_calling; [intros v Hv Hd; revert Hv; apply (np_account _ Hd)|].
    intros res w1. by apply answer_read_orderly.
  - apply guarded_orderly; [done|]. intros r' w' Hid'. by apply createTransfer_orderly.
  - apply guarded_orderly; [done|]. intros r' w' Hid'. apply orderly_calling; [intros v Hv Hd; revert Hv; apply (np_get _ Hd)|].
    intros res w1. by apply answer_read_orderly.
Qed.

Lemma mux_orderly may id rs (hs : endpoint → handler W S context) r w :
  requestIDFrom (Context r) = id →
  (∀ ep r w, requestIDFrom (Context r) = id → orderly may id w (hs ep r w)) →
  orderly may id w (mux_ServeHTTP rs hs r w).
Proof.
  intros Hid Hh. unfold mux_ServeHTTP. destruct (negb _); [apply orderly_respond|].
  destruct (find_endpoint _ _) as [[ep value]|]; [by apply Hh|].
  destruct (allowed_methods _); apply orderly_respond.
Qed.

End orderly.

(** ** Bodies *)

Lemma Decode_object {T} `{!JsonStruct T} body (t : T) rest :
  Decode body = inl (Some t, rest) → ∃ kvs, read_json body = inl (JObject kvs, rest) ∧ decode_fields zero_value kvs = Ok t.
Proof.
  unfold Decode. destruct (read_json body) as [[[| | | | | |kvs] rest']|err]; intros Hd; simplify_eq.
  exists kvs. destruct (decode_fields _ kvs) as [t'|]; by simplify_eq.
Qed.

Lemma decode_fields_known kvs (r r' : CreateTransfer.t) :
  decode_fields r kvs = Ok r' → Forall (λ kv, is_Some (field_of kv.1)) kvs.
Proof.
  revert r. induction kvs as [|[k v] kvs IH]; intros r; cbn [decode_fields]; [constructor|].
  unfold store_field. simpl. destruct (field_of k) as [f|] eqn:Hf; [|done].
  destruct (set_field r (k, v)) as [r1|]; [|done]. simpl. intros Hd. constructor; [by eexists|by eapply IH].
Qed.

Lemma MaxBytesReader_EOF r n :
  ending (MaxBytesReader r n) = EOF → len (content r) <= n ∧ ending r = EOF ∧ MaxBytesReader r n = r.
Proof. unfold MaxBytesReader. destruct (_ <? _) eqn:E; [done|]. apply Z.ltb_ge in E. done. Qed.

#[local] Arguments String.append !s1 s2 / : simpl nomatch.

Lemma bytes_of_app (s t : string) : bytes_of (s +:+ t) = bytes_of s ++ bytes_of t.
Proof. induction s as [|a s IH]; simpl; [done|]. by rewrite IH. Qed.

(** An accepted body: one object, then white space, within the limit. *)
Lemma decodeJSON_object {W} `{!ResponseWriter W} {T} `{!JsonStruct T} {C} (r : request C) (w w' : W) (t : T) :
  decodeJSON r w = (Some t, w') →
  w' = w ∧ len (content (Body r)) <= maxBodyBytes ∧ ending (Body r) = EOF ∧
  ∃ text ws kvs, content (Body r) = text +:+ ws ∧ forallb isSpace (bytes_of ws) = true ∧
    (∀ s, scan_value BeginValue [] (text +:+ s) = Value (JObject kvs) s) ∧ decode_fields zero_value kvs = Ok t.
Proof.
  intros (-> & rest & Hd & Heof)%decodeJSON_Some. apply read_json_EOF in Heof as [Hend Hws].
  apply Decode_object in Hd as (kvs & Hr & Hf). apply read_json_object in Hr as (text & Hc & He & Ht).
  rewrite Hend in He. symmetry in He. apply MaxBytesReader_EOF in He as (Hlen & Hbody & Heq). rewrite Heq in Hc.
  split; [done|]. split; [done|]. split; [done|]. by exists text, (content rest), kvs.
Qed.

(** The same request with another body. *)
Definition with_body {C} (body : reader) (r : request C) : request C :=
  mk_request C (Method r) (EscapedPath r) (Path r) (RawQuery r) (PathValue r) (Header r) body (Context r).

(** The members that [Marshal] writes are stored back. *)
Lemma decode_Marshal req kvs :
  forallb ValidString [CreateTransfer.FromAccountID req; CreateTransfer.ToAccountID req;
                       CreateTransfer.Currency req; CreateTransfer.Description req] = true →
  is_int64 (CreateTransfer.Amount req) → Marshal req = JObject kvs →
  decode_fields zero_request kvs = Ok req ∧ text_ok (JObject kvs) = true ∧ (depth (JObject kvs) <= maxNestingDepth)%nat.
Proof.
  destruct req as [from to amount currency description]. unfold Marshal. simpl. intros Hv Hz Hm. reflect.
  rewrite !ToValidUTF8_valid in Hm by done. injection Hm as <-.
  assert (1 <= maxNestingDepth)%nat as Hmax by (apply Nat.leb_le; by vm_compute).
  case_bool_decide; subst; (split; [|split]).
  all: try (lazy -[decode_int64]; rewrite decode_int64_JNum by done; reflexivity).
  all: try (simpl; repeat match goal with H : ValidString _ = true |- _ => rewrite H; clear H end; done).
Qed.

(** ** The answer of [createTransfer] *)

(** The status of a result of the service, and whether it is marked as a replay. *)
Definition status_of_result (res : result (Transfer.t * bool)) : Z :=
  match res with
  | Ok (tr, created) => transferStatusCode tr created
  | Err err => match create_refusal err with Some (st, _) => st | None => 500 end
  end.

(** The object that a result of the service is answered with. *)
Definition body_of_result (format_time : time → string) (res : result (Transfer.t * bool)) : json :=
  match res with
  | Ok (tr, _) => transfer_json format_time tr
  | Err err => error_body (match create_refusal err with Some (_, message) => message | None => "could not create transfer" end)
  end.

Definition is_replay (res : result (Transfer.t * bool)) : bool :=
  match res with Ok (_, created) => negb created | Err _ => false end.

Lemma decodeJSON_value {W W'} `{!ResponseWriter W} `{!ResponseWriter W'} {T} `{!JsonStruct T} {C C'}
    (r : request C) (r' : request C') (w : W) (w' : W') :
  Header r = Header r' → Body r = Body r' → (decodeJSON (T:=T) r w).1 = (decodeJSON (T:=T) r' w').1.
Proof. intros Hh Hb. unfold decodeJSON. rewrite Hh, Hb. repeat case_match; done. Qed.

Definition create_headers (replay : bool) : list (string * string) :=
  [("Cache-Control", "no-store")] ++ (if replay then [("Idempotent-Replayed", "true")] else []).

Lemma createTransfer_result `{!Platform} {W S} `{!ResponseWriter W} format_time l (svc : TransferService S)
    (r : request context) c rawkey (req : CreateTransfer.t) (w : world W S) res s :
  ClaimsFromContext (Context r) = Some c → Values "Idempotency-Key" (Header r) = [rawkey] →
  usable_key (TrimSpace rawkey) = true → (decodeJSON r new_response).1 = Some req →
  ts_Create svc (Context r) (Claims.Subject c) (TrimSpace rawkey) req (store w) = (inr res, s) →
  ∃ w', createTransfer format_time l svc r w = (Returned, w') ∧ store w' = s ∧
    writer w' = writeJSON (status_of_result res) (body_of_result format_time res)
                  (set_headers (create_headers (is_replay res)) (writer w)).
Proof.
  intros Hc Hv Hk Hd Hs. unfold createTransfer. rewrite Hc, Hv, Hk. simpl negb. cbv iota.
  set (w0 := on_writer _ w).
  rewrite (decodeJSON_value r r new_response (writer w0) eq_refl eq_refl) in Hd.
  pose proof (decodeJSON_answered (T:=CreateTransfer.t) r (writer w0)) as Hw0.
  destruct (decodeJSON r (writer w0)) as [[req'|] wr]; simpl in Hd; [|done]. injection Hd as ->. subst wr.
  unfold calling. change (store (on_writer (λ _, writer w0) w0)) with (store w). rewrite Hs.
  destruct res as [[tr created]|err].
  - eexists. split; [done|]. split; [done|]. simpl. unfold created_response. by destruct created.
  - unfold status_of_result, body_of_result. destruct (create_refusal err) as [[st message]|].
    + eexists. split; [done|]. by split.
    + eexists. split; [done|]. split; [apply logged_store|]. simpl. unfold log_failure. by rewrite logged_writer.
Qed.
