(* ===== verification/Server.v ===== *)
(** * The service as it is put together

    [run] of [cmd/api/main.go] builds the HTTP handler from the services over one connection
    pool: the state behind the handlers is the pool, with the record of bcrypt comparisons that
    [Login] keeps.  This file gives those dependencies and what they may do to the database. *)
From S2P Require Import Prelude GoStrings GoErrors Entities Json Database BankSpec Contracts TransferService Repository RepositoryCorrect Programs Locking LockingCorrect Outcome Driver TransferTheorems Reads Mime JsonText Http Auth HttpApi HttpCorrect.

(** ** The pool *)

Class Pinger (P : Type) := {
  (** [pool.Ping] *)
  Ping : tx P unit }.

(** What the documentation of the pool says beyond that of its transactions: a query that
    only reads changes nothing, even when it fails, and neither does a ping. *)
Class pool_documented `{!Platform} {P} `{!querier P} `{!Pinger P} (pool_db : P → db) := {
  read_err {A} (q : stmt A) p err p' :
    (∀ e d, (sql e q d).2 = d) → query q p = (Err err, p') → pool_db p' = pool_db p;
  ping_db p : pool_db (Ping p).2 = pool_db p }.

#[global] Instance pool_pinger `{!Platform} : Pinger pool := {| Ping p := (Ok tt, p) |}.

#[global] Instance pool_reads `{!Platform} : pool_documented p_db.
Proof.
  split; [|done]. intros A q p err p' Hq. simpl. destruct (p_scripts p) as [|sc scs]; [by intros [= _ <-]|].
  destruct (sc_faults sc) as [|[msg|] fs]; [|by intros [= _ <-]|];
    (specialize (Hq (sc_env sc) (p_db p)); destruct (sql (sc_env sc) q (p_db p)) as [res d]; simpl in *;
     intros [= _ <-]; done).
Qed.

(** ** The dependencies of the handlers *)

Section server.
Context `{!Platform} `{!Jwt} `{!Bcrypt} {P T : Type} `{!Pgx P T} `{!querier T} `{!querier P} `{!Pinger P}.

Definition server_dependencies (tokens : TokenService) (salt : string) (logger : level → bool) (timeout : time) :
    Dependencies (bench P) :=
  mk_Dependencies (bench P) tokens
    (mk_Authenticator (bench P) (λ _ now email password, serving (Login (NewLoginService tokens salt) email password now)))
    (mk_TransferService (bench P)
       (λ _ userID key request, serving (ask (Create (T:=T) userID key request)))
       (λ _ userID transferID, serving (ask (Get userID transferID))))
    (mk_AccountService (bench P)
       (λ _ userID, serving (ask (AccountService.List userID)))
       (λ _ userID accountID, serving (ask (AccountService.Get userID accountID))))
    (Some (λ _, serving (ask Ping)))
    (Some logger) timeout.

(** ** What the reads do to the database *)

Context (pool_db : P → db) `{!querier_documented pool_db} `{!pool_documented pool_db}.
Implicit Types (p : P) (b : bench P).

Lemma query_reads {A} (q : stmt A) p : (∀ e d, (sql e q d).2 = d) → pool_db (query q p).2 = pool_db p.
Proof.
  intros Hq. destruct (query q p) as [[a|err] p'] eqn:Heq; simpl; [|by eapply read_err].
  apply (query_ok (tx_db:=pool_db)) in Heq as (e & Hs). specialize (Hq e (pool_db p)). by rewrite Hs in Hq.
Qed.

Lemma select_reads {A} ps (x : A) d : (select ps x d).2 = d.
Proof. unfold select. by case_match. Qed.

Lemma FindOwned_reads u i p : pool_db (pg_FindOwned u i p).2 = pool_db p.
Proof.
  rewrite <-(query_reads (SelectOwned i u) p) by (intros; apply select_reads).
  unfold pg_FindOwned, mbind, tx_bind, map_err. destruct (query _ p) as [[rows|err] p']; [|done].
  by destruct rows as [|row [|? ?]].
Qed.

Lemma ListByUser_reads u p : pool_db (pg_ListByUser u p).2 = pool_db p.
Proof.
  rewrite <-(query_reads (SelectByUser u) p) by (intros; apply select_reads).
  unfold pg_ListByUser, mbind, tx_bind, map_err. by destruct (query _ p) as [[rows|err] p'].
Qed.

Lemma FindByID_reads u i p : pool_db (pg_FindByID u i p).2 = pool_db p.
Proof.
  unfold pg_FindByID. destruct (UUID_Scan i) as [id|]; [|done].
  rewrite <-(query_reads (SelectByID id u) p) by (intros; apply select_reads).
  unfold query_transfer, mbind, tx_bind, lift. destruct (query _ p) as [[row|err] p']; simpl; [|by destruct (Is err _)].
  destruct (scanTransfer row) as [[tr o]|err]; [done|]. by destruct (Is err _).
Qed.

Lemma FindByEmail_reads email p : pool_db (pg_FindByEmail email p).2 = pool_db p.
Proof.
  rewrite <-(query_reads (SelectUser email) p) by (intros; apply select_reads).
  unfold pg_FindByEmail. by destruct (query _ p) as [[[[i r]|]|err] p'].
Qed.

Lemma map_err_state {R A} f (m : tx R A) s : (map_err f m s).2 = (m s).2.
Proof. unfold map_err. by destruct (m s) as [[a|err] s']. Qed.

Lemma Login_reads ls email password now b :
  pool_db (repo (Login ls email password now b).2) = pool_db (repo b).
Proof.
  unfold Login. destruct (_ || _); [done|]. unfold ask. pose proof (FindByEmail_reads (TrimSpace email) (repo b)) as Hf.
  unfold FindByEmail, pg_users. destruct (pg_FindByEmail (TrimSpace email) (repo b)) as [[user|err] p'].
  - unfold compare. by destruct (CompareHashAndPassword _ _).
  - by destruct (Is err _).
Qed.

End server.

(** ** Errors of [Create] have one answer *)

(** The errors that [createTransfer] tells apart. *)
Definition answerable : list sentinel :=
  [ErrForbidden; ErrInvalidTransfer; ErrIdempotencyConflict; ErrDestinationNotFound; ErrCurrencyMismatch; ErrBalanceOverflow].

(** The error matches at most one of them, so the order of the cases does not matter. *)
Definition exclusive (e : error) : Prop :=
  ∀ s1 s2, s1 ∈ answerable → s2 ∈ answerable → Is e s1 = true → Is e s2 = true → s1 = s2.

Lemma exclusive_Sentinel s : exclusive (Sentinel s).
Proof. intros s1 s2 _ _ H1 H2. simpl in H1, H2. reflect. congruence. Qed.

Lemma exclusive_foreign e : foreign e → exclusive e.
Proof. intros Hf s1 s2 _ _ H1. by rewrite Hf in H1. Qed.

Lemma exclusive_Errorf f e : exclusive e → exclusive (Errorf f e).
Proof. done. Qed.

Lemma exclusive_New msg : exclusive (New msg).
Proof. by apply exclusive_foreign. Qed.

Hint Resolve exclusive_Sentinel exclusive_foreign exclusive_Errorf exclusive_New : exclusive.

Lemma Validate_exclusive r e : CreateTransfer.Validate r = Err e → exclusive e.
Proof.
  unfold CreateTransfer.Validate. intros Hv. repeat (case_hyp Hv; [|]); simplify_eq;
    intros s1 s2 H1 H2 Hi1 Hi2; simpl in Hi1, Hi2; unfold answerable in *; set_solver.
Qed.

Lemma check_accounts_exclusive u r h e : check_accounts u r h = Err e → exclusive e.
Proof.
  assert (∀ p m h e h', (∀ a e a', m a = (Err e, a') → exclusive e) → on p m h = (Err e, h') → exclusive e) as Hon.
  { intros p m h0 e0 h' Hm. unfold on. destruct (h0 !! p) as [a|]; [|intros [= <- _]; apply exclusive_New].
    destruct (m a) as [res a'] eqn:E. intros [= -> _]. eauto. }
  assert (∀ n a e a', Account.Debit n a = (Err e, a') → exclusive e) as Hdebit.
  { intros n a e0 a'. unfold Account.Debit. repeat case_match; intros [= <- _]; auto with exclusive. }
  assert (∀ n a e a', Account.Credit n a = (Err e, a') → exclusive e) as Hcredit.
  { intros n a e0 a'. unfold Account.Credit. repeat case_match; intros [= <- _]; auto with exclusive. }
  unfold check_accounts, settle. intros Hc. repeat (case_hyp Hc; try discriminate); simplify_eq; eauto with exclusive.
Qed.

Section exclusive.
Context `{!Platform} {T : Type} `{!querier T} (tx_db : T → db) `{!querier_documented tx_db}.

Lemma query_exclusive {A} (q : stmt A) t e t' : query q t = (Err e, t') → exclusive e.
Proof. intros Hq. apply exclusive_foreign. by apply (query_err (tx_db:=tx_db)) in Hq. Qed.

Lemma query_transfer_exclusive q t e t' : query_transfer q t = (Err e, t') → exclusive e.
Proof.
  unfold query_transfer, lift. intros [Hq|(row & t1 & Hq & Hs)]%tx_bind_Err; [by eapply query_exclusive|].
  injection Hs as Hs _. unfold scanTransfer in Hs. destruct row as [r|]; [|simplify_eq; auto with exclusive].
  destruct (Unmarshal _) as [|err] eqn:Hu; simplify_eq. apply Unmarshal_Err in Hu as ->. by apply exclusive_foreign.
Qed.

Lemma create_idempotent_exclusive n t e t' : pg_CreateIdempotent n t = (Err e, t') → exclusive e.
Proof.
  unfold pg_CreateIdempotent, parseKey, replay. intros Hc.
  destruct (UUID_Scan _) as [k|]; [|simplify_eq; auto with exclusive].
  case_bool_decide; [simplify_eq; auto with exclusive|].
  destruct (query_transfer _ t) as [[[tr o]|err] t1] eqn:Hq; [done|]. apply query_transfer_exclusive in Hq.
  destruct (negb _); [by simplify_eq; apply exclusive_Errorf|].
  destruct (query_transfer _ t1) as [[[tr o]|err'] t2] eqn:Hq2; [|by apply query_transfer_exclusive in Hq2; simplify_eq].
  case_bool_decide; simplify_eq; auto with exclusive.
Qed.

Lemma create_tx_exclusive u key r t e t' : create_tx u key r t = (Err e, t') → exclusive e.
Proof.
  unfold create_tx. intros [Hl|(accs & t1 & _ & Hc)]%tx_bind_Err.
  { apply tx_bind_Err in Hl as [(e0 & Hq & ->)%map_err_Err|(? & ? & _ & Hm)]; [by eapply exclusive_Errorf, query_exclusive|].
    by apply mret_Err in Hm. }
  apply tx_bind_Err in Hc as [Hl|([[st reason] h] & t2 & _ & Hc)].
  { injection Hl as Hl _. by eapply check_accounts_exclusive. }
  apply tx_bind_Err in Hc as [Hi|([result created] & t3 & _ & Hc)]; [exact (create_idempotent_exclusive _ _ _ _ Hi)|].
  destruct (_ || _); [by apply mret_Err in Hc|].
  destruct (h !! _) as [a|]; [|apply fail_Err in Hc as [<- _]; apply exclusive_New].
  destruct (h !! _) as [b|]; [|apply fail_Err in Hc as [<- _]; apply exclusive_New].
  apply tx_bind_Err in Hc as [Hs|([] & t4 & _ & Hc)].
  { apply tx_bind_Err in Hs as [(e0 & Hq & ->)%map_err_Err|(n & ? & _ & Hm)]; [by eapply exclusive_Errorf, query_exclusive|].
    destruct (negb _); [apply fail_Err in Hm as [<- _]; auto with exclusive|by apply mret_Err in Hm]. }
  apply tx_bind_Err in Hc as [(e0 & Hq & ->)%map_err_Err|([] & t5 & _ & Hm)]; [by eapply exclusive_Errorf, query_exclusive|].
  by apply mret_Err in Hm.
Qed.

End exclusive.

Lemma create_exclusive `{!Platform} u key r (p : pool) e p' : Create u key r p = (Err e, p') → exclusive e.
Proof.
  unfold Create. case_bool_decide; [intros [<- _]%fail_Err; auto with exclusive|].
  destruct (CreateTransfer.Validate r) as [[]|err] eqn:Hv; [|intros [<- _]%fail_Err; by eapply Validate_exclusive].
  intros (e0 & Hw & ->)%map_err_Err. apply exclusive_Errorf. unfold WithinTx, Store in Hw. simpl in Hw.
  destruct (p_scripts p) as [|sc scs]; [by simplify_eq; apply exclusive_foreign|].
  destruct (create_tx _ _ _ _) as [[x|err] t] eqn:Hc; [destruct (sc_fate sc)|]; simplify_eq; try by apply exclusive_foreign.
  by eapply (create_tx_exclusive c_db).
Qed.
