(* ===== verification/HttpTheorems.v ===== *)
(** * The service over HTTP

    The theorems on [NewHandler]: on any services (every request is answered once, with its ID,
    and logged), and on the service as [cmd/api] puts it together (who can change the bank, and
    what each request is answered). *)
From S2P Require Import Prelude GoStrings GoErrors Entities Json Database BankSpec Contracts TransferService Repository RepositoryCorrect Programs Locking LockingCorrect Outcome Driver TransferTheorems Reads Mime JsonText Http Auth AuthTheorems HttpApi HttpCorrect Server.
From Stdlib Require Import Ascii.

(** ** Who can change the bank *)

Section bank.
Context `{!Platform} `{!PlatformLaws} `{!Jwt} `{!JwtLaws} `{!Bcrypt}.
Context {P T : Type} `{!Pgx P T} `{!querier T} `{!querier P} `{!Pinger P}.
Context (pool_db : P → db) (tx_db : T → db).
Context `{!querier_documented tx_db} `{!Pgx_documented pool_db tx_db} `{!querier_documented pool_db}
  `{!pool_documented pool_db}.
Context (format_time : time → string) (redirect_status : Z) (OpenAPISpec : string).
Implicit Types (b : bench P) (r : request context).

Definition bank_behind b : bank uuid := bank_of (pool_db (repo b)).

(** The bank changed as the request of an authorized user says. *)
Definition authorized_change (tokens : TokenService) (now : time) r b b' : Prop :=
  ∃ scheme raw c rawkey k request rest tr created,
    Values "Authorization" (Header r) = [scheme] ∧ raw ∈ Fields scheme ∧
    signed_by "HS256" (key tokens) raw c ∧ accepted (verify_options tokens) now c ∧
    PermissionTransfersCreate ∈ Claims.Permissions c ∧
    Values "Idempotency-Key" (Header r) = [rawkey] ∧ key_of (TrimSpace rawkey) = Some k ∧
    Decode (MaxBytesReader (Body r) maxBodyBytes) = inl (Some request, rest) ∧
    creates (Claims.Subject c) k request (bank_behind b) tr created (bank_behind b').

Lemma createTransfer_change {W} `{!ResponseWriter W} l tokens salt lg timeout r c (w : world W (bench P)) :
  ClaimsFromContext (Context r) = Some c → db_ok (pool_db (repo (store w))) →
  let w' := (createTransfer format_time l (Transfers (server_dependencies (T:=T) tokens salt lg timeout)) r w).2 in
  db_ok (pool_db (repo (store w'))) ∧
  (bank_behind (store w') = bank_behind (store w) ∨
   ∃ rawkey k request rest tr created,
     Values "Idempotency-Key" (Header r) = [rawkey] ∧ key_of (TrimSpace rawkey) = Some k ∧
     Decode (MaxBytesReader (Body r) maxBodyBytes) = inl (Some request, rest) ∧
     creates (Claims.Subject c) k request (bank_behind (store w)) tr created (bank_behind (store w'))).
Proof.
  intros Hc Hok. unfold createTransfer. rewrite Hc.
  destruct (Values "Idempotency-Key" (Header r)) as [|rawkey [|? ?]] eqn:Hv; [by auto| |by auto].
  destruct (negb _); [by auto|].
  destruct (decodeJSON r _) as [[request|] wr] eqn:Hd; [|by auto].
  apply decodeJSON_Some in Hd as (-> & rest & Hd & _). pose proof (Decode_int64 _ _ _ Hd) as Hz.
  match goal with |- context [calling ?m ?w0 ?k] =>
    assert (store (calling m w0 k).2 = (m (store w0)).2) as Hst by
      (apply calling_store; intros [[tr created]|err] w'; [done|];
       destruct (create_refusal err) as [[st message]|]; [done|]; simpl; apply logged_store)
  end.
  simpl in Hst. simpl. rewrite Hst. unfold serving, ask, bank_behind.
  destruct (Create _ _ request (repo (store w))) as [[[tr created]|err] p'] eqn:Hcr; simpl.
  - apply (create_answer pool_db tx_db) in Hcr as (Hok' & k & Hk & Hcreates); [|done..]. eauto 15.
  - apply (create_error pool_db tx_db) in Hcr as (Hok' & [Hb|(k & tr & created & Hk & Hcreates)]); eauto 15.
Qed.

(** Handlers behind a guard that do not touch the database. *)
Lemma guarded_same {W} `{!ResponseWriter W} tokens now p (h : handler W (bench P) context) r w :
  (∀ r w, pool_db (repo (store (h r w).2)) = pool_db (repo (store w))) →
  pool_db (repo (store (Authenticate tokens now (RequirePermission p h) r w).2)) = pool_db (repo (store w)).
Proof. intros Hh. unfold Authenticate, RequirePermission. repeat case_match; try done; apply Hh. Qed.

Lemma serving_ask {A} (m : tx P A) b : (serving (ask m) b).2 = mk_bench (m (repo b)).2 (compared b).
Proof. unfold serving, ask. by destruct (m (repo b)). Qed.

(** The endpoints other than the creation of transfers leave the database as it is. *)
Lemma endpoint_same {W} `{!ResponseWriter W} tokens salt lg timeout l e ep r (w : world W (bench P)) :
  ep ≠ CreateTransfers →
  pool_db (repo (store (handler_of format_time OpenAPISpec
    (server_dependencies (T:=T) tokens salt lg timeout) l e ep r w).2)) = pool_db (repo (store w)).
Proof.
  intros Hep. destruct ep; try done; simpl.
  - rewrite calling_store; [|by intros [?|?]]. rewrite serving_ask. apply ping_db.
  - unfold login. destruct (decodeJSON r _) as [[request|] wr]; [|done].
    rewrite calling_store.
    + unfold serving. simpl. pose proof (Login_reads pool_db (NewLoginService tokens salt)
        (loginRequest.Email request) (loginRequest.Password request) (at_token e) (store w)) as Hl.
      by destruct (Login _ _ _ _ _).
    + intros [token|err] w'; [done|]. destruct (Is err _); [done|]. simpl. apply logged_store.
  - unfold Authenticate, me. by repeat case_match.
  - apply guarded_same. intros r' w'. unfold listAccounts. rewrite calling_store.
    + simpl. rewrite serving_ask. apply ListByUser_reads; apply _.
    + intros [?|err] w1; [done|]. simpl. apply logged_store.
  - apply guarded_same. intros r' w'. unfold getAccount. rewrite calling_store; [|intros; apply answer_read_store].
    simpl. rewrite serving_ask. unfold AccountService.Get. simpl. rewrite map_err_state. apply FindOwned_reads; apply _.
  - apply guarded_same. intros r' w'. unfold getTransfer. rewrite calling_store; [|intros; apply answer_read_store].
    simpl. rewrite serving_ask. unfold Get. simpl. rewrite map_err_state. apply FindByID_reads; apply _.
Qed.

(** C11: who can change the bank.  Of all requests that reach the service, only a [POST /transfers]
    changes the bank, and only with one bearer token that the service signed, that is current and
    that grants [transfers:create], one idempotency key, and a body that is a transfer request; the
    change is then the step of the abstract bank for that user, key and request.  Every other
    request, and every refused one, leaves the bank as it is, and the stored rows stay sound. *)
Theorem only_authorized_posts_change_the_bank tokens salt lg timeout e r w :
  db_ok (pool_db (repo (store w))) →
  let w' := (NewHandler format_time redirect_status OpenAPISpec
               (server_dependencies (T:=T) tokens salt lg timeout) e r w).2 in
  db_ok (pool_db (repo (store w'))) ∧
  (bank_behind (store w') = bank_behind (store w) ∨
   Method r = "POST" ∧ match_path (EscapedPath r) CreateTransfers = Some "" ∧
   authorized_change tokens (at_token e) r (store w) (store w')).
Proof.
  intros Hok. cbv zeta. rewrite NewHandler_store. unfold inner_run, mux_ServeHTTP.
  destruct (negb _) eqn:Hpath; [by auto|]. reflect.
  destruct (find_endpoint _ _) as [[ep value]|] eqn:Hep.
  2: { destruct (allowed_methods _); by auto. }
  destruct (decide (ep = CreateTransfers)) as [->|Hne].
  2: { unfold bank_behind. rewrite endpoint_same by done. by auto. }
  apply find_endpoint_Some in Hep as [Hm Hp]. rewrite Hpath in Hp. cbn [inner_request WithContext EscapedPath Method] in Hm, Hp.
  assert (Method r = "POST" ∧ value = "") as [Hmethod ->].
  { unfold match_method in Hm. simpl in Hm. rewrite orb_false_r in Hm. reflect. split; [done|].
    unfold match_path in Hp. repeat (case_hyp Hp; try discriminate). simpl in Hp.
    repeat (case_hyp Hp; try discriminate). congruence. }
  set (d := server_dependencies tokens salt lg timeout).
  set (r' := SetPathValue "" (inner_request d e r)). set (w0 := inner_world e r w).
  change (handler_of format_time OpenAPISpec d (logger_of d) e CreateTransfers r' w0) with
    (Authenticate tokens (at_token e) (RequirePermission PermissionTransfersCreate
       (createTransfer format_time (logger_of d) (Transfers d))) r' w0).
  destruct (guarded_cases tokens (at_token e) PermissionTransfersCreate
              (createTransfer format_time (logger_of d) (Transfers d)) r' w0)
    as [-> |[-> |(scheme & raw & c & Hv & Hraw & Hs & Ha & Hperm & ->)]]; [done|by auto|by auto|].
  destruct (createTransfer_change (logger_of d) tokens salt lg timeout
              (WithContext (with_claims c (Context r')) r') c w0 eq_refl Hok)
    as (Hok' & [Hb|(rawkey & k & request & rest & tr & created & Hk & Hkey & Hd & Hcr)]); [by auto|].
  split; [done|]. right. split; [done|]. split; [done|].
  exists scheme, raw, c, rawkey, k, request, rest, tr, created. done.
Qed.

End bank.

(** ** Every request is answered and logged *)

Section answers.
Context `{!Platform} `{!Jwt} {S : Type} (format_time : time → string) (redirect_status : Z)
  (OpenAPISpec : string).
Implicit Types (d : Dependencies S) (e : readings) (r : request context).

Abbreviation serve_http d e r s lg :=
  (NewHandler format_time redirect_status OpenAPISpec d e r (mk_world new_response s lg)).

(** The answer of a request whose handler returned. *)
Lemma returned_answer d e r s lg w' :
  inner_run format_time redirect_status OpenAPISpec d e r (mk_world new_response s lg) = (Returned, w') →
  r_status (under (writer w')) = Some (status (writer w')) ∧
  Header_Get "X-Request-ID" (r_sent (under (writer w'))) = request_id e r ∧
  Header_Get "Server-Timing" (r_sent (under (writer w'))) ≠ "".
Proof.
  intros Hrun.
  pose proof (inner_tidy format_time redirect_status OpenAPISpec d e r (mk_world new_response s lg)) as Ht.
  rewrite Hrun in Ht. destruct Ht as (st & hs & Hr & Hhs).
  apply recorder_responds in Hr as (Hst & Hstatus & dur & Hsent); [|done..].
  simpl in Hst, Hstatus, Hsent. rewrite Hstatus, Hst, Hsent. split; [done|]. headers. split; [|done].
  rewrite set_headers_other by (done || (vm_compute; set_solver)). simpl. apply Header_Get_Set.
Qed.

(** The answer to a request whose handler panicked. *)
Lemma panicked_answer d e r s lg msg w' :
  inner_run format_time redirect_status OpenAPISpec d e r (mk_world new_response s lg) = (Panicked (RuntimeError msg), w') →
  let w := on_writer (writeError 500 "internal server error")
             (logged (logger_of d) (panic_entry r (RuntimeError msg)) (mk_world (under (writer w')) (store w') (log w'))) in
  r_status (writer w) = Some 500 ∧ Header_Get "X-Request-ID" (r_sent (writer w)) = request_id e r.
Proof.
  intros Hrun.
  pose proof (inner_tidy format_time redirect_status OpenAPISpec d e r (mk_world new_response s lg)) as Ht.
  rewrite Hrun in Ht. destruct Ht as (hs & Hw & Hhs). simpl in Hw. rewrite set_headers_recorder in Hw.
  unfold on_writer. cbn [writer]. rewrite logged_writer. cbn [writer]. rewrite Hw. cbn [under on_under].
  unfold writeError, writeJSON.
  rewrite Write_after by (rewrite set_header_status, set_headers_status; done). simpl. split; [done|]. headers.
  rewrite set_headers_other by (done || (vm_compute; set_solver)). simpl. apply Header_Get_Set.
Qed.

(** C15: every request gets one complete answer, whatever the services do.  Unless a handler aborts
    on purpose, with [http.ErrAbortHandler], the request is answered with one status, also when
    a service panics, and the answer carries the ID of the request: the caller's, if it is well
    formed, else sixteen hexadecimal digits. *)
Theorem every_request_is_answered d e r s lg :
  length (random e) = 8%nat →
  let '(x, w') := serve_http d e r s lg in
  validRequestID (request_id e r) = true ∧
  match x with
  | Panicked v => v = ErrAbortHandler
  | Returned =>
    is_Some (r_status (writer w')) ∧ Header_Get "X-Request-ID" (r_sent (writer w')) = request_id e r
  end.
Proof.
  intros Hl. pose proof (request_id_valid e r Hl) as Hid. rewrite NewHandler_run.
  pose proof (returned_answer d e r s lg) as Hret.
  pose proof (panicked_answer d e r s lg) as Hpanic.
  destruct (inner_run _ _ _ _ _ _ _) as [[|[|msg]] w'].
  - destruct (Hret w' eq_refl) as (Hst & Hx & _). rewrite logged_writer. simpl. rewrite Hst. eauto.
  - auto.
  - split; [done|]. destruct (Hpanic msg w' eq_refl) as [Hst Hx]. cbv zeta in Hst. split; [by rewrite Hst|exact Hx].
Qed.

(** C29: the access log tells the truth.  If the handler of a request returns, the log of the request
    is at most one error of the handler followed by its one access-log line, which is left out only
    when the logger does not record its level; the line carries the status that was sent and the
    request ID that was sent, and the error the same ID.  If a service panics, and only then, there
    is no access-log line: the log is the one record of the panic, unless the logger does not record
    errors, or nothing at all when the panic aborts the response on purpose. *)
Theorem access_log_is_exact d e r s lg :
  let '(x, w') := serve_http d e r s lg in
  let id := Header_Get "X-Request-ID" (r_sent (writer w')) in
  (x = Returned ∧ id = request_id e r ∧
   ∃ es st, r_status (writer w') = Some st ∧
     log w' = lg ++ es ++ (if logger_of d (log_level (access_entry e r st)) then [access_entry e r st] else []) ∧
     (length es <= 1)%nat ∧ Forall (failure_entry id) es) ∨
  (¬ never_panics d ∧
   (x = Panicked ErrAbortHandler ∧ log w' = lg ∨
    ∃ msg, x = Returned ∧ id = request_id e r ∧ r_status (writer w') = Some 500 ∧
      log w' = lg ++ (if logger_of d Error then [panic_entry r (RuntimeError msg)] else []))).
Proof.
  pose proof (returned_answer d e r s lg) as Hret. pose proof (NewHandler_run format_time redirect_status OpenAPISpec d e r (mk_world new_response s lg)) as Hrun.
  pose proof (panicked_answer d e r s lg) as Hpanic.
  assert (orderly (¬ never_panics d) (request_id e r) (inner_world e r (mk_world new_response s lg))
            (inner_run format_time redirect_status OpenAPISpec d e r (mk_world new_response s lg))) as Ho.
  { apply mux_orderly; [done|]. intros. by apply handler_of_orderly. }
  rewrite Hrun. destruct (inner_run _ _ _ _ _ _ _) as [[|[|msg]] w']; cbn [orderly fst snd] in Ho.
  - left. destruct Ho as (es & Hes & Hlen & Hall).
    destruct (Hret w' eq_refl) as (Hst & Hid & _). simpl. rewrite logged_writer. simpl. rewrite Hid.
    split; [done|]. split; [done|]. exists es, (status (writer w')). split; [done|]. split; [|done].
    simpl in Hes. unfold logged. destruct (logger_of d _); simpl; rewrite Hes, ?app_nil_r; [by rewrite <-app_assoc|done].
  - right. destruct Ho as [Hno Hlog]. split; [done|]. left. by split.
  - right. destruct Ho as [Hno Hlog]. split; [done|]. right. exists msg. split; [done|].
    destruct (Hpanic msg w' eq_refl) as [Hst Hid]. cbn zeta in Hst, Hid |- *. rewrite Hst, Hid. split; [done|]. split; [done|].
    unfold on_writer, logged. cbn [log log_level panic_entry]. simpl in Hlog. destruct (logger_of d Error); cbn [log].
    + by rewrite Hlog.
    + by rewrite Hlog, app_nil_r.
Qed.

(** What a client decodes from the bytes of a response. *)
Definition read_back (a : response) : (json * reader) + decode_error :=
  read_json (mk_reader (foldr (λ c, String.append (chunk_text c)) "" (r_body a)) EOF).

Lemma media_read_back a kvs :
  media_agrees a → r_body a = [Encoded (JObject kvs)] →
  read_back a = inl (wire (JObject kvs), mk_reader (String (chr 10) "") EOF).
Proof.
  unfold media_agrees, read_back, read_json. intros Ha Hb. rewrite Hb in Ha |- *. destruct Ha as (_ & Hd & Hi).
  cbn [foldr chunk_text content ending]. rewrite app_string_assoc, scan_object_wire; [done|done|].
  etransitivity; [exact Hd|]. unfold maxNestingDepth. lia.
Qed.

(** C16: every answer is of the type it says.  Whatever the services do, unless a handler aborts on
    purpose, the response is exactly one of: a single JSON object, nested three deep at most, with
    the type [application/json]; a text of one of the three other types of the interface, which
    includes the page of a redirect; or a redirect with its target and no body.  A client that reads
    the bytes of the object gets that object, with U+FFFD for every byte of its strings that is no
    UTF-8; when the strings are valid UTF-8, it gets that very object. *)
Theorem answers_are_typed d e r s lg :
  let '(x, w') := serve_http d e r s lg in
  match x with
  | Panicked v => v = ErrAbortHandler
  | Returned =>
    media_agrees (writer w') ∧
    ∀ kvs, r_body (writer w') = [Encoded (JObject kvs)] →
      read_back (writer w') = inl (wire (JObject kvs), mk_reader (String (chr 10) "") EOF) ∧
      (text_ok (JObject kvs) = true → wire (JObject kvs) = JObject kvs)
  end.
Proof.
  assert (∀ a, media_agrees a → media_agrees a ∧ ∀ kvs, r_body a = [Encoded (JObject kvs)] →
    read_back a = inl (wire (JObject kvs), mk_reader (String (chr 10) "") EOF) ∧
    (text_ok (JObject kvs) = true → wire (JObject kvs) = JObject kvs)) as Hread.
  { intros a Ha. split; [done|]. intros kvs Hb. split; [by apply media_read_back|]. by intros [_ ?]%text_ok_wire. }
  rewrite NewHandler_run. pose proof (inner_tidy format_time redirect_status OpenAPISpec d e r (mk_world new_response s lg)) as Ht.
  destruct (inner_run _ _ _ _ _ _ _) as [[|[|msg]] w']; [|done|]; apply Hread.
  - rewrite logged_writer. destruct Ht as (st & hs & _ & Hhs & Hm). by apply recorder_media in Hm.
  - destruct Ht as (hs & Hw & Hhs). simpl in Hw. rewrite set_headers_recorder in Hw.
    unfold on_writer. cbn [writer]. rewrite logged_writer. cbn [writer]. rewrite Hw. cbn [under on_under].
    unfold writeError, writeJSON. rewrite Write_after by (rewrite set_header_status, set_headers_status; done).
    unfold media_agrees. simpl. rewrite set_headers_body. simpl. headers. split; [done|]. split; [lia|done].
Qed.

End answers.

(** ** Request bodies *)

Section bodies.
Context {W C : Type} `{!ResponseWriter W}.
Implicit Types (r : request C) (w : W).

(** C30: a body is accepted only if it is exactly one JSON object with known fields: it is the text of
    one object, then white space up to the end, of at most 64 KiB in all; every key names a field
    of the request, and the amount fits 64 bits.  And the same body followed by anything but white
    space is refused. *)
Theorem accepted_body_is_one_object r w w' (req : CreateTransfer.t) :
  decodeJSON r w = (Some req, w') →
  w' = w ∧ len (content (Body r)) <= 65536 ∧ is_int64 (CreateTransfer.Amount req) ∧
  (∃ text ws kvs, content (Body r) = text +:+ ws ∧ forallb isSpace (bytes_of ws) = true ∧
     scan_value BeginValue [] text = Value (JObject kvs) "" ∧ Forall (λ kv, is_Some (field_of kv.1)) kvs) ∧
  ∀ extra, forallb isSpace (bytes_of extra) = false →
    (decodeJSON (T:=CreateTransfer.t) (with_body (mk_reader (content (Body r) +:+ extra) EOF) r) w).1 = None.
Proof.
  intros Hd. destruct (decodeJSON_object _ _ _ _ Hd) as (-> & Hlen & _ & text & ws & kvs & Hc & Hws & Ht & Hf).
  split; [done|]. split; [done|]. split; [by apply (decode_fields_int64 kvs zero_request)|]. split.
  - exists text, ws, kvs. split; [done|]. split; [done|]. split; [|by eapply decode_fields_known].
    rewrite <-(app_string_nil text). apply Ht.
  - intros extra Hex. destruct (decodeJSON (with_body _ r) w) as [[req'|] w1] eqn:Hd'; [|done].
    destruct (decodeJSON_Some _ _ _ _ Hd') as (_ & rest & Hdec & Hend). apply read_json_EOF in Hend as [Hend Hsp].
    apply Decode_object in Hdec as (kvs' & Hr & _). pose proof (read_json_object _ _ _ Hr) as (_ & _ & He & _).
    rewrite Hend in He. symmetry in He. apply MaxBytesReader_EOF in He as (_ & _ & Heq). rewrite Heq in Hr.
    unfold read_json in Hr. simpl in Hr. rewrite Hc, app_string_assoc, Ht in Hr. simplify_eq.
    simpl in Hsp. rewrite bytes_of_app, forallb_app, Hex, andb_false_r in Hsp. done.
Qed.

(** C31: a transfer request survives the wire.  The text that Go's encoder makes of a request, with
    valid UTF-8 in its texts and any white space after it, is decoded to the same request, and
    nothing is written. *)
Theorem body_roundtrip r w (req : CreateTransfer.t) ws :
  ParseMediaType (Header_Get "Content-Type" (Header r)) = Ok "application/json" →
  forallb ValidString [CreateTransfer.FromAccountID req; CreateTransfer.ToAccountID req;
                       CreateTransfer.Currency req; CreateTransfer.Description req] = true →
  is_int64 (CreateTransfer.Amount req) → forallb isSpace (bytes_of ws) = true →
  Body r = mk_reader (json_text (Marshal req) +:+ ws) EOF → len (content (Body r)) <= 65536 →
  decodeJSON r w = (Some req, w).
Proof.
  intros Hct Hv Hz Hws Hb Hlen. destruct (Marshal req) as [| | | | | |kvs] eqn:Hm; try done.
  destruct (decode_Marshal req kvs Hv Hz Hm) as (Hdec & Htext & Hdepth).
  change (decode_fields zero_value kvs = Ok req) in Hdec.
  unfold decodeJSON. rewrite Hct, bool_decide_eq_true_2 by done. simpl.
  assert (MaxBytesReader (Body r) maxBodyBytes = Body r) as ->.
  { unfold MaxBytesReader. rewrite (proj2 (Z.ltb_ge _ _)); [done|]. exact Hlen. }
  unfold Decode, read_json. rewrite Hb. cbn [content ending]. rewrite scan_object_text by done. cbn [content ending].
  rewrite Hdec. cbn [content ending]. rewrite scan_spaces by done. cbn. by rewrite Hws.
Qed.

End bodies.

(** ** What a request to create a transfer is answered *)

Section verdicts.
Context `{!Platform} `{!PlatformLaws} `{!Jwt} `{!JwtLaws} `{!Bcrypt}.
Context (format_time : time → string) (redirect_status : Z) (OpenAPISpec : string).
Implicit Types (r : request context) (e : readings).

(** The status each verdict is answered with. *)
Definition http_status (v : verdict uuid) : Z :=
  match v with
  | VForbidden => 403
  | VInvalid | VBadKey => 400
  | VConflict => 409
  | VNoDestination | VCurrency | VOverflow => 422
  | VReplay st => if s_status st == TransferStatus.Failed then 422 else 200
  | VRejected _ => 422
  | VCompleted _ _ _ => 201
  end.

(** The text each refusal is answered with. *)
Definition refusal_text (v : verdict uuid) : string :=
  match v with
  | VForbidden => "forbidden"
  | VInvalid | VBadKey => "invalid transfer request"
  | VConflict => "idempotency key already used with a different request"
  | VNoDestination => "destination account not found"
  | VCurrency => "currency does not match the accounts"
  | VOverflow => "destination balance limit reached"
  | VReplay _ | VRejected _ | VCompleted _ _ _ => ""
  end.

(** A member of an object, by its name. *)
Definition member (name : string) (j : json) : option json :=
  match j with JObject kvs => snd <$> find (λ kv, kv.1 == name) kvs | _ => None end.

Definition nonempty_member (s : string) : option json := if s == "" then None else Some (JString s).

(** The object is the transfer, member by member; an empty description and an empty failure reason
    are left out. *)
Record transfer_document (format_time : time → string) (tr : Transfer.t) (j : json) : Prop := {
  td_id : member "id" j = Some (JString (Transfer.ID tr));
  td_key : member "idempotency_key" j = Some (JString (Transfer.IdempotencyKey tr));
  td_from : member "from_account_id" j = Some (JString (Transfer.FromAccountID tr));
  td_to : member "to_account_id" j = Some (JString (Transfer.ToAccountID tr));
  td_amount : member "amount" j = Some (JNum (Transfer.Amount tr));
  td_currency : member "currency" j = Some (JString (Transfer.Currency tr));
  td_description : member "description" j = nonempty_member (Transfer.Description tr);
  td_status : member "status" j = Some (JString (Transfer.Status tr));
  td_reason : member "failure_reason" j = nonempty_member (Transfer.FailureReason tr);
  td_created : member "created_at" j = Some (JString (format_time (Transfer.CreatedAt tr)));
  td_updated : member "updated_at" j = Some (JString (format_time (Transfer.UpdatedAt tr))) }.

(** The body that answers a verdict and the result it calls for. *)
Definition answers_verdict (format_time : time → string) (v : verdict uuid) (res : result (Transfer.t * bool))
    (j : json) : Prop :=
  match res with
  | Ok (tr, _) => transfer_document format_time tr j
  | Err _ => j = JObject [("error", JString (refusal_text v))]
  end.

Definition replays (v : verdict uuid) : bool := match v with VReplay _ => true | _ => false end.

(** A [POST /transfers] with a token that grants it, a usable key and a decodable body. *)
Record authorized_post (tokens : TokenService) e r (c : Claims.t) (key : string) (req : CreateTransfer.t) : Prop := {
  ap_method : Method r = "POST";
  ap_path : EscapedPath r = "/transfers";
  ap_token : ∃ v scheme raw, Values "Authorization" (Header r) = [v] ∧ Fields v = [scheme; raw] ∧
               EqualFold scheme "Bearer" = true ∧ Verify tokens raw (at_token e) = Ok c;
  ap_permission : Claims.HasPermission c PermissionTransfersCreate = true;
  ap_key : ∃ rawkey, Values "Idempotency-Key" (Header r) = [rawkey] ∧ TrimSpace rawkey = key;
  ap_usable : usable_key key = true;
  ap_body : (decodeJSON r new_response).1 = Some req }.

Ltac in_list := apply list_elem_of_In; cbn; tauto.

(** A refusal is answered as its sentinel is. *)
Lemma refusal_of_sentinel err s :
  exclusive err → s ∈ answerable → Is err s = true → create_refusal err = create_refusal (Sentinel s).
Proof.
  intros Hex Hs His.
  assert (∀ s', s' ∈ answerable → Is err s' = true → s' = s) as Hone by eauto.
  unfold create_refusal at 1.
  repeat match goal with |- context [Is err ?s'] =>
    let E := fresh in destruct (Is err s') eqn:E; [apply Hone in E as <-; [done|in_list]|] end.
  exfalso. repeat (apply elem_of_cons in Hs as [->|Hs]; [congruence|]). by apply elem_of_nil in Hs.
Qed.

Lemma transfer_json_document tr : transfer_document format_time tr (transfer_json format_time tr).
Proof.
  unfold transfer_json, omitempty.
  split; unfold nonempty_member, member; simpl; repeat case_bool_decide; reflexivity.
Qed.

Lemma verdict_answer u req b v res b' :
  verdict_met u req b v res b' → (∀ err, res = Err err → exclusive err) →
  status_of_result res = http_status v ∧ is_replay res = replays v ∧
  answers_verdict format_time v res (body_of_result format_time res).
Proof.
  intros Hv Hex.
  assert (∀ s st message, fails_with res s → s ∈ answerable → create_refusal (Sentinel s) = Some (st, message) →
    status_of_result res = st ∧ is_replay res = false ∧ ∃ err, res = Err err ∧
    body_of_result format_time res = JObject [("error", JString message)]) as Hf.
  { intros s st message (err & -> & His) Hs Hr. rewrite <-(refusal_of_sentinel err) in Hr by auto.
    unfold status_of_result, body_of_result. rewrite Hr. split; [done|]. split; [done|]. by exists err. }
  destruct v; simpl in Hv.
  1-7: destruct Hv as [Hv _]; eapply Hf in Hv as (-> & -> & err & -> & ->); [done|in_list|done].
  - destruct Hv as (tr & -> & Hsh & _). simpl. unfold transferStatusCode. rewrite (shows_status _ _ Hsh).
    split; [done|]. split; [done|]. apply transfer_json_document.
  - destruct Hv as (tr & st & -> & Hsh & -> & _). simpl. unfold transferStatusCode. rewrite (shows_status _ _ Hsh).
    split; [done|]. split; [done|]. apply transfer_json_document.
  - destruct Hv as (tr & -> & Hsh & _). simpl. unfold transferStatusCode. rewrite (shows_status _ _ Hsh).
    split; [done|]. split; [done|]. apply transfer_json_document.
Qed.

(** C12: end to end.  An authorized [POST /transfers], when no fault strikes its transaction, is answered
    with the status of the verdict on the bank it finds: 201 for a transfer that is made now, 422 for
    one that is rejected, 200 or 422 for a replay, which is marked as such and only then, 403, 400, 409
    and 422 for the refusals.  The body is one JSON object: the transfer of the verdict, member by
    member, or the text of the refusal.  And the bank afterwards is the one the verdict says. *)
Theorem post_transfer_answers_verdict tokens salt lg timeout e r (b : bench pool) logs c key req env scs :
  authorized_post tokens e r c key req → db_ok (p_db (repo b)) →
  p_scripts (repo b) = mk_script env [] Committed :: scs →
  storable (mk_job (Claims.Subject c) key req env) (p_db (repo b)) →
  let bank := bank_of (p_db (repo b)) in
  let v := verdict_of (Claims.Subject c) (key_of key) req bank in
  let '(x, w') := NewHandler format_time redirect_status OpenAPISpec
                    (server_dependencies (T:=session) tokens salt lg timeout) e r (mk_world new_response b logs) in
  x = Returned ∧ r_status (writer w') = Some (http_status v) ∧
  Header_Get "Idempotent-Replayed" (r_sent (writer w')) = (if replays v then "true" else "") ∧
  ∃ res body, r_body (writer w') = [Encoded body] ∧ answers_verdict format_time v res body ∧
    verdict_met (Claims.Subject c) req bank v res (bank_of (p_db (repo (store w')))).
Proof.
  intros [Hm Hp (v & scheme & raw & Hv & Hf & Hb & Hver) Hperm (rawkey & Hrk & Hk) Hu Hbody] Hok Hsc Hsto bank0 vd.
  rewrite NewHandler_run. set (d := server_dependencies tokens salt lg timeout).
  assert (is_int64 (CreateTransfer.Amount req)) as Hz.
  { destruct (decodeJSON r new_response) as [[req'|] w1] eqn:Hd; [|done]. simpl in Hbody. injection Hbody as ->.
    apply decodeJSON_Some in Hd as (_ & rest & Hd & _). by eapply Decode_int64. }
  pose proof (create_verdict (Claims.Subject c) key req env (repo b) scs Hok Hz Hsc Hsto) as Hcv.
  pose proof (create_exclusive (Claims.Subject c) key req (repo b)) as Hex.
  destruct (Create (Claims.Subject c) key req (repo b)) as [res p'] eqn:Hcr.
  set (w0 := inner_world e r (mk_world new_response b logs)).
  set (r' := WithContext (with_claims c (Context (SetPathValue "" (inner_request d e r))))
               (SetPathValue "" (inner_request d e r))).
  destruct (createTransfer_result format_time (logger_of d) (Transfers d) r' c rawkey req w0 res
              (mk_bench p' (compared b))) as (w' & Hrun & Hstore & Hwr);
    [done|done|by rewrite Hk|by rewrite (decodeJSON_value r' r new_response new_response)| |].
  { simpl. unfold serving, ask. simpl. rewrite Hk, Hcr. done. }
  assert (inner_run format_time redirect_status OpenAPISpec d e r (mk_world new_response b logs)
          = (Returned, w')) as ->.
  { unfold inner_run, mux_ServeHTTP, lookup_path.
    change (Method (inner_request d e r)) with (Method r). change (EscapedPath (inner_request d e r)) with (EscapedPath r).
    rewrite Hm, Hp. change (find_endpoint "POST" (if "POST" == "CONNECT" then "/transfers" else cleanPath "/transfers"))
      with (Some (CreateTransfers, "")). cbn -[createTransfer SetPathValue inner_request].
    unfold protect, Authenticate, RequirePermission.
    change (Header (SetPathValue "" (inner_request d e r))) with (Header r).
    change (Tokens d) with tokens. rewrite Hv, Hf, Hb, Hver.
    cbn -[createTransfer SetPathValue inner_request Claims.HasPermission]. rewrite Hperm. exact Hrun. }
  destruct (verdict_answer _ _ _ _ _ _ Hcv) as (Hst & Hrep & Hans); [by intros err ->; eapply Hex|].
  destruct (recorder_writeJSON (status_of_result res) (body_of_result format_time res)
              (create_headers (is_replay res)) (writer w0) eq_refl eq_refl eq_refl) as [_ Hbd]. rewrite <-Hwr in Hbd.
  assert (responds (status_of_result res) (writer w0)
            (create_headers (is_replay res) ++ [("Content-Type", "application/json")]) (writer w')) as Hresp.
  { rewrite Hwr. apply responds_after. apply (responds_status _ _ [("Content-Type", "application/json")]). }
  apply recorder_responds in Hresp as (_ & Hstatus & dur & Hsent); [|done..].
  rewrite logged_writer, logged_store. cbn [writer store]. rewrite Hstore, Hstatus, Hst, Hsent, Hrep, Hbd.
  split; [done|]. split; [done|]. split; [|by eexists res, _]. headers. unfold create_headers.
  subst vd bank0. destruct (replays _); simpl; headers; done.
Qed.

(** ** Reading an account *)

Lemma pool_account_get u i (p : pool) env scs :
  p_scripts p = mk_script env [] Committed :: scs → plain u = true → plain i = true →
  (AccountService.Get u i p).1 =
  match accounts (p_db p) !! i with
  | Some row => if a_user_id row == u then Ok (scanAccount (i, row)) else Err (Sentinel AccountErrNotFound)
  | None => Err (Sentinel AccountErrNotFound)
  end.
Proof.
  intros Hsc Hu Hi. unfold AccountService.Get, map_err. simpl. unfold pg_FindOwned, mbind, tx_bind, map_err. simpl.
  rewrite Hsc. simpl. unfold select, texts_ok. simpl. rewrite Hu, Hi. simpl. rewrite select_owned.
  destruct (accounts (p_db p) !! i) as [row|]; [|done]. by case_bool_decide.
Qed.

(** The object is the account, member by member, without its owner. *)
Record account_document (a : Account.t) (j : json) : Prop := {
  ad_id : member "id" j = Some (JString (Account.ID a));
  ad_currency : member "currency" j = Some (JString (Account.Currency a));
  ad_balance : member "balance" j = Some (JNum (Account.Balance a));
  ad_created : member "created_at" j = Some (JString (format_time (Account.CreatedAt a)));
  ad_updated : member "updated_at" j = Some (JString (format_time (Account.UpdatedAt a)));
  ad_owner : member "user_id" j = None }.

(** C25: an account cannot be probed over HTTP.  An authorized [GET /accounts/{id}], when no fault
    strikes and PostgreSQL can store the two texts of the query, is answered 200 to the owner of the
    account, with the account, member by member and without its owner; to every other user it is
    answered 404, with the same body whether the account is someone else's or does not exist. *)
Theorem get_account_answers_owner tokens salt lg timeout e r (b : bench pool) logs c i env scs :
  find_endpoint (Method r) (EscapedPath r) = Some (GetAccount, i) → lookup_path r = EscapedPath r →
  (∃ v scheme raw, Values "Authorization" (Header r) = [v] ∧ Fields v = [scheme; raw] ∧
     EqualFold scheme "Bearer" = true ∧ Verify tokens raw (at_token e) = Ok c) →
  Claims.HasPermission c PermissionAccountsRead = true →
  p_scripts (repo b) = mk_script env [] Committed :: scs →
  plain (Claims.Subject c) = true → plain i = true →
  let '(x, w') := NewHandler format_time redirect_status OpenAPISpec
                    (server_dependencies (T:=session) tokens salt lg timeout) e r (mk_world new_response b logs) in
  let own := match accounts (p_db (repo b)) !! i with
             | Some row => if a_user_id row == Claims.Subject c then Some row else None
             | None => None
             end in
  x = Returned ∧
  match own with
  | Some row =>
    r_status (writer w') = Some 200 ∧
    ∃ j, r_body (writer w') = [Encoded j] ∧
      account_document (Account.mk i (a_user_id row) (a_currency row) (a_balance row) (a_created_at row) (a_updated_at row)) j
  | None =>
    r_status (writer w') = Some 404 ∧ r_body (writer w') = [Encoded (JObject [("error", JString "account not found")])]
  end.
Proof.
  intros Hep Hclean (v & scheme & raw & Hv & Hf & Hb & Hver) Hperm Hsc Hu Hi.
  pose proof (pool_account_get (Claims.Subject c) i (repo b) env scs Hsc Hu Hi) as Hget.
  set (d := server_dependencies tokens salt lg timeout). set (w0 := inner_world e r (mk_world new_response b logs)).
  assert (inner_run format_time redirect_status OpenAPISpec d e r (mk_world new_response b logs) =
          answer_read (logger_of d) AccountErrNotFound "account not found" "get account failed" "could not load account"
            (account_json format_time) (WithContext (with_claims c (Context (SetPathValue i (inner_request d e r))))
               (SetPathValue i (inner_request d e r)))
            (AccountService.Get (Claims.Subject c) i (repo b)).1
            (with_store (mk_bench (AccountService.Get (Claims.Subject c) i (repo b)).2 (compared b)) w0)) as Hrun.
  { unfold inner_run, mux_ServeHTTP.
    change (lookup_path (inner_request d e r)) with (lookup_path r). change (Method (inner_request d e r)) with (Method r).
    change (EscapedPath (inner_request d e r)) with (EscapedPath r). rewrite Hclean, bool_decide_eq_true_2, Hep by done.
    cbn [negb handler_of]. set (r' := SetPathValue i (inner_request d e r)).
    unfold protect, Authenticate, RequirePermission. change (Header r') with (Header r). change (Tokens d) with tokens.
    rewrite Hv, Hf, Hb, Hver.
    change (ClaimsFromContext (Context (WithContext (with_claims c (Context r')) r'))) with (Some c). cbv iota.
    rewrite Hperm. cbn [negb]. unfold getAccount, calling.
    match goal with |- context [as_Get (Accounts d) ?ctx ?u ?j ?s] =>
      change (as_Get (Accounts d) ctx u j s) with (serving (ask (AccountService.Get (Claims.Subject c) i)) b) end.
    unfold serving, ask. by destruct (AccountService.Get (Claims.Subject c) i (repo b)). }
  rewrite NewHandler_run, Hrun, Hget. unfold answer_read.
  destruct (accounts (p_db (repo b)) !! i) as [row|]; [case_bool_decide|];
    change (Is (Sentinel AccountErrNotFound) AccountErrNotFound) with true; cbn [respond]; rewrite logged_writer;
    (split; [done|]); cbn [writer on_writer with_store].
  - destruct (recorder_writeJSON 200 (account_json format_time (scanAccount (i, row))) [("Cache-Control", "no-store")]
      (writer w0) eq_refl eq_refl eq_refl) as [Hst Hbd].
    split; [exact Hst|]. eexists. split; [exact Hbd|]. by split.
  - exact (recorder_writeJSON 404 (error_body "account not found") [] (writer w0) eq_refl eq_refl eq_refl).
  - exact (recorder_writeJSON 404 (error_body "account not found") [] (writer w0) eq_refl eq_refl eq_refl).
Qed.

End verdicts.

(** ** Witnesses *)

Definition sample_readings : readings :=
  mk_readings sample_now sample_now sample_now sample_now (sample_now + 1500000) (sample_now + 1600000) (repeat Ascii.zero 8).

Definition sample_server : Dependencies (bench pool) :=
  server_dependencies (T:=session) sample_tokens "salt" (λ _, true) (10 * Second).

Definition sample_bench : bench pool := mk_bench sample_pool [].

(** Alice's token for transfers and accounts. *)
Definition post_claims : Claims.t :=
  issued_claims sample_tokens "alice" [PermissionTransfersCreate; PermissionAccountsRead] sample_now.

Definition post_raw : string :=
  match SignedString (key sample_tokens) post_claims with Ok raw => raw | Err _ => "" end.

Definition sample_header : header :=
  list_to_map [ ("Authorization", ["Bearer " +:+ post_raw]); ("Idempotency-Key", [" k-1 "]);
                ("Content-Type", ["application/json; charset=utf-8"]); ("X-Request-Id", ["trace-7"]) ].

Definition sample_post : request context :=
  mk_request context "POST" "/transfers" "/transfers" "" "" sample_header
    (mk_reader (json_text (Marshal sample_request) +:+ " ") EOF) no_context.

Definition sample_account_get (path : string) : request context :=
  mk_request context "GET" path path "" "" sample_header (mk_reader "" EOF) no_context.

Lemma sample_post_authorized :
  authorized_post sample_tokens sample_readings sample_post post_claims "k-1" sample_request.
Proof.
  split; [reflexivity|reflexivity| |vm_compute; reflexivity| |vm_compute; reflexivity|vm_compute; reflexivity].
  - exists ("Bearer " +:+ post_raw), "Bearer", post_raw. split; [vm_compute; reflexivity|].
    split; [vm_compute; reflexivity|]. split; vm_compute; reflexivity.
  - exists " k-1 ". split; vm_compute; reflexivity.
Qed.

Definition plain_time : time → string := λ _, "2024-01-01T00:00:00Z".

Lemma post_transfer_answers_verdict_witness :
  ∃ body, r_body (writer (NewHandler plain_time 301 "" sample_server sample_readings sample_post
                            (mk_world new_response sample_bench [])).2) = [Encoded body] ∧
    member "amount" body = Some (JNum 30) ∧ member "from_account_id" body = Some (JString "acc-alice") ∧
    member "status" body = Some (JString "completed").
Proof.
  pose proof (post_transfer_answers_verdict plain_time 301 "" sample_tokens "salt" (λ _, true) (10 * Second)
                sample_readings sample_post sample_bench [] post_claims "k-1" sample_request (mk_env 7 "t-1")
                (tail (p_scripts sample_pool)) sample_post_authorized sample_db_ok eq_refl sample_storable) as Hv.
  unfold sample_server. cbv zeta in Hv.
  destruct (NewHandler plain_time 301 "" _ sample_readings sample_post _) as [x w'].
  destruct Hv as (_ & _ & _ & res & body & Hbody & Hans & Hmet). exists body. split; [exact Hbody|].
  revert Hans Hmet. match goal with |- context [verdict_met _ _ _ ?v] =>
    replace v with (VCompleted "k-1" (mk_s_account "alice" "PEN" 100) (mk_s_account "bob" "PEN" 5))
      by (vm_compute; reflexivity) end.
  intros Hans (tr & -> & [_ Hfrom _ Hamount _ _ Hst _] & _). destruct Hans as [_ _ Hf _ Ha _ _ Hs _ _ _].
  rewrite Ha, Hf, Hs, Hamount, Hfrom, Hst. split; [reflexivity|]. split; reflexivity.
Defined.

Lemma only_authorized_posts_change_the_bank_witness :
  db_ok (p_db (repo (store (NewHandler plain_time 301 "" sample_server sample_readings sample_post
                              (mk_world new_response sample_bench [])).2))).
Proof.
  exact (proj1 (only_authorized_posts_change_the_bank p_db c_db plain_time 301 "" sample_tokens "salt" (λ _, true)
                  (10 * Second) sample_readings sample_post (mk_world new_response sample_bench []) sample_db_ok)).
Defined.

Lemma every_request_is_answered_witness : validRequestID (request_id sample_readings sample_post) = true.
Proof.
  pose proof (every_request_is_answered plain_time 301 "" sample_server sample_readings sample_post sample_bench []
                eq_refl) as Ha.
  destruct (NewHandler plain_time 301 "" _ sample_readings sample_post _) as [x w']. exact (proj1 Ha).
Defined.

(** The text of the answer to the sample request, as its client reads it. *)
Lemma answers_are_typed_witness :
  let a := writer (NewHandler plain_time 301 "" sample_server sample_readings sample_post
                     (mk_world new_response sample_bench [])).2 in
  ∃ kvs, read_back a = inl (JObject kvs, mk_reader (String (chr 10) "") EOF) ∧
         fst <$> head kvs = Some "id".
Proof.
  intros a. pose proof (answers_are_typed plain_time 301 "" sample_server sample_readings sample_post sample_bench []) as Ha.
  assert (match r_body a with [Encoded (JObject kvs)] => text_ok (JObject kvs) && bool_decide (fst <$> head kvs = Some "id")
          | _ => false end = true) as Hb by (vm_compute; reflexivity).
  assert ((NewHandler plain_time 301 "" sample_server sample_readings sample_post (mk_world new_response sample_bench [])).1 = Returned)
    as Hx by (vm_compute; reflexivity).
  subst a. destruct (NewHandler plain_time 301 "" sample_server sample_readings sample_post _) as [x w']. cbn [fst snd] in *. subst x.
  destruct Ha as [_ Hread]. destruct (r_body (writer w')) as [|[[| | | | | |kvs]|] [|]]; try discriminate Hb.
  apply andb_true_iff in Hb as [Hok Hid]. exists kvs. destruct (Hread kvs eq_refl) as [Hr Hw].
  rewrite (Hw Hok) in Hr. split; [exact Hr|]. exact (bool_decide_eq_true_1 _ Hid).
Defined.

Lemma sample_never_panics : never_panics sample_server.
Proof.
  assert (∀ A (m : tx (bench pool) A) s v, (serving m s).1 ≠ inl v) as Hs.
  { intros A m s v. unfold serving. by destruct (m s). }
  split; intros; try apply Hs. match goal with Hr : Ready _ = Some _ |- _ => injection Hr as <- end. apply Hs.
Qed.

Lemma access_log_is_exact_witness :
  ∃ es st, log (NewHandler plain_time 301 "" sample_server sample_readings sample_post (mk_world new_response sample_bench [])).2
           = es ++ [access_entry sample_readings sample_post st].
Proof.
  pose proof (access_log_is_exact plain_time 301 "" sample_server sample_readings sample_post sample_bench []) as Ha.
  destruct (NewHandler plain_time 301 "" _ sample_readings sample_post _) as [x w'].
  destruct Ha as [(_ & _ & es & st & _ & Hlog & _)|[Hno _]]; [|destruct (Hno sample_never_panics)].
  exists es, st. exact Hlog.
Defined.

Lemma accepted_body_is_one_object_witness :
  (decodeJSON (T:=CreateTransfer.t)
     (with_body (mk_reader (content (Body sample_post) +:+ "{}") EOF) sample_post) new_response).1 = None.
Proof.
  destruct (accepted_body_is_one_object sample_post new_response new_response sample_request) as (_ & _ & _ & _ & Hx).
  - apply injective_projections; vm_compute; reflexivity.
  - apply Hx. vm_compute. reflexivity.
Defined.

Lemma body_roundtrip_witness : decodeJSON sample_post new_response = (Some sample_request, new_response).
Proof.
  apply (body_roundtrip sample_post new_response sample_request " ").
  - vm_compute. reflexivity.
  - vm_compute. reflexivity.
  - exact sample_int64.
  - vm_compute. reflexivity.
  - reflexivity.
  - vm_compute. discriminate.
Defined.

Lemma get_account_answers_owner_witness :
  r_status (writer (NewHandler plain_time 301 "" sample_server sample_readings (sample_account_get "/accounts/acc-bob")
                      (mk_world new_response sample_bench [])).2) = Some 404.
Proof.
  pose proof (get_account_answers_owner plain_time 301 "" sample_tokens "salt" (λ _, true) (10 * Second)
                sample_readings (sample_account_get "/accounts/acc-bob") sample_bench [] post_claims "acc-bob"
                (mk_env 7 "t-1") (tail (p_scripts sample_pool))) as Hg.
  assert (∃ v scheme raw, Values "Authorization" (Header (sample_account_get "/accounts/acc-bob")) = [v] ∧
    Fields v = [scheme; raw] ∧ EqualFold scheme "Bearer" = true ∧
    Verify sample_tokens raw (at_token sample_readings) = Ok post_claims) as Htoken.
  { exists ("Bearer " +:+ post_raw), "Bearer", post_raw. split; [vm_compute; reflexivity|].
    split; [vm_compute; reflexivity|]. split; vm_compute; reflexivity. }
  specialize (Hg eq_refl eq_refl Htoken eq_refl eq_refl eq_refl eq_refl). unfold sample_server.
  destruct (NewHandler plain_time 301 "" _ sample_readings _ _) as [x w']. exact (proj1 (proj2 Hg)).
Defined.
