(* ===== verification/Routes.v ===== *)
(** * Routing

    [NewHandler] registers ten patterns with the mux of [net/http].  A table that reads like the
    documentation of the interface says which of them a path belongs to; the mux finds that one
    whatever the order of registration, and answers 404, 405 or a redirect otherwise. *)
From S2P Require Import Prelude GoStrings GoErrors Entities Json Database Mime JsonText Http Auth AuthTheorems HttpApi HttpCorrect HttpTheorems.
From Stdlib Require Import Ascii.

(** ** The table *)

(** The endpoint of a path, and the ID in it. *)
Definition route_table (path : string) : option (endpoint * string) :=
  match split_slash path with
  | ["" ; a] =>
    let a := pathUnescape a in
    if a == "health" then Some (Health, "")
    else if a == "ready" then Some (Probe, "")
    else if a == "openapi.yaml" then Some (Spec, "")
    else if a == "docs" then Some (Docs, "")
    else if a == "me" then Some (Me, "")
    else if a == "accounts" then Some (ListAccounts, "")
    else if a == "transfers" then Some (CreateTransfers, "")
    else None
  | ["" ; a; b] =>
    let a := pathUnescape a in
    if (a == "auth") && (pathUnescape b == "login") then Some (LogIn, "")
    else if (b == "") || (pathUnescape b == "/") then None
    else if a == "accounts" then Some (GetAccount, pathUnescape b)
    else if a == "transfers" then Some (GetTransfer, pathUnescape b)
    else None
  | _ => None
  end.

(** The value of the [Allow] header of an endpoint. *)
Definition allow (ep : endpoint) : string := if p_method (pattern_of ep) == "GET" then "GET, HEAD" else "POST".

(** ** Clean paths

    A redirect leads to a path that is clean, so it is not followed by another. *)

Definition slash_free (s : string) : bool := forallb (λ a, negb (Ascii.eqb a "/")) (bytes_of s).

(** A segment that cleaning keeps. *)
Definition kept_segment (s : string) : bool := (s != "") && (s != ".") && (s != "..") && slash_free s.

(** The two spellings of a clean path: with the slash at the end, or without. *)
Definition clean_path (kept : list string) (slash : bool) : string := rooted kept +:+ (if slash then "/" else "").

Lemma split_slash_cons s : ∃ seg segs, split_slash s = seg :: segs.
Proof.
  induction s as [|a s (seg & segs & IH)]; simpl; [by eexists _, _|]. rewrite IH. destruct (Ascii.eqb a "/"); by eexists _, _.
Qed.

Lemma split_slash_free s : Forall (λ seg, slash_free seg = true) (split_slash s).
Proof.
  induction s as [|a s IH]; simpl; [by repeat constructor|].
  destruct (Ascii.eqb a "/") eqn:Ha; [by constructor|].
  destruct (split_slash_cons s) as (seg & segs & Hs). rewrite Hs in IH |- *. apply Forall_cons in IH as [Hseg Hsegs].
  constructor; [|done]. unfold slash_free in *. simpl. by rewrite Ha, Hseg.
Qed.

Lemma split_slash_segment seg s :
  slash_free seg = true → split_slash (seg +:+ String "/" s) = seg :: split_slash s.
Proof.
  unfold slash_free. induction seg as [|a seg IH]; simpl; [done|]. intros [Ha Hs]%andb_true_iff.
  apply negb_true_iff in Ha. by rewrite Ha, IH.
Qed.

Lemma split_slash_last seg : slash_free seg = true → split_slash seg = [seg].
Proof.
  unfold slash_free. induction seg as [|a seg IH]; simpl; [done|]. intros [Ha Hs]%andb_true_iff.
  apply negb_true_iff in Ha. by rewrite Ha, IH.
Qed.

Lemma split_slash_clean kept slash :
  Forall (λ s, slash_free s = true) kept →
  split_slash (clean_path kept slash) =
  match kept with [] => split_slash (if slash then "/" else "") | _ => "" :: kept ++ (if slash then [""] else []) end.
Proof.
  intros Hk. destruct kept as [|s kept]; [done|]. apply Forall_cons in Hk as [Hs Hk].
  change (split_slash (clean_path (s :: kept) slash)) with
    ("" :: split_slash ((s +:+ rooted kept) +:+ (if slash then "/" else ""))).
  f_equal. rewrite app_string_assoc. revert s Hs. induction Hk as [|s' kept Hs' _ IH]; intros s Hs.
  - destruct slash; [exact (split_slash_segment s "" Hs)|]. change (split_slash (s +:+ "") = [s]).
    rewrite app_string_nil. by apply split_slash_last.
  - change (rooted (s' :: kept) +:+ (if slash then "/" else "")) with
      (String "/" ((s' +:+ rooted kept) +:+ (if slash then "/" else ""))).
    rewrite split_slash_segment, app_string_assoc, IH by done. done.
Qed.

Lemma clean_kept kept l :
  Forall (λ s, kept_segment s = true) l → fold_left clean_segment l kept = kept ++ l.
Proof.
  intros Hl. revert kept. induction Hl as [|s l Hs _ IH]; intros kept; simpl; [by rewrite app_nil_r|].
  unfold clean_segment at 2. unfold kept_segment in Hs. rewrite !andb_true_iff, !negb_true_iff in Hs.
  destruct Hs as [[[-> ->] ->] _]. simpl. by rewrite IH, <-app_assoc.
Qed.

Lemma cleanPath_clean kept slash :
  Forall (λ s, kept_segment s = true) kept → (kept = [] → slash = true) →
  cleanPath (clean_path kept slash) = clean_path kept slash.
Proof.
  intros Hk Hne. unfold cleanPath. rewrite split_slash_clean.
  2: { eapply Forall_impl; [exact Hk|]. unfold kept_segment. intros s. rewrite !andb_true_iff. tauto. }
  destruct kept as [|s kept]; [by rewrite Hne|]. cbv zeta. cbn [head tail].
  change (Some "" == Some "") with true. cbv iota. rewrite fold_left_app, (clean_kept [] (s :: kept)) by done. change ([] ++ s :: kept) with (s :: kept).
  assert (fold_left clean_segment (if slash then [""] else []) (s :: kept) = s :: kept) as -> by by destruct slash.
  rewrite bool_decide_eq_false_2 by done. unfold clean_path. f_equal.
  destruct slash; [by rewrite last_snoc|]. rewrite app_nil_r.
  destruct (last (s :: kept)) as [s'|] eqn:Hs'; [|done]. rewrite bool_decide_eq_false_2; [done|]. intros [= ->].
  apply last_Some_elem_of in Hs'. rewrite Forall_forall in Hk. by apply Hk in Hs'.
Qed.

(** What cleaning gives has one of the two spellings. *)
Lemma cleanPath_form p :
  ∃ kept slash, cleanPath p = clean_path kept slash ∧ Forall (λ s, kept_segment s = true) kept ∧ (kept = [] → slash = true).
Proof.
  unfold cleanPath. cbv zeta.
  set (segs := if head (split_slash p) == Some "" then tail (split_slash p) else split_slash p).
  assert (Forall (λ s, slash_free s = true) segs) as Hfree.
  { pose proof (split_slash_free p) as Hf. subst segs. destruct (_ == _); [|done]. by apply Forall_tail. }
  assert (∀ l kept, Forall (λ s, slash_free s = true) l → Forall (λ s, kept_segment s = true) kept →
    Forall (λ s, kept_segment s = true) (fold_left clean_segment l kept)) as Hfold.
  { induction l as [|s l IH]; intros kept Hl Hk; simpl; [done|]. apply Forall_cons in Hl as [Hs Hl]. apply IH; [done|].
    unfold clean_segment. destruct (_ || _) eqn:E1; [done|]. destruct (s == "..") eqn:E2.
    - apply Forall_forall. intros x Hx. rewrite Forall_forall in Hk. apply Hk. clear -Hx.
      induction kept as [|y kept IH]; [done|]. destruct kept; [by apply elem_of_nil in Hx|].
      cbn [removelast] in Hx. apply elem_of_cons in Hx as [->|Hx]; [by left|right; auto].
    - apply Forall_app. split; [done|]. apply Forall_singleton. unfold kept_segment.
      apply orb_false_iff in E1 as [-> ->]. by rewrite E2, Hs. }
  pose proof (Hfold segs [] Hfree (Forall_nil_2 _)) as Hk. destruct (fold_left clean_segment segs []) as [|s kept].
  - by exists [], true.
  - rewrite bool_decide_eq_false_2 by done. exists (s :: kept), (last segs == Some ""). by destruct (_ == _).
Qed.

(** Escaping leaves slashes and dots, and makes none. *)
Lemma escape_byte a :
  (if path_byte a then String a "" else percent (λ z, ascii_upper (hex_digit z)) a) = String a "" ∨
  path_byte a = false ∧ ∃ h l, (if path_byte a then String a "" else percent (λ z, ascii_upper (hex_digit z)) a) =
    String "%" (String h (String l "")) ∧ slash_free (String h (String l "")) = true.
Proof.
  destruct (path_byte a) eqn:Ha; [by left|right]. split; [done|]. eexists _, _. split; [done|].
  apply (ascii_forall (λ a, slash_free (String (ascii_upper (hex_digit (byte a / 16)))
    (String (ascii_upper (hex_digit (byte a mod 16))) "")))). by vm_compute.
Qed.

Lemma escape_path_app s t : escape_path (s +:+ t) = escape_path s +:+ escape_path t.
Proof. unfold escape_path. induction s as [|a s IH]; simpl; [done|]. by rewrite IH, app_string_assoc. Qed.

Lemma escape_path_slash_free s : slash_free s = true → slash_free (escape_path s) = true.
Proof.
  unfold slash_free at 1. induction s as [|a s IH]; simpl; [done|]. intros [Ha Hs]%andb_true_iff.
  change (escape_path (String a s)) with
    ((if path_byte a then String a "" else percent (λ z, ascii_upper (hex_digit z)) a) +:+ escape_path s).
  unfold slash_free. rewrite bytes_of_app, forallb_app. apply andb_true_iff. split; [|by apply IH].
  destruct (escape_byte a) as [->|(_ & h & l & -> & Hf)]; [|exact Hf]. simpl. by rewrite Ha.
Qed.

Lemma escape_path_kept s : kept_segment s = true → kept_segment (escape_path s) = true.
Proof.
  unfold kept_segment. rewrite !andb_true_iff, !negb_true_iff. intros [[[H0 H1] H2] Hs]. reflect.
  split; [|by apply escape_path_slash_free]. destruct s as [|a s]; [done|].
  change (escape_path (String a s)) with
    ((if path_byte a then String a "" else percent (λ z, ascii_upper (hex_digit z)) a) +:+ escape_path s).
  destruct (escape_byte a) as [->|(_ & h & l & -> & _)].
  2: { repeat split; by apply bool_decide_eq_false_2. }
  destruct s as [|b s].
  { repeat split; apply bool_decide_eq_false_2; change (escape_path "") with ""; by rewrite ?app_string_nil. }
  change (escape_path (String b s)) with
    ((if path_byte b then String b "" else percent (λ z, ascii_upper (hex_digit z)) b) +:+ escape_path s).
  destruct (escape_byte b) as [->|(_ & h & l & -> & _)].
  2: { repeat split; by apply bool_decide_eq_false_2. }
  destruct s as [|c s].
  { repeat split; apply bool_decide_eq_false_2; change (escape_path "") with ""; by rewrite ?app_string_nil. }
  change (escape_path (String c s)) with
    ((if path_byte c then String c "" else percent (λ z, ascii_upper (hex_digit z)) c) +:+ escape_path s).
  destruct (escape_byte c) as [->|(_ & h & l & -> & _)]; repeat split; by apply bool_decide_eq_false_2.
Qed.

Lemma escape_clean_path kept slash : escape_path (clean_path kept slash) = clean_path (map escape_path kept) slash.
Proof.
  unfold clean_path. rewrite escape_path_app. f_equal; [|by destruct slash].
  induction kept as [|s kept IH]; [done|]. simpl rooted. rewrite <-IH, <-escape_path_app. done.
Qed.

(** The path of a redirect is clean. *)
Lemma redirect_clean p : cleanPath (escape_path (cleanPath p)) = escape_path (cleanPath p).
Proof.
  destruct (cleanPath_form p) as (kept & slash & -> & Hk & Hne). rewrite escape_clean_path. apply cleanPath_clean.
  - apply Forall_fmap. eapply Forall_impl; [exact Hk|]. exact escape_path_kept.
  - intros Hnil%map_eq_nil. auto.
Qed.

(** ** The patterns do not overlap *)

Lemma match_path_table path ep value : match_path path ep = Some value ↔ route_table path = Some (ep, value).
Proof.
  unfold match_path, route_table. destruct (split_slash path) as [|s segs]; [by destruct ep|].
  destruct s as [|c s]; [|done].
  destruct segs as [|a [|b [|c segs]]]; destruct ep; simpl; try done;
    generalize (pathUnescape a); intros x; try (generalize (pathUnescape b); intros y).
  all: repeat (case_bool_decide; subst; try match goal with H : _ = _ :> string |- _ => discriminate H end; try done);
    simpl; split; congruence.
Qed.

(** A path matches one pattern at most, so the mux accepts the ten of them, in any order. *)
Lemma patterns_disjoint path ep1 ep2 v1 v2 :
  match_path path ep1 = Some v1 → match_path path ep2 = Some v2 → ep1 = ep2.
Proof. rewrite !match_path_table. congruence. Qed.

Lemma elem_of_endpoints ep : ep ∈ endpoints.
Proof. apply list_elem_of_In. destruct ep; vm_compute; tauto. Qed.

(** The mux finds the endpoint of the table. *)
Lemma find_endpoint_table method path :
  find_endpoint method path =
  match route_table path with
  | Some (ep, value) => if match_method method ep then Some (ep, value) else None
  | None => None
  end.
Proof.
  destruct (find_endpoint method path) as [[ep value]|] eqn:Hf.
  - apply find_endpoint_Some in Hf as [Hm Hp%match_path_table]. by rewrite Hp, Hm.
  - destruct (route_table path) as [[ep value]|] eqn:Ht; [|done]. destruct (match_method method ep) eqn:Hm; [|done].
    apply match_path_table in Ht. unfold find_endpoint in Hf. exfalso.
    assert ((ep, value) ∈ omap (λ ep, if match_method method ep then pair ep <$> match_path path ep else None) endpoints) as Hin.
    { apply list_elem_of_omap. exists ep. split; [apply elem_of_endpoints|]. by rewrite Hm, Ht. }
    destruct (omap _ endpoints); [by apply elem_of_nil in Hin|done].
Qed.

(** [comma] of the methods it reports for a path. *)
Lemma allowed_methods_table path :
  match route_table path with
  | Some (ep, _) => comma (allowed_methods path) = allow ep ∧ allowed_methods path ≠ []
  | None => allowed_methods path = []
  end.
Proof.
  assert (∀ m, m ∈ omap (λ ep, (λ _, p_method (pattern_of ep)) <$> match_path path ep) endpoints ↔
    match route_table path with Some (ep, _) => m = p_method (pattern_of ep) | None => False end) as Hin.
  { intros m. rewrite list_elem_of_omap. split.
    - intros (ep & _ & (v & Hv & ->)%fmap_Some). apply match_path_table in Hv. by rewrite Hv.
    - destruct (route_table path) as [[ep v]|] eqn:Ht; [|done]. intros ->. exists ep. split; [apply elem_of_endpoints|].
      apply match_path_table in Ht. by rewrite Ht. }
  unfold allowed_methods, allow.
  destruct (route_table path) as [[ep v]|].
  - rewrite (bool_decide_ext _ _ (Hin "GET")), (bool_decide_ext _ _ (Hin "POST")). by destruct ep.
  - by rewrite (bool_decide_ext _ _ (Hin "GET")), (bool_decide_ext _ _ (Hin "POST")).
Qed.

(** ** What a request is answered by its route *)

Section routed.
Context `{!Platform} `{!Jwt} {S : Type} (format_time : time → string) (redirect_status : Z) (OpenAPISpec : string).
Implicit Types (d : Dependencies S) (e : readings) (r : request context).

Definition plain_header : list (string * string) :=
  [("Content-Type", "text/plain; charset=utf-8"); ("X-Content-Type-Options", "nosniff")].

(** The mux, by the table. *)
Lemma inner_run_table d e r w :
  inner_run format_time redirect_status OpenAPISpec d e r w =
  if lookup_path r != EscapedPath r then
    respond (Redirect (Method r) (redirect_url r) redirect_status) (inner_world e r w)
  else
    match route_table (EscapedPath r) with
    | Some (ep, value) =>
      if match_method (Method r) ep then
        handler_of format_time OpenAPISpec d (logger_of d) e ep (SetPathValue value (inner_request d e r)) (inner_world e r w)
      else respond (λ wr, http_Error "Method Not Allowed" 405 (set_header "Allow" (allow ep) wr)) (inner_world e r w)
    | None => respond (http_Error "404 page not found" 404) (inner_world e r w)
    end.
Proof.
  unfold inner_run, mux_ServeHTTP. change (lookup_path (inner_request d e r)) with (lookup_path r).
  change (EscapedPath (inner_request d e r)) with (EscapedPath r). change (Method (inner_request d e r)) with (Method r).
  destruct (negb _) eqn:Hclean; [done|]. reflect. rewrite Hclean, find_endpoint_table.
  pose proof (allowed_methods_table (EscapedPath r)) as Hallowed.
  destruct (route_table (EscapedPath r)) as [[ep value]|].
  - destruct (match_method _ ep); [done|]. destruct Hallowed as [<- Hne]. by destruct (allowed_methods _).
  - by rewrite Hallowed.
Qed.

(** An answer of the mux itself. *)
Lemma mux_answer d e r s lg f st hs :
  inner_run format_time redirect_status OpenAPISpec d e r (mk_world new_response s lg) =
    respond f (inner_world e r (mk_world new_response s lg)) →
  (∀ rec : statusRecorder response, responds st rec hs (f rec)) →
  let w' := (NewHandler format_time redirect_status OpenAPISpec d e r (mk_world new_response s lg)).2 in
  r_status (writer w') = Some st ∧ store w' = s ∧
  ∃ dur, r_sent (writer w') = Header_Set "Server-Timing" ("app;dur=" +:+ dur)
           (r_header (set_headers hs (set_header "X-Request-ID" (request_id e r) new_response))).
Proof.
  intros Hrun Hr. cbv zeta. rewrite NewHandler_run, Hrun. unfold respond. cbn [snd].
  specialize (Hr (writer (inner_world e r (mk_world new_response s lg)))).
  apply recorder_responds in Hr as (_ & Hst & Hsent); [|done..]. rewrite logged_writer, logged_store. done.
Qed.

(** The body of a redirect. *)
Lemma Redirect_body method url code (rec : statusRecorder response) :
  wroteHeader rec = false → r_status (under rec) = None → r_body (under rec) = [] →
  r_body (under (Redirect method url code rec)) = if method == "GET" then [Raw (redirect_page url code)] else [].
Proof.
  destruct rec as [w t0 code0 b t1]. simpl. intros -> Hst Hb. unfold Redirect.
  destruct (method == "GET"), (method == "HEAD"); simpl; unfold recorder_Write, recorder_WriteHeader; simpl;
    unfold response_WriteHeader; simpl; rewrite Hst; simpl; by rewrite Hb.
Qed.

(** C17: routing.  A path that is not clean is redirected to the clean one, escaped, with the query of
    the request; the new path is clean, so it is not redirected again.  A path of the table is
    answered by its endpoint, with the ID it holds, if the method is the one of the endpoint, or
    [HEAD] for [GET]; else by 405 with the methods that are allowed.  Every other path is answered
    404.  A request that reaches no endpoint touches no service. *)
Theorem requests_are_routed d e r s lg :
  let w := mk_world new_response s lg in
  let w' := (NewHandler format_time redirect_status OpenAPISpec d e r w).2 in
  let path := EscapedPath r in
  if lookup_path r != path then
    r_status (writer w') = Some redirect_status ∧
    Header_Get "Location" (r_sent (writer w')) =
      hexEscapeNonASCII (escape_path (cleanPath path) +:+ (if RawQuery r == "" then "" else "?" +:+ RawQuery r)) ∧
    r_body (writer w') = (if Method r == "GET" then [Raw (redirect_page (redirect_url r) redirect_status)] else []) ∧
    cleanPath (escape_path (cleanPath path)) = escape_path (cleanPath path) ∧ store w' = s
  else
    match route_table path with
    | None => r_status (writer w') = Some 404 ∧ store w' = s
    | Some (ep, value) =>
      if match_method (Method r) ep then
        inner_run format_time redirect_status OpenAPISpec d e r w =
        handler_of format_time OpenAPISpec d (logger_of d) e ep (SetPathValue value (inner_request d e r)) (inner_world e r w)
      else
        r_status (writer w') = Some 405 ∧ Header_Get "Allow" (r_sent (writer w')) = allow ep ∧ store w' = s
    end.
Proof.
  cbv zeta. pose proof (inner_run_table d e r (mk_world new_response s lg)) as Hrun.
  destruct (lookup_path r != EscapedPath r) eqn:Hlook.
  { assert (lookup_path r = cleanPath (EscapedPath r)) as Hclean.
    { unfold lookup_path in Hlook |- *. destruct (Method r == "CONNECT"); [|done].
      by rewrite bool_decide_eq_true_2 in Hlook. }
    destruct (mux_answer d e r s lg _ redirect_status (redirect_headers (Method r) (redirect_url r)) Hrun) as (Hst & Hs & dur & Hsent).
    - intros rec. apply Redirect_responds.
    - rewrite Hsent. split; [done|]. split.
      { unfold redirect_headers, redirect_url. rewrite Hclean. destruct (_ || _); simpl; headers; done. }
      split; [|split; [apply redirect_clean|done]]. rewrite NewHandler_run, Hrun. cbn [respond snd]. rewrite logged_writer.
      by apply Redirect_body. }
  destruct (route_table (EscapedPath r)) as [[ep value]|]; [destruct (match_method (Method r) ep); [done|]|].
  - destruct (mux_answer d e r s lg _ 405 (("Allow", allow ep) :: plain_header) Hrun) as (Hst & Hs & dur & Hsent).
    + intros rec. exact (responds_status 405 rec (("Allow", allow ep) :: plain_header) _).
    + rewrite Hsent. split; [done|]. split; [|done]. simpl. headers. done.
  - destruct (mux_answer d e r s lg _ 404 plain_header Hrun) as (Hst & Hs & _).
    + intros rec. exact (responds_status 404 rec plain_header _).
    + done.
Qed.

End routed.
