(* ===== verification/HttpConcurrency.v ===== *)
(** * Concurrent requests

    The server answers requests at the same time, each in a goroutine of its own.  A request
    touches the shared state in one place only: a [POST /transfers] that gets past its checks runs
    the transaction of [Create], statement by statement, as in [Locking]; every other request
    sends at most one statement, which sees the committed database.  This file puts the handlers
    around the concurrent transactions and proves that any execution answers as the same requests
    do one after the other. *)
From S2P Require Import Prelude GoStrings GoErrors Entities Json Database BankSpec Contracts TransferService Repository RepositoryCorrect Programs Locking LockingLocal LockingCorrect Serializability LockingProgress Outcome Driver TransferTheorems ConcurrencyTheorems Reads Mime JsonText Http Auth AuthTheorems HttpApi HttpCorrect Server HttpTheorems.
From Stdlib Require Import Ascii.

Section server.
Context `{!Platform} `{!Jwt} `{!Bcrypt}.
Context (tokens : TokenService) (salt : string) (lg : level → bool) (timeout : time).
Context (format_time : time → string) (redirect_status : Z) (OpenAPISpec : string).
Implicit Types (e : readings) (r : request context) (d : db) (j : job).

Definition deployed : Dependencies (bench pool) := server_dependencies (T:=session) tokens salt lg timeout.

(** ** One request alone *)

(** The response to a request on the database [d], and the database after it; its one
    transaction or query follows the script. *)
Definition serve_alone (sc : script) e r d : response * db :=
  let '(_, w) := NewHandler format_time redirect_status OpenAPISpec deployed e r
                   (mk_world new_response (mk_bench (mk_pool d [sc]) []) []) in
  (writer w, p_db (repo (store w))).

Fixpoint serve_in_turn (rs : list (script * readings * request context)) d : list response * db :=
  match rs with
  | [] => ([], d)
  | (sc, e, r) :: rs' =>
    let '(a, d1) := serve_alone sc e r d in
    let '(as_, d2) := serve_in_turn rs' d1 in (a :: as_, d2)
  end.

(** ** The call of [Create] that a request makes *)

(** The claims of the request, behind [Authenticate] and [RequirePermission]. *)
Definition authorized_claims (permission : Permission) e r : option Claims.t :=
  match Values "Authorization" (Header r) with
  | [value] =>
    match Fields value with
    | [scheme; raw] =>
      if EqualFold scheme "Bearer" then
        match Verify tokens raw (at_token e) with
        | Ok claims => if Claims.HasPermission claims permission then Some claims else None
        | Err _ => None
        end
      else None
    | _ => None
    end
  | _ => None
  end.

(** Its arguments, if the request gets that far. *)
Definition transfer_call e r : option (string * string * CreateTransfer.t) :=
  if lookup_path r != EscapedPath r then None
  else
    match find_endpoint (Method r) (lookup_path r) with
    | Some (CreateTransfers, _) =>
      match authorized_claims PermissionTransfersCreate e r, Values "Idempotency-Key" (Header r) with
      | Some claims, [raw] =>
        if usable_key (TrimSpace raw) then
          (λ request, (Claims.Subject claims, TrimSpace raw, request)) <$> (decodeJSON r new_response).1
        else None
      | _, _ => None
      end
    | _ => None
    end.

(** The transaction it runs, if it passes the checks of [Create] before the transaction. *)
Definition job_of e r (env : env) : option job :=
  match transfer_call e r with
  | Some (userID, key, request) =>
    if TrimSpace userID == "" then None
    else if is_ok (CreateTransfer.Validate request) then Some (mk_job userID key request env) else None
  | None => None
  end.

(** The response to a request whose call of [Create] gives [res]. *)
Definition create_writes {W} `{!ResponseWriter W} (res : result (Transfer.t * bool)) (w : W) : W :=
  match res with
  | Ok (result, created) => created_response format_time result created w
  | Err err =>
    match create_refusal err with
    | Some (status, message) => writeError status message w
    | None => writeError 500 "could not create transfer" w
    end
  end.

Definition create_answer e r (res : result (Transfer.t * bool)) : response :=
  under (create_writes res (set_header "Cache-Control" "no-store"
    (mk_statusRecorder (set_header "X-Request-ID" (request_id e r) new_response) (at_start e) 200 false (at_header e)))).

(** ** Executions *)

Record hstate := mk_hstate {
  core : cstate;
  pending : gmap nat (readings * request context) }.

(** What is answered: the request, the response, and the script that its transaction or query
    followed. *)
Definition reply : Type := script * readings * request context * response.

Definition no_fault (env : env) : script := mk_script env [] Committed.

(** The response to a transaction that has come to an error. *)
Definition refused (e : readings) (r : request context) (x : txn) : option reply :=
  match x_prog x with
  | Ret (Err err) =>
    Some (no_fault (j_env (x_job x)), e, r, create_answer e r (Err (Errorf "create transfer: %w" err)))
  | _ => None
  end.

(** The steps of the server.  [hs_answer]: a request that runs no transaction is answered.
    [hs_begin]: a request starts its transaction; it is answered by the statement that leads to an
    error ([hs_advance]) or by the commit ([hs_commit]), or with an error because the connection is
    lost before the commit ([hs_lost]) or while its confirmation is on the way ([hs_unconfirmed]). *)
Inductive hstep (h : hstate) : option reply → hstate → Prop :=
| hs_answer sc e r :
    job_of e r (sc_env sc) = None →
    hstep h (Some (sc, e, r, (serve_alone sc e r (committed (core h))).1)) h
| hs_begin n e r env j :
    active (core h) !! n = None → job_of e r env = Some j →
    hstep h None
      (mk_hstate (mk_cstate (committed (core h)) (<[n := Locking.start j]> (active (core h)))) (<[n := (e, r)]> (pending h)))
| hs_advance n e r x x' :
    pending h !! n = Some (e, r) → active (core h) !! n = Some x →
    advance (committed (core h)) (others n (core h)) x = Some x' →
    hstep h (refused e r x')
      (mk_hstate (mk_cstate (committed (core h)) (<[n := x']> (active (core h))))
         (if refused e r x' then delete n (pending h) else pending h))
| hs_rollback n x err :
    active (core h) !! n = Some x → x_prog x = Ret (Err err) →
    hstep h None (mk_hstate (mk_cstate (committed (core h)) (delete n (active (core h)))) (pending h))
| hs_commit n e r x a :
    pending h !! n = Some (e, r) → active (core h) !! n = Some x → x_prog x = Ret (Ok a) →
    hstep h (Some (no_fault (j_env (x_job x)), e, r, create_answer e r (Ok a)))
      (mk_hstate (mk_cstate (install (x_writes x) (committed (core h))) (delete n (active (core h))))
         (delete n (pending h)))
| hs_lost n e r x msg :
    pending h !! n = Some (e, r) → active (core h) !! n = Some x →
    hstep h (Some (mk_script (j_env (x_job x)) [Some msg] Committed, e, r,
                   create_answer e r (Err (Errorf "create transfer: %w" (External msg)))))
      (mk_hstate (mk_cstate (committed (core h)) (delete n (active (core h)))) (delete n (pending h)))
| hs_unconfirmed n e r x a msg :
    pending h !! n = Some (e, r) → active (core h) !! n = Some x → x_prog x = Ret (Ok a) →
    hstep h (Some (mk_script (j_env (x_job x)) [] CommitLost, e, r,
                   create_answer e r (Err (Errorf "create transfer: %w" (External msg)))))
      (mk_hstate (mk_cstate (install (x_writes x) (committed (core h))) (delete n (active (core h))))
         (delete n (pending h))).

Inductive hexecution d : list reply → hstate → Prop :=
| hx_start : hexecution d [] (mk_hstate (mk_cstate d ∅) ∅)
| hx_step replies h l h' :
    hexecution d replies h → hstep h l h' → hexecution d (replies ++ option_list l) h'.

(** ** A request alone, by the call it makes *)

(** The guards let the handler run with the claims, or refuse without effect. *)
Lemma guards {W} `{!ResponseWriter W} permission e r (next : handler W (bench pool) context) r' w :
  Header r' = Header r →
  match authorized_claims permission e r with
  | Some claims =>
    Authenticate tokens (at_token e) (RequirePermission permission next) r' w
    = next (WithContext (with_claims claims (Context r')) r') w
  | None => store (Authenticate tokens (at_token e) (RequirePermission permission next) r' w).2 = store w
  end.
Proof.
  intros Hh. unfold authorized_claims, Authenticate, RequirePermission. rewrite Hh.
  destruct (Values "Authorization" (Header r)) as [|v [|? ?]]; [done| |done].
  destruct (Fields v) as [|scheme [|raw [|? ?]]]; [done..| |done].
  destruct (EqualFold scheme "Bearer"); [|done]. destruct (Verify tokens raw (at_token e)) as [claims|]; [|done].
  simpl. by destruct (Claims.HasPermission claims permission).
Qed.

Lemma createTransfer_call {W} `{!ResponseWriter W} l (svc : HttpApi.TransferService (bench pool)) r c rawkey req
    (w : world W (bench pool)) res s :
  ClaimsFromContext (Context r) = Some c → Values "Idempotency-Key" (Header r) = [rawkey] →
  usable_key (TrimSpace rawkey) = true → (decodeJSON r new_response).1 = Some req →
  ts_Create svc (Context r) (Claims.Subject c) (TrimSpace rawkey) req (store w) = (inr res, s) →
  ∃ w', createTransfer format_time l svc r w = (Returned, w') ∧ store w' = s ∧
    writer w' = create_writes res (set_header "Cache-Control" "no-store" (writer w)).
Proof.
  intros Hc Hv Hk Hd Hs. unfold createTransfer. rewrite Hc, Hv, Hk. simpl negb. cbv iota.
  set (w0 := on_writer _ w).
  destruct (decodeJSON (T:=CreateTransfer.t) r (writer w0)) as [[req'|] wr] eqn:Hdec.
  2: { rewrite (decodeJSON_value r r new_response (writer w0)), Hdec in Hd by done. done. }
  pose proof (decodeJSON_Some _ _ _ _ Hdec) as (-> & _).
  rewrite (decodeJSON_value r r new_response (writer w0)), Hdec in Hd by done. injection Hd as ->.
  unfold calling. change (store (on_writer (λ _, writer w0) w0)) with (store w). rewrite Hs.
  destruct res as [[tr created]|err]; [by eexists|]. unfold create_writes.
  destruct (create_refusal err) as [[st message]|]; [by eexists|].
  eexists. split; [done|]. unfold respond. split; [apply logged_store|]. simpl. unfold log_failure. by rewrite logged_writer.
Qed.

(** What [NewHandler] does to the store and the response of a request that calls [Create]. *)
Lemma handler_call e r b u key req res p' :
  transfer_call e r = Some (u, key, req) → Create u key req (repo b) = (res, p') →
  let w' := (NewHandler format_time redirect_status OpenAPISpec deployed e r (mk_world new_response b [])).2 in
  writer w' = create_answer e r res ∧ store w' = mk_bench p' (compared b).
Proof.
  unfold transfer_call. intros Hcall Hcr. destruct (negb _) eqn:Hpath; [done|].
  destruct (find_endpoint (Method r) (lookup_path r)) as [[ep value]|] eqn:Hep; [|done]. destruct ep; try done.
  pose proof (guards PermissionTransfersCreate e r
                (createTransfer (W:=statusRecorder response) format_time (logger_of deployed) (Transfers deployed))
                (SetPathValue value (inner_request deployed e r)) (inner_world e r (mk_world new_response b [])) eq_refl) as Hg.
  destruct (authorized_claims PermissionTransfersCreate e r) as [c|]; [|done].
  destruct (Values "Idempotency-Key" (Header r)) as [|raw [|? ?]] eqn:Hv; [done| |done].
  destruct (usable_key (TrimSpace raw)) eqn:Hk; [|done].
  destruct (decodeJSON r new_response).1 as [req'|] eqn:Hd; [|done]. injection Hcall as <- <- ->.
  destruct (createTransfer_call (logger_of deployed) (Transfers deployed)
    (WithContext (with_claims c (Context (SetPathValue value (inner_request deployed e r))))
       (SetPathValue value (inner_request deployed e r))) c raw req
    (inner_world e r (mk_world new_response b [])) res (mk_bench p' (compared b))) as (w' & Hrun & Hstore & Hw);
    [done|done|done|by rewrite <-Hd; apply decodeJSON_value| |].
  { simpl. unfold serving, ask. simpl. by rewrite Hcr. }
  assert (inner_run format_time redirect_status OpenAPISpec deployed e r (mk_world new_response b []) = (Returned, w')) as Hin.
  { unfold inner_run, mux_ServeHTTP. change (lookup_path (inner_request deployed e r)) with (lookup_path r).
    change (EscapedPath (inner_request deployed e r)) with (EscapedPath r).
    change (Method (inner_request deployed e r)) with (Method r). rewrite Hpath, Hep.
    change (handler_of format_time OpenAPISpec deployed (logger_of deployed) e CreateTransfers) with
      (Authenticate (W:=statusRecorder response) tokens (at_token e) (RequirePermission PermissionTransfersCreate
         (createTransfer format_time (logger_of deployed) (Transfers deployed)))).
    by rewrite Hg. }
  rewrite NewHandler_run, Hin. simpl. rewrite logged_writer, logged_store. simpl. rewrite Hw. done.
Qed.

Lemma createTransfer_no_call {W} `{!ResponseWriter W} l (svc : HttpApi.TransferService (bench pool)) r c (w : world W (bench pool)) :
  ClaimsFromContext (Context r) = Some c →
  match Values "Idempotency-Key" (Header r) with
  | [raw] => usable_key (TrimSpace raw) = true → (decodeJSON (T:=CreateTransfer.t) r new_response).1 = None
  | _ => True
  end →
  store (createTransfer format_time l svc r w).2 = store w.
Proof.
  intros Hc Hv. unfold createTransfer. rewrite Hc.
  destruct (Values "Idempotency-Key" (Header r)) as [|raw [|? ?]]; [done| |done].
  destruct (usable_key (TrimSpace raw)); [|done]. specialize (Hv eq_refl). simpl negb. cbv iota.
  rewrite (decodeJSON_value r r new_response (writer (on_writer (set_header "Cache-Control" "no-store") w))) in Hv by done.
  by destruct (decodeJSON (T:=CreateTransfer.t) r _) as [[req|] wr].
Qed.

(** A request that does not call [Create] leaves the database as it is. *)
Lemma handler_no_call e r b :
  transfer_call e r = None →
  p_db (repo (store (NewHandler format_time redirect_status OpenAPISpec deployed e r (mk_world new_response b [])).2))
  = p_db (repo b).
Proof.
  unfold transfer_call. intros Hcall. rewrite NewHandler_store. unfold inner_run, mux_ServeHTTP.
  change (lookup_path (inner_request deployed e r)) with (lookup_path r).
  change (EscapedPath (inner_request deployed e r)) with (EscapedPath r).
  change (Method (inner_request deployed e r)) with (Method r).
  destruct (negb _); [done|].
  destruct (find_endpoint (Method r) (lookup_path r)) as [[ep value]|] eqn:Hep; [|by destruct (allowed_methods _)].
  destruct (decide (ep = CreateTransfers)) as [->|Hne]; [|by apply (endpoint_same (T:=session) p_db)].
  change (handler_of format_time OpenAPISpec deployed (logger_of deployed) e CreateTransfers) with
    (Authenticate (W:=statusRecorder response) tokens (at_token e) (RequirePermission PermissionTransfersCreate
       (createTransfer format_time (logger_of deployed) (Transfers deployed)))).
  pose proof (guards PermissionTransfersCreate e r
                (createTransfer (W:=statusRecorder response) format_time (logger_of deployed) (Transfers deployed))
                (SetPathValue value (inner_request deployed e r)) (inner_world e r (mk_world new_response b [])) eq_refl) as Hg.
  destruct (authorized_claims PermissionTransfersCreate e r) as [c|]; [|by rewrite Hg].
  rewrite Hg, (createTransfer_no_call _ _ _ c); [done|done|].
  change (Header (WithContext _ _)) with (Header r).
  destruct (Values "Idempotency-Key" (Header r)) as [|raw [|? ?]]; [done| |done]. intros Hk. rewrite Hk in Hcall.
  rewrite (decodeJSON_value _ r new_response new_response) by done.
  by destruct (decodeJSON r new_response).1.
Qed.

(** *** With and without a transaction *)

Lemma job_of_Some e r env j :
  job_of e r env = Some j →
  transfer_call e r = Some (j_user j, j_key j, j_request j) ∧ j_env j = env ∧ admitted j.
Proof.
  unfold job_of. destruct (transfer_call e r) as [[[u key] req]|] eqn:Hcall; [|done].
  case_bool_decide as Hu; [done|]. destruct (CreateTransfer.Validate req) as [[]|] eqn:Hv; [|done].
  intros [= <-]. split; [done|]. split; [done|]. split; [done|done|]. simpl.
  unfold transfer_call in Hcall. repeat (case_hyp Hcall; try discriminate).
  destruct (decodeJSON r new_response) as [[req'|] wr] eqn:Hd; [|discriminate Hcall]. simpl in Hcall. injection Hcall as _ _ <-.
  apply decodeJSON_Some in Hd as (_ & rest & Hd & _). by eapply Decode_int64.
Qed.

Lemma serve_alone_no_job sc e r env d : job_of e r env = None → (serve_alone sc e r d).2 = d.
Proof.
  intros Hj. unfold serve_alone. destruct (transfer_call e r) as [[[u key] req]|] eqn:Hcall.
  - destruct (Create u key req (mk_pool d [sc])) as [res p'] eqn:Hcr.
    pose proof (handler_call e r (mk_bench (mk_pool d [sc]) []) u key req res p' Hcall Hcr) as [_ Hstore].
    destruct (NewHandler _ _ _ _ _ _ _) as [x w']. simpl in Hstore. simpl. rewrite Hstore. simpl.
    unfold job_of in Hj. rewrite Hcall in Hj. unfold Create, fail in Hcr.
    case_bool_decide; [by simplify_eq|]. destruct (CreateTransfer.Validate req) as [[]|]; [done|]. by simplify_eq.
  - pose proof (handler_no_call e r (mk_bench (mk_pool d [sc]) []) Hcall) as Hstore.
    by destruct (NewHandler _ _ _ _ _ _ _) as [x w'].
Qed.

(** [Create] on a pool with one script, by its transaction function. *)
Lemma serve_alone_job sc e r env d j :
  job_of e r env = Some j →
  serve_alone sc e r d =
  let '(res, p) := Create (j_user j) (j_key j) (j_request j) (mk_pool d [sc]) in (create_answer e r res, p_db p).
Proof.
  intros (Hcall & _ & _)%job_of_Some. unfold serve_alone.
  destruct (Create _ _ _ (mk_pool d [sc])) as [res p'] eqn:Hcr.
  destruct (handler_call e r (mk_bench (mk_pool d [sc]) []) _ _ _ res p' Hcall Hcr) as [Hw Hstore].
  destruct (NewHandler _ _ _ _ _ _ _) as [x w']. simpl in *. by rewrite Hw, Hstore.
Qed.

Lemma Create_admitted j p :
  admitted j →
  Create (j_user j) (j_key j) (j_request j) p =
  map_err (Errorf "create transfer: %w") (WithinTx (create_tx (T:=session) (j_user j) (j_key j) (j_request j))) p.
Proof. intros [Hu Hv _]. unfold Create. by rewrite bool_decide_eq_false_2, Hv. Qed.

(** A transaction without faults, committed or with its confirmation lost. *)
Lemma serve_alone_serial e r j d :
  job_of e r (j_env j) = Some j →
  serve_alone (no_fault (j_env j)) e r d =
  let '(res, d') := serial j d in
  (create_answer e r (match res with Ok a => Ok a | Err err => Err (Errorf "create transfer: %w" err) end), d').
Proof.
  intros Hj. rewrite (serve_alone_job _ _ _ _ _ _ Hj). apply job_of_Some in Hj as (_ & _ & Hadm).
  rewrite Create_admitted, serial_run by done. unfold run_create, run.
  destruct (denote _ d) as [[a|err] d'] eqn:Hden; unfold map_err, WithinTx, Store; simpl;
    by rewrite <-denote_create, denote_session, Hden.
Qed.

Lemma serve_alone_unconfirmed e r j d a d' :
  job_of e r (j_env j) = Some j → serial j d = (Ok a, d') → ∀ msg,
  serve_alone (mk_script (j_env j) [] CommitLost) e r d =
  (create_answer e r (Err (Errorf "create transfer: %w" (External msg))), d').
Proof.
  intros Hj Hs msg. rewrite (serve_alone_job _ _ _ _ _ _ Hj). apply job_of_Some in Hj as (_ & _ & Hadm).
  rewrite Create_admitted by done. rewrite serial_run in Hs. unfold run_create, run in Hs.
  destruct (denote _ d) as [[a'|err] d1] eqn:Hden; [|done]. injection Hs as -> ->.
  unfold map_err, WithinTx, Store. simpl. by rewrite <-denote_create, denote_session, Hden.
Qed.

Lemma serve_alone_lost e r j d msg :
  job_of e r (j_env j) = Some j →
  serve_alone (mk_script (j_env j) [Some msg] Committed) e r d =
  (create_answer e r (Err (Errorf "create transfer: %w" (External msg))), d).
Proof.
  intros Hj. rewrite (serve_alone_job _ _ _ _ _ _ Hj). apply job_of_Some in Hj as (_ & _ & Hadm).
  by rewrite Create_admitted.
Qed.

(** ** Executions of requests are executions of their transactions *)

Definition linked (h : hstate) : Prop :=
  ∀ n e r x, pending h !! n = Some (e, r) → active (core h) !! n = Some x →
    job_of e r (j_env (x_job x)) = Some (x_job x).

(** The response that a step of the core decides. *)
Lemma hstep_core h l h' :
  hstep h l h' → core h' = core h ∨ ∃ l', cstep (core h) l' (core h').
Proof.
  intros [sc e r Hj|n e r env j Hn Hj|n e r x x' Hp Hx Ha|n x err Hx Hprog|n e r x a Hp Hx Hprog
         |n e r x msg Hp Hx|n e r x a msg Hp Hx Hprog]; [by left|right; eexists..]; simpl.
  - apply cs_begin; [done|]. by apply job_of_Some in Hj as (_ & _ & ?).
  - by eapply cs_advance.
  - by eapply cs_rollback.
  - by eapply cs_commit.
  - by eapply cs_lost.
  - by eapply cs_commit.
Qed.

Lemma linked_step h l h' : hstep h l h' → linked h → linked h'.
Proof.
  intros [sc e r Hj|n e r env j Hn Hj|n e r x x' Hp Hx Ha|n x err Hx Hprog|n e r x a Hp Hx Hprog
         |n e r x msg Hp Hx|n e r x a msg Hp Hx Hprog] Hl; [done|..]; intros m e1 r1 y Hm Hy; simpl in *.
  - destruct (decide (n = m)) as [<-|Hne].
    + rewrite lookup_insert_eq in Hm. rewrite lookup_insert_eq in Hy. simplify_eq. simpl. pose proof (job_of_Some _ _ _ _ Hj) as (_ & -> & _). done.
    + rewrite lookup_insert_ne in Hm by done. rewrite lookup_insert_ne in Hy by done. by eapply Hl.
  - assert (pending h !! m = Some (e1, r1)) as Hm'.
    { destruct (refused e r x'); [|done]. by apply lookup_delete_Some in Hm as [_ ?]. }
    destruct (decide (n = m)) as [<-|Hne].
    + rewrite lookup_insert_eq in Hy. simplify_eq. rewrite (advance_job _ _ _ _ Ha). by eapply Hl.
    + rewrite lookup_insert_ne in Hy by done. by eapply Hl.
  - apply lookup_delete_Some in Hy as [_ Hy]. by eapply Hl.
  - apply lookup_delete_Some in Hy as [_ Hy]. apply lookup_delete_Some in Hm as [_ Hm]. by eapply Hl.
  - apply lookup_delete_Some in Hy as [_ Hy]. apply lookup_delete_Some in Hm as [_ Hm]. by eapply Hl.
  - apply lookup_delete_Some in Hy as [_ Hy]. apply lookup_delete_Some in Hm as [_ Hm]. by eapply Hl.
Qed.

Lemma hexecution_core d replies h : hexecution d replies h → (∃ hist, execution d hist (core h)) ∧ linked h.
Proof.
  induction 1 as [|replies h l h' _ [[hist Hex] Hl] Hs]; [split; [eexists; constructor|done]|].
  split; [|by eapply linked_step]. destruct (hstep_core _ _ _ Hs) as [->|[l' Hc]]; [by eexists|].
  eexists. by eapply ex_step.
Qed.

(** ** Serializability *)

Definition asked (a : reply) : script * readings * request context := a.1.
Definition answer_given (a : reply) : response := a.2.

Lemma serve_in_turn_snoc rs sc e r d :
  serve_in_turn (rs ++ [(sc, e, r)]) d =
  let '(as_, d1) := serve_in_turn rs d in let '(a, d2) := serve_alone sc e r d1 in (as_ ++ [a], d2).
Proof.
  revert d. induction rs as [|[[sc' e'] r'] rs IH]; intros d; simpl.
  - by destruct (serve_alone sc e r d).
  - destruct (serve_alone sc' e' r' d) as [a' d1]. rewrite IH. destruct (serve_in_turn rs d1) as [as_ d2].
    by destruct (serve_alone sc e r d2).
Qed.

Context `{!PlatformLaws}.

(** A step that answers does what the request alone does. *)
Lemma hstep_serial d replies h l h' :
  hexecution d replies h → hstep h l h' →
  match l with
  | Some (sc, e, r, a) => serve_alone sc e r (committed (core h)) = (a, committed (core h'))
  | None => committed (core h') = committed (core h)
  end.
Proof.
  intros Hex Hs. destruct (hexecution_core _ _ _ Hex) as [[hist Hc%inv_execution] Hl].
  destruct Hs as [sc e r Hj|n e r env j Hn Hj|n e r x x' Hp Hx Ha|n x err Hx Hprog|n e r x a Hp Hx Hprog
         |n e r x msg Hp Hx|n e r x a msg Hp Hx Hprog]; simpl; try done.
  - apply injective_projections; [done|]. by eapply serve_alone_no_job.
  - pose proof (step_serial _ _ _ Hc (cs_advance _ _ _ _ Hx Ha)) as Hser. unfold failure in Hser. unfold refused.
    pose proof (Hl _ _ _ _ Hp Hx) as Hj. rewrite <-(advance_job _ _ _ _ Ha) in Hj.
    destruct (x_prog x') as [[a|err]|]; [done| |done]. simpl in Hser. by rewrite serve_alone_serial, Hser.
  - pose proof (step_serial _ _ _ Hc (cs_commit _ _ _ _ Hx Hprog)) as Hser. simpl in Hser.
    by rewrite serve_alone_serial, Hser by by eapply Hl.
  - apply serve_alone_lost. by eapply Hl.
  - pose proof (step_serial _ _ _ Hc (cs_commit _ _ _ _ Hx Hprog)) as Hser. simpl in Hser.
    eapply serve_alone_unconfirmed; [by eapply Hl|exact Hser].
Qed.

Lemma hexecution_serial d replies h :
  hexecution d replies h →
  serve_in_turn (asked <$> replies) d = (answer_given <$> replies, committed (core h)).
Proof.
  induction 1 as [|replies h l h' Hex IH Hs]; [done|].
  pose proof (hstep_serial _ _ _ _ _ Hex Hs) as Hser. rewrite !fmap_app.
  destruct l as [[[[sc e] r] a]|]; simpl; [|by rewrite !app_nil_r, IH, Hser].
  by rewrite serve_in_turn_snoc, IH, Hser.
Qed.

(** C2: the service is serializable, over HTTP.  However the requests of any number of clients
    overlap, statement by statement, with lost connections and lost confirmations, the
    responses they get and the database they leave are those of the same requests served one
    after the other by [NewHandler], in the order in which they were decided; a connection fails
    there exactly where it failed here. *)
Theorem http_is_serializable d replies h :
  hexecution d replies h →
  serve_in_turn (asked <$> replies) d = (answer_given <$> replies, committed (core h)).
Proof. apply hexecution_serial. Qed.

(** ** Schedules *)

(** The step that request [n] takes by itself, if it can. *)
Definition htick (n : nat) (h : hstate) : option (option reply * hstate) :=
  match active (core h) !! n with
  | None => None
  | Some x =>
    match x_prog x, pending h !! n with
    | Ret (Err _), _ =>
      Some (None, mk_hstate (mk_cstate (committed (core h)) (delete n (active (core h)))) (pending h))
    | Ret (Ok a), Some (e, r) =>
      Some (Some (no_fault (j_env (x_job x)), e, r, create_answer e r (Ok a)),
            mk_hstate (mk_cstate (install (x_writes x) (committed (core h))) (delete n (active (core h))))
              (delete n (pending h)))
    | Ask _ _, Some (e, r) =>
      match advance (committed (core h)) (others n (core h)) x with
      | Some x' =>
        Some (refused e r x',
              mk_hstate (mk_cstate (committed (core h)) (<[n := x']> (active (core h))))
                (if refused e r x' then delete n (pending h) else pending h))
      | None => None
      end
    | _, _ => None
    end
  end.

Fixpoint hschedule (ns : list nat) (h : hstate) : option (list reply * hstate) :=
  match ns with
  | [] => Some ([], h)
  | n :: ns' =>
    match htick n h with
    | None => None
    | Some (l, h1) =>
      match hschedule ns' h1 with
      | None => None
      | Some (replies, h2) => Some (option_list l ++ replies, h2)
      end
    end
  end.

Lemma htick_hstep n h l h' : htick n h = Some (l, h') → hstep h l h'.
Proof.
  unfold htick. destruct (active (core h) !! n) as [x|] eqn:Hx; [|done].
  destruct (x_prog x) as [[a|err]|B q k] eqn:Hprog; destruct (pending h !! n) as [[e r]|] eqn:Hp; intros Ht; simplify_eq.
  - by apply hs_commit.
  - by eapply hs_rollback.
  - by eapply hs_rollback.
  - destruct (advance _ _ _) as [x'|] eqn:Ha; simplify_eq. by eapply hs_advance.
Qed.

Lemma hschedule_hexecution d replies ns h more h' :
  hexecution d replies h → hschedule ns h = Some (more, h') → hexecution d (replies ++ more) h'.
Proof.
  revert replies h more. induction ns as [|n ns IH]; intros replies h more Hex Hs; simpl in Hs.
  - simplify_eq. by rewrite app_nil_r.
  - destruct (htick n h) as [[l h1]|] eqn:Ht; [|done]. apply htick_hstep in Ht.
    destruct (hschedule ns h1) as [[rest h2]|] eqn:Hrest; [|done]. simplify_eq.
    rewrite app_assoc. eapply IH; [|exact Hrest]. by eapply hx_step.
Qed.

(** ** Every request is answered *)

(** A request is pending as long as its transaction is undecided, and not longer. *)
Definition undecided (c : cstate) (n : nat) : Prop :=
  ∃ x, active c !! n = Some x ∧ ∀ err, x_prog x ≠ Ret (Err err).

Definition covered (h : hstate) : Prop := ∀ n, is_Some (pending h !! n) ↔ undecided (core h) n.

Lemma undecided_other (c : cstate) d n x m :
  n ≠ m → undecided (mk_cstate d (<[n := x]> (active c))) m ↔ undecided c m.
Proof. intros Hne. unfold undecided. simpl. by rewrite lookup_insert_ne. Qed.

Lemma undecided_delete (c : cstate) d n m : undecided (mk_cstate d (delete n (active c))) m ↔ n ≠ m ∧ undecided c m.
Proof.
  unfold undecided. simpl. split.
  - intros (x & [Hne Hx]%lookup_delete_Some & Hu). eauto.
  - intros (Hne & x & Hx & Hu). exists x. by rewrite lookup_delete_ne.
Qed.

Lemma is_Some_delete {A} (m : gmap nat A) (n k : nat) : is_Some (delete n m !! k) ↔ n ≠ k ∧ is_Some (m !! k).
Proof.
  destruct (decide (n = k)) as [<-|Hne]; [rewrite lookup_delete_eq|rewrite lookup_delete_ne by done]; [|naive_solver].
  split; [by intros [? ?]|naive_solver].
Qed.

Lemma covered_hstep h l h' : hstep h l h' → covered h → covered h'.
Proof.
  intros [sc e r Hj|n e r env j Hn Hj|n e r x x' Hp Hx Ha|n x err Hx Hprog|n e r x a Hp Hx Hprog
         |n e r x msg Hp Hx|n e r x a msg Hp Hx Hprog] Hc m; simpl;
    try by rewrite undecided_delete, is_Some_delete, (Hc m).
  - apply Hc.
  - destruct (decide (n = m)) as [<-|Hne]; [|by rewrite undecided_other, lookup_insert_ne].
    rewrite lookup_insert_eq. split; [|by eexists]. intros _. exists (Locking.start j). split; [apply lookup_insert_eq|done].
  - destruct (decide (n = m)) as [<-|Hne].
    + unfold refused, undecided. simpl. setoid_rewrite lookup_insert_eq.
      destruct (x_prog x') as [[a|err]|] eqn:Hprog.
      * rewrite Hp. split; [intros _; exists x'; by rewrite Hprog|by eexists].
      * rewrite lookup_delete_eq. split; [by intros [? ?]|]. intros (y & [= <-] & Hy). by destruct (Hy err).
      * rewrite Hp. split; [intros _; exists x'; by rewrite Hprog|by eexists].
    + rewrite undecided_other by done. rewrite <-(Hc m). destruct (refused e r x'); [by rewrite lookup_delete_ne|done].
  - rewrite undecided_delete, (Hc m). split; [|tauto]. intros Hu. split; [|done]. intros <-.
    destruct Hu as (y & Hy & Hno). rewrite Hx in Hy. injection Hy as <-. by destruct (Hno err).
Qed.

Lemma covered_hexecution d replies h : hexecution d replies h → covered h.
Proof.
  induction 1 as [|replies h l h' _ IH Hs]; [|by eapply covered_hstep].
  intros n. split; [by intros [? ?]|]. by intros (x & ? & _).
Qed.

(** A transaction that can move moves its request. *)
Lemma tick_htick n h l c : covered h → tick n (core h) = Some (l, c) → ∃ l' h', htick n h = Some (l', h') ∧ core h' = c.
Proof.
  intros Hc. unfold tick, htick. destruct (active (core h) !! n) as [x|] eqn:Hx; [|done].
  assert ((∀ err, x_prog x ≠ Ret (Err err)) → is_Some (pending h !! n)) as Hp.
  { intros Hu. apply Hc. by exists x. }
  destruct (x_prog x) as [[a|err]|B q k].
  - destruct Hp as [[e r] ->]; [done|]. intros [= <- <-]. by eexists _, _.
  - intros [= <- <-]. by eexists _, _.
  - destruct Hp as [[e r] ->]; [done|]. destruct (advance _ _ _) as [x'|]; intros; simplify_eq. by eexists _, _.
Qed.

Lemma schedule_hschedule ns h hs c :
  covered h → schedule ns (core h) = Some (hs, c) → ∃ more h', hschedule ns h = Some (more, h') ∧ core h' = c ∧ covered h'.
Proof.
  revert h hs. induction ns as [|n ns IH]; intros h hs Hc; simpl; [intros [= <- <-]; eauto|].
  destruct (tick n (core h)) as [[l c1]|] eqn:Ht; [|done].
  destruct (tick_htick _ _ _ _ Hc Ht) as (l' & h1 & Hh & <-). rewrite Hh.
  destruct (schedule ns (core h1)) as [[hs1 c2]|] eqn:Hs; [|done]. intros [= <- <-].
  destruct (IH h1 hs1) as (more & h2 & -> & ? & ?); [by apply htick_hstep in Hh; eapply covered_hstep|done|]. eauto.
Qed.

(** C8: no request waits for ever.  Whatever has happened so far, the requests under way can be run, by
    their own steps, until each of them has been answered; and the answers are again those of the
    requests one after the other. *)
Theorem every_pending_request_is_answered d replies h :
  hexecution d replies h →
  ∃ ns more h', hschedule ns h = Some (more, h') ∧ hexecution d (replies ++ more) h' ∧
    pending h' = ∅ ∧ active (core h') = ∅ ∧
    serve_in_turn (asked <$> replies ++ more) d = (answer_given <$> replies ++ more, committed (core h')).
Proof.
  intros Hex. destruct (hexecution_core _ _ _ Hex) as [[hist Hinv%inv_execution] _].
  destruct (schedule_drain (core h) Hinv) as (ns & hs & c & Hs & He).
  destruct (schedule_hschedule ns h hs c) as (more & h' & Hsched & <- & Hc'); [by eapply covered_hexecution|done|].
  pose proof (hschedule_hexecution _ _ _ _ _ _ Hex Hsched) as Hex'.
  exists ns, more, h'. split; [done|]. split; [done|]. split; [|split; [done|by apply hexecution_serial]].
  apply map_empty. intros n. apply eq_None_not_Some. intros (x & Hx & _)%Hc'. by rewrite He in Hx.
Qed.

(** Two requests that begin together. *)
Definition both (d : db) e1 r1 j1 e2 r2 j2 : hstate :=
  mk_hstate (mk_cstate d (<[1%nat := Locking.start j2]> (<[0%nat := Locking.start j1]> ∅)))
    (<[1%nat := (e2, r2)]> (<[0%nat := (e1, r1)]> ∅)).

Lemma both_begin d e1 r1 env1 j1 e2 r2 env2 j2 :
  job_of e1 r1 env1 = Some j1 → job_of e2 r2 env2 = Some j2 → hexecution d [] (both d e1 r1 j1 e2 r2 j2).
Proof.
  intros Hj1 Hj2. set (one := mk_hstate (mk_cstate d (<[0%nat := Locking.start j1]> ∅)) (<[0%nat := (e1, r1)]> ∅)).
  assert (hexecution d [] one) as Hone.
  { apply (hx_step d [] _ None one (hx_start d)). exact (hs_begin (mk_hstate (mk_cstate d ∅) ∅) 0%nat e1 r1 env1 j1 eq_refl Hj1). }
  apply (hx_step d [] one None _ Hone). exact (hs_begin one 1%nat e2 r2 env2 j2 eq_refl Hj2).
Qed.

End server.

(** ** Witnesses *)

(** The same [POST /transfers] sent twice at once. *)
Definition twin_job (id : string) : job :=
  default (race_job id) (job_of sample_tokens sample_readings sample_post (mk_env 7 id)).

Definition twins : hstate :=
  both sample_db sample_readings sample_post (twin_job "t-1") sample_readings sample_post (twin_job "t-2").

Definition twins_end : list reply * hstate :=
  default ([], twins) (hschedule plain_time [0; 0; 0; 0; 0; 0; 0; 1; 1; 1; 1; 1; 1]%nat twins).

Lemma twins_run : hschedule plain_time [0; 0; 0; 0; 0; 0; 0; 1; 1; 1; 1; 1; 1]%nat twins = Some twins_end.
Proof. apply default_Some. vm_compute. reflexivity. Qed.

Lemma first_job : job_of sample_tokens sample_readings sample_post (mk_env 7 "t-1") = Some (twin_job "t-1").
Proof. unfold twin_job. apply default_Some. vm_compute. reflexivity. Qed.

Lemma second_job : job_of sample_tokens sample_readings sample_post (mk_env 7 "t-2") = Some (twin_job "t-2").
Proof. unfold twin_job. apply default_Some. vm_compute. reflexivity. Qed.

Lemma twins_begun : hexecution sample_tokens "salt" (λ _, true) (10 * Second) plain_time 301 "" sample_db [] twins.
Proof. eapply both_begin; [exact first_job|exact second_job]. Qed.

Lemma twins_reached :
  hexecution sample_tokens "salt" (λ _, true) (10 * Second) plain_time 301 "" sample_db twins_end.1 twins_end.2.
Proof.
  pose proof (hschedule_hexecution sample_tokens "salt" (λ _, true) (10 * Second) plain_time 301 "" sample_db []
                [0; 0; 0; 0; 0; 0; 0; 1; 1; 1; 1; 1; 1]%nat twins twins_end.1 twins_end.2 twins_begun) as Hex.
  rewrite <-surjective_pairing in Hex. exact (Hex twins_run).
Qed.

(** One of them creates the transfer and is answered 201; the other is answered 200. *)
Definition in_turn : list response * db :=
  serve_in_turn sample_tokens "salt" (λ _, true) (10 * Second) plain_time 301 "" (asked <$> twins_end.1) sample_db.

Lemma http_is_serializable_witness : r_status <$> in_turn.1 = [Some 201; Some 200].
Proof.
  assert (in_turn = (answer_given <$> twins_end.1, committed (core twins_end.2))) as Hs.
  { exact (http_is_serializable sample_tokens "salt" (λ _, true) (10 * Second) plain_time 301 "" sample_db
             twins_end.1 twins_end.2 twins_reached). }
  rewrite Hs. vm_compute. reflexivity.
Defined.

(** The first request has locked a row, the second waits for it. *)
Definition twins_middle : list reply * hstate := default ([], twins) (hschedule plain_time [0]%nat twins).

Lemma twins_middle_run : hschedule plain_time [0]%nat twins = Some twins_middle.
Proof. apply default_Some. vm_compute. reflexivity. Qed.

Lemma twins_middle_reached :
  hexecution sample_tokens "salt" (λ _, true) (10 * Second) plain_time 301 "" sample_db twins_middle.1 twins_middle.2.
Proof.
  pose proof (hschedule_hexecution sample_tokens "salt" (λ _, true) (10 * Second) plain_time 301 "" sample_db []
                [0]%nat twins twins_middle.1 twins_middle.2 twins_begun) as Hex.
  rewrite <-surjective_pairing in Hex. exact (Hex twins_middle_run).
Qed.

Lemma every_pending_request_is_answered_witness :
  ∃ ns more h', hschedule plain_time ns twins_middle.2 = Some (more, h') ∧ pending h' = ∅.
Proof.
  destruct (every_pending_request_is_answered sample_tokens "salt" (λ _, true) (10 * Second) plain_time 301 "" sample_db
              twins_middle.1 twins_middle.2 twins_middle_reached) as (ns & more & h' & Hs & _ & Hp & _).
  exists ns, more, h'. split; [exact Hs|exact Hp].
Defined.
