(* ===== verification/Config.v ===== *)
(** * Configuration

    [internal/config]: [Load] reads the environment through a function and returns the
    configuration with the list of everything that is wrong with it.  The parsers of the
    standard library that it calls are modelled on bytes: base64, integers, booleans, durations
    and log levels. *)
From S2P Require Import Prelude GoStrings GoErrors Json Mime JsonText Auth.
From Stdlib Require Import Ascii.

(** ** [base64.StdEncoding.DecodeString] *)

Definition sextet (c : ascii) : option Z :=
  if between 65 c 90 then Some (byte c - 65)
  else if between 97 c 122 then Some (byte c - 71)
  else if between 48 c 57 then Some (byte c + 4)
  else if Ascii.eqb c "+" then Some 62
  else if Ascii.eqb c "/" then Some 63
  else None.

Definition newline (c : ascii) : bool := (byte c =? 10) || (byte c =? 13).

(** The bytes of two, three and four sextets. *)
Definition bytes1 (a b : Z) : list ascii := [chr (a * 4 + b / 16)].
Definition bytes2 (a b c : Z) : list ascii := bytes1 a b ++ [chr (b mod 16 * 16 + c / 4)].
Definition bytes3 (a b c d : Z) : list ascii := bytes2 a b c ++ [chr (c mod 4 * 64 + d)].

(** The sextets of the quantum that is being read; the result is the bytes decoded, and whether
    the input was correct.  Line breaks are skipped; padding ends the input. *)
Fixpoint decode64 (quantum : list Z) (s : list ascii) : list ascii * bool :=
  match s with
  | [] => ([], match quantum with [] => true | _ => false end)
  | ch :: s' =>
    match sextet ch with
    | Some x =>
      match quantum with
      | [a; b; c] => let '(out, ok) := decode64 [] s' in (bytes3 a b c x ++ out, ok)
      | _ => decode64 (quantum ++ [x]) s'
      end
    | None =>
      if newline ch then decode64 quantum s'
      else if Ascii.eqb ch "=" then
        match quantum with
        | [a; b] =>
          match drop_while newline s' with
          | pad :: s'' => if Ascii.eqb pad "=" then (bytes1 a b, forallb newline s'') else ([], false)
          | [] => ([], false)
          end
        | [a; b; c] => (bytes2 a b c, forallb newline s')
        | _ => ([], false)
        end
      else ([], false)
    end
  end.

Definition DecodeString (s : string) : list ascii * bool := decode64 [] (bytes_of s).

(** ** [strconv] *)

(** The value of a run of decimal digits, if it is one and not empty. *)
Definition digits_value (s : string) : option Z :=
  if s == "" then None
  else foldl (λ acc c, match acc with Some n => if digit c then Some (n * 10 + (byte c - 48)) else None | None => None end)
         (Some 0) (bytes_of s).

(** [strconv.ParseInt(s, 10, bits)]: the value, which is clamped when it is out of range, and
    whether there was no error. *)
Definition ParseInt (s : string) (bits : Z) : Z * bool :=
  let '(neg, s) := match s with
                   | String c s' =>
                     if Ascii.eqb c "-" then (true, s') else if Ascii.eqb c "+" then (false, s') else (false, s)
                   | EmptyString => (false, s)
                   end in
  match digits_value s with
  | None => (0, false)
  | Some n =>
    let cutoff := 2 ^ (bits - 1) in
    if negb neg && (cutoff <=? n) then (cutoff - 1, false)
    else if neg && (cutoff <? n) then (- cutoff, false)
    else (if neg then - n else n, true)
  end.

(** [strconv.ParseBool] *)
Definition ParseBool (s : string) : option bool :=
  if existsb (String.eqb s) ["1"; "t"; "T"; "true"; "TRUE"; "True"] then Some true
  else if existsb (String.eqb s) ["0"; "f"; "F"; "false"; "FALSE"; "False"] then Some false
  else None.

(** ** [time.ParseDuration] *)

(** Split a string at the first byte that does not satisfy [p]. *)
Fixpoint span (p : ascii → bool) (s : string) : string * string :=
  match s with
  | EmptyString => ("", "")
  | String c s' => if p c then let '(a, b) := span p s' in (String c a, b) else ("", s)
  end.

(** [leadingInt] on the digits: it fails above [2^63]. *)
Definition leadingInt (ds : string) : option Z :=
  foldl (λ acc c,
    match acc with
    | Some x =>
      if 2 ^ 63 / 10 <? x then None
      else let x := x * 10 + (byte c - 48) in if 2 ^ 63 <? x then None else Some x
    | None => None
    end) (Some 0) (bytes_of ds).

(** [leadingFraction] on the digits: the digits that fit, and the scale. *)
Definition leadingFraction (ds : string) : Z * Z :=
  let '(x, scale, _) :=
    foldl (λ acc c,
      let '(x, scale, overflow) := acc in
      if (overflow : bool) then acc
      else if (2 ^ 63 - 1) / 10 <? x then (x, scale, true)
      else let y := x * 10 + (byte c - 48) in
        if 2 ^ 63 <? y then (x, scale, true) else (y, scale * 10, false))
      (0, 1, false) (bytes_of ds) in (x, scale).

(** The [float64] nearest to [n / d], for positive [n] and [d], as a quotient. *)
Definition float_of (n d : Z) : Z * Z :=
  let k := 52 - Z.log2 n + Z.log2 d in
  let scaled (k : Z) := if 0 <=? k then (n * 2 ^ k, d) else (n, d * 2 ^ (- k)) in
  let k := if (scaled k).1 <? (scaled k).2 * 2 ^ 52 then k + 1 else k in
  let m := round_even (scaled k).1 (scaled k).2 in
  if 0 <=? k then (m, 2 ^ k) else (m * 2 ^ (- k), 1).

(** The product of two such numbers. *)
Definition float_mul (x y : Z * Z) : Z * Z := float_of (x.1 * y.1) (x.2 * y.2).

(** [unitMap]; a microsecond is also written with U+00B5 or U+03BC. *)
Definition unit_of (u : string) : option Z :=
  if u == "ns" then Some 1
  else if (u == "us") || (u == String (chr 194) (String (chr 181) "s")) || (u == String (chr 206) (String (chr 188) "s"))
  then Some 1000
  else if u == "ms" then Some 1000000
  else if u == "s" then Some Second
  else if u == "m" then Some (60 * Second)
  else if u == "h" then Some (3600 * Second)
  else None.

Definition number_byte (c : ascii) : bool := Ascii.eqb c "." || digit c.

(** One round of the loop: a number with its unit, in nanoseconds, and the rest. *)
Definition duration_part (s : string) : option (Z * string) :=
  let '(ds, s1) := span digit s in
  v ← leadingInt ds;
  let '(frac, s2) := match s1 with
                     | String c s1' => if Ascii.eqb c "." then span digit s1' else ("", s1)
                     | EmptyString => ("", s1)
                     end in
  let '(f, scale) := leadingFraction frac in
  if (ds == "") && (frac == "") then None
  else
    let '(u, rest) := span (λ c, negb (number_byte c)) s2 in
    if u == "" then None
    else
      unit ← unit_of u;
      if 2 ^ 63 / unit <? v then None
      else
        let v := v * unit in
        if 0 <? f then
          let x := float_mul (float_of f 1) (float_of unit scale) in
          let v := v + x.1 / x.2 in
          if 2 ^ 63 <? v then None else Some (v, rest)
        else Some (v, rest).

(** The loop; every round consumes a byte, so the length of the string is fuel enough. *)
Fixpoint duration_parts (fuel : nat) (d : Z) (s : string) : option Z :=
  match s with
  | EmptyString => Some d
  | _ =>
    match fuel, duration_part s with
    | S fuel', Some (v, rest) =>
      let d := (d + v) mod 2 ^ 64 in
      if 2 ^ 63 <? d then None else duration_parts fuel' d rest
    | _, _ => None
    end
  end.

Definition ParseDuration (s : string) : option Z :=
  let '(neg, s) := match s with
                   | String c s' =>
                     if Ascii.eqb c "-" then (true, s') else if Ascii.eqb c "+" then (false, s') else (false, s)
                   | EmptyString => (false, s)
                   end in
  if s == "0" then Some 0
  else if s == "" then None
  else
    d ← duration_parts (String.length s) 0 s;
    if (neg : bool) then Some (- d) else if 2 ^ 63 - 1 <? d then None else Some d.

Example durations :
  map ParseDuration ["10s"; "1h30m"; "1.5s"; ".5ms"; "-2s"; "0"; "10"; "s"; "1.1h"; "0.000000001s"; "9223372036854775808ns"]
  = [Some (10 * Second); Some (5400 * Second); Some 1500000000; Some 500000; Some (- 2 * Second); Some 0; None; None;
     Some 3960000000000; Some 1; None].
Proof. vm_compute. reflexivity. Qed.

(** More fuel than the length changes nothing. *)
Lemma length_span p s a b : span p s = (a, b) → String.length s = (String.length a + String.length b)%nat.
Proof.
  revert a b. induction s as [|c s IH]; simpl; intros a b; [by intros [= <- <-]|].
  destruct (p c); [|by intros [= <- <-]]. destruct (span p s) as [a' b'] eqn:E. intros [= <- <-].
  rewrite (IH _ _ eq_refl). done.
Qed.

Lemma length_duration_part s v rest : duration_part s = Some (v, rest) → (String.length rest < String.length s)%nat.
Proof.
  unfold duration_part. destruct (span digit s) as [ds s1] eqn:H1. apply length_span in H1.
  destruct (leadingInt ds) as [x|]; [|done]. simpl.
  match goal with |- context [let '(_, _) := ?m in _] => destruct m as [frac s2] eqn:H2 end.
  assert (String.length s2 <= String.length s1)%nat as Hs2.
  { destruct s1 as [|c s1]; [by injection H2 as <- <-|]. destruct (Ascii.eqb c "."); [|by injection H2 as <- <-].
    apply length_span in H2. simpl. lia. }
  destruct (leadingFraction frac) as [f scale]. destruct (_ && _); [done|].
  destruct (span _ s2) as [u rest'] eqn:H3. apply length_span in H3. case_bool_decide as Hu; [done|].
  assert (0 < String.length u)%nat by (destruct u; [done|simpl; lia]).
  destruct (unit_of u); [|done]. simpl. repeat case_match; intros [= _ <-]; lia.
Qed.

Lemma duration_parts_fuel fuel fuel' d s :
  (String.length s <= fuel)%nat → (String.length s <= fuel')%nat → duration_parts fuel d s = duration_parts fuel' d s.
Proof.
  revert fuel' d s. induction fuel as [|fuel IH]; intros fuel' d s Hf Hf'.
  { destruct s; [by destruct fuel'|simpl in Hf; lia]. }
  destruct s as [|c s]; [by destruct fuel'|]. destruct fuel' as [|fuel']; [simpl in Hf'; lia|].
  cbn [duration_parts]. destruct (duration_part (String c s)) as [[v rest]|] eqn:Hp; [|done].
  apply length_duration_part in Hp. case_match; [done|]. apply IH; lia.
Qed.

(** ** [slog.Level.UnmarshalText] *)

(** [strings.ToUpper], up to code points other than ASCII: U+0131 and U+017F have an ASCII upper
    case, the others stay. *)
Fixpoint ToUpper (s : string) : string :=
  match s with
  | EmptyString => ""
  | String a s1 =>
    let upper c := if between 97 c 122 then chr (byte c - 32) else c in
    match s1 with
    | String b s2 =>
      if (byte a =? 196) && (byte b =? 177) then "I" +:+ ToUpper s2
      else if (byte a =? 197) && (byte b =? 191) then "S" +:+ ToUpper s2
      else String (upper a) (ToUpper s1)
    | EmptyString => String (upper a) ""
    end
  end.

Definition unknown_level : error := New "unknown name".

(** A level is an [int]; names may carry an offset, as in [WARN+1]. *)
Definition parse_level (s : string) : result Z :=
  let '(name, rest) := span (λ c, negb (Ascii.eqb c "+" || Ascii.eqb c "-")) s in
  let '(offset, ok) := if rest == "" then (0, true) else ParseInt rest 64 in
  if negb ok then Err (External "strconv.Atoi: invalid syntax")
  else
    let upper := ToUpper name in
    level ← (if upper == "DEBUG" then Ok (-4) else if upper == "INFO" then Ok 0
             else if upper == "WARN" then Ok 4 else if upper == "ERROR" then Ok 8
             else Err unknown_level);
    Ok (level +64 offset).

(** ** [Load] *)

Record Config := mk_Config {
  HTTPAddr_ : string;
  DatabaseURL : string;
  JWTSecret : list ascii;
  JWTIssuer : string;
  JWTAudience : string;
  LogLevel : Z;
  DBMaxConns : Z;
  RequestTimeout : Z;
  ShutdownTimeout : Z;
  RunMigrations : bool;
  SeedDemoData : bool;
  DemoPassword : string }.

Section load.
Context (getenv : string → string).

Definition HTTPAddr : string :=
  let addr := TrimSpace (getenv "HTTP_ADDR") in
  if addr != "" then addr
  else
    let port := TrimSpace (getenv "PORT") in
    if port != "" then ":" +:+ port else ":8080".

Definition withDefault (value fallback : string) : string :=
  if TrimSpace value == "" then fallback else TrimSpace value.

(** [duration] and [boolean] append to the errors they are given. *)
Definition duration (name : string) (fallback : Z) (errs : list error) : Z * list error :=
  let raw := TrimSpace (getenv name) in
  if raw == "" then (fallback, errs)
  else
    match ParseDuration raw with
    | Some d =>
      if d <=? 0 then (fallback, errs ++ [New (name +:+ " must be a positive duration like 10s")]) else (d, errs)
    | None => (fallback, errs ++ [New (name +:+ " must be a positive duration like 10s")])
    end.

Definition boolean (name : string) (fallback : bool) (errs : list error) : bool * list error :=
  let raw := TrimSpace (getenv name) in
  if raw == "" then (fallback, errs)
  else
    match ParseBool raw with
    | Some b => (b, errs)
    | None => (fallback, errs ++ [New (name +:+ " must be true or false")])
    end.

(** Add an error when a check fails. *)
Definition check (bad : bool) (err : error) (errs : list error) : list error :=
  if bad then errs ++ [err] else errs.

(** [int32(z)] *)
Definition wrap32 (z : Z) : Z := (z + 2 ^ 31) mod 2 ^ 32 - 2 ^ 31.

(** The configuration, and the errors that are joined into the error returned. *)
Definition Load : Config * list error :=
  let url := TrimSpace (getenv "DATABASE_URL") in
  let password := getenv "DEMO_PASSWORD" in
  let errs := check (url == "") (New "DATABASE_URL is required") [] in
  let '(secret, ok) := DecodeString (TrimSpace (getenv "JWT_SECRET")) in
  let errs := check (negb ok || (Z.of_nat (length secret) <? 32))
                (New "JWT_SECRET must be a base64-encoded key of at least 32 bytes") errs in
  let '(level, errs) :=
    match parse_level (withDefault (getenv "LOG_LEVEL") "info") with
    | Ok level => (level, errs)
    | Err err => (0, errs ++ [Errorf "LOG_LEVEL: %w" err])
    end in
  let '(maxConns, ok) := ParseInt (withDefault (getenv "DB_MAX_CONNS") "20") 32 in
  let errs := check (negb ok || (maxConns <? 1)) (New "DB_MAX_CONNS must be a positive integer") errs in
  let '(requestTimeout, errs) := duration "REQUEST_TIMEOUT" (10 * Second) errs in
  let '(shutdownTimeout, errs) := duration "SHUTDOWN_TIMEOUT" (10 * Second) errs in
  let '(runMigrations, errs) := boolean "RUN_MIGRATIONS" true errs in
  let '(seedDemoData, errs) := boolean "SEED_DEMO_DATA" false errs in
  let errs := check (seedDemoData && (len password <? 8))
                (New "DEMO_PASSWORD must have at least 8 characters when SEED_DEMO_DATA is enabled") errs in
  (mk_Config HTTPAddr url secret (withDefault (getenv "JWT_ISSUER") "bankmonitoring")
     (withDefault (getenv "JWT_AUDIENCE") "bankmonitoring-api") level (wrap32 maxConns)
     requestTimeout shutdownTimeout runMigrations seedDemoData password, errs).

End load.

(** ** What [Load] promises *)

(** The variables that are wrong, in the order of [Load]. *)
Definition bad_duration (getenv : string → string) (name : string) : bool :=
  let raw := TrimSpace (getenv name) in
  (raw != "") && match ParseDuration raw with Some d => d <=? 0 | None => true end.

Definition bad_boolean (getenv : string → string) (name : string) : bool :=
  let raw := TrimSpace (getenv name) in
  (raw != "") && match ParseBool raw with Some _ => false | None => true end.

Definition problems (getenv : string → string) : list bool :=
  [ TrimSpace (getenv "DATABASE_URL") == "";
    (let '(secret, ok) := DecodeString (TrimSpace (getenv "JWT_SECRET")) in
     negb ok || (Z.of_nat (length secret) <? 32));
    negb (is_ok (parse_level (withDefault (getenv "LOG_LEVEL") "info")));
    (let '(n, ok) := ParseInt (withDefault (getenv "DB_MAX_CONNS") "20") 32 in negb ok || (n <? 1));
    bad_duration getenv "REQUEST_TIMEOUT"; bad_duration getenv "SHUTDOWN_TIMEOUT";
    bad_boolean getenv "RUN_MIGRATIONS"; bad_boolean getenv "SEED_DEMO_DATA";
    (boolean getenv "SEED_DEMO_DATA" false []).1 && (len (getenv "DEMO_PASSWORD") <? 8) ].

Lemma length_check bad err errs : length (check bad err errs) = (length errs + Nat.b2n bad)%nat.
Proof. unfold check. destruct bad; simpl; [rewrite length_app; simpl|]; lia. Qed.

Lemma duration_parts_nonneg fuel d s x : 0 <= d → duration_parts fuel d s = Some x → 0 <= x.
Proof.
  revert d s. induction fuel as [|fuel IH]; intros d [|c s] Hd; cbn [duration_parts]; try (by intros [= <-]); try done.
  destruct (duration_part _) as [[v rest]|]; [|done]. case_match; [done|]. apply IH, Z.mod_pos_bound. lia.
Qed.

Lemma ParseDuration_bound s d : ParseDuration s = Some d → d <= MaxInt64.
Proof.
  unfold ParseDuration. destruct (match s with EmptyString => _ | _ => _ end) as [neg s'].
  case_bool_decide; [by intros [= <-]|]. case_bool_decide; [done|].
  destruct (duration_parts _ _ _) as [x|] eqn:Hx; [|done]. simpl. apply duration_parts_nonneg in Hx; [|done].
  destruct neg; [intros [= <-]; unfold MaxInt64; lia|]. case_match eqn:Hlt; [done|]. intros [= <-].
  apply Z.ltb_ge in Hlt. done.
Qed.

(** The value a duration or a boolean gets, and the error it adds. *)
Lemma duration_run getenv name fallback errs :
  ∃ d err, duration getenv name fallback errs = (d, check (bad_duration getenv name) err errs) ∧
    (0 < fallback <= MaxInt64 → 0 < d <= MaxInt64).
Proof.
  unfold duration, bad_duration. case_bool_decide as Hraw; simpl; [by exists fallback, (New "")|].
  destruct (ParseDuration _) as [d|] eqn:Hp; [|by eexists _, _; split; [reflexivity|]].
  apply ParseDuration_bound in Hp. destruct (d <=? 0) eqn:Hd; [by eexists _, _; split; [reflexivity|]|].
  exists d, (New ""). split; [done|]. apply Z.leb_gt in Hd. done.
Qed.

Lemma boolean_run getenv name fallback errs :
  ∃ err, boolean getenv name fallback errs =
    ((boolean getenv name fallback []).1, check (bad_boolean getenv name) err errs).
Proof.
  unfold boolean, bad_boolean. case_bool_decide; simpl; [by exists (New "")|].
  destruct (ParseBool _); simpl; [by exists (New "")|]. by eexists.
Qed.

(** [Load], with its errors as checks. *)
Lemma Load_run getenv :
  ∃ e3 e5 e6 e7 e8 req shut,
  let bad i := default false (problems getenv !! i) in
  Load getenv =
  (mk_Config (HTTPAddr getenv) (TrimSpace (getenv "DATABASE_URL")) (DecodeString (TrimSpace (getenv "JWT_SECRET"))).1
     (withDefault (getenv "JWT_ISSUER") "bankmonitoring") (withDefault (getenv "JWT_AUDIENCE") "bankmonitoring-api")
     (match parse_level (withDefault (getenv "LOG_LEVEL") "info") with Ok level => level | Err _ => 0 end)
     (wrap32 (ParseInt (withDefault (getenv "DB_MAX_CONNS") "20") 32).1) req shut
     (boolean getenv "RUN_MIGRATIONS" true []).1 (boolean getenv "SEED_DEMO_DATA" false []).1 (getenv "DEMO_PASSWORD"),
   check (bad 8%nat) (New "DEMO_PASSWORD must have at least 8 characters when SEED_DEMO_DATA is enabled")
     (check (bad 7%nat) e8 (check (bad 6%nat) e7 (check (bad 5%nat) e6 (check (bad 4%nat) e5
       (check (bad 3%nat) (New "DB_MAX_CONNS must be a positive integer")
         (check (bad 2%nat) e3
           (check (bad 1%nat) (New "JWT_SECRET must be a base64-encoded key of at least 32 bytes")
             (check (bad 0%nat) (New "DATABASE_URL is required") [])))))))))
  ∧ 0 < req <= MaxInt64 ∧ 0 < shut <= MaxInt64.
Proof.
  unfold Load, problems. destruct (DecodeString _) as [secret ok]. simpl.
  set (errs2 := check (negb ok || _) _ _).
  assert (∃ e3 level, match parse_level (withDefault (getenv "LOG_LEVEL") "info") with
    | Ok level => (level, errs2) | Err err => (0, errs2 ++ [Errorf "LOG_LEVEL: %w" err]) end =
    (level, check (negb (is_ok (parse_level (withDefault (getenv "LOG_LEVEL") "info")))) e3 errs2) ∧
    level = match parse_level (withDefault (getenv "LOG_LEVEL") "info") with Ok level => level | Err _ => 0 end)
    as (e3 & level & -> & Hlevel).
  { destruct (parse_level _) as [level|err]; simpl; [by exists (New ""), level|by eexists _, 0]. }
  destruct (ParseInt _ 32) as [n okn]. simpl. set (errs4 := check (negb okn || _) _ _).
  destruct (duration_run getenv "REQUEST_TIMEOUT" (10 * Second) errs4) as (req & e5 & -> & Hreq).
  set (errs5 := check (bad_duration getenv "REQUEST_TIMEOUT") e5 errs4).
  destruct (duration_run getenv "SHUTDOWN_TIMEOUT" (10 * Second) errs5) as (shut & e6 & -> & Hshut).
  set (errs6 := check (bad_duration getenv "SHUTDOWN_TIMEOUT") e6 errs5).
  destruct (boolean_run getenv "RUN_MIGRATIONS" true errs6) as (e7 & ->).
  set (errs7 := check (bad_boolean getenv "RUN_MIGRATIONS") e7 errs6).
  destruct (boolean_run getenv "SEED_DEMO_DATA" false errs7) as (e8 & ->).
  exists e3, e5, e6, e7, e8, req, shut. rewrite Hlevel. split; [reflexivity|].
  split; [apply Hreq|apply Hshut]; by vm_compute.
Qed.

Lemma digits_value_nonneg s n : digits_value s = Some n → 0 <= n.
Proof.
  unfold digits_value. case_bool_decide; [done|].
  assert (∀ l acc n, match acc with Some m => 0 <= m | None => True end →
    foldl (λ acc c, match acc with Some n => if digit c then Some (n * 10 + (byte c - 48)) else None | None => None end)
      acc l = Some n → 0 <= n) as Hfold; [|by apply Hfold].
  induction l as [|c l IH]; simpl; intros acc m Hacc; [intros ->; exact Hacc|].
  apply IH. destruct acc as [x|]; [|done]. unfold digit, between. destruct (_ && _) eqn:E; [|done]. reflect. lia.
Qed.

(** An integer that is parsed fits its width. *)
Lemma ParseInt_range s bits n : 1 <= bits → ParseInt s bits = (n, true) → - 2 ^ (bits - 1) <= n < 2 ^ (bits - 1).
Proof.
  intros Hb. unfold ParseInt. destruct (match s with EmptyString => _ | _ => _ end) as [neg s'].
  destruct (digits_value s') as [x|] eqn:Hx; [|done]. apply digits_value_nonneg in Hx.
  pose proof (Z.pow_pos_nonneg 2 (bits - 1)).
  destruct neg; simpl; case_match eqn:E; intros [= <-];
    [apply Z.ltb_ge in E|apply Z.leb_gt in E]; lia.
Qed.

Lemma wrap32_id z : - 2 ^ 31 <= z < 2 ^ 31 → wrap32 z = z.
Proof. intros Hz. unfold wrap32. rewrite Z.mod_small; lia. Qed.

Lemma withDefault_nonblank v fallback : TrimSpace fallback ≠ "" → TrimSpace (withDefault v fallback) ≠ "".
Proof. intros Hf. unfold withDefault. case_bool_decide as Hv; [done|]. intros Ht. by apply Hv, TrimSpace_twice. Qed.

Lemma check_nil bad err errs : check bad err errs = [] → bad = false ∧ errs = [].
Proof. unfold check. destruct bad; [|done]. destruct errs; discriminate. Qed.

(** C32: a configuration that loads can be run.  When [Load] reports no error, there is a database URL,
    the pool size is a positive 32-bit integer, both timeouts are positive, demo data come with a
    password of at least eight bytes, and [NewTokenService], the next thing [run] calls, accepts the
    key, the issuer and the audience. *)
Theorem loaded_config_is_usable getenv cfg :
  Load getenv = (cfg, []) →
  DatabaseURL cfg ≠ "" ∧ 1 <= DBMaxConns cfg < 2 ^ 31 ∧
  0 < RequestTimeout cfg <= MaxInt64 ∧ 0 < ShutdownTimeout cfg <= MaxInt64 ∧
  (SeedDemoData cfg = true → 8 <= len (DemoPassword cfg)) ∧
  NewTokenService (JWTSecret cfg) (JWTIssuer cfg) (JWTAudience cfg) =
    Ok (mk_TokenService (JWTSecret cfg) (JWTIssuer cfg) (JWTAudience cfg)).
Proof.
  intros Hl. destruct (Load_run getenv) as (e3 & e5 & e6 & e7 & e8 & req & shut & Hrun & Hreq & Hshut).
  rewrite Hl in Hrun. injection Hrun as Hcfg Herrs. symmetry in Herrs.
  repeat match goal with H : check _ _ _ = [] |- _ => apply check_nil in H as [? ?] end.
  unfold problems in *. simpl in *. subst cfg. simpl. reflect.
  destruct (DecodeString _) as [secret ok]. destruct (ParseInt _ 32) as [n okn] eqn:Hn. simpl in *. reflect. subst.
  apply ParseInt_range in Hn; [|done]. simpl in Hn. rewrite wrap32_id by done.
  split; [done|]. split; [lia|]. split; [done|]. split; [done|]. split.
  - intros Hseed. rewrite Hseed in *. simpl in *. by reflect.
  - unfold NewTokenService. rewrite (proj2 (Z.ltb_ge _ _)) by done.
    rewrite !bool_decide_eq_false_2 by (apply withDefault_nonblank; vm_compute; discriminate). done.
Qed.

(** C33: [Load] reports every problem at once: the error it returns joins exactly one error for each
    variable that is wrong, and it is [nil] exactly when none is. *)
Theorem load_reports_every_problem getenv :
  length (Load getenv).2 = length (List.filter (λ bad, bad) (problems getenv)) ∧
  ((Load getenv).2 = [] ↔ Forall (λ bad, bad = false) (problems getenv)).
Proof.
  assert (length (Load getenv).2 = length (List.filter (λ bad, bad) (problems getenv))) as Hlen.
  { destruct (Load_run getenv) as (e3 & e5 & e6 & e7 & e8 & req & shut & -> & _ & _). simpl snd.
    rewrite !length_check. unfold problems. simpl. repeat case_match; simpl; lia. }
  split; [done|]. split.
  - intros Hl. rewrite Hl in Hlen. clear Hl. revert Hlen. generalize (problems getenv).
    induction l as [|[] l IH]; intros Hlen; [done|discriminate Hlen|]. constructor; auto.
  - intros Hf. apply nil_length_inv. rewrite Hlen. clear Hlen. induction Hf as [|b l -> _ IH]; done.
Qed.

(** ** Witnesses *)

(** Forty bytes of zeros in base64, and no other variable but the database URL. *)
Definition sample_env (name : string) : string :=
  if name == "DATABASE_URL" then "postgres://localhost/bank"
  else if name == "JWT_SECRET" then "AAAAAAAAAAAAAAAAAAAAAAAAAAAAAAAAAAAAAAAAAAAAAAAAAAAAAA=="
  else "".

Lemma loaded_config_is_usable_witness : DBMaxConns (Load sample_env).1 < 2 ^ 31.
Proof.
  apply (loaded_config_is_usable sample_env (Load sample_env).1).
  apply injective_projections; [reflexivity|vm_compute; reflexivity].
Defined.
