(* ===== verification/Seed.v ===== *)
(** * Demo data

    [internal/seed]: [Demo] provisions users and accounts in one transaction, on every start of
    a deployment that asks for it.  Its two statements are upserts on the tables of [Database]. *)
From S2P Require Import Prelude GoStrings GoErrors Entities Json Database Schema BankSpec Contracts Repository RepositoryCorrect Http Auth Driver.

(** ** The statements *)

Section statements.
Context `{!Platform}.

Definition with_users (m : gmap string user_row) (d : db) : db :=
  mk_db (accounts d) (transfers d) (ledger_entries d) m.

(** [INSERT INTO users ... ON CONFLICT (id) DO UPDATE SET password_hash = EXCLUDED.password_hash,
    permissions = EXCLUDED.permissions]: the checks come first, then the conflict on the primary
    key, then the unique index on [lower(email)], which only an insertion reaches. *)
Definition upsert_user (e : env) (id email password_hash : string) (permissions : list string) (d : db) :
    result unit * db :=
  let r := mk_user_row email password_hash permissions (now e) in
  if negb (texts_ok (id :: email :: password_hash :: permissions)) then (Err invalid_text, d)
  else if negb (users_check id r) then (Err check_violation, d)
  else
    match users d !! id with
    | Some old =>
      (Ok tt, with_users
         (<[id := mk_user_row (u_email old) password_hash permissions (u_created_at old)]> (users d)) d)
    | None =>
      if existsb (λ kv, lower (u_email kv.2) == lower email) (map_to_list (users d)) then (Err unique_violation, d)
      else (Ok tt, with_users (<[id := r]> (users d)) d)
    end.

(** [INSERT INTO accounts ... ON CONFLICT (id) DO NOTHING]: the foreign key is checked when a row
    is inserted. *)
Definition insert_account (e : env) (id user_id currency : string) (balance : Z) (d : db) : result unit * db :=
  let r := mk_account_row user_id currency balance (now e) (now e) in
  if negb (texts_ok [id; user_id; currency]) then (Err invalid_text, d)
  else if negb (accounts_check id r) then (Err check_violation, d)
  else if bool_decide (is_Some (accounts d !! id)) then (Ok tt, d)
  else if negb (account_refs d r) then (Err foreign_key_violation, d)
  else (Ok tt, with_accounts (<[id := r]> (accounts d)) d).

Inductive seed_stmt :=
| UpsertUser (id email password_hash : string) (permissions : list string)
| InsertAccount (id user_id currency : string) (balance : Z).

Definition seed_sql (e : env) (q : seed_stmt) (d : db) : result unit * db :=
  match q with
  | UpsertUser id email password_hash permissions => upsert_user e id email password_hash permissions d
  | InsertAccount id user_id currency balance => insert_account e id user_id currency balance d
  end.

(** [tx.Exec] of such a statement, and what its documentation says. *)
Class Execer (T : Type) := {
  Exec : seed_stmt → tx T unit }.

Class Exec_documented {T} `{!Execer T} (tx_db : T → db) := {
  exec_ok q t t' : Exec q t = (Ok tt, t') → ∃ e, seed_sql e q (tx_db t) = (Ok tt, tx_db t') }.

(** The connection of [Driver] runs these statements too. *)
#[global] Instance session_execer : Execer session := {|
  Exec q t :=
    match c_faults t with
    | Some msg :: fs => (Err (External msg), mk_session (c_db t) (c_env t) fs)
    | fs => let '(r, d) := seed_sql (c_env t) q (c_db t) in (r, mk_session d (c_env t) (tail fs))
    end |}.

#[global] Instance session_exec_documented : Exec_documented c_db.
Proof.
  split. intros q t t' Hq. exists (c_env t). simpl in Hq.
  destruct (c_faults t) as [|[|] fs]; [|done|];
    destruct (seed_sql (c_env t) q (c_db t)) as [r d]; by simplify_eq.
Qed.

End statements.

(** ** [demo.go] *)

Record demoAccount := mk_demoAccount {
  da_id : string;
  da_currency : string;
  da_balance : Z }.

Record demoUser := mk_demoUser {
  du_id : string;
  du_email : string;
  du_accounts : list demoAccount }.

Definition demoUsers : list demoUser :=
  [ mk_demoUser "user-alice" "alice@example.com"
      [mk_demoAccount "acc-alice-pen" "PEN" 100000000; mk_demoAccount "acc-alice-usd" "USD" 100000000];
    mk_demoUser "user-bob" "bob@example.com"
      [mk_demoAccount "acc-bob-pen" "PEN" 100000000; mk_demoAccount "acc-bob-usd" "USD" 100000000];
    mk_demoUser "user-carol" "carol@example.com" [mk_demoAccount "acc-carol-pen" "PEN" 0] ].

Definition demoPermissions : list string :=
  [PermissionAccountsRead; PermissionTransfersRead; PermissionTransfersCreate].

(** [for _, x := range l { if err := body(x); err != nil { return err } }] *)
Fixpoint for_range {T A} (body : A → tx T unit) (l : list A) : tx T unit :=
  match l with
  | [] => mret tt
  | x :: l' => _ ← body x; for_range body l'
  end.

Section demo.
Context `{!Platform} {S T : Type} `{!Pgx S T} `{!Execer T} `{!Bcrypt}.

Definition seed_account (u : demoUser) (a : demoAccount) : tx T unit :=
  map_err (Errorf ("seed account " +:+ da_id a +:+ ": %w"))
    (Exec (InsertAccount (da_id a) (du_id u) (da_currency a) (da_balance a))).

Definition seed_user (hash : string) (u : demoUser) : tx T unit :=
  _ ← map_err (Errorf ("seed user " +:+ du_id u +:+ ": %w"))
        (Exec (UpsertUser (du_id u) (du_email u) hash demoPermissions));
  for_range (seed_account u) (du_accounts u).

(** [pgx.BeginFunc] is [pgx.BeginTxFunc] with the default options; [salt] is what bcrypt draws. *)
Definition Demo (password salt : string) : tx S unit :=
  match HashPassword password salt with
  | Err err => fail (Errorf "hash demo password: %w" err)
  | Ok hash => BeginTxFunc (for_range (seed_user hash) demoUsers)
  end.

End demo.

(** ** What a sequence of these statements does *)

Section seeds.
Context `{!Platform}.

Inductive seeds : list seed_stmt → db → db → Prop :=
| seeds_nil d : seeds [] d d
| seeds_cons e q qs d d1 d2 : seed_sql e q d = (Ok tt, d1) → seeds qs d1 d2 → seeds (q :: qs) d d2.

Lemma seeds_app qs1 qs2 d d1 d2 : seeds qs1 d d1 → seeds qs2 d1 d2 → seeds (qs1 ++ qs2) d d2.
Proof. induction 1; simpl; [done|]. intros. by econstructor; eauto. Qed.

Definition upserts (id : string) (q : seed_stmt) : bool :=
  match q with UpsertUser i _ _ _ => i == id | _ => false end.

Definition inserts (id : string) (q : seed_stmt) : bool :=
  match q with InsertAccount i _ _ _ => i == id | _ => false end.

(** The outcomes of a statement that succeeds. *)
Lemma upsert_user_Ok e id email hash perms d d' :
  upsert_user e id email hash perms d = (Ok tt, d') →
  ∃ r, d' = with_users (<[id := r]> (users d)) d ∧ users_check id (mk_user_row email hash perms (now e)) = true ∧
    u_password_hash r = hash ∧ u_permissions r = perms ∧
    match users d !! id with
    | Some old => u_email r = u_email old ∧ u_created_at r = u_created_at old
    | None => u_email r = email ∧ ∀ j s, users d !! j = Some s → lower (u_email s) ≠ lower email
    end.
Proof.
  unfold upsert_user. intros Hu. case_hyp Hu; [done|]. case_hyp Hu; [done|]. reflect.
  destruct (users d !! id) as [old|]; [simplify_eq; by eexists|]. case_hyp Hu; [done|]. simplify_eq.
  eexists. repeat split; try done. intros j s Hs Heq. apply not_true_iff_false in E1. apply E1, existsb_exists.
  exists (j, s). split; [by apply list_elem_of_In, elem_of_map_to_list|by apply bool_decide_eq_true].
Qed.

Lemma insert_account_Ok e id user currency balance d d' :
  insert_account e id user currency balance d = (Ok tt, d') →
  accounts_check id (mk_account_row user currency balance (now e) (now e)) = true ∧
  (is_Some (accounts d !! id) ∧ d' = d ∨
   accounts d !! id = None ∧ is_Some (users d !! user) ∧
   d' = with_accounts (<[id := mk_account_row user currency balance (now e) (now e)]> (accounts d)) d).
Proof.
  unfold insert_account, account_refs. intros Hi. case_hyp Hi; [done|]. case_hyp Hi; [done|]. reflect. split; [done|].
  case_hyp Hi; reflect; [left; by simplify_eq|]. case_hyp Hi; [done|]. reflect. simplify_eq.
  right. by rewrite eq_None_not_Some.
Qed.

Ltac seed_step H :=
  match type of H with
  | seed_sql _ ?q _ = _ =>
    destruct q; [apply upsert_user_Ok in H as (? & -> & ?)|apply insert_account_Ok in H as (? & [[? ->]|(? & ? & ->)])]
  end.

Lemma seeds_tables qs d d' : seeds qs d d' → transfers d' = transfers d ∧ ledger_entries d' = ledger_entries d.
Proof. induction 1 as [|e q qs d d1 d2 Hq _ [-> ->]]; [done|]. by seed_step Hq. Qed.

(** A row of [accounts] is inserted once, by the first statement that names it. *)
Lemma seeds_accounts qs d d' id :
  seeds qs d d' →
  match accounts d !! id, find (inserts id) qs with
  | Some r, _ => accounts d' !! id = Some r
  | None, Some (InsertAccount _ user currency balance) =>
    ∃ t, accounts d' !! id = Some (mk_account_row user currency balance t t)
  | None, _ => accounts d' !! id = None
  end.
Proof.
  induction 1 as [|e q qs d d1 d2 Hq _ IH]; [by destruct (accounts d !! id)|].
  seed_step Hq; simpl in *; [done| |].
  - case_bool_decide; subst; [|done]. match goal with H : is_Some _ |- _ => destruct H as [r Hr] end.
    rewrite Hr in IH |- *. done.
  - match goal with H : accounts _ !! _ = None |- _ => rename H into Hn end.
    case_bool_decide as Heq; subst; [rewrite lookup_insert_eq in IH; rewrite Hn; eauto|].
    by rewrite lookup_insert_ne in IH.
Qed.

(** A row of [users] has the hash and the permissions of the statements, and keeps its e-mail. *)
Lemma seeds_users hash perms qs d d' id :
  Forall (λ q, match q with UpsertUser _ _ h p => h = hash ∧ p = perms | _ => True end) qs →
  seeds qs d d' →
  match find (upserts id) qs with
  | Some (UpsertUser _ email _ _) =>
    ∃ r, users d' !! id = Some r ∧ u_password_hash r = hash ∧ u_permissions r = perms ∧
      match users d !! id with
      | Some old => u_email r = u_email old ∧ u_created_at r = u_created_at old
      | None => u_email r = email
      end
  | _ => users d' !! id = users d !! id
  end.
Proof.
  intros Hf Hs. revert Hf. induction Hs as [|e q qs d d1 d2 Hq _ IH]; intros Hf; [done|].
  apply Forall_cons in Hf as [Hh Hf]. specialize (IH Hf).
  seed_step Hq; simpl in *; [|done..].
  match goal with H : users_check _ _ = true ∧ _ |- _ => destruct H as (_ & Hhash & Hperm & Hold) end.
  destruct Hh as [-> ->].
  case_bool_decide as Heq; [subst id0|by rewrite lookup_insert_ne in IH].
  rewrite lookup_insert_eq in IH.
  assert (match users d !! id with Some old => u_email x = u_email old ∧ u_created_at x = u_created_at old
          | None => u_email x = email end) as Hx by (destruct (users d !! id); naive_solver). clear Hold.
  destruct (find (upserts id) qs) as [q|] eqn:Hfind; [|exists x; split; [exact IH|done]].
  apply find_some in Hfind as [_ Hup]. destruct q; [|done].
  destruct IH as (r & Hr & Hrh & Hrp & Hre & Hrc). exists r. repeat split; try done.
  destruct (users d !! id) as [old|]; destruct_and?; rewrite ?Hre, ?Hrc; done.
Qed.

End seeds.

(** ** What [Demo] does *)

(** The statements of a run, in order. *)
Definition user_statements (hash : string) (u : demoUser) : list seed_stmt :=
  UpsertUser (du_id u) (du_email u) hash demoPermissions
  :: map (λ a, InsertAccount (da_id a) (du_id u) (da_currency a) (da_balance a)) (du_accounts u).

Definition demo_statements (hash : string) : list seed_stmt := flat_map (user_statements hash) demoUsers.

(** The accounts of [demoUsers] with their owners. *)
Definition demo_accounts : list (demoUser * demoAccount) :=
  flat_map (λ u, map (pair u) (du_accounts u)) demoUsers.

Definition demo_account_ids : list string := (λ ua, da_id ua.2) <$> demo_accounts.

(** Go through the members of a concrete list. *)
Ltac members H tac := apply list_elem_of_In in H; simpl in H; repeat (destruct H as [<-|H]; [tac|]); destruct H.

Ltac member := apply list_elem_of_In; vm_compute; tauto.

Section provisioned.
Context `{!Platform} `{!Bcrypt}.

(** Existing accounts keep their rows, and no account but the demo ones is added; a new one has
    its opening balance.  Demo users have the demo permissions and a hash of the password, and
    keep the e-mail address they have; other users, transfers and the ledger are as they were. *)
Record provisioned (password : string) (d d' : db) : Prop := {
  pv_transfers : transfers d' = transfers d;
  pv_ledger : ledger_entries d' = ledger_entries d;
  pv_kept id r : accounts d !! id = Some r → accounts d' !! id = Some r;
  pv_only id : accounts d !! id = None → id ∉ demo_account_ids → accounts d' !! id = None;
  pv_opened u a : (u, a) ∈ demo_accounts → accounts d !! da_id a = None →
    ∃ t, accounts d' !! da_id a = Some (mk_account_row (du_id u) (da_currency a) (da_balance a) t t);
  pv_others id : id ∉ du_id <$> demoUsers → users d' !! id = users d !! id;
  pv_users u : u ∈ demoUsers →
    ∃ r, users d' !! du_id u = Some r ∧ is_ok (CompareHashAndPassword (u_password_hash r) password) = true ∧
      u_permissions r = demoPermissions ∧
      match users d !! du_id u with
      | Some old => u_email r = u_email old ∧ u_created_at r = u_created_at old
      | None => u_email r = du_email u
      end }.

Lemma find_none_not_in {A} (f : A → bool) l : Forall (λ x, f x = false) l → find f l = None.
Proof. induction 1 as [|x l Hx _ IH]; simpl; [done|]. by rewrite Hx. Qed.

Lemma seeds_provisioned hash password d d' :
  is_ok (CompareHashAndPassword hash password) = true → seeds (demo_statements hash) d d' → provisioned password d d'.
Proof.
  intros Hhash Hs.
  assert (Forall (λ q, match q with UpsertUser _ _ h p => h = hash ∧ p = demoPermissions | _ => True end)
            (demo_statements hash)) as Hall by by repeat constructor.
  pose proof (λ id, seeds_accounts _ _ _ id Hs) as Ha. pose proof (λ id, seeds_users _ _ _ _ _ id Hall Hs) as Hu.
  apply seeds_tables in Hs as [Ht Hl]. split; try done.
  - intros id r Hr. specialize (Ha id). by rewrite Hr in Ha.
  - intros id Hn Hid. specialize (Ha id). rewrite Hn, find_none_not_in in Ha; [done|].
    apply Forall_forall. intros q Hq.
    members Hq ltac:(simpl; try done; apply bool_decide_eq_false; intros <-; apply Hid; member).
  - intros u a Hua Hn. specialize (Ha (da_id a)). rewrite Hn in Ha. simpl in Hua.
    apply list_elem_of_In in Hua. repeat (destruct Hua as [[= <- <-]|Hua]; [exact Ha|]). destruct Hua.
  - intros id Hid. specialize (Hu id). rewrite find_none_not_in in Hu; [done|].
    apply Forall_forall. intros q Hq.
    members Hq ltac:(simpl; try done; apply bool_decide_eq_false; intros <-; apply Hid; member).
  - intros u Hin. specialize (Hu (du_id u)). 
    members Hin ltac:(destruct Hu as (r & Hr & Hh & Hp & Hold); exists r; rewrite Hh; done).
Qed.

End provisioned.

(** ** Seeding and the invariants of the database *)

Section invariants.
Context `{!Platform} `{!Bcrypt}.

Lemma seed_sql_schema e q d : schema_ok d → schema_ok (seed_sql e q d).2.
Proof.
  intros Hok. destruct (seed_sql e q d) as [[[]|err] d'] eqn:Hq.
  2: { destruct q; simpl in Hq; unfold upsert_user, insert_account in Hq; repeat (case_hyp Hq; try by simplify_eq). }
  destruct q as [id email hash perms|id user currency balance]; simpl in Hq.
  - apply upsert_user_Ok in Hq as (r & -> & Hc & _ & _ & Hold). destruct Hok as [Ha Ht Hkeys Hids Hl Hu He].
    split; try done; simpl.
    + intros i r' Hr. destruct (Ha i r' Hr) as [? Href]. split; [done|]. eapply account_refs_mono; [|exact Href].
      simpl. apply keeps_keys_insert.
    + apply map_Forall_insert_2; [|done]. unfold users_check in *. simpl in Hc.
      destruct (users d !! id) as [old|] eqn:Hid; [|by destruct Hold as [-> _]].
      destruct Hold as [-> _]. exact (Hu id old Hid).
    + assert (∀ j s, users d !! j = Some s → lower (u_email r) = lower (u_email s) → id = j) as Hnew.
      { intros j s Hj Heq. destruct (users d !! id) as [old|] eqn:Hid.
        - destruct Hold as [Hre _]. rewrite Hre in Heq. by eapply He.
        - destruct Hold as [Hre Hfree]. rewrite Hre in Heq. by destruct (Hfree j s Hj). }
      intros i j ri rj Hi Hj Heq. destruct (decide (id = i)) as [<-|Hi1], (decide (id = j)) as [<-|Hj1]; try done.
      * rewrite lookup_insert_eq in Hi. rewrite lookup_insert_ne in Hj by done. simplify_eq. by eapply Hnew.
      * rewrite lookup_insert_eq in Hj. rewrite lookup_insert_ne in Hi by done. simplify_eq. symmetry. by eapply Hnew.
      * rewrite !lookup_insert_ne in * by done. by eapply He.
  - apply insert_account_Ok in Hq as (Hc & [[_ ->]|(Hid & Hu & ->)]); [done|].
    apply schema_accounts; [apply keeps_keys_insert| |done].
    apply map_Forall_insert_2; [|apply Hok]. split; [done|]. by apply bool_decide_eq_true.
Qed.

Lemma seeds_schema qs d d' : seeds qs d d' → schema_ok d → schema_ok d'.
Proof. induction 1 as [|e q qs d d1 d2 Hq _ IH]; [done|]. intros Hd. apply (seed_sql_schema e q) in Hd. rewrite Hq in Hd. auto. Qed.

Lemma provisioned_account password d d' id r :
  provisioned password d d' → accounts d' !! id = Some r →
  accounts d !! id = Some r ∨
  accounts d !! id = None ∧ ∃ u a t, (u, a) ∈ demo_accounts ∧ id = da_id a ∧
    r = mk_account_row (du_id u) (da_currency a) (da_balance a) t t.
Proof.
  intros Hp Hr. destruct (accounts d !! id) as [r0|] eqn:Hd.
  { apply (pv_kept _ _ _ Hp) in Hd. left. congruence. }
  right. split; [done|]. destruct (decide (id ∈ demo_account_ids)) as [Hin|Hout].
  - apply list_elem_of_fmap in Hin as ([u a] & -> & Hin). simpl in Hd.
    destruct (pv_opened _ _ _ Hp u a Hin Hd) as [t Ht]. exists u, a, t. simpl in Hr. by simplify_eq.
  - rewrite (pv_only _ _ _ Hp id Hd Hout) in Hr. done.
Qed.

Lemma demo_balance u a : (u, a) ∈ demo_accounts → 0 <= da_balance a <= MaxInt64.
Proof. intros Hin. apply list_elem_of_In in Hin. repeat (destruct Hin as [[= <- <-]|Hin]; [by vm_compute|]). destruct Hin. Qed.

Lemma provisioned_db_ok password d d' : provisioned password d d' → db_ok d → db_ok d'.
Proof.
  intros Hp [Hb Hkeys Hids Hpay]. split; rewrite ?(pv_transfers _ _ _ Hp); try done.
  intros id r Hr. destruct (provisioned_account _ _ _ _ _ Hp Hr) as [Hd|(_ & u & a & t & Hin & _ & ->)].
  - exact (Hb id r Hd).
  - by apply (demo_balance u).
Qed.

(** The opening balances, with those of the demo accounts that [d] does not have. *)
Definition openings (d : db) (opening : gmap string Z) : gmap string Z :=
  filter (λ kv, is_Some (accounts d !! kv.1)) opening
  ∪ list_to_map ((λ ua, (da_id ua.2, da_balance ua.2)) <$> demo_accounts).

Lemma demo_opening_lookup u a :
  (u, a) ∈ demo_accounts →
  (list_to_map ((λ ua, (da_id ua.2, da_balance ua.2)) <$> demo_accounts) : gmap string Z) !! da_id a = Some (da_balance a).
Proof. intros Hin. apply list_elem_of_In in Hin. repeat (destruct Hin as [[= <- <-]|Hin]; [by vm_compute|]). destruct Hin. Qed.

(** An account that does not exist has no entries. *)
Lemma no_entries d id : schema_ok d → accounts d !! id = None → entries_of id (bank_of d) = [].
Proof.
  intros Hok Hid. unfold entries_of. apply filter_none. apply Forall_forall. intros en Hen <-. simpl in Hen.
  apply list_elem_of_fmap in Hen as (r & -> & Hr). pose proof (ok_ledger _ Hok) as Hl.
  rewrite Forall_forall in Hl. destruct (Hl r Hr) as [_ Href]. unfold ledger_refs in Href. reflect.
  simpl in Hid. rewrite Hid in *. by match goal with H : is_Some None |- _ => destruct H end.
Qed.

Lemma provisioned_reconciles password d d' opening :
  provisioned password d d' → schema_ok d → reconciles opening (bank_of d) → reconciles (openings d opening) (bank_of d').
Proof.
  intros Hp Hok Hrec id acc Ha. simpl in Ha. rewrite lookup_fmap in Ha. apply fmap_Some in Ha as (r & Hr & ->).
  assert (entries_of id (bank_of d') = entries_of id (bank_of d)) as ->.
  { unfold entries_of. simpl. by rewrite (pv_ledger _ _ _ Hp). }
  unfold openings. destruct (provisioned_account _ _ _ _ _ Hp Hr) as [Hd|(Hd & u & a & t & Hin & -> & ->)].
  - apply lookup_union_Some_l, map_lookup_filter_Some. split; [|by eexists]. apply Hrec. simpl. by rewrite lookup_fmap, Hd.
  - rewrite lookup_union_r.
    + rewrite (demo_opening_lookup _ _ Hin), no_entries by done. simpl. f_equal. lia.
    + apply map_lookup_filter_None. right. intros z _. simpl. rewrite Hd. by intros [? ?].
Qed.

(** A demo user that was not there before is found by its e-mail address. *)
Lemma provisioned_login password d d' e u :
  provisioned password d d' → schema_ok d' → u ∈ demoUsers → users d !! du_id u = None →
  ∃ r, sql e (SelectUser (du_email u)) d' = (Ok (Some (du_id u, r)), d') ∧
    is_ok (CompareHashAndPassword (u_password_hash r) password) = true ∧ u_permissions r = demoPermissions.
Proof.
  intros Hp Hok Hu Hn. destruct (pv_users _ _ _ Hp u Hu) as (r & Hr & Hh & Hperm & Hemail). rewrite Hn in Hemail.
  exists r. split; [|done]. simpl. unfold select.
  assert (texts_ok [du_email u] = true) as -> by (members Hu ltac:(vm_compute; done)).
  f_equal. f_equal. destruct (find _ _) as [[i s]|] eqn:Hf.
  - apply find_some in Hf as [Hin Hl]. apply list_elem_of_In, elem_of_map_to_list in Hin. simpl in Hl. reflect.
    assert (i = du_id u) as -> by (eapply (ok_emails _ Hok); [exact Hin|exact Hr|by rewrite Hl, Hemail]).
    rewrite Hr in Hin. by simplify_eq.
  - pose proof (find_none _ _ Hf (du_id u, r)) as Hno. simpl in Hno.
    rewrite bool_decide_eq_true_2 in Hno by by rewrite Hemail.
    discriminate Hno. by apply list_elem_of_In, elem_of_map_to_list.
Qed.

End invariants.

(** ** The runs of [Demo] *)

Section demo_runs.
Context `{!Platform} `{!Bcrypt} `{!BcryptLaws} {S T : Type} `{!Pgx S T} `{!Execer T}.
Context (pool_db : S → db) (tx_db : T → db) `{!Pgx_documented pool_db tx_db} `{!Exec_documented tx_db}.

(** A loop whose body sends the statements [f x] for [x]. *)
Lemma for_range_seeds {A} (body : A → tx T unit) f l t t' :
  (∀ x t t', body x t = (Ok tt, t') → seeds (f x) (tx_db t) (tx_db t')) →
  for_range body l t = (Ok tt, t') → seeds (flat_map f l) (tx_db t) (tx_db t').
Proof.
  intros Hbody. revert t. induction l as [|x l IH]; simpl; intros t Hr.
  - injection Hr as <-. constructor.
  - apply tx_bind_Ok in Hr as ([] & t1 & Hx & Hr). eapply seeds_app; eauto.
Qed.

Lemma Exec_seeds f q t t' : map_err f (Exec q) t = (Ok tt, t') → seeds [q] (tx_db t) (tx_db t').
Proof. intros (e & He)%map_err_Ok%exec_ok. econstructor; [exact He|constructor]. Qed.

Lemma seed_user_seeds hash u t t' :
  seed_user hash u t = (Ok tt, t') → seeds (user_statements hash u) (tx_db t) (tx_db t').
Proof.
  unfold seed_user, user_statements. intros ([] & t1 & Hu & Ha)%tx_bind_Ok. apply Exec_seeds in Hu.
  apply (for_range_seeds _ (λ a, [InsertAccount (da_id a) (du_id u) (da_currency a) (da_balance a)])) in Ha.
  - rewrite flat_map_concat_map in Ha. rewrite <-(map_map _ (λ q, [q])) in Ha.
    assert (∀ l : list seed_stmt, concat (map (λ q, [q]) l) = l) as Hsing by (induction l; simpl; congruence).
    rewrite Hsing in Ha. by eapply (seeds_app [_]).
  - intros a t0 t0'. apply Exec_seeds.
Qed.

Lemma Demo_run password salt p :
  let '(res, p') := Demo (T:=T) password salt p in
  pool_db p' = pool_db p ∧ is_ok res = false ∨
  provisioned password (pool_db p) (pool_db p') ∧
  ∃ hash, seeds (demo_statements hash) (pool_db p) (pool_db p').
Proof.
  unfold Demo. destruct (HashPassword password salt) as [hash|err] eqn:Hh; [|by left].
  apply compare_generated in Hh.
  assert (∀ t t', tx_db t = pool_db p → for_range (seed_user hash) demoUsers t = (Ok tt, t') →
    provisioned password (pool_db p) (tx_db t') ∧ ∃ hash, seeds (demo_statements hash) (pool_db p) (tx_db t')) as Hfn.
  { intros t t' Ht Hr. apply (for_range_seeds _ (user_statements hash)) in Hr; [|intros; by apply seed_user_seeds].
    rewrite Ht in Hr. split; [by eapply seeds_provisioned|by eexists]. }
  destruct (BeginTxFunc _ p) as [[[]|err] p'] eqn:Hb.
  - apply (begin_ok (pool_db:=pool_db) (tx_db:=tx_db)) in Hb as (t & t' & Ht & Hr & ->). right. eauto.
  - apply (begin_err (pool_db:=pool_db) (tx_db:=tx_db)) in Hb as [[-> _]|(_ & t & t' & [] & Ht & Hr & ->)]; [by left|right; eauto].
Qed.

(** C20: seeding is safe on every start.  Whatever the driver does, the demo data is either all there
    or the database is as it was, and in the latter case [Demo] reports an error.  Accounts that
    exist keep their balance, users, transfers and entries of others are untouched, and the
    constraints of the schema hold again; the books still reconcile, with the opening balances
    of the accounts that are new; and a demo user that is new can be found by its address, with
    a hash that the password fits and the demo permissions. *)
Theorem demo_is_safe_on_every_start password salt p opening :
  schema_ok (pool_db p) → db_ok (pool_db p) → reconciles opening (bank_of (pool_db p)) →
  let '(res, p') := Demo (T:=T) password salt p in
  pool_db p' = pool_db p ∧ is_ok res = false ∨
  provisioned password (pool_db p) (pool_db p') ∧ schema_ok (pool_db p') ∧ db_ok (pool_db p') ∧
  reconciles (openings (pool_db p) opening) (bank_of (pool_db p')) ∧
  ∀ u e, u ∈ demoUsers → users (pool_db p) !! du_id u = None →
    ∃ r, sql e (SelectUser (du_email u)) (pool_db p') = (Ok (Some (du_id u, r)), pool_db p') ∧
      is_ok (CompareHashAndPassword (u_password_hash r) password) = true ∧ u_permissions r = demoPermissions.
Proof.
  intros Hok Hdb Hrec. pose proof (Demo_run password salt p) as Hrun.
  destruct (Demo password salt p) as [res p']. destruct Hrun as [?|(Hp & hash & Hs)]; [by left|right].
  pose proof (seeds_schema _ _ _ Hs Hok) as Hok'. split; [done|]. split; [done|].
  split; [by eapply provisioned_db_ok|]. split; [by eapply provisioned_reconciles|].
  intros u e Hu Hn. by eapply provisioned_login.
Qed.

End demo_runs.

(** The tables are well formed.  Every statement that the program can send, with any parameters
    and whether it succeeds or not, keeps all the constraints of the migrations: the CHECKs, the
    primary and unique keys, the unique e-mail addresses and the foreign keys. *)
Theorem statements_keep_schema `{!Platform} e d :
  schema_ok d →
  (∀ A (q : stmt A), schema_ok (sql e q d).2) ∧ (∀ q, schema_ok (seed_sql e q d).2).
Proof. intros Hok. split; intros; [by apply sql_keeps_schema|by apply seed_sql_schema]. Qed.

(** ** Witnesses *)

Definition empty_db : db := mk_db ∅ [] [] ∅.

Lemma empty_db_schema : schema_ok empty_db.
Proof. split; try done; try apply map_Forall_empty; constructor. Qed.

Definition empty_pool : pool := mk_pool empty_db [mk_script (mk_env 7 "t-1") [] Committed].

Lemma demo_is_safe_on_every_start_witness :
  ∃ r, accounts (p_db (Demo "demo-password" "salt" empty_pool).2) !! "acc-alice-pen" = Some r ∧ a_balance r = 100000000.
Proof.
  assert (db_ok empty_db) as Hdb by (split; try apply map_Forall_empty; constructor).
  assert (reconciles ∅ (bank_of empty_db)) as Hrec by (intros id a Ha; discriminate Ha).
  pose proof (demo_is_safe_on_every_start p_db c_db "demo-password" "salt" empty_pool ∅ empty_db_schema Hdb Hrec) as Hd.
  destruct (Demo "demo-password" "salt" empty_pool) as [res p'] eqn:Hrun.
  assert (is_ok res = true) as Hres by (change res with (res, p').1; rewrite <-Hrun; vm_compute; reflexivity).
  destruct Hd as [[_ Hno]|[Hp _]]; [congruence|].
  destruct (pv_opened _ _ _ Hp (mk_demoUser "user-alice" "alice@example.com"
              [mk_demoAccount "acc-alice-pen" "PEN" 100000000; mk_demoAccount "acc-alice-usd" "USD" 100000000])
              (mk_demoAccount "acc-alice-pen" "PEN" 100000000)) as [t Ht]; [by left|reflexivity|].
  eexists. split; [exact Ht|reflexivity].
Defined.

Lemma statements_keep_schema_witness :
  schema_ok (seed_sql (mk_env 7 "t-1") (UpsertUser "user-alice" "alice@example.com" "hash" []) empty_db).2.
Proof. apply statements_keep_schema. apply empty_db_schema. Defined.
