(* ===== verification/Migrations.v ===== *)
(** * Migrations

    The five versions of the tables in [internal/repository/migrations], what each [.up.sql] and
    [.down.sql] does to them and to the rows they hold, and the life of a database under them: a
    database that is only ever changed by migrations and by the statements of the program
    satisfies the constraints of its version at all times, so [Schema] is what the program finds.
    Indexes, which change no answer, are left out, except the unique ones, which are
    constraints. *)
From S2P Require Import Prelude GoStrings GoErrors Entities Json Database Schema Seed.

Section migrations.
Context `{!Platform}.

(** ** The tables of each version *)

(** [transfers] before [failure_reason] was added. *)
Record transfer_v1 := mk_transfer_v1 {
  t1_id : uuid;
  t1_user_id : string;
  t1_idempotency_key : uuid;
  t1_from_account_id : string;
  t1_to_account_id : string;
  t1_amount : Z;
  t1_currency : string;
  t1_description : string;
  t1_status : string;
  t1_original_request : json;
  t1_created_at : time;
  t1_updated_at : time }.

(** [accounts] before it had balances. *)
Record account_v2 := mk_account_v2 { a2_user_id : string }.

Inductive catalog :=
| V0
| V1 (transfers : list transfer_v1)
| V2 (transfers : list transfer_v1) (accounts : gmap string account_v2)
| V3 (transfers : list transfer_row) (accounts : gmap string account_row)
| V4 (transfers : list transfer_row) (accounts : gmap string account_row) (ledger_entries : list ledger_row)
| V5 (d : db).

Definition version (c : catalog) : nat :=
  match c with V0 => 0 | V1 _ => 1 | V2 _ _ => 2 | V3 _ _ => 3 | V4 _ _ _ => 4 | V5 _ => 5 end.

(** ** The migrations *)

Definition add_failure_reason (r : transfer_v1) : transfer_row :=
  mk_transfer_row (t1_id r) (t1_user_id r) (t1_idempotency_key r) (t1_from_account_id r) (t1_to_account_id r)
    (t1_amount r) (t1_currency r) (t1_description r) (t1_status r) None (t1_original_request r)
    (t1_created_at r) (t1_updated_at r).

Definition drop_failure_reason (r : transfer_row) : transfer_v1 :=
  mk_transfer_v1 (t_id r) (t_user_id r) (t_idempotency_key r) (t_from_account_id r) (t_to_account_id r)
    (t_amount r) (t_currency r) (t_description r) (t_status r) (t_original_request r)
    (t_created_at r) (t_updated_at r).

Definition add_balance (e : env) (r : account_v2) : account_row := mk_account_row (a2_user_id r) "PEN" 0 (now e) (now e).

Definition drop_balance (r : account_row) : account_v2 := mk_account_v2 (a_user_id r).

(** The constraints that a migration adds are checked on the rows that are there. *)
Definition balance_checks (r : account_row) : bool := currency_check (a_currency r) && (0 <=? a_balance r).

Definition all_rows {R} (p : R → bool) (m : gmap string R) : bool := forallb (λ kv, p kv.2) (map_to_list m).

(** [000001_create_transfers.up.sql], [000002_create_accounts.up.sql] and so on.  The body of each is
    one transaction: a migration that fails leaves the tables as they are. *)
Definition create_transfers : catalog := V1 [].

Definition create_accounts (transfers : list transfer_v1) : catalog := V2 transfers ∅.

Definition add_account_balances (e : env) (transfers : list transfer_v1) (accounts : gmap string account_v2) :
    result catalog :=
  let accounts' := add_balance e <$> accounts in
  if negb (all_rows balance_checks accounts') then Err check_violation
  else
    let transfers' := add_failure_reason <$> transfers in
    if negb (forallb (transfer_refs (mk_db accounts' transfers' [] ∅)) transfers') then Err foreign_key_violation
    else Ok (V3 transfers' accounts').

Definition create_ledger_entries (transfers : list transfer_row) (accounts : gmap string account_row) : catalog :=
  V4 transfers accounts [].

Definition create_users (transfers : list transfer_row) (accounts : gmap string account_row)
    (ledger_entries : list ledger_row) : result catalog :=
  let d := mk_db accounts transfers ledger_entries ∅ in
  if negb (all_rows (account_refs d) accounts) then Err foreign_key_violation else Ok (V5 d).

(** [000001_create_transfers.down.sql], [000002_create_accounts.down.sql] and so on. *)
Definition drop_transfers : catalog := V0.

Definition drop_accounts (transfers : list transfer_v1) : catalog := V1 transfers.

Definition drop_account_balances (transfers : list transfer_row) (accounts : gmap string account_row) : catalog :=
  V2 (drop_failure_reason <$> transfers) (drop_balance <$> accounts).

Definition drop_ledger_entries (transfers : list transfer_row) (accounts : gmap string account_row) : catalog :=
  V3 transfers accounts.

Definition drop_users (d : db) : catalog := V4 (transfers d) (accounts d) (ledger_entries d).

(** The next migration; [e] is the transaction it runs in. *)
Definition up (e : env) (c : catalog) : result catalog :=
  match c with
  | V0 => Ok create_transfers
  | V1 transfers => Ok (create_accounts transfers)
  | V2 transfers accounts => add_account_balances e transfers accounts
  | V3 transfers accounts => Ok (create_ledger_entries transfers accounts)
  | V4 transfers accounts ledger_entries => create_users transfers accounts ledger_entries
  | V5 _ => Err (External "no change")
  end.

(** The migration that undoes the last one. *)
Definition down (c : catalog) : result catalog :=
  match c with
  | V0 => Err (External "no change")
  | V1 _ => Ok drop_transfers
  | V2 transfers _ => Ok (drop_accounts transfers)
  | V3 transfers accounts => Ok (drop_account_balances transfers accounts)
  | V4 transfers accounts _ => Ok (drop_ledger_entries transfers accounts)
  | V5 d => Ok (drop_users d)
  end.

(** ** The constraints of each version *)

Record transfers_ok (P : transfer_row → Prop) (l : list transfer_row) : Prop := {
  tok_rows : Forall (λ r, transfers_check r = true ∧ P r) l;
  tok_keys : NoDup ((λ r, (t_user_id r, t_idempotency_key r)) <$> l);
  tok_ids : NoDup (t_id <$> l) }.

Definition account_v2_check (id : string) (r : account_v2) : bool :=
  btrim_nonempty id && btrim_nonempty (a2_user_id r).

Definition refs_in (accounts : gmap string account_row) (r : transfer_row) : Prop :=
  is_Some (accounts !! t_from_account_id r) ∧ is_Some (accounts !! t_to_account_id r).

Definition well_formed (c : catalog) : Prop :=
  match c with
  | V0 => True
  | V1 t => transfers_ok (λ _, True) (add_failure_reason <$> t)
  | V2 t a => transfers_ok (λ _, True) (add_failure_reason <$> t) ∧ map_Forall (λ id r, account_v2_check id r = true) a
  | V3 t a => transfers_ok (refs_in a) t ∧ map_Forall (λ id r, accounts_check id r = true) a
  | V4 t a l =>
    transfers_ok (refs_in a) t ∧ map_Forall (λ id r, accounts_check id r = true) a ∧
    Forall (λ r, ledger_check r = true ∧ ledger_refs (mk_db a t l ∅) r = true) l
  | V5 d => schema_ok d
  end.

(** ** What runs on a database *)

(** A step in the life of a database: a migration, a statement of the program at the version it is
    written for, or, at an older version, a change by an older program, of which nothing is known
    but that the constraints hold. *)
Inductive lives : catalog → catalog → Prop :=
| l_up e c c' : up e c = Ok c' → lives c c'
| l_down c c' : down c = Ok c' → lives c c'
| l_statement e {A} (q : stmt A) d : lives (V5 d) (V5 (sql e q d).2)
| l_seed e q d : lives (V5 d) (V5 (seed_sql e q d).2)
| l_older c c' : (version c < 5)%nat → version c' = version c → well_formed c' → lives c c'.

Definition upgrade (c c' : catalog) : Prop := ∃ e, up e c = Ok c'.

Definition no_rows : db := mk_db ∅ [] [] ∅.

(** No table has a row. *)
Definition is_empty (c : catalog) : bool :=
  match c with
  | V0 => true
  | V1 t => bool_decide (length t = 0%nat)
  | V2 t a => bool_decide (length t = 0%nat ∧ a = ∅)
  | V3 t a => bool_decide (length t = 0%nat ∧ a = ∅)
  | V4 t a l => bool_decide (length t = 0%nat ∧ a = ∅ ∧ length l = 0%nat)
  | V5 d => bool_decide (length (transfers d) = 0%nat ∧ accounts d = ∅ ∧ length (ledger_entries d) = 0%nat ∧ users d = ∅)
  end.

(** ** Every migration keeps the constraints of its version *)

Lemma no_rows_schema : schema_ok no_rows.
Proof. split; try done; try apply map_Forall_empty; constructor. Qed.

Lemma transfers_ok_impl (P Q : transfer_row → Prop) l :
  (∀ r, r ∈ l → P r → Q r) → transfers_ok P l → transfers_ok Q l.
Proof.
  intros Himp [Hr Hk Hi]. split; [|done..]. rewrite Forall_forall in Hr. apply Forall_forall.
  intros r Hin. destruct (Hr r Hin). auto.
Qed.

(** Dropping a column and adding it again changes no key and no check. *)
Lemma transfers_ok_redo P l : transfers_ok P l → transfers_ok (λ _, True) (add_failure_reason <$> (drop_failure_reason <$> l)).
Proof.
  intros [Hr Hk Hi]. split.
  - rewrite !Forall_fmap. eapply Forall_impl; [exact Hr|]. by intros r [Hc _].
  - by rewrite <-!list_fmap_compose.
  - by rewrite <-!list_fmap_compose.
Qed.

Lemma all_rows_spec {R} (p : R → bool) m : all_rows p m = true ↔ ∀ id r, m !! id = Some r → p r = true.
Proof.
  unfold all_rows. rewrite forallb_forall. split.
  - intros Hall id r Hr. apply (Hall (id, r)). by apply list_elem_of_In, elem_of_map_to_list.
  - intros Hall [id r] Hin%list_elem_of_In. apply elem_of_map_to_list in Hin. by eapply Hall.
Qed.

Lemma new_balances_pass e (a : gmap string account_v2) : all_rows balance_checks (add_balance e <$> a) = true.
Proof. apply all_rows_spec. intros id r Hr. apply lookup_fmap_Some in Hr as (r0 & <- & _). reflexivity. Qed.

(** What decides whether the third and the fifth migration pass. *)
Definition accounts_exist (t : list transfer_v1) (a : gmap string account_v2) : bool :=
  forallb (λ r, bool_decide (is_Some (a !! t1_from_account_id r) ∧ is_Some (a !! t1_to_account_id r))) t.

Lemma add_account_balances_spec e t a :
  add_account_balances e t a =
  if accounts_exist t a then Ok (V3 (add_failure_reason <$> t) (add_balance e <$> a)) else Err foreign_key_violation.
Proof.
  unfold add_account_balances. rewrite new_balances_pass. cbv zeta.
  assert (∀ t', forallb (transfer_refs (mk_db (add_balance e <$> a) t' [] ∅)) (add_failure_reason <$> t) = accounts_exist t a) as Hrefs.
  { intros t'. unfold accounts_exist. induction t as [|r l IH]; [done|]. rewrite fmap_cons. cbn [forallb]. rewrite IH. f_equal. unfold transfer_refs. simpl.
    apply bool_decide_ext. by rewrite !lookup_fmap, !fmap_is_Some. }
  rewrite Hrefs. by destruct (accounts_exist t a).
Qed.

Lemma create_users_spec t a l :
  create_users t a l = if bool_decide (a = ∅) then Ok (V5 (mk_db ∅ t l ∅)) else Err foreign_key_violation.
Proof.
  unfold create_users. case_bool_decide as Ha; [by subst|].
  destruct (all_rows _ a) eqn:Hall; [|done]. rewrite all_rows_spec in Hall.
  destruct (map_choose a Ha) as (id & r & Hr). specialize (Hall id r Hr). unfold account_refs in Hall. reflect.
  simpl in Hall. rewrite lookup_empty in Hall. by destruct Hall.
Qed.

Lemma up_keeps e c c' : well_formed c → up e c = Ok c' → well_formed c' ∧ version c' = S (version c).
Proof.
  destruct c as [|t|t a|t a|t a l|d]; simpl; intros Hok Hup; simplify_eq; simpl.
  - split; [|done]. split; [constructor|constructor..].
  - split; [|done]. split; [done|]. apply map_Forall_empty.
  - rewrite add_account_balances_spec in Hup. destruct (accounts_exist t a) eqn:Hex; simplify_eq. split; [|done].
    destruct Hok as [Ht Ha]. split.
    + revert Ht. apply transfers_ok_impl. intros r (r1 & -> & Hin)%list_elem_of_fmap _. unfold accounts_exist in Hex.
      rewrite forallb_forall in Hex. specialize (Hex r1 (proj1 (list_elem_of_In _ _) Hin)). reflect.
      unfold refs_in. simpl. by rewrite !lookup_fmap, !fmap_is_Some.
    + intros id r Hr. apply lookup_fmap_Some in Hr as (r0 & <- & Hr0). specialize (Ha id r0 Hr0).
      apply andb_true_iff in Ha as [Hid Hu]. unfold accounts_check. simpl. by rewrite Hid, Hu.
  - split; [|done]. destruct Hok as [Ht Ha]. split; [done|]. split; [done|constructor].
  - rewrite create_users_spec in Hup. case_bool_decide; simplify_eq. split; [|done].
    destruct Hok as ([Hr Hk Hi] & Ha & Hl). split; simpl; try done.
    eapply Forall_impl; [exact Hr|]. intros r [? ?]. split; [done|]. by apply bool_decide_eq_true.
Qed.

Lemma down_keeps c c' : well_formed c → down c = Ok c' → well_formed c' ∧ version c = S (version c').
Proof.
  destruct c as [|t|t a|t a|t a l|d]; simpl; intros Hok Hdown; simplify_eq; simpl; (split; [|done]).
  - done.
  - apply Hok.
  - destruct Hok as [Ht Ha]. split; [by eapply transfers_ok_redo|].
    intros id r Hr. apply lookup_fmap_Some in Hr as (r0 & <- & Hr0). specialize (Ha id r0 Hr0).
    unfold accounts_check in Ha. rewrite !andb_true_iff in Ha. apply andb_true_iff. simpl. tauto.
  - destruct Hok as (Ht & Ha & _). done.
  - destruct Hok as [Ha Hr Hk Hi Hl Hu He]. split; [|split; [|done]].
    + split; [|done..]. eapply Forall_impl; [exact Hr|]. intros r [? Href]. split; [done|].
      by apply bool_decide_eq_true in Href.
    + intros id r Hin. by destruct (Ha id r Hin).
Qed.

Lemma lives_keeps c c' : lives c c' → well_formed c → well_formed c'.
Proof.
  intros [e c1 c2 Hup|c1 c2 Hdown|e A q d|e q d|c1 c2 _ _ Hok] Hwf; [by eapply up_keeps|by eapply down_keeps|..|done].
  - by apply sql_keeps_schema.
  - by apply seed_sql_schema.
Qed.

(** C21: the tables are well formed for life.  Start from no tables; apply migrations in any order, up
    and down, and run statements of the program, with any parameters, as long as you like: the
    constraints of the version hold, and at version 5 all those that the statements rely on. *)
Theorem tables_are_well_formed c : rtc lives V0 c → well_formed c.
Proof.
  intros Hl. assert (∀ c0, rtc lives c0 c → well_formed c0 → well_formed c) as Hind; [|by eapply Hind].
  clear Hl. induction 1 as [|x y z Hs _ IH]; eauto using lives_keeps.
Qed.

(** ** Upgrades *)

Lemma up_empty e c c' : is_empty c = true → up e c = Ok c' → is_empty c' = true.
Proof.
  destruct c as [|t|t a|t a|t a l|d]; simpl; intros He Hup; simplify_eq; reflect; try done.
  - apply bool_decide_eq_true. auto.
  - destruct He as [Ht ->]. apply nil_length_inv in Ht as ->. by vm_compute in Hup; simplify_eq.
  - destruct He as [Ht ->]. apply bool_decide_eq_true. auto.
  - destruct He as (Ht & -> & Hl). rewrite create_users_spec in Hup. rewrite bool_decide_eq_true_2 in Hup by done.
    simplify_eq. by apply bool_decide_eq_true.
Qed.

(** With a row in any table there is an account, at the versions that have foreign keys. *)
Lemma rows_need_accounts t a l :
  well_formed (V4 t a l) → is_empty (V4 t a l) = false → a ≠ ∅.
Proof.
  simpl. intros ([Hr _ _] & _ & Hl) He ->. reflect. apply He. split; [|split; [done|]].
  - destruct t as [|r t]; [done|]. apply Forall_cons_1 in Hr as [(_ & [Hsome _]) _]. rewrite lookup_empty in Hsome. by destruct Hsome.
  - destruct l as [|r l]; [done|]. apply Forall_cons_1 in Hl as [(_ & Href) _]. unfold ledger_refs in Href. simpl in Href.
    rewrite lookup_empty, andb_false_r in Href. done.
Qed.

Lemma up_nonempty e c c' :
  well_formed c → is_empty c = false → up e c = Ok c' → is_empty c' = false ∧ (version c' < 5)%nat.
Proof.
  intros Hwf He Hup. destruct c as [|t|t a|t a|t a l|d]; simpl in He, Hup.
  - done.
  - simplify_eq. split; [|simpl; lia]. simpl. reflect. apply bool_decide_eq_false. tauto.
  - rewrite add_account_balances_spec in Hup. destruct (accounts_exist t a); simplify_eq. split; [|simpl; lia].
    simpl. reflect. apply bool_decide_eq_false. by rewrite length_fmap, fmap_empty_iff.
  - simplify_eq. split; [|simpl; lia]. simpl. reflect. apply bool_decide_eq_false. tauto.
  - rewrite create_users_spec in Hup. case_bool_decide as Ha; [|done]. by apply (rows_need_accounts t a l) in Ha.
  - done.
Qed.

Lemma upgrade_empty c d : is_empty c = true → rtc upgrade c (V5 d) → d = no_rows.
Proof.
  intros He Hup. remember (V5 d) as c' eqn:Hc. induction Hup as [|x y z [e Hs] _ IH]; [|by eauto using up_empty].
  subst. simpl in He. reflect. destruct He as (Ht & Ha & Hl & Hu). destruct d as [a t l u]. simpl in *.
  apply nil_length_inv in Ht as ->, Hl as ->. by subst.
Qed.

Lemma upgrade_nonempty c d : well_formed c → is_empty c = false → (version c < 5)%nat → ¬ rtc upgrade c (V5 d).
Proof.
  intros Hwf He Hv Hup. remember (V5 d) as c' eqn:Hc. revert Hwf He Hv Hc.
  induction Hup as [|x y z [e Hs] _ IH]; intros Hwf He Hv Hc; [subst; simpl in Hv; lia|].
  destruct (up_nonempty e x y Hwf He Hs) as [??]. apply IH; [by eapply up_keeps|done..].
Qed.

(** A migration passes or fails whatever transaction it runs in; the only failure is a foreign key. *)
Lemma up_decided c :
  (version c < 5)%nat → (∀ e, ∃ c', up e c = Ok c') ∨ (∀ e, up e c = Err foreign_key_violation).
Proof.
  intros Hv. destruct c as [|t|t a|t a|t a l|d]; simpl in *; try (left; by eexists); [..|lia].
  - setoid_rewrite add_account_balances_spec. destruct (accounts_exist t a); [left; by eexists|by right].
  - rewrite create_users_spec. case_bool_decide; [left; by eexists|by right].
Qed.

Lemma upgrade_to_5_empty c (e : env) :
  is_empty c = true → (version c < 5)%nat → rtc upgrade c (V5 no_rows).
Proof.
  intros He Hv. assert (∀ t a l, is_empty (V4 t a l) = true → rtc upgrade (V4 t a l) (V5 no_rows)) as H4.
  { intros t a l H4. simpl in H4. reflect. destruct H4 as (Ht & -> & Hl).
    apply nil_length_inv in Ht as ->, Hl as ->. apply rtc_once. by exists e. }
  assert (∀ t a, is_empty (V3 t a) = true → rtc upgrade (V3 t a) (V5 no_rows)) as H3.
  { intros t a H3. eapply rtc_l; [by exists e|]. apply H4. by apply (up_empty e _ _ H3). }
  assert (∀ t a, is_empty (V2 t a) = true → rtc upgrade (V2 t a) (V5 no_rows)) as H2.
  { intros t a H2. pose proof H2 as Ht. simpl in Ht. reflect. destruct Ht as [Ht ->]. apply nil_length_inv in Ht as ->.
    eapply rtc_l; [by exists e|]. by apply H3. }
  assert (∀ t, is_empty (V1 t) = true → rtc upgrade (V1 t) (V5 no_rows)) as H1.
  { intros t H1. eapply rtc_l; [by exists e|]. apply H2. by apply (up_empty e _ _ H1). }
  destruct c; [|by auto..|simpl in Hv; lia]. eapply rtc_l; [by exists e|]. by apply H1.
Qed.

(** A database with rows gets stuck. *)
Lemma upgrade_stuck c (e : env) :
  well_formed c → is_empty c = false → (version c < 5)%nat →
  ∃ c', rtc upgrade c c' ∧ ∀ e', up e' c' = Err foreign_key_violation.
Proof.
  remember (5 - version c)%nat as n eqn:Hn. revert c Hn. induction n as [|n IH]; intros c Hn Hwf He Hv; [lia|].
  destruct (up_decided c Hv) as [Hok|Hfk]; [|by exists c].
  destruct (Hok e) as [c' Hup]. destruct (up_nonempty e c c' Hwf He Hup) as [He' Hv'].
  destruct (up_keeps e c c' Hwf Hup) as [Hwf' Hver].
  destruct (IH c') as (c2 & Hr & Hf); [lia|done..|]. exists c2. split; [|done]. eapply rtc_l; [by exists e|done].
Qed.

(** C23: upgrading.  An empty database of any version is migrated to the empty tables of version 5
    and to nothing else.  A database that holds a row in any table is never migrated to version 5:
    an account or transfer from before makes the third or the fifth migration fail on the foreign
    key it adds, since [000005_create_users.up.sql] requires of every account a user in the table
    it has just created. *)
Theorem only_empty_databases_upgrade c (e : env) :
  well_formed c → (version c < 5)%nat →
  if is_empty c then ∀ d, rtc upgrade c (V5 d) ↔ d = no_rows
  else (∀ d, ¬ rtc upgrade c (V5 d)) ∧ ∃ c', rtc upgrade c c' ∧ ∀ e', up e' c' = Err foreign_key_violation.
Proof.
  intros Hwf Hv. destruct (is_empty c) eqn:He.
  - intros d. split; [by apply upgrade_empty|]. intros ->. by apply upgrade_to_5_empty.
  - split; [intros d; by apply upgrade_nonempty|by apply upgrade_stuck].
Qed.

(** ** Back and forth *)

(** What undoing the last migration and applying it again makes of the tables. *)
Definition forget (e : env) (c : catalog) : result catalog :=
  match c with
  | V0 => Err (External "no change")
  | V1 _ => Ok (V1 [])
  | V2 t _ => Ok (V2 t ∅)
  | V3 t a => Ok (V3 ((add_failure_reason ∘ drop_failure_reason) <$> t) ((add_balance e ∘ drop_balance) <$> a))
  | V4 t a _ => Ok (V4 t a [])
  | V5 d =>
    if bool_decide (accounts d = ∅) then Ok (V5 (mk_db ∅ (transfers d) (ledger_entries d) ∅))
    else Err foreign_key_violation
  end.

Lemma fmap_undo {A B} (f : A → B) (g : B → A) (l : list A) : (∀ x, g (f x) = x) → g <$> (f <$> l) = l.
Proof. intros Hgf. rewrite <-list_fmap_compose. rewrite (list_fmap_ext _ id) by (intros; apply Hgf). apply list_fmap_id. Qed.

(** C24: each down migration undoes its up migration exactly: the rows are as before.  The other way
    round rows are lost: applying a migration again after it was undone leaves the tables it
    creates empty and the columns it adds at their defaults (balances of zero, in PEN), and the
    fifth cannot be applied again once there are accounts. *)
Theorem migrations_undo_and_redo e c c' :
  (up e c = Ok c' → down c' = Ok c) ∧
  (well_formed c → down c = Ok c' → up e c' = forget e c).
Proof.
  split.
  - destruct c as [|t|t a|t a|t a l|d]; simpl; intros Hup; simplify_eq; try done.
    + rewrite add_account_balances_spec in Hup. case_match; simplify_eq. simpl. unfold drop_account_balances. do 2 f_equal.
      * apply fmap_undo. by intros [].
      * apply map_eq. intros id. rewrite !lookup_fmap. destruct (a !! id) as [[]|]; done.
    + rewrite create_users_spec in Hup. case_bool_decide; simplify_eq. done.
  - destruct c as [|t|t a|t a|t a l|d]; simpl; intros Hwf Hdown; simplify_eq; try done.
    + unfold drop_account_balances. simpl. rewrite add_account_balances_spec. destruct Hwf as [[Hr _ _] _].
      assert (accounts_exist (drop_failure_reason <$> t) (drop_balance <$> a) = true) as ->.
      { apply forallb_forall. intros r (r0 & -> & Hin)%list_elem_of_In%list_elem_of_fmap.
        rewrite Forall_forall in Hr. destruct (Hr r0 Hin) as (_ & Hf & Ht).
        apply bool_decide_eq_true. simpl. by rewrite !lookup_fmap, !fmap_is_Some. }
      by rewrite list_fmap_compose, map_fmap_compose.
    + unfold drop_users. simpl. by rewrite create_users_spec.
Qed.

End migrations.

(** ** Witnesses *)

Definition day (n : Z) : env := mk_env n "t-1".

(** Migrated from nothing, with a user and an account. *)
Definition first_user : seed_stmt := UpsertUser "user-alice" "alice@example.com" "hash" [].
Definition first_account : seed_stmt := InsertAccount "acc-alice" "user-alice" "PEN" 100.

Definition opened : db := (seed_sql (day 2) first_account (seed_sql (day 1) first_user no_rows).2).2.

Lemma opened_reached : rtc lives V0 (V5 opened).
Proof.
  apply (rtc_l _ _ (V1 [])); [by apply (l_up (day 1))|]. apply (rtc_l _ _ (V2 [] ∅)); [by apply (l_up (day 1))|].
  apply (rtc_l _ _ (V3 [] ∅)); [by apply (l_up (day 1))|]. apply (rtc_l _ _ (V4 [] ∅ [])); [by apply (l_up (day 1))|].
  apply (rtc_l _ _ (V5 no_rows)); [by apply (l_up (day 1))|].
  eapply rtc_l; [apply (l_seed (day 1) first_user)|]. eapply rtc_l; [apply (l_seed (day 2) first_account)|]. apply rtc_refl.
Qed.

Lemma opened_ok : well_formed (V5 opened).
Proof. repeat apply seed_sql_schema. split; try done; try apply map_Forall_empty; constructor. Qed.

Lemma tables_are_well_formed_witness :
  schema_ok opened ∧ a_balance <$> accounts opened !! "acc-alice" = Some 100.
Proof. split; [|reflexivity]. exact (tables_are_well_formed (V5 opened) opened_reached). Defined.

(** A version 4 database with one account. *)
Definition one_account : catalog :=
  V4 [] {[ "acc-alice" := mk_account_row "user-alice" "PEN" 100 1 1 ]} [].

Lemma one_account_ok : well_formed one_account.
Proof.
  split; [split; constructor|]. split; [|constructor]. apply map_Forall_singleton. reflexivity.
Qed.

Lemma only_empty_databases_upgrade_witness :
  up (day 3) one_account = Err foreign_key_violation ∧ ∀ d, ¬ rtc upgrade one_account (V5 d).
Proof.
  split; [reflexivity|].
  exact (proj1 (only_empty_databases_upgrade one_account (day 3) one_account_ok (le_n 5))).
Defined.

Lemma migrations_undo_and_redo_witness :
  down (V5 opened) = Ok (V4 (transfers opened) (accounts opened) (ledger_entries opened)) ∧
  up (day 3) (V4 (transfers opened) (accounts opened) (ledger_entries opened)) = Err foreign_key_violation.
Proof.
  split; [reflexivity|].
  exact (proj2 (migrations_undo_and_redo (day 3) (V5 opened) (drop_users opened)) opened_ok eq_refl).
Defined.
