(* ===== verification/Sessions.v ===== *)
(** * Sessions

    Several requests of one client in a row: log in, then use the token; create a transfer, then
    read it.  Each response is computed by [NewHandler] over the services and the pool, so these
    theorems put the handlers, the middleware, the tokens, the repositories and the schema
    together; by [HttpConcurrency] they also hold when other requests overlap. *)
From S2P Require Import Prelude GoStrings GoErrors Entities Json Database Schema BankSpec Contracts TransferService Repository RepositoryCorrect Programs Locking LockingLocal LockingCorrect Serializability Outcome Driver TransferTheorems Reads Mime JsonText Http Auth AuthTheorems HttpApi HttpCorrect Server HttpTheorems Routes HttpConcurrency Seed Migrations.

(** ** Stored transfers stay as they are *)

Section rows.
Context `{!Platform} `{!PlatformLaws}.
Implicit Types (d : db) (t : session) (row : transfer_row).

(** No statement changes or removes a row of [transfers]. *)
Lemma sql_keeps_rows e {A} (q : stmt A) d : transfers d ⊆ transfers (sql e q d).2.
Proof.
  destruct q; simpl; try (unfold select; by case_match).
  - by destruct (update_balances e vs d) as [[n|err] d'] eqn:Hu;
      [apply update_balances_Ok in Hu as (_ & _ & ->)|unfold update_balances in Hu; repeat (case_hyp Hu; try by simplify_eq)].
  - destruct (insert_transfer e a d) as [[o|err] d'] eqn:Hi.
    + apply insert_transfer_Ok in Hi as (payload & _ & _ & _ & [(? & _ & -> & _)|(_ & -> & _)]); simpl; set_solver.
    + unfold insert_transfer in Hi. repeat (case_hyp Hi; try by simplify_eq).
  - destruct (insert_ledger e vs d) as [[[]|err] d'] eqn:Hi; [by apply insert_ledger_Ok in Hi as (rows & _ & _ & _ & ->)|].
    unfold insert_ledger in Hi. repeat (case_hyp Hi; try by simplify_eq).
Qed.

(** What every statement keeps, a transaction of [Create] keeps. *)
Section kept.
Context (R : db → Prop) (sql_keeps : ∀ e A (q : stmt A) d, R d → R (sql e q d).2).

Lemma query_keeps {A} (q : stmt A) t : R (c_db t) → R (c_db (query q t).2).
Proof.
  intros Ht. simpl. pose proof (sql_keeps (c_env t) A q (c_db t) Ht) as Hq.
  destruct (c_faults t) as [|[msg|] fs]; [|done|]; by destruct (sql (c_env t) q (c_db t)).
Qed.

Lemma denote_keeps {A} (p : prog A) t : R (c_db t) → R (c_db (denote p t).2).
Proof.
  revert t. induction p as [res|B q k IH]; intros t Ht; [done|]. cbn [denote].
  pose proof (query_keeps q t Ht) as Hq. destruct (query q t) as [a t1]. by apply IH.
Qed.

Lemma Create_keeps u key r (p : pool) : R (p_db p) → R (p_db (Create u key r p).2).
Proof.
  intros Hp. unfold Create. case_bool_decide; [done|]. destruct (CreateTransfer.Validate r); [|done].
  unfold map_err, WithinTx, Store. simpl. destruct (p_scripts p) as [|sc scs]; [done|].
  rewrite <-denote_create. set (t0 := mk_session _ _ _). pose proof (denote_keeps (create_prog u key r) t0 Hp) as Hd.
  destruct (denote _ t0) as [[x|err] t]; [destruct (sc_fate sc)|]; done.
Qed.

End kept.

Lemma Create_keeps_rows u key r (p : pool) : transfers (p_db p) ⊆ transfers (p_db (Create u key r p).2).
Proof.
  apply (Create_keeps (λ d, transfers (p_db p) ⊆ transfers d)); [|done].
  intros e A q d Hd. etransitivity; [exact Hd|apply sql_keeps_rows].
Qed.

(** The transfer that is answered is a row, column by column. *)
Lemma query_transfer_row q t tr o t' :
  query_transfer q t = (Ok (tr, o), t') → ∃ row, tr = transfer_of_row row ∧
    (sql (c_env t) q (c_db t)) = (Ok (Some row), c_db t').
Proof.
  intros (row & Hq & -> & _)%query_transfer_Ok. exists row. split; [done|]. simpl in Hq.
  destruct (c_faults t) as [|[msg|] fs]; [|done|]; destruct (sql (c_env t) q (c_db t)); by simplify_eq.
Qed.

Lemma CreateIdempotent_row n t tr c t' :
  pg_CreateIdempotent n t = (Ok (tr, c), t') →
  ∃ row, row ∈ transfers (c_db t') ∧ tr = transfer_of_row row ∧ t_user_id row = NewTransfer.UserID n.
Proof.
  unfold pg_CreateIdempotent. destruct (parseKey _) as [k|]; [|done].
  destruct (query_transfer _ t) as [[[tr0 o]|err] t1] eqn:Hq.
  - intros [= <- <- <-]. apply query_transfer_row in Hq as (row & -> & Hi). exists row.
    apply insert_transfer_Ok in Hi as (payload & _ & _ & _ & [(? & ? & _)|([= ->] & -> & _)]); [done|].
    split; [simpl; set_solver|done].
  - destruct (negb _); [done|]. destruct (query_transfer _ t1) as [[[tr0 o]|err'] t2] eqn:Hq2; [|done].
    unfold replay. case_bool_decide; [|done]. intros [= <- <- <-]. apply query_transfer_row in Hq2 as (row & -> & Hs).
    simpl in Hs. unfold select in Hs. destruct (texts_ok _); [|done]. injection Hs as Hrow Hdb.
    apply find_key_Some in Hrow as (Hin & Hu & _). exists row. by rewrite <-Hdb.
Qed.

Lemma create_tx_row u key r t tr c t' :
  create_tx u key r t = (Ok (tr, c), t') →
  ∃ row, row ∈ transfers (c_db t') ∧ tr = transfer_of_row row ∧ t_user_id row = u.
Proof.
  unfold create_tx. intros (accs & t1 & _ & Hc)%tx_bind_Ok. apply tx_bind_Ok in Hc as ([[st reason] h] & t2 & _ & Hc).
  apply tx_bind_Ok in Hc as ([result created] & t3 & Hi & Hc). apply CreateIdempotent_row in Hi as (row & Hrow & Htr & Hu).
  exists row. destruct (_ || _); [by apply mret_Ok in Hc as [[= <- <-] <-]|].
  destruct (h !! _) as [a|]; [|by apply fail_Ok in Hc]. destruct (h !! _) as [b|]; [|by apply fail_Ok in Hc].
  apply tx_bind_Ok in Hc as ([] & t4 & Hs & Hc). apply tx_bind_Ok in Hc as ([] & t5 & Ha & Hc).
  apply mret_Ok in Hc as [[= <- <-] <-]. split; [|done].
  apply tx_bind_Ok in Hs as (n & t4' & Hq%map_err_Ok & Hs). destruct (negb _); [by apply fail_Ok in Hs|].
  apply mret_Ok in Hs as [_ ->]. apply map_err_Ok in Ha.
  assert (∀ e A (q : stmt A) d, row ∈ transfers d → row ∈ transfers (sql e q d).2) as Hkeep
    by (intros e A q d; apply sql_keeps_rows).
  match type of Hq with query ?q _ = _ => pose proof (query_keeps _ Hkeep q t3 Hrow) as Hsaved; rewrite Hq in Hsaved end.
  match type of Ha with query ?q _ = _ => pose proof (query_keeps _ Hkeep q t4 Hsaved) as Happended; rewrite Ha in Happended end.
  done.
Qed.

Lemma Create_row u key r (p p' : pool) tr c :
  Create u key r p = (Ok (tr, c), p') →
  ∃ row, row ∈ transfers (p_db p') ∧ tr = transfer_of_row row ∧ t_user_id row = u.
Proof.
  unfold Create. case_bool_decide; [done|]. destruct (CreateTransfer.Validate r); [|done].
  intros Hc%map_err_Ok. unfold WithinTx, Store in Hc. simpl in Hc. destruct (p_scripts p) as [|sc scs]; [done|].
  destruct (create_tx _ _ _ _) as [[x|err] t] eqn:Ht; [|done]. destruct (sc_fate sc); [|done..].
  injection Hc as -> <-. by apply create_tx_row in Ht.
Qed.

(** A stored transfer, looked up by its ID: its owner finds it, nobody else does. *)
Lemma select_by_id d row u :
  db_ok d → row ∈ transfers d →
  find (λ row', bool_decide (t_id row' = t_id row) && (t_user_id row' == u)) (transfers d) =
  if t_user_id row == u then Some row else None.
Proof.
  intros Hok Hin. destruct (find _ _) as [row'|] eqn:Hf.
  - apply find_some in Hf as [Hin'%list_elem_of_In Hp]. reflect.
    rewrite (transfer_unique d row' row) in * by done. by rewrite bool_decide_eq_true_2.
  - case_bool_decide; [|done]. apply (find_none _ _) with (x := row) in Hf; [|by apply list_elem_of_In].
    by rewrite !bool_decide_eq_true_2 in Hf.
Qed.

Lemma pool_transfer_get u d row env :
  db_ok d → row ∈ transfers d → plain u = true →
  Get u (uuid_out (t_id row)) (mk_pool d [no_fault env]) =
  (if t_user_id row == u then Ok (transfer_of_row row) else Err (Sentinel TransferErrNotFound), mk_pool d []).
Proof.
  intros Hok Hin Hu. unfold Get, map_err. simpl. unfold pg_FindByID. rewrite UUID_Scan_out.
  unfold query_transfer, mbind, tx_bind, lift. simpl. unfold select, texts_ok. simpl. rewrite Hu. simpl.
  rewrite select_by_id by done. pose proof (db_payloads _ Hok) as Hp. rewrite Forall_forall in Hp.
  case_bool_decide; [|done]. simpl. by rewrite Hp.
Qed.

End rows.

Section sessions.
Context `{!Platform} `{!PlatformLaws} `{!Jwt} `{!JwtLaws} `{!Bcrypt}.
Context (tokens : TokenService) (salt : string) (lg : level → bool) (timeout : time).
Context (format_time : time → string) (redirect_status : Z) (OpenAPISpec : string).
Implicit Types (e : readings) (r : request context) (d : db) (sc : script).

Abbreviation server := (deployed tokens salt lg timeout).
Abbreviation serve_one := (serve_alone tokens salt lg timeout format_time redirect_status OpenAPISpec).
Abbreviation serve_all := (serve_in_turn tokens salt lg timeout format_time redirect_status OpenAPISpec).

(** ** A request and its answer *)

(** The request reaches the endpoint, with this ID in its path. *)
Record sent_to r (ep : endpoint) (value : string) : Prop := {
  to_clean : lookup_path r = EscapedPath r;
  to_route : route_table (EscapedPath r) = Some (ep, value);
  to_method : match_method (Method r) ep = true }.

(** It carries this token. *)
Definition bearer r (raw : string) : Prop :=
  ∃ v scheme, Values "Authorization" (Header r) = [v] ∧ Fields v = [scheme; raw] ∧ EqualFold scheme "Bearer" = true.

(** Status and body. *)
Definition shown (a : response) : option Z * list chunk := (r_status a, r_body a).

(** The world in which the handler of a request starts. *)
Definition handler_world sc e r d : world (statusRecorder response) (bench pool) :=
  inner_world e r (mk_world new_response (mk_bench (mk_pool d [sc]) []) []).

Definition handler_request (value : string) e r : request context := SetPathValue value (inner_request server e r).

(** A handler that returns one JSON value. *)
Lemma shown_json sc e r d d' ep value st body hs w' :
  sent_to r ep value →
  handler_of format_time OpenAPISpec server (logger_of server) e ep (handler_request value e r) (handler_world sc e r d)
    = (Returned, w') →
  writer w' = writeJSON st body (set_headers hs (writer (handler_world sc e r d))) →
  p_db (repo (store w')) = d' →
  shown (serve_one sc e r d).1 = (Some st, [Encoded body]) ∧ (serve_one sc e r d).2 = d'.
Proof.
  intros [Hclean Hroute Hm] Hrun Hw <-. unfold serve_alone.
  rewrite NewHandler_run, inner_run_table, Hclean, bool_decide_eq_true_2, Hroute, Hm by done. cbn [negb].
  change (inner_world e r (mk_world new_response (mk_bench (mk_pool d [sc]) []) [])) with (handler_world sc e r d).
  change (SetPathValue value (inner_request server e r)) with (handler_request value e r).
  rewrite Hrun, logged_store.
  destruct (recorder_writeJSON st body hs (writer (handler_world sc e r d))) as [Hst Hb]; [done..|].
  rewrite <-Hw in Hst, Hb. rewrite logged_writer. unfold shown. cbn [writer fst snd]. by rewrite Hst, Hb.
Qed.

(** The two guards, for a request that carries a token. *)
Lemma guards_token {W} `{!ResponseWriter W} p e r r' raw (next : handler W (bench pool) context) w :
  bearer r raw → Header r' = Header r →
  Authenticate tokens (at_token e) (RequirePermission p next) r' w =
  match Verify tokens raw (at_token e) with
  | Ok c =>
    if Claims.HasPermission c p then next (WithContext (with_claims c (Context r')) r') w
    else (Returned, on_writer (writeJSON 403 (error_body "forbidden")) w)
  | Err _ =>
    (Returned, on_writer (λ wr, writeJSON 401 (error_body "unauthorized") (set_header "WWW-Authenticate" "Bearer" wr)) w)
  end.
Proof.
  intros (v & scheme & Hv & Hf & Hb) Hh. unfold Authenticate, RequirePermission. rewrite Hh, Hv, Hf, Hb.
  destruct (Verify tokens raw (at_token e)) as [c|]; [|done]. simpl. by destruct (Claims.HasPermission c p).
Qed.

(** A token while it lives, and afterwards. *)
Definition current (issued now : time) : bool :=
  (NewNumericDate issued <=? now) && (now <? NewNumericDate issued + AccessTokenTTL).

Lemma Verify_issued u ps issued now raw :
  forallb ValidString (u :: issuer tokens :: audience tokens :: ps) = true →
  Issue tokens u ps issued = Ok raw →
  Verify tokens raw now =
  if current issued now then Ok (issued_claims tokens u ps issued) else Err (Sentinel ErrInvalidToken).
Proof.
  intros Ht Hi. unfold current. destruct (_ && _) eqn:Hc.
  - apply (issued_verifies tokens u ps issued raw now); [done..|]. reflect. done.
  - destruct (Verify tokens raw now) as [c|err] eqn:Hver; [|by apply Verify_Err in Hver as ->].
    apply (issued_verifies tokens u ps issued raw now c Ht Hi) in Hver as [[Hlo Hhi] _].
    apply andb_false_iff in Hc as [Hc|Hc]; reflect; lia.
Qed.

(** ** Logging in *)

Lemma find_user d id row email :
  schema_ok d → users d !! id = Some row → lower email = lower (u_email row) →
  find (λ kv, lower (u_email kv.2) == lower email) (map_to_list (users d)) = Some (id, row).
Proof.
  intros Hok Hu He. destruct (find _ _) as [[i r]|] eqn:Hf.
  - apply find_some in Hf as [Hin%list_elem_of_In%elem_of_map_to_list Heq]. reflect. simpl in Heq.
    assert (i = id) as -> by (by eapply (ok_emails d Hok); [..|rewrite Heq]). congruence.
  - apply (find_none _ _) with (x := (id, row)) in Hf; [|by apply list_elem_of_In, elem_of_map_to_list].
    simpl in Hf. rewrite He in Hf. by rewrite bool_decide_eq_true_2 in Hf.
Qed.

Lemma pool_login ls email pw now d env cs id row :
  schema_ok d → users d !! id = Some row → lower (TrimSpace email) = lower (u_email row) →
  plain (TrimSpace email) = true → TrimSpace email ≠ "" → pw ≠ "" →
  is_ok (CompareHashAndPassword (u_password_hash row) pw) = true →
  ∃ cs', Login ls email pw now (mk_bench (mk_pool d [no_fault env]) cs) =
    (Issue (Auth.tokens ls) id (u_permissions row) now, mk_bench (mk_pool d []) cs').
Proof.
  intros Hok Hu He Hplain Hem Hpw Hcmp. unfold Login. rewrite !bool_decide_eq_false_2 by done. cbn [orb].
  unfold ask, FindByEmail, pg_users, pg_FindByEmail, query, pool_querier. cbn [repo p_scripts no_fault sc_faults sc_env p_db sql].
  unfold select, texts_ok. cbn [forallb]. rewrite Hplain. cbn [andb].
  rewrite (find_user d id row) by done. unfold compare. cbn [User.PasswordHash User.ID User.Permissions].
  destruct (CompareHashAndPassword _ pw); [by eexists|done].
Qed.

(** ** Listing accounts *)

Lemma pool_account_list u d env :
  plain u = true →
  AccountService.List u (mk_pool d [no_fault env]) =
  (Ok (scanAccount <$> select_accounts (λ _ row, a_user_id row == u) d), mk_pool d []).
Proof.
  intros Hu. unfold AccountService.List. simpl. unfold pg_ListByUser, mbind, tx_bind, map_err. simpl.
  unfold select, texts_ok. simpl. by rewrite Hu.
Qed.

Lemma accounts_listed u d :
  plain u = true →
  let l := scanAccount <$> select_accounts (λ _ row, a_user_id row == u) d in
  (∀ a, a ∈ l ↔ Account.UserID a = u ∧ stored_account d a) ∧ Sorted collate (Account.ID <$> l) ∧ NoDup (Account.ID <$> l).
Proof.
  intros Hu. pose proof (pool_account_list u d (mk_env 0 zero_uuid) Hu) as Hl.
  apply (pg_list_by_user p_db) in Hl. naive_solver.
Qed.

Definition accounts_body (l : list Account.t) : json := JObject [("accounts", JArray (map (account_json format_time) l))].

Lemma serve_list d env e r u ps issued raw :
  sent_to r ListAccounts "" → bearer r raw → plain u = true →
  forallb ValidString (u :: issuer tokens :: audience tokens :: ps) = true →
  Issue tokens u ps issued = Ok raw →
  shown (serve_one (no_fault env) e r d).1 =
  (if current issued (at_token e) then
     if Claims.HasPermission (issued_claims tokens u ps issued) PermissionAccountsRead then
       (Some 200, [Encoded (accounts_body (scanAccount <$> select_accounts (λ _ row, a_user_id row == u) d))])
     else (Some 403, [Encoded (error_body "forbidden")])
   else (Some 401, [Encoded (error_body "unauthorized")])) ∧
  (serve_one (no_fault env) e r d).2 = d.
Proof.
  intros Hto Hb Hu Ht Hi. set (w0 := handler_world (no_fault env) e r d). set (r' := handler_request "" e r).
  pose proof (guards_token PermissionAccountsRead e r r' raw
                (listAccounts format_time (logger_of server) (Accounts server)) w0 Hb eq_refl) as Hg.
  rewrite (Verify_issued u ps issued _ raw Ht Hi) in Hg.
  destruct (current issued (at_token e)).
  2: { eapply (shown_json _ e r d d ListAccounts "" 401 (error_body "unauthorized") [("WWW-Authenticate", "Bearer")]); [done|exact Hg|done|done]. }
  set (c := issued_claims tokens u ps issued) in *.
  destruct (Claims.HasPermission c PermissionAccountsRead).
  2: { eapply (shown_json _ e r d d ListAccounts "" 403 (error_body "forbidden") []); [done|exact Hg|done|done]. }
  unfold listAccounts in Hg at 2. unfold calling in Hg.
  change (as_List (Accounts server) (Context (WithContext (with_claims c (Context r')) r'))
            (subject_of (WithContext (with_claims c (Context r')) r')) (store w0))
    with (serving (ask (AccountService.List u)) (mk_bench (mk_pool d [no_fault env]) [])) in Hg.
  unfold serving, ask in Hg. cbn [repo] in Hg. rewrite pool_account_list in Hg by done.
  eapply (shown_json _ e r d d ListAccounts "" 200 _ [("Cache-Control", "no-store")]); [done|exact Hg|done|done].
Qed.

(** ** A session *)

(** The user [id] is stored with this row, and these credentials fit it. *)
Record credentials d (id : string) (row : user_row) (email pw : string) : Prop := {
  cr_stored : users d !! id = Some row;
  cr_email : lower (TrimSpace email) = lower (u_email row);
  cr_plain : plain (TrimSpace email) = true;
  cr_given : TrimSpace email ≠ "" ∧ pw ≠ "";
  cr_password : is_ok (CompareHashAndPassword (u_password_hash row) pw) = true }.

Lemma serve_login d env e r id row email pw raw :
  schema_ok d → credentials d id row email pw → sent_to r LogIn "" →
  (decodeJSON r new_response).1 = Some (loginRequest.mk email pw) →
  Issue tokens id (u_permissions row) (at_token e) = Ok raw →
  shown (serve_one (no_fault env) e r d).1 = (Some 200, [Encoded (login_json raw)]) ∧ (serve_one (no_fault env) e r d).2 = d.
Proof.
  intros Hok [Hu He Hplain [Hem Hpw] Hcmp] Hto Hd Hi.
  set (w0 := handler_world (no_fault env) e r d). set (r' := handler_request "" e r).
  destruct (pool_login (NewLoginService tokens salt) email pw (at_token e) d env [] id row) as [cs' Hlog]; [done..|].
  assert (login (logger_of server) (LoginOf server) (at_token e) r' w0 =
          (Returned, on_writer (λ wr, writeJSON 200 (login_json raw) (set_header "Cache-Control" "no-store" wr))
                       (with_store (mk_bench (mk_pool d []) cs') w0))) as Hrun.
  { unfold login. set (w1 := on_writer _ w0).
    destruct (decodeJSON (T:=loginRequest.t) r' (writer w1)) as [[req|] wr] eqn:Hdec;
      rewrite (decodeJSON_value r r' new_response (writer w1)), Hdec in Hd by done; [|done].
    injection Hd as ->. apply decodeJSON_Some in Hdec as (-> & _). unfold calling.
    match goal with |- context [au_Login (LoginOf server) ?ctx ?t ?m ?p ?b] =>
      change (au_Login (LoginOf server) ctx t m p b) with
        (serving (Login (NewLoginService tokens salt) email pw (at_token e)) (mk_bench (mk_pool d [no_fault env]) [])) end.
    unfold serving. rewrite Hlog. cbn [Auth.tokens NewLoginService]. by rewrite Hi. }
  eapply (shown_json _ e r d d LogIn "" 200 _ [("Cache-Control", "no-store")]); [done|exact Hrun|done|done].
Qed.

(** C14: a session, end to end.  A stored user who posts the credentials to [/auth/login] is answered
    200 with a token, and that token then works: for fifteen minutes from the second of the login,
    [GET /accounts] with it is answered 200 with exactly the accounts of this user, each once, in
    the order of their IDs, provided that the user may read accounts (otherwise 403); before
    and after, 401.  Neither request changes the database. *)
Theorem login_opens_a_session d env1 e1 r1 id row email pw raw :
  schema_ok d → credentials d id row email pw → sent_to r1 LogIn "" →
  (decodeJSON r1 new_response).1 = Some (loginRequest.mk email pw) →
  Issue tokens id (u_permissions row) (at_token e1) = Ok raw →
  forallb ValidString (id :: issuer tokens :: audience tokens :: u_permissions row) = true → plain id = true →
  shown (serve_one (no_fault env1) e1 r1 d).1 = (Some 200, [Encoded (login_json raw)]) ∧
  (serve_one (no_fault env1) e1 r1 d).2 = d ∧
  ∃ l, (∀ a, a ∈ l ↔ Account.UserID a = id ∧ stored_account d a) ∧
    Sorted collate (Account.ID <$> l) ∧ NoDup (Account.ID <$> l) ∧
    ∀ env2 e2 r2, sent_to r2 ListAccounts "" → bearer r2 raw →
      shown (serve_one (no_fault env2) e2 r2 d).1 =
      (if current (at_token e1) (at_token e2) then
         if bool_decide (PermissionAccountsRead ∈ u_permissions row) then (Some 200, [Encoded (accounts_body l)])
         else (Some 403, [Encoded (error_body "forbidden")])
       else (Some 401, [Encoded (error_body "unauthorized")])) ∧
      (serve_one (no_fault env2) e2 r2 d).2 = d.
Proof.
  intros Hok Hcr Hto Hd Hi Ht Hplain. destruct (serve_login d env1 e1 r1 id row email pw raw) as [Hshown Hdb]; [done..|].
  split; [done|]. split; [done|]. destruct (accounts_listed id d Hplain) as (Hl & Hsorted & Hnd).
  exists (scanAccount <$> select_accounts (λ _ row, a_user_id row == id) d). split; [done|]. split; [done|]. split; [done|].
  intros env2 e2 r2 Hto2 Hb. destruct (serve_list d env2 e2 r2 id (u_permissions row) (at_token e1) raw) as [-> ->]; [done..|].
  split; [|done]. destruct (current _ _); [|done].
  assert (Claims.HasPermission (issued_claims tokens id (u_permissions row) (at_token e1)) PermissionAccountsRead
          = bool_decide (PermissionAccountsRead ∈ u_permissions row)) as ->; [|done].
  apply eq_bool_prop_intro. rewrite !Is_true_true, HasPermission_spec, bool_decide_eq_true. simpl. naive_solver.
Qed.

(** ** Creating a transfer and reading it *)

Lemma serve_alone_call sc e r d u key req :
  transfer_call tokens e r = Some (u, key, req) →
  serve_one sc e r d =
  let '(res, p) := Create u key req (mk_pool d [sc]) in (create_answer format_time e r res, p_db p).
Proof.
  intros Hcall. unfold serve_alone. destruct (Create u key req (mk_pool d [sc])) as [res p'] eqn:Hcr.
  destruct (handler_call tokens salt lg timeout format_time redirect_status OpenAPISpec e r
              (mk_bench (mk_pool d [sc]) []) u key req res p' Hcall Hcr) as [Hw Hs].
  destruct (NewHandler _ _ _ _ _ _ _) as [x w']. simpl in *. by rewrite Hw, Hs.
Qed.

Lemma transfer_call_int64 e r u key req :
  transfer_call tokens e r = Some (u, key, req) → is_int64 (CreateTransfer.Amount req).
Proof.
  unfold transfer_call. intros Hc. repeat (case_hyp Hc; try discriminate).
  destruct (decodeJSON r new_response) as [[req'|] wr] eqn:Hd; [|discriminate Hc]. simpl in Hc. injection Hc as _ _ <-.
  apply decodeJSON_Some in Hd as (_ & rest & Hd & _). by eapply Decode_int64.
Qed.

(** No request spoils the rows or changes one. *)
Lemma serve_one_keeps sc e r d :
  db_ok d → db_ok (serve_one sc e r d).2 ∧ transfers d ⊆ transfers (serve_one sc e r d).2.
Proof.
  intros Hok. destruct (transfer_call tokens e r) as [[[u key] req]|] eqn:Hcall.
  - rewrite (serve_alone_call sc e r d u key req Hcall). pose proof (transfer_call_int64 _ _ _ _ _ Hcall) as Hz.
    pose proof (Create_keeps_rows u key req (mk_pool d [sc])) as Hrows.
    destruct (Create u key req (mk_pool d [sc])) as [[[tr c]|err] p'] eqn:Hcr; (split; [|done]).
    + by apply (TransferTheorems.create_answer p_db c_db) in Hcr as [? _].
    + by apply (TransferTheorems.create_error p_db c_db) in Hcr as [? _].
  - rewrite serve_alone_no_job with (env := sc_env sc); [done|]. unfold job_of. by rewrite Hcall.
Qed.

(** Nor does it break a constraint. *)
Lemma serve_one_schema sc e r d : schema_ok d → schema_ok (serve_one sc e r d).2.
Proof.
  intros Hok. destruct (transfer_call tokens e r) as [[[u key] req]|] eqn:Hcall.
  - rewrite (serve_alone_call sc e r d u key req Hcall).
    pose proof (Create_keeps schema_ok (λ ev A q d, sql_keeps_schema ev q d) u key req (mk_pool d [sc]) Hok) as Hc.
    by destruct (Create u key req (mk_pool d [sc])).
  - rewrite serve_alone_no_job with (env := sc_env sc); [done|]. unfold job_of. by rewrite Hcall.
Qed.

Lemma serve_all_schema rs d : schema_ok d → schema_ok (serve_all rs d).2.
Proof.
  revert d. induction rs as [|[[sc e] r] rs IH]; intros d Hok; [done|]. simpl.
  pose proof (serve_one_schema sc e r d Hok) as Hok1. destruct (serve_alone _ _ _ _ _ _ _ sc e r d) as [a d1].
  specialize (IH d1 Hok1). by destruct (serve_in_turn _ _ _ _ _ _ _ rs d1).
Qed.

Lemma serve_all_keeps rs d : db_ok d → db_ok (serve_all rs d).2 ∧ transfers d ⊆ transfers (serve_all rs d).2.
Proof.
  revert d. induction rs as [|[[sc e] r] rs IH]; intros d Hok; [done|]. simpl.
  destruct (serve_one_keeps sc e r d Hok) as [Hok1 Hsub]. destruct (serve_alone _ _ _ _ _ _ _ sc e r d) as [a d1]. simpl in *.
  destruct (IH d1 Hok1) as [Hok2 Hsub2]. destruct (serve_in_turn _ _ _ _ _ _ _ rs d1) as [as_ d2]. simpl in *.
  split; [done|]. by etransitivity.
Qed.

Lemma serve_get d env e r row raw c :
  db_ok d → row ∈ transfers d → sent_to r GetTransfer (uuid_out (t_id row)) → bearer r raw →
  Verify tokens raw (at_token e) = Ok c → Claims.HasPermission c PermissionTransfersRead = true →
  plain (Claims.Subject c) = true →
  shown (serve_one (no_fault env) e r d).1 =
  (if t_user_id row == Claims.Subject c then (Some 200, [Encoded (transfer_json format_time (transfer_of_row row))])
   else (Some 404, [Encoded (error_body "transfer not found")])) ∧
  (serve_one (no_fault env) e r d).2 = d.
Proof.
  intros Hok Hin Hto Hb Hv Hperm Hu. set (w0 := handler_world (no_fault env) e r d). set (r' := handler_request (uuid_out (t_id row)) e r).
  pose proof (guards_token PermissionTransfersRead e r r' raw
                (getTransfer format_time (logger_of server) (Transfers server)) w0 Hb eq_refl) as Hg.
  rewrite Hv, Hperm in Hg. unfold getTransfer in Hg at 2. unfold calling in Hg.
  change (ts_Get (Transfers server) (Context (WithContext (with_claims c (Context r')) r'))
            (subject_of (WithContext (with_claims c (Context r')) r'))
            (PathValue (WithContext (with_claims c (Context r')) r')) (store w0))
    with (serving (ask (Get (Claims.Subject c) (uuid_out (t_id row)))) (mk_bench (mk_pool d [no_fault env]) [])) in Hg.
  unfold serving, ask in Hg. cbn [repo] in Hg. rewrite pool_transfer_get in Hg by done.
  destruct (t_user_id row == Claims.Subject c).
  - eapply (shown_json _ e r d d GetTransfer _ 200 _ [("Cache-Control", "no-store")]); [done|exact Hg|done|done].
  - eapply (shown_json _ e r d d GetTransfer _ 404 _ []); [done|exact Hg|done|done].
Qed.

(** C13: what was posted can be read, by its sender alone.  When [POST /transfers] is answered with a
    transfer, new or replayed, the response shows it, and from then on, whatever requests are
    served in between, [GET /transfers/{id}] of its ID is answered 200 with the very same body to
    the user who made it, if the token grants [transfers:read], and 404 to every other user. *)
Theorem posted_transfer_is_served d sc1 e1 r1 u key req tr created rs :
  db_ok d → transfer_call tokens e1 r1 = Some (u, key, req) →
  (Create u key req (mk_pool d [sc1])).1 = Ok (tr, created) →
  let '(a1, d1) := serve_one sc1 e1 r1 d in
  let d2 := (serve_all rs d1).2 in
  shown a1 = (Some (transferStatusCode tr created), [Encoded (transfer_json format_time tr)]) ∧
  ∀ env2 e2 r2 raw c, sent_to r2 GetTransfer (Transfer.ID tr) → bearer r2 raw →
    Verify tokens raw (at_token e2) = Ok c → Claims.HasPermission c PermissionTransfersRead = true →
    plain (Claims.Subject c) = true →
    shown (serve_one (no_fault env2) e2 r2 d2).1 =
    (if u == Claims.Subject c then (Some 200, [Encoded (transfer_json format_time tr)])
     else (Some 404, [Encoded (error_body "transfer not found")])) ∧
    (serve_one (no_fault env2) e2 r2 d2).2 = d2.
Proof.
  intros Hok Hcall Hcr. pose proof (serve_one_keeps sc1 e1 r1 d Hok) as [Hok1 _].
  rewrite (serve_alone_call sc1 e1 r1 d u key req Hcall) in *.
  destruct (Create u key req (mk_pool d [sc1])) as [res p'] eqn:Hrun. simpl in Hcr, Hok1. subst res.
  apply Create_row in Hrun as (row & Hin & -> & Hu). destruct (serve_all_keeps rs (p_db p') Hok1) as [Hok2 Hsub].
  split.
  - unfold shown, HttpConcurrency.create_answer, create_writes, created_response.
    match goal with |- context [writeJSON ?st ?b ?w] =>
      assert (∃ hs rec, w = set_headers hs rec ∧ wroteHeader rec = false ∧ r_status (under rec) = None ∧ r_body (under rec) = [])
        as (hs & rec & -> & ? & ? & ?) end.
    { set (rec := mk_statusRecorder _ _ _ _ _). destruct created.
      - by exists [("Cache-Control", "no-store")], rec.
      - by exists [("Cache-Control", "no-store"); ("Idempotent-Replayed", "true")], rec. }
    match goal with |- context [writeJSON ?st ?b ?w] => destruct (recorder_writeJSON st b hs rec) as [-> ->]; [done..|] end. done.
  - intros env2 e2 r2 raw c Hto Hb Hv Hperm Hplain. rewrite <-Hu. apply (serve_get _ env2 e2 r2 row raw c); auto.
Qed.

End sessions.

(** ** Witnesses *)

Definition client_permissions : list Permission :=
  [PermissionAccountsRead; PermissionTransfersRead; PermissionTransfersCreate].

(** Alice and Bob with an account each. *)
Definition session_db : db :=
  foldl (λ d q, (seed_sql (day 1) q d).2) no_rows
    [ UpsertUser "alice" "alice@example.com" "hash of secret-1" client_permissions;
      UpsertUser "bob" "bob@example.com" "hash of secret-2" client_permissions;
      InsertAccount "acc-alice" "alice" "PEN" 100; InsertAccount "acc-bob" "bob" "PEN" 5 ].

Lemma session_db_schema : schema_ok session_db.
Proof. repeat apply seed_sql_schema. apply no_rows_schema. Qed.

Definition alice_row : user_row := mk_user_row "alice@example.com" "hash of secret-1" client_permissions 1.

Lemma alice_credentials : credentials session_db "alice" alice_row " Alice@example.com" "secret-1".
Proof. split; [vm_compute; reflexivity..|split; [vm_compute; discriminate|discriminate]|vm_compute; reflexivity]. Qed.

Definition login_post : request context :=
  mk_request context "POST" "/auth/login" "/auth/login" "" "" {[ "Content-Type" := ["application/json"] ]}
    (mk_reader (json_text (JObject [("email", JString " Alice@example.com"); ("password", JString "secret-1")])) EOF) no_context.

Definition alice_raw : string :=
  match Issue sample_tokens "alice" client_permissions sample_now with Ok raw => raw | Err _ => "" end.

Definition get_with (raw path : string) : request context :=
  mk_request context "GET" path path "" "" {[ "Authorization" := ["Bearer " +:+ raw] ]} (mk_reader "" EOF) no_context.

(** A minute later. *)
Definition minute_later : readings :=
  mk_readings (sample_now + 60 * Second) (sample_now + 60 * Second) (sample_now + 60 * Second) (sample_now + 60 * Second)
    (sample_now + 61 * Second) (sample_now + 61 * Second) (repeat Ascii.zero 8).

Abbreviation sample_serve :=
  (serve_alone sample_tokens "salt" (λ _, true) (10 * Second) plain_time 301 "").

Lemma login_opens_a_session_witness :
  r_status (sample_serve (no_fault (day 2)) minute_later (get_with alice_raw "/accounts") session_db).1 = Some 200.
Proof.
  destruct (login_opens_a_session sample_tokens "salt" (λ _, true) (10 * Second) plain_time 301 "" session_db (day 2)
              sample_readings login_post "alice" alice_row " Alice@example.com" "secret-1" alice_raw)
    as (_ & _ & l & _ & _ & _ & Hlist).
  - exact session_db_schema.
  - exact alice_credentials.
  - split; vm_compute; reflexivity.
  - vm_compute. reflexivity.
  - vm_compute. reflexivity.
  - vm_compute. reflexivity.
  - vm_compute. reflexivity.
  - destruct (Hlist (day 2) minute_later (get_with alice_raw "/accounts")) as [Hshown _].
    + split; vm_compute; reflexivity.
    + exists ("Bearer " +:+ alice_raw), "Bearer". split; [vm_compute; reflexivity|]. split; vm_compute; reflexivity.
    + apply (f_equal fst) in Hshown. unfold shown in Hshown. cbn [fst] in Hshown. rewrite Hshown.
      vm_compute. reflexivity.
Defined.

(** Bob asks for the transfer that Alice has made. *)
Definition sample_posted : db := (sample_serve (no_fault (mk_env 7 "t-1")) sample_readings sample_post sample_db).2.

Definition bob_raw : string :=
  match Issue sample_tokens "bob" client_permissions sample_now with Ok raw => raw | Err _ => "" end.

Lemma posted_transfer_is_served_witness :
  r_status (sample_serve (no_fault (day 9)) minute_later (get_with bob_raw "/transfers/t-1") sample_posted).1 = Some 404.
Proof.
  pose proof (posted_transfer_is_served sample_tokens "salt" (λ _, true) (10 * Second) plain_time 301 "" sample_db
                (no_fault (mk_env 7 "t-1")) sample_readings sample_post "alice" "k-1" sample_request sample_transfer true []
                sample_db_ok) as Hp.
  assert (transfer_call sample_tokens sample_readings sample_post = Some ("alice", "k-1", sample_request)) as Hcall
    by (vm_compute; reflexivity).
  specialize (Hp Hcall). assert ((Create "alice" "k-1" sample_request (mk_pool sample_db [no_fault (mk_env 7 "t-1")])).1
    = Ok (sample_transfer, true)) as Hcr by (vm_compute; reflexivity).
  specialize (Hp Hcr). unfold sample_posted. destruct (sample_serve _ _ sample_post sample_db) as [a1 d1].
  destruct Hp as [_ Hget].
  destruct (Hget (day 9) minute_later (get_with bob_raw "/transfers/t-1") bob_raw
              (issued_claims sample_tokens "bob" client_permissions sample_now)) as [Hshown _].
  - split; vm_compute; reflexivity.
  - exists ("Bearer " +:+ bob_raw), "Bearer". split; [vm_compute; reflexivity|]. split; vm_compute; reflexivity.
  - vm_compute. reflexivity.
  - vm_compute. reflexivity.
  - vm_compute. reflexivity.
  - exact (f_equal fst Hshown).
Defined.
