(* ===== verification/Startup.v ===== *)
(** * The process

    [cmd/api]: [main], [run] and [healthcheck], with [NewPool] and [Migrate] of
    [internal/repository] that [run] calls.  What lies outside the repository (the pgx pool, the
    migrations library, signals and the HTTP server) is a parameter, a [Host]: its operations act
    on a state of their own.  The process records the calls it makes of them and its log, which
    is what the theorems speak of. *)
From S2P Require Import Prelude GoStrings GoErrors Entities Json Database Schema BankSpec Contracts TransferService Repository RepositoryCorrect Programs Locking LockingCorrect Outcome Driver TransferTheorems Reads Mime JsonText Http Auth HttpApi HttpCorrect AuthTheorems Server HttpTheorems Config Seed.

(** ** Calls and the process *)

Inductive call :=
| Notify | Stop
| OpenDB | WithInstance | NewMigrate | Up | Version | CloseDB
| NewWithConfig | PingPool | ClosePool | SeedData
| Listen | Shutdown | CloseServer.

#[global] Instance call_eq_dec : EqDecision call.
Proof. solve_decision. Defined.

(** A call, and the error it returned. *)
Record event := mk_event { ev_call : call; ev_err : option error }.

Record process {M : Type} := mk_process {
  host : M;
  calls : list event;
  output : list entry }.
Arguments process M : clear implicits.
Arguments mk_process {M} host calls output.

(** ** What lies outside the repository *)

(** [http.Server]; durations are in nanoseconds. *)
Record http_server {H : Type} := mk_http_server {
  Addr : string;
  Handler : H;
  ReadHeaderTimeout : Z;
  ReadTimeout : Z;
  WriteTimeout : Z;
  IdleTimeout : Z }.
Arguments http_server H : clear implicits.
Arguments mk_http_server {H} Addr Handler ReadHeaderTimeout ReadTimeout WriteTimeout IdleTimeout.

Class Host `{!Platform} (M T : Type) := {
  (** golang-migrate and [database/sql] *)
  source : Type; conn_config : Type; sql_db : Type; db_driver : Type; migrator : Type;
  iofs_New : result source;
  pgx_ParseConfig : string → result conn_config;
  stdlib_OpenDB : conn_config → M → sql_db * M;
  pgxmigrate_WithInstance : sql_db → tx M db_driver;
  migrate_NewWithInstance : source → db_driver → tx M migrator;
  migrate_Up : migrator → tx M unit;
  migrate_Version : migrator → tx M Z;
  db_Close : sql_db → M → M;
  (** pgxpool *)
  pool_config : Type; pool_handle : Type;
  pgxpool_ParseConfig : string → result pool_config;
  set_MaxConns : Z → pool_config → pool_config;
  pgxpool_NewWithConfig : pool_config → tx M pool_handle;
  pool_ping : pool_handle → tx M unit;
  pool_Close : pool_handle → M → M;
  pool_Pgx : pool_handle → Pgx M T;
  pool_query : pool_handle → querier M;
  tx_query :: querier T;
  tx_exec :: Execer T;
  (** [ListenAndServe] in its goroutine until the first of its error and a signal; the error that
      it returns after a signal; [Shutdown] within a time; [Close] *)
  serve_until {H} : http_server H → M → option error * M;
  serve_result : M → error * M;
  server_Shutdown : Z → tx M unit;
  server_Close : M → M }.

(** ** Calling, and deferred calls *)

Section process.
Context {M : Type}.
Implicit Types (s : process M).

Definition with_host (m : M) s : process M := mk_process m (calls s) (output s).

Definition err_of {A} (res : result A) : option error := match res with Ok _ => None | Err err => Some err end.

Definition did (c : call) (err : option error) s : process M := mk_process (host s) (calls s ++ [mk_event c err]) (output s).

Definition perform {A} (c : call) (op : tx M A) : tx (process M) A := λ s,
  let '(res, m) := op (host s) in (res, did c (err_of res) (with_host m s)).

(** A call without an error. *)
Definition perform_ (c : call) (op : M → M) : process M → process M := λ s, did c None (with_host (op (host s)) s).

(** [defer f()] *)
Definition deferring {A} (f : process M → process M) (m : tx (process M) A) : tx (process M) A := λ s,
  let '(res, s') := m s in (res, f s').

(** [logger.Info(message, ...)] and [logger.Error] *)
Definition log_to (l : logger) (e : entry) s : process M :=
  if l (log_level e) then mk_process (host s) (calls s) (output s ++ [e]) else s.

Definition info (l : logger) (message : string) (attrs : list (string * attr)) : tx (process M) unit := λ s,
  (Ok tt, log_to l (mk_entry Info message attrs) s).

End process.

(** ** [migrate.go] and [pool.go] *)

Section run.
Context `{!Platform} `{!Jwt} `{!Bcrypt} {M T : Type} `{!Host M T}.

Definition open_db (connConfig : conn_config) : tx (process M) sql_db := λ s,
  let '(db, m) := stdlib_OpenDB connConfig (host s) in (Ok db, did OpenDB None (with_host m s)).

(** [m.Up()]; that there was nothing to apply is no error. *)
Definition apply_migrations (m : migrator) : tx (process M) unit := λ s,
  match perform Up (migrate_Up m) s with
  | (Err err, s') => if negb (Is err ErrNoChange) then (Err (Errorf "apply migrations: %w" err), s') else (Ok tt, s')
  | (Ok _, s') => (Ok tt, s')
  end.

Definition Migrate (databaseURL : string) : tx (process M) Z :=
  source ← map_err (Errorf "open embedded migrations: %w") (lift iofs_New);
  connConfig ← map_err (λ _, New "DATABASE_URL is invalid") (lift (pgx_ParseConfig databaseURL));
  db ← open_db connConfig;
  deferring (perform_ CloseDB (db_Close db))
    (driver ← map_err (Errorf "prepare migration driver: %w") (perform WithInstance (pgxmigrate_WithInstance db));
     m ← map_err (Errorf "prepare migrations: %w") (perform NewMigrate (migrate_NewWithInstance source driver));
     _ ← apply_migrations m;
     map_err (Errorf "read migration version: %w") (perform Version (migrate_Version m))).

(** The ping of a new pool, which is closed when it fails. *)
Definition ping_new (pool : pool_handle) : tx (process M) pool_handle := λ s,
  match perform PingPool (pool_ping pool) s with
  | (Err err, s') => (Err (Errorf "ping database: %w" err), perform_ ClosePool (pool_Close pool) s')
  | (Ok _, s') => (Ok pool, s')
  end.

Definition NewPool (connectionString : string) (maxConns : Z) : tx (process M) pool_handle :=
  if TrimSpace connectionString == "" then fail (New "DATABASE_URL is required")
  else
    match pgxpool_ParseConfig connectionString with
    | Err _ => fail (New "DATABASE_URL is invalid")
    | Ok config =>
      let config := if 0 <? maxConns then set_MaxConns maxConns config else config in
      pool ← map_err (Errorf "create pool: %w") (perform NewWithConfig (pgxpool_NewWithConfig config));
      ping_new pool
    end.

(** ** [main.go] *)

(** [slog.Level] *)
Definition level_value (lv : level) : Z :=
  match lv with Debug => -4 | Info => 0 | Warn => 4 | Error => 8 end.

(** A logger with the given minimum level. *)
Definition min_level (n : Z) : logger := λ lv, n <=? level_value lv.

(** Salts that bcrypt draws, and the parameters of the handler. *)
Context (login_salt demo_salt : string) (format_time : time → string) (redirect_status : Z) (OpenAPISpec : string).

(** The handler over the services on a pool. *)
Definition handler_on (pool : pool_handle) (tokens : TokenService) (l : logger) (timeout : Z) :
    readings → handler response (bench M) context :=
  NewHandler format_time redirect_status OpenAPISpec
    (@server_dependencies _ _ _ M T (pool_Pgx pool) _ (pool_query pool) (Build_Pinger M (pool_ping pool))
       tokens login_salt l timeout).

(** After a signal: [stop()], [Shutdown], and the error that the server left. *)
Definition shut_down (l : logger) (shutdownTimeout : Z) : tx (process M) unit := λ s,
  let '(_, s) := info l "shutting down server" [] (did Stop None s) in
  match perform Shutdown (server_Shutdown shutdownTimeout) s with
  | (Err err, s') => (Err err, perform_ CloseServer server_Close s')
  | (Ok _, s') =>
    let '(err, m) := serve_result (host s') in
    let s' := with_host m s' in
    if negb (Is err ErrServerClosed) then (Err err, s') else (Ok tt, s')
  end.

(** The goroutine, and the [select] on its error and the signal. *)
Definition listen {H} (server : http_server H) : tx (process M) (option error) := λ s,
  let '(outcome, m) := serve_until server (host s) in (Ok outcome, did Listen outcome (with_host m s)).

Definition serve_http {H} (l : logger) (shutdownTimeout : Z) (server : http_server H) : tx (process M) unit :=
  _ ← info l "starting server" [("addr", AString (Addr server))];
  outcome ← listen server;
  match outcome with
  | Some err => fail err
  | None => shut_down l shutdownTimeout
  end.

(** [run] from [signal.NotifyContext] on, which defers [stop]. *)
Definition run_with (cfg : Config.Config) (l : logger) (tokens : TokenService) : tx (process M) unit :=
  deferring (did Stop None)
    (_ ← (if RunMigrations cfg
          then version ← Migrate (DatabaseURL cfg);
               info l "database schema up to date" [("version", AInt version)]
          else mret tt);
     pool ← NewPool (DatabaseURL cfg) (DBMaxConns cfg);
     deferring (perform_ ClosePool (pool_Close pool))
       (_ ← (if SeedDemoData cfg
             then _ ← perform SeedData (@Demo M T (pool_Pgx pool) _ _ (DemoPassword cfg) demo_salt);
                  info l "demo data ready" []
             else mret tt);
        serve_http l (ShutdownTimeout cfg)
          (mk_http_server (HTTPAddr_ cfg) (handler_on pool tokens l (Config.RequestTimeout cfg))
             (5 * Second) (10 * Second) (15 * Second) (60 * Second)))).

Definition run (cfg : Config.Config) (l : logger) : tx (process M) unit := λ s,
  match NewTokenService (JWTSecret cfg) (JWTIssuer cfg) (JWTAudience cfg) with
  | Err err => (Err err, s)
  | Ok tokens => run_with cfg l tokens (did Notify None s)
  end.

(** ** [healthcheck.go] *)

(** [http.NewRequestWithContext] parses the URL; [probe] sends the [GET] and gives the status. *)
Context (parse_url : string → option error) (probe : string → M → result Z * M).

Definition health_url (getenv : string → string) : string :=
  let addr := HTTPAddr getenv in
  let addr := if String.prefix ":" addr then "127.0.0.1" +:+ addr else addr in
  "http://" +:+ addr +:+ "/health".

(** The exit code; what it prints to standard error is left out. *)
Definition healthcheck (getenv : string → string) : M → Z * M := λ m,
  let url := health_url getenv in
  match parse_url url with
  | Some _ => (1, m)
  | None =>
    match probe url m with
    | (Err _, m') => (1, m')
    | (Ok status, m') => if negb (status =? 200) then (1, m') else (0, m')
    end
  end.

(** [main]: the exit code of the process. *)
Definition main (args : list string) (getenv : string → string) : process M → Z * process M := λ s,
  if bool_decide (args !! 1%nat = Some "healthcheck") then
    let '(code, m) := healthcheck getenv (host s) in (code, with_host m s)
  else
    match Load getenv with
    | (cfg, []) =>
      let l := min_level (LogLevel cfg) in
      match run cfg l s with
      | (Err err, s') => (1, log_to l (mk_entry Error "server stopped" [("error", AError err)]) s')
      | (Ok _, s') => (0, s')
      end
    | (_, errs) => (1, log_to (min_level 0) (mk_entry Error "invalid configuration" [("error", AError (Join errs))]) s)
    end.

End run.

(** ** The order of the calls *)

Definition good (c : call) : event := mk_event c None.

(** A checker of the calls: every database handle and every pool that is opened is closed again,
    the last one first, and each is used only while it is open. *)
Fixpoint well_bracketed (opened : list call) (tr : list event) : bool :=
  match tr with
  | [] => bool_decide (opened = [])
  | mk_event c err :: tr' =>
    match c with
    | OpenDB => well_bracketed (match err with None => CloseDB :: opened | Some _ => opened end) tr'
    | NewWithConfig => well_bracketed (match err with None => ClosePool :: opened | Some _ => opened end) tr'
    | CloseDB | ClosePool => bool_decide (head opened = Some c) && well_bracketed (tail opened) tr'
    | WithInstance | NewMigrate | Up | Version => bool_decide (head opened = Some CloseDB) && well_bracketed opened tr'
    | PingPool | SeedData | Listen => bool_decide (head opened = Some ClosePool) && well_bracketed opened tr'
    | Notify | Stop | Shutdown | CloseServer => well_bracketed opened tr'
    end
  end.

(** The migrations were applied, or there was nothing to apply. *)
Definition up_succeeded (up : option error) : Prop := up = None ∨ ∃ err, up = Some err ∧ Is err ErrNoChange = true.

(** The calls of a migration, where [m.Up()] returned [up] and no other call an error. *)
Definition migrated (up : option error) : list event :=
  [good OpenDB; good WithInstance; good NewMigrate; mk_event Up up; good Version; good CloseDB].

(** The calls before the server listens. *)
Definition startup (cfg : Config.Config) (up : option error) : list event :=
  good Notify :: (if RunMigrations cfg then migrated up else [])
  ++ [good NewWithConfig; good PingPool]
  ++ (if SeedDemoData cfg then [good SeedData] else []).

(** The calls of a server that stops because of a signal, with nothing left open. *)
Definition graceful : list event := [good Listen; good Stop; good Shutdown; good ClosePool; good Stop].

Definition silent (tr : list event) : Prop := Forall (λ ev, ev_call ev ≠ Listen) tr.

(** Calls that leave the brackets as they are. *)
Definition neutral (opened : list call) (tr : list event) : Prop :=
  ∀ rest, well_bracketed opened (tr ++ rest) = well_bracketed opened rest.

Lemma neutral_nil opened : neutral opened [].
Proof. by intros rest. Qed.

Lemma neutral_app opened tr1 tr2 : neutral opened tr1 → neutral opened tr2 → neutral opened (tr1 ++ tr2).
Proof. intros H1 H2 rest. by rewrite <-app_assoc, H1, H2. Qed.

(** *** What a computation calls, for each of its results *)

Section emits.
Context {M : Type}.
Implicit Types (s : process M).

Definition emits {A} (m : tx (process M) A) (P : result A → list event → Prop) : Prop :=
  ∀ s, let '(r, s') := m s in ∃ tr, calls s' = calls s ++ tr ∧ P r tr.

Lemma emits_weaken {A} (m : tx (process M) A) (P Q : result A → list event → Prop) :
  emits m P → (∀ r tr, P r tr → Q r tr) → emits m Q.
Proof. intros Hm HPQ s. specialize (Hm s). destruct (m s) as [r s']. destruct Hm as (tr & ? & ?). eauto. Qed.

Lemma emits_bind {A B} (m : tx (process M) A) (k : A → tx (process M) B) P Q (R : result B → list event → Prop) :
  emits m P → (∀ a, emits (k a) (Q a)) →
  (∀ e tr, P (Err e) tr → R (Err e) tr) →
  (∀ a tr1 r tr2, P (Ok a) tr1 → Q a r tr2 → R r (tr1 ++ tr2)) →
  emits (m ≫= k) R.
Proof.
  intros Hm Hk He Ho s. specialize (Hm s). unfold mbind, tx_bind.
  destruct (m s) as [[a|e] s1]; destruct Hm as (tr1 & Hs1 & HP); [|by eauto].
  specialize (Hk a s1). destruct (k a s1) as [r s2]. destruct Hk as (tr2 & Hs2 & HQ).
  exists (tr1 ++ tr2). rewrite Hs2, Hs1, app_assoc. eauto.
Qed.

Lemma emits_deferring {A} f c (m : tx (process M) A) P (R : result A → list event → Prop) :
  (∀ s, calls (f s) = calls s ++ [good c]) → emits m P → (∀ r tr, P r tr → R r (tr ++ [good c])) → emits (deferring f m) R.
Proof.
  intros Hf Hm HR s. specialize (Hm s). unfold deferring. destruct (m s) as [r s']. destruct Hm as (tr & Hs & HP).
  exists (tr ++ [good c]). rewrite Hf, Hs, app_assoc. auto.
Qed.

Lemma log_to_calls l e s : calls (log_to l e s) = calls s.
Proof. unfold log_to. by destruct (l _). Qed.

Lemma emits_info l message attrs : emits (info l message attrs) (λ r tr, r = Ok tt ∧ tr = []).
Proof. intros s. simpl. exists []. by rewrite log_to_calls, app_nil_r. Qed.

End emits.

(** *** The calls of each part *)

Section parts.
Context `{!Platform} `{!Jwt} `{!Bcrypt} {M T : Type} `{!Host M T}.

(** Calls that open and close what they use, and do not listen. *)
Definition contained (tr : list event) : Prop := silent tr ∧ ∀ opened, neutral opened tr.

Lemma contained_nil : contained [].
Proof. split; [constructor|]. intros opened. apply neutral_nil. Qed.

Lemma silent_by_computation tr : forallb (λ ev, bool_decide (ev_call ev ≠ Listen)) tr = true → silent tr.
Proof.
  intros Hf. apply Forall_forall. intros ev Hev%list_elem_of_In. rewrite forallb_forall in Hf.
  by apply (bool_decide_eq_true_1 _ (Hf ev Hev)).
Qed.

(** The calls of a run that has been followed to its end. *)
Ltac its_calls :=
  cbn; rewrite <-?app_assoc; eexists; split; [first [reflexivity | symmetry; apply app_nil_r]|].

(** The properties of calls that are known. *)
Ltac known_calls :=
  repeat split;
  first [ apply silent_by_computation; reflexivity
        | intros opened rest; cbn; rewrite ?bool_decide_eq_true_2 by done; reflexivity
        | intros Hno; discriminate Hno
        | done
        | intros _; eexists; split; [|reflexivity]; first [by left | right; by eexists]
        | eauto ].

Lemma Migrate_emits url :
  emits (Migrate url) (λ r tr, contained tr ∧ (is_ok r = true → ∃ up, up_succeeded up ∧ tr = migrated up)).
Proof.
  intros s. unfold Migrate, mbind, tx_bind, map_err, lift.
  destruct iofs_New as [src|err]; [|its_calls; known_calls].
  destruct (pgx_ParseConfig url) as [conn|err]; [|its_calls; known_calls].
  unfold open_db, deferring. destruct (stdlib_OpenDB conn (host s)) as [h m]. unfold apply_migrations, perform.
  destruct (pgxmigrate_WithInstance h _) as [[drv|err] m1]; [|its_calls; known_calls].
  destruct (migrate_NewWithInstance src drv _) as [[mg|err] m2]; [|its_calls; known_calls].
  destruct (migrate_Up mg _) as [[[]|err] m3]; cbn [err_of];
    [|destruct (Is err ErrNoChange) eqn:Hno; cbn [negb]; [|its_calls; known_calls]];
    (destruct (migrate_Version mg _) as [[v|err'] m4]; its_calls; known_calls).
Qed.

Lemma NewPool_emits url n :
  emits (NewPool url n) (λ r tr, match r with Ok _ => tr = [good NewWithConfig; good PingPool] | Err _ => contained tr end).
Proof.
  intros s. unfold NewPool. case_bool_decide; [its_calls; known_calls|].
  destruct (pgxpool_ParseConfig url) as [config|err]; [|its_calls; known_calls].
  unfold mbind, tx_bind, map_err, perform, ping_new.
  destruct (pgxpool_NewWithConfig _ _) as [[pool|err] m1]; [|its_calls; known_calls].
  unfold perform. destruct (pool_ping pool _) as [[[]|err] m2]; its_calls; known_calls.
Qed.

(** The server starts to listen once, while the pool is open. *)
Definition served (r : result unit) (tr : list event) : Prop :=
  ∃ o rest, tr = mk_event Listen o :: rest ∧ silent rest ∧ neutral [ClosePool] tr ∧
    (is_ok r = true → o = None ∧ rest = [good Stop; good Shutdown]).

Lemma serve_http_emits {Srv} l timeout (server : http_server Srv) : emits (serve_http l timeout server) served.
Proof.
  intros s. unfold serve_http, served, mbind, tx_bind, info, listen, shut_down, perform.
  destruct (serve_until server _) as [[err|] m].
  - cbn. rewrite log_to_calls. its_calls. eexists _, _. known_calls.
  - cbn. destruct (server_Shutdown timeout _) as [[[]|err] m1]; cbn.
    + destruct (serve_result m1) as [err m2]. destruct (negb _); cbn; rewrite log_to_calls; cbn; rewrite log_to_calls;
        its_calls; eexists _, _; known_calls.
    + rewrite log_to_calls. cbn. rewrite log_to_calls. its_calls. eexists _, _. known_calls.
Qed.

Lemma Forall_silent tr1 tr2 : silent tr1 → silent tr2 → silent (tr1 ++ tr2).
Proof. apply Forall_app_2. Qed.

Hint Resolve Forall_silent : core.

(** The calls with the pool open, up to its closing. *)
Definition seeding (cfg : Config.Config) : list event := if SeedDemoData cfg then [good SeedData] else [].

Definition pooled (cfg : Config.Config) (r : result unit) (tr : list event) : Prop :=
  (∀ rest, well_bracketed [ClosePool] (tr ++ rest) = well_bracketed [] rest) ∧
  (silent tr ∨ ∃ o rest, tr = seeding cfg ++ mk_event Listen o :: rest ∧ silent rest) ∧
  (is_ok r = true → tr = seeding cfg ++ [good Listen; good Stop; good Shutdown; good ClosePool]).

Lemma seeded_emits l (cfg : Config.Config) (seed : tx M unit) :
  emits (if SeedDemoData cfg then _ ← perform SeedData seed; info l "demo data ready" [] else mret tt)
    (λ r tr, silent tr ∧ neutral [ClosePool] tr ∧ (is_ok r = true → tr = seeding cfg)).
Proof.
  intros s. unfold seeding, mbind, tx_bind, perform. destruct (SeedDemoData cfg); [|its_calls; known_calls].
  destruct (seed _) as [[[]|err] m]; [cbn; rewrite log_to_calls|]; its_calls; known_calls.
Qed.

Lemma pooled_emits {Srv} l (cfg : Config.Config) (seed : tx M unit) (close : M → M) (server : http_server Srv) :
  emits (deferring (perform_ ClosePool close)
           (_ ← (if SeedDemoData cfg then _ ← perform SeedData seed; info l "demo data ready" [] else mret tt);
            serve_http l (ShutdownTimeout cfg) server))
    (pooled cfg).
Proof.
  eapply emits_deferring; [done| |].
  - eapply (emits_bind _ _ _ _ (λ r tr, silent tr ∧ neutral [ClosePool] tr ∧ is_ok r = false ∨
      ∃ tr', tr = seeding cfg ++ tr' ∧ neutral [ClosePool] (seeding cfg) ∧ served r tr'));
      [apply seeded_emits|intros; apply serve_http_emits| |].
    + intros e tr (Hs & Hn & _). by left.
    + intros [] tr1 r tr2 (Hs & Hn & Hok) Hserved. rewrite Hok in * by done. right. eauto.
  - intros r tr Hr. unfold pooled. simpl in Hr. destruct Hr as [(Hs & Hn & Hr)|(tr' & -> & Hseed & o & rest & -> & Hs & Hn & Hok)].
    + split; [intros rest; rewrite <-app_assoc, Hn; done|]. rewrite Hr. split; [left|done].
      apply Forall_silent; [done|by apply silent_by_computation].
    + split; [intros rest'; rewrite <-!app_assoc, Hseed, Hn; done|]. split.
      * right. exists o, (rest ++ [good ClosePool]). rewrite <-app_assoc. split; [done|].
        apply Forall_silent; [done|by apply silent_by_computation].
      * intros Hr. destruct (Hok Hr) as [-> ->]. by rewrite <-app_assoc.
Qed.

Context (login_salt demo_salt : string) (format_time : time → string) (redirect_status : Z) (OpenAPISpec : string).

(** The calls of [run]. *)
Definition orderly_run (cfg : Config.Config) (r : result unit) (tr : list event) : Prop :=
  well_bracketed [] tr = true ∧
  (silent tr ∨ ∃ up o rest, up_succeeded up ∧ tr = startup cfg up ++ mk_event Listen o :: rest ∧ silent rest) ∧
  (is_ok r = true → ∃ up, up_succeeded up ∧ tr = startup cfg up ++ graceful).

Definition migrating (cfg : Config.Config) (up : option error) : list event := if RunMigrations cfg then migrated up else [].

Lemma migrating_emits l (cfg : Config.Config) :
  emits (if RunMigrations cfg
         then version ← Migrate (DatabaseURL cfg); info l "database schema up to date" [("version", AInt version)]
         else mret tt)
    (λ r tr, contained tr ∧ (is_ok r = true → ∃ up, up_succeeded up ∧ tr = migrating cfg up)).
Proof.
  unfold migrating. destruct (RunMigrations cfg); [|intros s; its_calls; split; [apply contained_nil|by exists None; split; [left|]]].
  eapply emits_bind; [apply Migrate_emits|intros; apply emits_info| |].
  - intros e tr [? _]. done.
  - intros v tr1 r tr2 [? ?] [-> ->]. by rewrite app_nil_r.
Qed.

(** [run], between [Notify] and the last [Stop]. *)
Definition started (cfg : Config.Config) (r : result unit) (tr : list event) : Prop :=
  neutral [] tr ∧
  (silent tr ∨ ∃ up o rest, up_succeeded up ∧ good Notify :: tr = startup cfg up ++ mk_event Listen o :: rest ∧ silent rest) ∧
  (is_ok r = true → ∃ up, up_succeeded up ∧ good Notify :: tr = startup cfg up ++ [good Listen; good Stop; good Shutdown; good ClosePool]).

Lemma startup_parts (cfg : Config.Config) up :
  startup cfg up = good Notify :: migrating cfg up ++ [good NewWithConfig; good PingPool] ++ seeding cfg.
Proof. done. Qed.

Lemma pooled_started (cfg : Config.Config) r up tr :
  up_succeeded up → contained (migrating cfg up) → pooled cfg r tr →
  started cfg r (migrating cfg up ++ [good NewWithConfig; good PingPool] ++ tr).
Proof.
  intros Hup [Hsm Hnm] (Hn & Hl & Hok). split; [intros rest; rewrite <-app_assoc, Hnm; cbn; by rewrite Hn|]. split.
  - destruct Hl as [Hl|(o & rest & -> & Hs)].
    + left. repeat apply Forall_silent; [done|by apply silent_by_computation|done].
    + right. exists up, o, rest. split; [done|]. rewrite startup_parts. simpl. rewrite <-!app_assoc. done.
  - intros Hr. exists up. split; [done|]. rewrite Hok, startup_parts by done. simpl. rewrite <-!app_assoc. done.
Qed.

Lemma run_with_emits l (cfg : Config.Config) tokens :
  emits (run_with login_salt demo_salt format_time redirect_status OpenAPISpec cfg l tokens)
    (λ r tr, ∃ tr', tr = tr' ++ [good Stop] ∧ started cfg r tr').
Proof.
  unfold run_with. eapply emits_deferring; [done| |by intros r tr Hr; exists tr].
  eapply (emits_bind _ _ _ (λ _ r tr, is_ok r = false ∧ contained tr ∨
            ∃ tr', tr = [good NewWithConfig; good PingPool] ++ tr' ∧ pooled cfg r tr')); [apply migrating_emits| | |].
  - intros []. eapply emits_bind; [apply NewPool_emits|intros; apply pooled_emits| |].
    + intros e tr Hc. by left.
    + intros pool tr1 r tr2 -> Hp. right. eauto.
  - intros e tr [[Hs Hn] _]. split; [done|]. split; [by left|done].
  - intros [] tr1 r tr2 [[Hs1 Hn1] Hok] Hr. destruct (Hok eq_refl) as (up & Hup & ->). simpl in Hr.
    destruct Hr as [[Hr [Hs Hn]]|(tr' & -> & Hp)]; [|by apply pooled_started].
    split; [by apply neutral_app|]. split; [left; auto|by rewrite Hr].
Qed.

Lemma run_emits l (cfg : Config.Config) :
  emits (run login_salt demo_salt format_time redirect_status OpenAPISpec cfg l) (orderly_run cfg).
Proof.
  intros s. unfold run. destruct (NewTokenService _ _ _) as [tokens|err].
  2: { exists []. rewrite app_nil_r. split; [done|]. split; [|split; [|done]]; [done|left; constructor]. }
  pose proof (run_with_emits l cfg tokens (did Notify None s)) as Hrun.
  destruct (run_with _ _ _ _ _ _ _ _ _) as [r s']. destruct Hrun as (tr & Hs & tr' & -> & Hn & Hl & Hok).
  exists (good Notify :: tr' ++ [good Stop]). rewrite Hs. simpl. rewrite <-app_assoc. split; [done|]. split; [|split].
  - simpl. by rewrite Hn.
  - destruct Hl as [Hl|(up & o & rest & Hup & Heq & Hs')].
    + left. constructor; [done|]. apply Forall_silent; [done|by apply silent_by_computation].
    + right. exists up, o, (rest ++ [good Stop]). split; [done|].
      rewrite app_comm_cons, Heq, <-app_assoc. split; [done|]. apply Forall_silent; [done|by apply silent_by_computation].
  - intros Hr. destruct (Hok Hr) as (up & Hup & Heq). exists up. split; [done|]. by rewrite app_comm_cons, Heq, <-app_assoc.
Qed.

Context (parse_url : string → option error) (probe : string → M → result Z * M).

(** C19: the process starts and stops in order.  Whatever the environment, the database, the
    migrations and the network do, [main] exits with 0 or 1; every pool and database handle
    that it opens is closed again, in order, and used only while it is open; the server
    listens at most once, only under a configuration without errors, and only after the
    migrations, the first ping and the seeding that the configuration asks for have succeeded,
    where [m.Up()] succeeds with no error or with [ErrNoChange] and every other call with no
    error; and the exit code is 0 only after the same, a signal, a complete shutdown and the
    closing of the pool. *)
Theorem main_is_orderly args getenv s :
  args !! 1%nat ≠ Some "healthcheck" →
  let '(code, s') := main login_salt demo_salt format_time redirect_status OpenAPISpec parse_url probe args getenv s in
  let cfg := (Load getenv).1 in
  ∃ tr, calls s' = calls s ++ tr ∧ well_bracketed [] tr = true ∧ (code = 0 ∨ code = 1) ∧
    (silent tr ∨ (Load getenv).2 = [] ∧
       ∃ up o rest, up_succeeded up ∧ tr = startup cfg up ++ mk_event Listen o :: rest ∧ silent rest) ∧
    (code = 0 → ∃ up, up_succeeded up ∧ tr = startup cfg up ++ graceful).
Proof.
  intros Hargs. unfold main. rewrite bool_decide_eq_false_2 by done.
  destruct (Load getenv) as [cfg [|err errs]].
  - pose proof (run_emits (min_level (LogLevel cfg)) cfg s) as Hrun. destruct (run _ _ _ _ _ _ _ _) as [[[]|err] s'];
      destruct Hrun as (tr & Hs & Hw & Hl & Hok); exists tr; rewrite ?log_to_calls; simpl;
      (split; [done|]; split; [done|]; split; [by auto|]; split; [naive_solver|]); [by intros _; apply Hok|done].
  - exists []. rewrite log_to_calls, app_nil_r. split; [done|]. split; [done|]. split; [by right|].
    split; [left; constructor|done].
Qed.




End parts.

(** ** Witnesses *)

(** A host over the pool of [Driver]: migrations have nothing to apply, and a signal comes. *)
#[local] Instance sample_host : Host pool session := {|
  source := unit; conn_config := unit; sql_db := unit; db_driver := unit; migrator := unit;
  iofs_New := Ok tt;
  pgx_ParseConfig _ := Ok tt;
  stdlib_OpenDB _ m := (tt, m);
  pgxmigrate_WithInstance _ := mret tt;
  migrate_NewWithInstance _ _ := mret tt;
  migrate_Up _ := fail (Sentinel ErrNoChange);
  migrate_Version _ := mret 5;
  db_Close _ m := m;
  pool_config := unit; pool_handle := unit;
  pgxpool_ParseConfig _ := Ok tt;
  set_MaxConns _ c := c;
  pgxpool_NewWithConfig _ := mret tt;
  pool_ping _ := mret tt;
  pool_Close _ m := m;
  pool_Pgx _ := pool_pgx;
  pool_query _ := pool_querier;
  tx_query := session_querier;
  tx_exec := session_execer;
  serve_until _ _ m := (None, m);
  serve_result m := (Sentinel ErrServerClosed, m);
  server_Shutdown _ := mret tt;
  server_Close m := m |}.

Definition sample_process : process pool := mk_process empty_pool [] [].

Definition seeding_env (name : string) : string :=
  if name == "SEED_DEMO_DATA" then "true"
  else if name == "DEMO_PASSWORD" then "demo-password"
  else sample_env name.

Definition sample_probe (url : string) (m : pool) : result Z * pool :=
  (match r_status (writer (NewHandler plain_time 301 "" sample_server sample_readings (sample_account_get "/health")
                             (mk_world new_response sample_bench [])).2) with
   | Some status => Ok status
   | None => Err (External "no answer")
   end, m).

Definition sample_main : Z * process pool :=
  main "login salt" "demo salt" plain_time 301 "" (λ _, None) sample_probe ["api"] seeding_env sample_process.

(** The sample process migrates, seeds, serves and stops. *)
Lemma main_is_orderly_witness :
  ∃ up, up_succeeded up ∧ calls sample_main.2 = startup (Load seeding_env).1 up ++ graceful.
Proof.
  assert (["api"] !! 1%nat ≠ Some "healthcheck") as Hargs by discriminate.
  pose proof (main_is_orderly "login salt" "demo salt" plain_time 301 "" (λ _, None) sample_probe ["api"] seeding_env
                sample_process Hargs) as Hm.
  change (main _ _ _ _ _ _ _ _ _ _) with sample_main in Hm.
  assert (sample_main.1 = 0) as Hcode by (vm_compute; reflexivity).
  destruct sample_main as [code s']. simpl in Hcode. destruct Hm as (tr & Hs & _ & _ & _ & Hok).
  destruct (Hok Hcode) as (up & Hup & ->). exists up. split; [exact Hup|exact Hs].
Defined.

