(* ===== verification/MigrateCorrect.v ===== *)
(** * Migrating at startup

    [Migrate] of [internal/repository] on the tables of [Migrations]: what the program finds after
    the call that every start makes before it serves.  golang-migrate is a parameter, with what
    its documentation says of [Up] and [Version]. *)
From S2P Require Import Prelude GoStrings GoErrors Entities Json Database Schema Contracts Repository Driver Http Auth Config Seed Migrations Startup.

(** What the documentation says of the library, for the tables [catalog_in] of the host: [Up] applies
    pending migrations in order, each whole or not at all; it succeeds when none is left, and
    [ErrNoChange] means that none was pending; [Version] tells the version; nothing else touches
    the tables. *)
Class Migrator_documented `{!Platform} {M T : Type} `{!Host M T} (catalog_in : M → catalog) := {
  open_keeps c m : catalog_in (stdlib_OpenDB c m).2 = catalog_in m;
  instance_keeps db m : catalog_in (pgxmigrate_WithInstance db m).2 = catalog_in m;
  new_keeps src drv m : catalog_in (migrate_NewWithInstance src drv m).2 = catalog_in m;
  version_keeps mg m : catalog_in (migrate_Version mg m).2 = catalog_in m;
  close_keeps db m : catalog_in (db_Close db m) = catalog_in m;
  up_steps mg m : rtc upgrade (catalog_in m) (catalog_in (migrate_Up mg m).2);
  up_done mg m m' : migrate_Up mg m = (Ok tt, m') → version (catalog_in m') = 5%nat;
  up_no_change mg m err m' :
    migrate_Up mg m = (Err err, m') → Is err ErrNoChange = true → version (catalog_in m') = 5%nat;
  version_tells mg m v m' : migrate_Version mg m = (Ok v, m') → v = Z.of_nat (version (catalog_in m)) }.

Section migrate.
Context `{!Platform} {M T : Type} `{!Host M T} (catalog_in : M → catalog) `{!Migrator_documented catalog_in}.
Implicit Types (s : process M).

Abbreviation tables s := (catalog_in (host s)).

Lemma apply_migrations_tables mg s :
  let '(res, s') := apply_migrations mg s in
  rtc upgrade (tables s) (tables s') ∧ (is_ok res = true → version (tables s') = 5%nat).
Proof.
  unfold apply_migrations, perform. pose proof (up_steps mg (host s)) as Hup.
  destruct (migrate_Up mg (host s)) as [[[]|err] m] eqn:Hrun; cbn in Hup |- *.
  - split; [done|]. intros _. by apply up_done in Hrun.
  - destruct (Is err ErrNoChange) eqn:Hno; cbn; (split; [done|]); [|done]. intros _. by eapply up_no_change.
Qed.

Lemma Migrate_tables url s :
  let '(res, s') := Migrate url s in
  rtc upgrade (tables s) (tables s') ∧
  (∀ v, res = Ok v → version (tables s') = 5%nat ∧ v = 5).
Proof.
  unfold Migrate, mbind, tx_bind, map_err, lift. destruct iofs_New as [src|err]; [|by split].
  destruct (pgx_ParseConfig url) as [conn|err]; [|by split].
  unfold open_db, deferring, perform. pose proof (open_keeps conn (host s)) as Hopen.
  destruct (stdlib_OpenDB conn (host s)) as [h m]. cbn in Hopen |- *.
  pose proof (instance_keeps h m) as Hinst.
  destruct (pgxmigrate_WithInstance h m) as [[drv|err] m1]; cbn in Hinst |- *; [|by rewrite close_keeps, Hinst, Hopen].
  pose proof (new_keeps src drv m1) as Hnew.
  destruct (migrate_NewWithInstance src drv m1) as [[mg|err] m2]; cbn in Hnew |- *; [|by rewrite close_keeps, Hnew, Hinst, Hopen].
  match goal with |- context [apply_migrations mg ?s0] =>
    pose proof (apply_migrations_tables mg s0) as Hup; destruct (apply_migrations mg s0) as [[[]|err] s3] end;
    destruct Hup as [Hup Hv]; cbn in Hup |- *; rewrite Hnew, Hinst, Hopen in Hup.
  2: { rewrite close_keeps. by split. }
  pose proof (version_keeps mg (host s3)) as Hkeep.
  destruct (migrate_Version mg (host s3)) as [[v|err] m4] eqn:Hver; cbn in Hkeep |- *; rewrite close_keeps, Hkeep; [|by split].
  split; [done|]. intros v' [= <-]. specialize (Hv eq_refl). split; [done|]. apply version_tells in Hver. by rewrite Hver, Hv.
Qed.

Lemma upgrade_keeps c c' : rtc upgrade c c' → well_formed c → well_formed c'.
Proof. induction 1 as [|x y z [e Hs] _ IH]; [done|]. intros Hwf. apply IH. by eapply up_keeps. Qed.

Lemma upgrade_from_5 d c : rtc upgrade (V5 d) c → c = V5 d.
Proof. inversion 1 as [|? ? ? [e Hs]]; [done|]. discriminate Hs. Qed.

(** C22: migrations at startup.  [Migrate] only ever moves the tables forward, whole migrations at a
    time, and they stay well formed, also when it fails.  When it succeeds it answers version 5, the
    tables are those of version 5 with every constraint, and no row was touched: the database
    was at version 5 and is unchanged, or it was empty and still is.  On a database of an older
    version that holds a row it fails. *)
Theorem migrate_brings_up_to_date url s :
  well_formed (tables s) →
  let '(res, s') := Migrate url s in
  rtc upgrade (tables s) (tables s') ∧ well_formed (tables s') ∧
  match res with
  | Ok v =>
    v = 5 ∧ ∃ d, tables s' = V5 d ∧ schema_ok d ∧ (tables s = V5 d ∨ is_empty (tables s) = true ∧ d = no_rows)
  | Err _ => True
  end ∧
  ((version (tables s) < 5)%nat → is_empty (tables s) = false → is_ok res = false).
Proof.
  intros Hwf. pose proof (Migrate_tables url s) as Hm. destruct (Migrate url s) as [res s']. destruct Hm as [Hup Hv].
  pose proof (upgrade_keeps _ _ Hup Hwf) as Hwf'. split; [done|]. split; [done|]. split.
  - destruct res as [v|err]; [|done]. destruct (Hv v eq_refl) as [H5 ->]. split; [done|].
    destruct (tables s') as [| | | | |d] eqn:Hs'; try done. exists d. split; [done|]. split; [done|].
    destruct (tables s) as [|t|t a|t a|t a l|d0] eqn:Hs;
      try (right; destruct (is_empty _) eqn:He;
           [split; [done|by eapply upgrade_empty]|by apply (upgrade_nonempty _ d Hwf He ltac:(simpl; lia)) in Hup]).
    left. symmetry. by apply upgrade_from_5 in Hup.
  - intros Hlt He. destruct res as [v|err]; [|done]. destruct (Hv v eq_refl) as [H5 _].
    destruct (tables s') as [| | | | |d] eqn:Hs'; try done. exfalso.
    by apply (upgrade_nonempty _ d Hwf He Hlt) in Hup.
Qed.

End migrate.

(** ** Witness *)

(** A library that does what the documentation says, on the tables alone. *)
Fixpoint up_all (n : nat) (c : catalog) : result unit * catalog :=
  match n with
  | O => (Ok tt, c)
  | S n' =>
    match c with
    | V5 _ => (Ok tt, c)
    | _ => match up (day 1) c with Ok c' => up_all n' c' | Err err => (Err err, c) end
    end
  end.

Definition Up_all (c : catalog) : result unit * catalog :=
  match c with V5 _ => (Err (Sentinel ErrNoChange), c) | _ => up_all 5 c end.

Lemma up_all_steps n c : rtc upgrade c (up_all n c).2.
Proof.
  revert c. induction n as [|n IH]; intros c; [done|].
  destruct c; cbn [up_all]; try done;
    (match goal with |- context [up ?e ?c] => destruct (up e c) as [c'|err] eqn:Hup end; [|done];
     eapply rtc_l; [by exists (day 1)|apply IH]).
Qed.

Lemma up_version e c c' : up e c = Ok c' → version c' = S (version c).
Proof.
  destruct c; cbn; intros Hup; simplify_eq; try done.
  - rewrite add_account_balances_spec in Hup. by case_match; simplify_eq.
  - rewrite create_users_spec in Hup. by case_match; simplify_eq.
Qed.

Lemma up_all_done n c c' : (5 <= version c + n)%nat → up_all n c = (Ok tt, c') → version c' = 5%nat.
Proof.
  revert c. induction n as [|n IH]; intros c Hn Hup.
  - cbn in Hup. injection Hup as <-. destruct c; cbn in *; lia.
  - destruct c as [| | | | |d]; cbn [up_all] in Hup; [..|by simplify_eq];
      (match type of Hup with context [up ?e ?c] => destruct (up e c) as [c1|err] eqn:Hs end; [|done];
       apply (IH c1); [|done]; rewrite (up_version _ _ _ Hs); cbn in *; lia).
Qed.

Lemma up_all_error n c err c' : up_all n c = (Err err, c') → err = foreign_key_violation.
Proof.
  revert c. induction n as [|n IH]; intros c; [done|].
  destruct c; cbn [up_all up]; try done; try apply IH; rewrite ?add_account_balances_spec, ?create_users_spec.
  - destruct (accounts_exist _ _); [apply IH|by intros [= <- _]].
  - case_bool_decide; [apply IH|by intros [= <- _]].
Qed.

#[local] Instance no_transactions : Pgx catalog session := {| BeginTxFunc A fn c := (Err (External "begin failed"), c) |}.
#[local] Instance no_queries : querier catalog := {| query A q c := (Err (External "closed pool"), c) |}.

#[local] Instance migrating_host : Host catalog session := {|
  source := unit; conn_config := unit; sql_db := unit; db_driver := unit; migrator := unit;
  iofs_New := Ok tt;
  pgx_ParseConfig _ := Ok tt;
  stdlib_OpenDB _ m := (tt, m);
  pgxmigrate_WithInstance _ := mret tt;
  migrate_NewWithInstance _ _ := mret tt;
  migrate_Up _ := Up_all;
  migrate_Version _ m := (Ok (Z.of_nat (version m)), m);
  db_Close _ m := m;
  pool_config := unit; pool_handle := unit;
  pgxpool_ParseConfig _ := Ok tt;
  set_MaxConns _ c := c;
  pgxpool_NewWithConfig _ := mret tt;
  pool_ping _ := mret tt;
  pool_Close _ m := m;
  pool_Pgx _ := no_transactions;
  pool_query _ := no_queries;
  tx_query := session_querier;
  tx_exec := session_execer;
  serve_until _ _ m := (None, m);
  serve_result m := (Sentinel ErrServerClosed, m);
  server_Shutdown _ := mret tt;
  server_Close m := m |}.

#[local] Instance migrating_documented : Migrator_documented (M:=catalog) (T:=session) id.
Proof.
  split; try done.
  - intros mg c. cbn. unfold Up_all. destruct c; try apply up_all_steps; done.
  - intros mg c c'. cbn. unfold Up_all. destruct c; try (apply up_all_done; cbn; lia); done.
  - intros mg c err c'. cbn. unfold Up_all. intros Hup Hno. destruct c; try by simplify_eq.
    all: by apply up_all_error in Hup as ->.
  - intros mg c v c'. cbn. by intros [= <- <-].
Qed.

Lemma migrate_brings_up_to_date_witness :
  ∃ s', Migrate (M:=catalog) (T:=session) "postgres://" (mk_process V0 [] []) = (Ok 5, s') ∧ host s' = V5 no_rows.
Proof.
  pose proof (migrate_brings_up_to_date (M:=catalog) (T:=session) id "postgres://" (mk_process V0 [] []) I) as Hm.
  assert ((Migrate (M:=catalog) (T:=session) "postgres://" (mk_process V0 [] [])).1 = Ok 5) as Hok by (vm_compute; reflexivity).
  destruct (Migrate (M:=catalog) (T:=session) "postgres://" (mk_process V0 [] [])) as [res s']. cbn [fst] in Hok. subst res.
  destruct Hm as (_ & _ & (_ & d & Hd & _ & [Hv|[_ ->]]) & _); [discriminate Hv|]. exists s'. split; [reflexivity|exact Hd].
Defined.
