(* ===== verification/Life.v ===== *)
(** * The life of a deployment

    From the first start on an empty database, through any number of starts, crashes, failed
    migrations, seedings and requests that overlap: what the books of the bank look like at every
    moment.  [main] of [cmd/api] is followed from the outside: the host's tables before and after
    it, with [Migrate], [Demo] and the server put together. *)
From S2P Require Import Prelude GoStrings GoErrors Entities Json Database Schema BankSpec Contracts TransferService Repository RepositoryCorrect Programs Locking LockingLocal LockingCorrect Serializability LockingProgress Outcome Driver TransferTheorems ConcurrencyTheorems Reads Mime JsonText Http Auth AuthTheorems HttpApi HttpCorrect Server HttpTheorems Routes HttpConcurrency Config Seed Migrations Sessions Startup MigrateCorrect.

(** ** What happens to a database *)

Section life.
Context `{!Platform} `{!PlatformLaws} `{!Jwt} `{!Bcrypt}.
Implicit Types (opening : gmap string Z) (q : seed_stmt).

(** The opening balances, by account: an account is opened by the first statement that inserts it. *)
Definition opened_by q opening : gmap string Z :=
  match q with
  | UpsertUser _ _ _ _ => opening
  | InsertAccount id _ _ balance => opening ∪ {[ id := balance ]}
  end.

(** The balance is a parameter of a 64-bit column. *)
Definition provisions q : Prop :=
  match q with
  | UpsertUser _ _ _ _ => True
  | InsertAccount _ _ _ balance => is_int64 balance
  end.

(** One event in the life of a database, with the accounts opened so far: a migration; a user or an
    account provisioned, by the demo seed or by an operator; or a process that serves requests, up
    to the moment when it stops or is killed, with transactions begun and not ended, which are
    lost. *)
Inductive grows : gmap string Z * catalog → gmap string Z * catalog → Prop :=
| g_migrate e opening c c' :
    up e c = Ok c' → grows (opening, c) (opening, c')
| g_provision e q opening d d' :
    provisions q → seed_sql e q d = (Ok tt, d') → grows (opening, V5 d) (opened_by q opening, V5 d')
| g_serve tokens salt lg timeout format_time redirect_status spec opening d replies h :
    hexecution tokens salt lg timeout format_time redirect_status spec d replies h →
    grows (opening, V5 d) (opening, V5 (committed (core h))).

(** ** The books *)

Record books opening (d : db) : Prop := {
  bk_schema : schema_ok d;
  bk_rows : db_ok d;
  bk_bank : bank_ok (bank_of d);
  bk_reconciles : reconciles opening (bank_of d);
  bk_accounts : dom opening = dom (accounts d);
  bk_total : total (bank_of d) = map_sum id opening }.

(** Before the last migration there are no books, and there is no row. *)
Definition sound opening (c : catalog) : Prop :=
  match c with
  | V5 d => books opening d
  | _ => is_empty c = true ∧ opening = ∅
  end.

Lemma books_empty : books ∅ no_rows.
Proof.
  split; [apply no_rows_schema| | |by intros id a Ha|done|done].
  - split; [apply map_Forall_empty|constructor..].
  - split; [by intros id a Ha|by intros ???? Hst|by intros uk st Hst|constructor].
Qed.

(** *** Provisioning *)

Lemma provision_tables e q d d' :
  seed_sql e q d = (Ok tt, d') → transfers d' = transfers d ∧ ledger_entries d' = ledger_entries d.
Proof. intros Hq. apply (seeds_tables [q]). by econstructor; [|constructor]. Qed.

(** A statement leaves the accounts alone or opens one. *)
Lemma provision_accounts e q d d' opening :
  provisions q → dom opening = dom (accounts d) → seed_sql e q d = (Ok tt, d') →
  opened_by q opening = opening ∧ accounts d' = accounts d ∨
  ∃ id user currency balance, q = InsertAccount id user currency balance ∧
    0 <= balance <= MaxInt64 ∧ accounts d !! id = None ∧ opening !! id = None ∧
    opened_by q opening = <[id := balance]> opening ∧
    accounts d' = <[id := mk_account_row user currency balance (now e) (now e)]> (accounts d).
Proof.
  intros Hp Hdom Hq. destruct q as [id email hash perms|id user currency balance]; simpl in *.
  - left. apply upsert_user_Ok in Hq as (r & -> & _). done.
  - apply insert_account_Ok in Hq as (Hcheck & [[Hsome ->]|(Hnone & _ & ->)]).
    + left. split; [|done]. apply elem_of_dom in Hsome. rewrite <-Hdom in Hsome. apply elem_of_dom in Hsome as [z Hz].
      apply map_eq. intros i. destruct (decide (i = id)) as [->|Hne]; [by rewrite Hz, (lookup_union_Some_l _ _ _ _ Hz)|].
      destruct (opening !! i) as [y|] eqn:Hi; [by apply lookup_union_Some_l|].
      apply lookup_union_None. by rewrite lookup_singleton_ne.
    + right. assert (opening !! id = None) as Hop by (apply not_elem_of_dom; rewrite Hdom; by apply not_elem_of_dom).
      exists id, user, currency, balance. repeat split; try done.
      * unfold accounts_check in Hcheck. reflect. simpl in *. lia.
      * apply Hp.
      * apply map_eq. intros i. destruct (decide (i = id)) as [->|Hne].
        -- rewrite lookup_insert_eq, lookup_union_r by done. by rewrite lookup_singleton_eq.
        -- rewrite lookup_insert_ne by done. destruct (opening !! i) as [y|] eqn:Hi; [by apply lookup_union_Some_l|].
           apply lookup_union_None. by rewrite lookup_singleton_ne.
Qed.

Lemma provision_bank e q d d' :
  seed_sql e q d = (Ok tt, d') →
  b_transfers (bank_of d') = b_transfers (bank_of d) ∧ b_ledger (bank_of d') = b_ledger (bank_of d).
Proof. intros (Ht & Hl)%provision_tables. simpl. by rewrite Ht, Hl. Qed.

(** Users are no part of the books, and the transfers and the ledger of a provisioned bank are as
    they were; so a new account has no entries. *)
Lemma provision_books e q d d' opening :
  provisions q → seed_sql e q d = (Ok tt, d') → books opening d → books (opened_by q opening) d'.
Proof.
  intros Hp Hq [Hschema [Hb Hk Hi Hpay] [Hbal Hids Hst Hen] Hrec Hdom Htot].
  pose proof (seed_sql_schema e q d Hschema) as Hschema'. rewrite Hq in Hschema'.
  destruct (provision_tables _ _ _ _ Hq) as [Ht Hl]. destruct (provision_bank _ _ _ _ Hq) as [Hbt Hbl].
  destruct (provision_accounts _ _ _ _ _ Hp Hdom Hq)
    as [[Hop Hacc]|(id & user & currency & balance & _ & Hz & Hnone & Hon & Hop & Hacc)].
  - assert (bank_of d' = bank_of d) as Hbank by (unfold bank_of; by rewrite Ht, Hl, Hacc).
    rewrite Hop. split; rewrite ?Hbank, ?Hacc; try done; by split; rewrite ?Hacc, ?Ht.
  - assert (b_accounts (bank_of d') = <[id := mk_s_account user currency balance]> (b_accounts (bank_of d))) as Hba
      by (simpl; by rewrite Hacc, fmap_insert).
    assert (b_accounts (bank_of d) !! id = None) as Hbn by (simpl; by rewrite lookup_fmap, Hnone).
    rewrite Hop. split; [done| | | | |].
    + split; rewrite ?Ht; try done. rewrite Hacc. by apply map_Forall_insert_2.
    + split; unfold stored_ok, entries_for; rewrite ?Hbt, ?Hbl; try done.
      unfold balances_ok. rewrite Hba. by apply map_Forall_insert_2.
    + intros i a. unfold entries_of. rewrite Hba, Hbl. intros [[<- <-]|[Hne Ha]]%lookup_insert_Some.
      * pose proof (no_entries d id Hschema Hnone) as Hnil. unfold entries_of in Hnil.
        rewrite lookup_insert_eq, Hnil. simpl. f_equal. lia.
      * rewrite lookup_insert_ne by done. by apply Hrec.
    + rewrite dom_insert_L, Hacc, dom_insert_L. by rewrite Hdom.
    + unfold total. rewrite Hba, !map_sum_insert_None by done. unfold total in Htot. rewrite Htot. done.
Qed.

Lemma provision_retains e q d d' opening :
  provisions q → dom opening = dom (accounts d) → seed_sql e q d = (Ok tt, d') →
  retains (bank_of d) (bank_of d') ∧ opening ⊆ opened_by q opening.
Proof.
  intros Hp Hdom Hq. destruct (provision_bank _ _ _ _ Hq) as [Hbt Hbl].
  destruct (provision_accounts _ _ _ _ _ Hp Hdom Hq)
    as [[Hop Hacc]|(id & user & currency & balance & _ & _ & Hnone & Hon & Hop & Hacc)];
    rewrite Hop; (split; [split; rewrite ?Hbt, ?Hbl; try done|]); try done.
  - intros i a. simpl. rewrite Hacc. eauto.
  - intros i a. simpl. rewrite Hacc, fmap_insert. intros Ha. exists a. split; [|done]. rewrite lookup_insert_ne; [done|].
    intros <-. by rewrite lookup_fmap, Hnone in Ha.
  - by apply insert_subseteq.
Qed.

(** *** Serving *)

Lemma serve_books tokens salt lg timeout format_time redirect_status spec opening d replies h :
  hexecution tokens salt lg timeout format_time redirect_status spec d replies h →
  books opening d → books opening (committed (core h)) ∧ retains (bank_of d) (bank_of (committed (core h))).
Proof.
  intros Hex [Hschema Hrows Hbank Hrec Hdom Htot].
  pose proof (serve_all_schema tokens salt lg timeout format_time redirect_status spec (asked <$> replies) d Hschema) as Hs.
  rewrite (hexecution_serial _ _ _ _ _ _ _ _ _ _ Hex) in Hs.
  destruct (hexecution_core _ _ _ _ _ _ _ _ _ _ Hex) as [[hist Hcore] _].
  destruct (execution_history _ _ _ Hrows Hcore) as [Hrows' Hh]. split; [split|]; try done.
  - by eapply history_ok.
  - by eapply history_reconciles.
  - rewrite Hdom. apply history_ids in Hh. simpl in Hh. by rewrite !dom_fmap_L in Hh.
  - by rewrite <-Htot, (history_total _ _ _ Hh).
  - by eapply history_retains.
Qed.

(** *** Every event *)

Lemma empty_sound c : is_empty c = true → sound ∅ c.
Proof.
  intros He. destruct c as [| | | | |d]; try done. simpl in *. reflect.
  destruct d as [a [|] [|] u]; simpl in He; destruct He as (? & Ha & ? & Hu); try done. subst a u. apply books_empty.
Qed.

Lemma up_sound e opening c c' :
  up e c = Ok c' → sound opening c → sound opening c' ∧ ∀ d, c ≠ V5 d.
Proof.
  intros Hup Hs. assert (is_empty c = true ∧ opening = ∅) as [He ->] by by destruct c.
  split; [apply empty_sound; by eapply up_empty|]. by intros d ->.
Qed.

(** Whatever was sound stays sound, and nothing of it is lost. *)
Definition goes_on (x y : gmap string Z * catalog) : Prop :=
  sound x.1 x.2 → sound y.1 y.2 ∧ x.1 ⊆ y.1 ∧
  ∀ d, x.2 = V5 d → ∃ d', y.2 = V5 d' ∧ retains (bank_of d) (bank_of d').

Lemma grows_goes_on x y : grows x y → goes_on x y.
Proof.
  intros [e opening c c' Hup|e q opening d d' Hp Hq|tokens salt lg timeout ft rs spec opening d replies h Hex] Hs; simpl in *.
  - destruct (up_sound _ _ _ _ Hup Hs) as [Hs' Hv]. split; [done|]. split; [done|]. by intros d ?%Hv.
  - destruct (provision_retains _ _ _ _ opening Hp (bk_accounts _ _ Hs) Hq) as [Hr Hsub].
    split; [by eapply provision_books|]. split; [done|]. intros ? [= <-]. eauto.
  - destruct (serve_books _ _ _ _ _ _ _ _ _ _ _ Hex Hs) as [Hs' Hr]. split; [done|]. split; [done|]. intros ? [= <-]. eauto.
Qed.

Lemma life_goes_on x y : rtc grows x y → goes_on x y.
Proof.
  induction 1 as [[opening c]|x y z Hxy _ IH]; intros Hs.
  { split; [done|]. split; [done|]. intros d ->. by exists d. }
  destruct (grows_goes_on _ _ Hxy Hs) as (Hy & Hsub & Hd). destruct (IH Hy) as (Hz & Hsub' & Hd').
  split; [done|]. split; [by etransitivity|]. intros d Hx. destruct (Hd d Hx) as (d1 & Hy1 & Hr).
  destruct (Hd' d1 Hy1) as (d2 & Hz2 & Hr2). exists d2. split; [done|]. by etransitivity.
Qed.

(** C4: the books of a deployment are right for life.  From an empty database on, through any
    sequence of migrations, users and accounts provisioned, and servings of any number of requests
    that overlap, each of them cut off at any point: the constraints of the schema hold, no
    account is overdrawn or beyond 64 bits, every completed transfer has exactly its two entries,
    every balance is what the account was opened with plus its entries, and all the money there is
    is the money that accounts were opened with; and between any two moments no account, transfer
    or entry is lost or rewritten. *)
Theorem books_are_right_for_life x y :
  rtc grows (∅, V0) x → rtc grows x y →
  sound y.1 y.2 ∧ x.1 ⊆ y.1 ∧ ∀ d, x.2 = V5 d → ∃ d', y.2 = V5 d' ∧ retains (bank_of d) (bank_of d').
Proof. intros Hx%life_goes_on Hy%life_goes_on. by apply Hy, Hx. Qed.

End life.

(** ** The process *)

Section host.
Context `{!Platform} `{!Jwt} `{!Bcrypt} {M T : Type} `{!Host M T}.

(** The operations of [Migrate], [NewPool] and [Demo] on the host. *)
Inductive quiet (m : M) : M → Prop :=
| q_open c : quiet m (stdlib_OpenDB c m).2
| q_instance db : quiet m (pgxmigrate_WithInstance db m).2
| q_new src drv : quiet m (migrate_NewWithInstance src drv m).2
| q_up mg : quiet m (migrate_Up mg m).2
| q_version mg : quiet m (migrate_Version mg m).2
| q_close db : quiet m (db_Close db m)
| q_pool c : quiet m (pgxpool_NewWithConfig c m).2
| q_ping p : quiet m (pool_ping p m).2
| q_begin p A (fn : tx T A) : quiet m (@BeginTxFunc M T (pool_Pgx p) A fn m).2.

(** The operations of a server that stops, and the closing of the pool after it. *)
Inductive stopping (m : M) : M → Prop :=
| s_result : stopping m (serve_result m).2
| s_shutdown z : stopping m (server_Shutdown z m).2
| s_close : stopping m (server_Close m)
| s_pool p : stopping m (pool_Close p m).

(** The database of the tables, once there is one. *)
Definition db_of (c : catalog) : db := match c with V5 d => d | _ => no_rows end.

End host.

(** What the documentation of pgx, [net/http] and PostgreSQL says of a host whose tables are
    [catalog_in].  Opening and pinging a pool leave the tables alone, and so does closing it when
    no server has run; a transaction of the pool starts on the committed tables and is kept whole or
    not at all.  A server that was started answers requests with its handler, in goroutines that overlap,
    and the database runs their statements one at a time, as in [HttpConcurrency]: [running] is the
    state of that execution, and requests in flight go on while the server stops. *)
Class Server_documented {platform : Platform} `{!Jwt} `{!Bcrypt} {M T : Type} `{!Host M T}
    (catalog_in : M → catalog) (tx_db : T → db) (running : M → option hstate) := {
  new_pool_keeps c m : catalog_in (pgxpool_NewWithConfig c m).2 = catalog_in m;
  ping_keeps p m : catalog_in (pool_ping p m).2 = catalog_in m;
  close_keeps_idle p m : running m = None → catalog_in (pool_Close p m) = catalog_in m;
  pool_transactions p : @Pgx_documented platform M T (pool_Pgx p) (db_of ∘ catalog_in) tx_db;
  pool_keeps_version p {A} (fn : tx T A) m :
    version (catalog_in (@BeginTxFunc M T (pool_Pgx p) A fn m).2) = version (catalog_in m);
  statements_documented :: Exec_documented tx_db;
  quiet_idle m m' : quiet m m' → running m = None → running m' = None;
  server_runs p tokens salt l timeout format_time redirect_status spec (server : http_server _) m d :
    Handler server = handler_on salt format_time redirect_status spec p tokens l timeout →
    catalog_in m = V5 d →
    let m' := (serve_until server m).2 in
    ∃ replies h, running m' = Some h ∧ catalog_in m' = V5 (committed (core h)) ∧
      hexecution tokens salt l timeout format_time redirect_status spec d replies h;
  server_goes_on m m' h tokens salt l timeout format_time redirect_status spec d replies :
    stopping m m' → running m = Some h → catalog_in m = V5 (committed (core h)) →
    hexecution tokens salt l timeout format_time redirect_status spec d replies h →
    ∃ replies' h', running m' = Some h' ∧ catalog_in m' = V5 (committed (core h')) ∧
      hexecution tokens salt l timeout format_time redirect_status spec d replies' h' }.

(** *** The demo seed *)

Section demo_grows.
Context `{!Platform} `{!PlatformLaws} `{!Jwt} `{!Bcrypt}.

Lemma seeds_grow qs d d' opening :
  Forall provisions qs → seeds qs d d' →
  rtc grows (opening, V5 d) (foldl (λ o q, opened_by q o) opening qs, V5 d').
Proof.
  intros Hp Hs. revert opening Hp. induction Hs as [|e q qs d d1 d2 Hq _ IH]; intros opening Hp; [done|].
  apply Forall_cons in Hp as [Hp1 Hp]. eapply rtc_l; [by eapply g_provision|]. by apply IH.
Qed.

(** The balances that [Demo] opens accounts with. *)
Definition demo_opening : gmap string Z := list_to_map ((λ ua, (da_id ua.2, da_balance ua.2)) <$> demo_accounts).

Lemma demo_opened hash opening :
  foldl (λ o q, opened_by q o) opening (demo_statements hash) = opening ∪ demo_opening.
Proof. simpl. rewrite <-!(assoc_L (∪)). f_equal. Qed.

Lemma demo_provisions hash : Forall provisions (demo_statements hash).
Proof. repeat constructor; vm_compute; done. Qed.

End demo_grows.

(** *** [main], step by step *)

Section process.
Context `{!Platform} `{!PlatformLaws} `{!Jwt} `{!Bcrypt} `{!BcryptLaws} {M T : Type} `{!Host M T}.
Context (catalog_in : M → catalog) (tx_db : T → db) (running : M → option hstate).
Context `{!Migrator_documented catalog_in} `{!Server_documented catalog_in tx_db running}.
Implicit Types (s : process M) (opening : gmap string Z).

Abbreviation tables s := (catalog_in (host s)).
Abbreviation idle s := (running (host s) = None).

Lemma log_to_host l e s : host (log_to l e s) = host s.
Proof. unfold log_to. by destruct (l _). Qed.

Lemma upgrades_grow opening c c' : rtc upgrade c c' → rtc grows (opening, c) (opening, c').
Proof. induction 1 as [|x y z [e Hup] _ IH]; [done|]. eapply rtc_l; [by eapply g_migrate|done]. Qed.

(** Before the server, the operations of the host are quiet. *)
Definition quietly s s' : Prop := rtc quiet (host s) (host s').

Lemma quietly_idle s s' : quietly s s' → idle s → idle s'.
Proof. unfold quietly. induction 1; [done|]. intros Hn. eauto using quiet_idle. Qed.

Lemma Migrate_quiet url s : quietly s (Migrate url s).2.
Proof.
  unfold Migrate, mbind, tx_bind, map_err, lift. destruct iofs_New as [src|err]; [|apply rtc_refl].
  destruct (pgx_ParseConfig url) as [conn|err]; [|apply rtc_refl].
  unfold open_db, deferring, apply_migrations, perform.
  pose proof (q_open (host s) conn) as Hq1. destruct (stdlib_OpenDB conn (host s)) as [h m1]. cbn in Hq1 |- *.
  pose proof (q_instance m1 h) as Hq2. destruct (pgxmigrate_WithInstance h m1) as [[drv|err] m2]; cbn in Hq2 |- *.
  2: { do 2 (eapply rtc_l; [eassumption|]). apply rtc_once, q_close. }
  pose proof (q_new m2 src drv) as Hq3. destruct (migrate_NewWithInstance src drv m2) as [[mg|err] m3]; cbn in Hq3 |- *.
  2: { do 3 (eapply rtc_l; [eassumption|]). apply rtc_once, q_close. }
  pose proof (q_up m3 mg) as Hq4. destruct (migrate_Up mg m3) as [[[]|err] m4]; cbn in Hq4 |- *.
  2: destruct (negb _); cbn; [do 4 (eapply rtc_l; [eassumption|]); apply rtc_once, q_close|].
  all: pose proof (q_version m4 mg) as Hq5; destruct (migrate_Version mg m4) as [[v|err'] m5]; cbn in Hq5 |- *;
    do 5 (eapply rtc_l; [eassumption|]); apply rtc_once, q_close.
Qed.

Definition migrate_step (l : logger) (cfg : Config.Config) : tx (process M) unit :=
  if RunMigrations cfg
  then version ← Migrate (DatabaseURL cfg); info l "database schema up to date" [("version", AInt version)]
  else mret tt.

(** A start is asked to migrate, or finds the tables of the last version. *)
Definition deployable (cfg : Config.Config) (c : catalog) : Prop := RunMigrations cfg = true ∨ version c = 5%nat.

Lemma migrate_step_grows l cfg opening s :
  deployable cfg (tables s) → idle s →
  let '(r, s') := migrate_step l cfg s in
  rtc grows (opening, tables s) (opening, tables s') ∧ idle s' ∧ (is_ok r = true → version (tables s') = 5%nat).
Proof.
  unfold migrate_step. intros Hd Hi. destruct (RunMigrations cfg) eqn:Hrun.
  2: { split; [done|]. split; [done|]. intros _. destruct Hd; [congruence|done]. }
  pose proof (Migrate_tables catalog_in (DatabaseURL cfg) s) as Ht.
  pose proof (quietly_idle _ _ (Migrate_quiet (DatabaseURL cfg) s) Hi) as Hi'.
  unfold mbind, tx_bind, info. destruct (Migrate (DatabaseURL cfg) s) as [[v|err] s']; cbn in Hi' |- *;
    destruct Ht as [Hup Hv]; rewrite ?log_to_host; (split; [by apply upgrades_grow|]; split; [done|]); [|done].
  intros _. by eapply Hv.
Qed.

Lemma NewPool_tables url n s :
  idle s → let '(r, s') := NewPool url n s in tables s' = tables s ∧ (is_ok r = true → idle s').
Proof.
  intros Hi. unfold NewPool. case_bool_decide; [done|].
  destruct (pgxpool_ParseConfig url) as [config|err]; [|done].
  unfold mbind, tx_bind, map_err, perform, ping_new.
  generalize (if 0 <? n then set_MaxConns n config else config). intros c.
  pose proof (new_pool_keeps c (host s)) as Hn. pose proof (quiet_idle _ _ (q_pool (host s) c) Hi) as Hi1.
  destruct (pgxpool_NewWithConfig c (host s)) as [[pool|err] m1]; cbn in Hn, Hi1 |- *; [|done].
  unfold perform. pose proof (ping_keeps pool m1) as Hp. pose proof (quiet_idle _ _ (q_ping m1 pool) Hi1) as Hi2.
  cbn. destruct (pool_ping pool m1) as [[[]|err] m2]; cbn in Hp, Hi2 |- *; [by rewrite Hp, Hn|].
  by rewrite close_keeps_idle, Hp, Hn.
Qed.

Lemma version_5 c : version c = 5%nat → c = V5 (db_of c).
Proof. by destruct c. Qed.

(** [Demo] is one transaction, if it gets that far. *)
Lemma Demo_transaction p password salt m :
  let m' := (@Demo M T (pool_Pgx p) _ _ password salt m).2 in
  version (catalog_in m') = version (catalog_in m) ∧ (running m = None → running m' = None).
Proof.
  unfold Demo. destruct (HashPassword password salt) as [hash|err]; [|done]. cbn.
  split; [apply pool_keeps_version|]. apply quiet_idle, q_begin.
Qed.

Definition seed_step (p : pool_handle) (l : logger) (cfg : Config.Config) (salt : string) : tx (process M) unit :=
  if SeedDemoData cfg
  then _ ← perform SeedData (@Demo M T (pool_Pgx p) _ _ (DemoPassword cfg) salt); info l "demo data ready" []
  else mret tt.

(** The accounts of the demo are open after a start that seeds, unless it failed. *)
Lemma seed_step_grows p l cfg salt opening s :
  version (tables s) = 5%nat → idle s →
  let '(r, s') := seed_step p l cfg salt s in
  ∃ opening', rtc grows (opening, tables s) (opening', tables s') ∧ version (tables s') = 5%nat ∧ idle s' ∧
    (opening' = opening ∨ SeedDemoData cfg = true ∧ opening' = opening ∪ demo_opening) ∧
    (is_ok r = true → SeedDemoData cfg = true → opening' = opening ∪ demo_opening).
Proof.
  intros Hv Hi. unfold seed_step. destruct (SeedDemoData cfg) eqn:Hseed; [|exists opening; naive_solver].
  pose proof (pool_transactions p) as Hdoc.
  pose proof (@Demo_run _ _ _ M T (pool_Pgx p) _ (db_of ∘ catalog_in) tx_db Hdoc _ (DemoPassword cfg) salt (host s)) as Hrun.
  destruct (Demo_transaction p (DemoPassword cfg) salt (host s)) as [Hv' Hi'].
  unfold mbind, tx_bind, perform, info. destruct (Demo _ _ (host s)) as [res m']. cbn in Hrun, Hv', Hi' |- *.
  rewrite Hv in Hv'. specialize (Hi' Hi).
  assert (∃ opening', rtc grows (opening, tables s) (opening', catalog_in m') ∧
    (opening' = opening ∧ is_ok res = false ∨ opening' = opening ∪ demo_opening)) as (opening' & Hg & Hop).
  { rewrite (version_5 _ Hv), (version_5 _ Hv'). destruct Hrun as [[Heq Hno]|(_ & hash & Hs)]; [exists opening; rewrite Heq; split; [done|by left]|].
    exists (opening ∪ demo_opening). split; [|by right]. rewrite <-(demo_opened hash).
    apply seeds_grow; [apply demo_provisions|done]. }
  destruct res as [[]|err]; cbn; rewrite ?log_to_host; exists opening'; naive_solver.
Qed.

(** *** The server *)

Section serving.
Context (tokens : TokenService) (salt : string) (l : logger) (timeout : Z).
Context (format_time : time → string) (redirect_status : Z) (spec : string).

(** The tables are those of an execution from [d]. *)
Definition served_from (d : db) (m : M) : Prop :=
  ∃ replies h, running m = Some h ∧ catalog_in m = V5 (committed (core h)) ∧
    hexecution tokens salt l timeout format_time redirect_status spec d replies h.

Lemma served_stopping d m m' : stopping m m' → served_from d m → served_from d m'.
Proof. intros Hs (replies & h & Hr & Hc & Hex). by eapply server_goes_on. Qed.

Lemma serve_http_tables p ll z (server : http_server _) d s :
  Handler server = handler_on salt format_time redirect_status spec p tokens l timeout →
  tables s = V5 d → served_from d (host (serve_http ll z server s).2).
Proof.
  intros Hh Hd. unfold serve_http, mbind, tx_bind, info, listen. cbn. rewrite log_to_host.
  pose proof (server_runs p tokens salt l timeout format_time redirect_status spec server (host s) d Hh Hd) as Hrun.
  destruct (serve_until server (host s)) as [[err|] m]; cbn in Hrun |- *; [done|].
  unfold shut_down, perform. cbn. rewrite log_to_host. cbn.
  pose proof (served_stopping d _ _ (s_shutdown m z) Hrun) as Hshut.
  destruct (server_Shutdown z m) as [[[]|err] m1]; cbn in Hshut |- *.
  - pose proof (served_stopping d _ _ (s_result m1) Hshut) as Hres.
    destruct (serve_result m1) as [err m2]. cbn in Hres |- *. by destruct (negb _).
  - by eapply served_stopping; [apply s_close|].
Qed.

End serving.

(** *** The whole start *)

Context (login_salt demo_salt : string) (format_time : time → string) (redirect_status : Z) (OpenAPISpec : string).

(** The accounts opened after a start, for those opened before it and its result. *)
Definition opened_after (cfg : Config.Config) (ok : bool) opening opening' : Prop :=
  (opening' = opening ∨ SeedDemoData cfg = true ∧ opening' = opening ∪ demo_opening) ∧
  (ok = true → SeedDemoData cfg = true → opening' = opening ∪ demo_opening).

Lemma opened_after_false cfg opening : opened_after cfg false opening opening.
Proof. split; [by left|done]. Qed.

(** From the pool to its closing. *)
Lemma pooled_grows p l z cfg tokens (server : http_server _) opening s :
  Handler server = handler_on login_salt format_time redirect_status OpenAPISpec p tokens l (Config.RequestTimeout cfg) →
  version (tables s) = 5%nat → idle s →
  let '(r, s') := deferring (perform_ ClosePool (pool_Close p)) (_ ← seed_step p l cfg demo_salt; serve_http l z server) s in
  ∃ opening', rtc grows (opening, tables s) (opening', tables s') ∧ opened_after cfg (is_ok r) opening opening'.
Proof.
  intros Hh Hv Hi. unfold deferring, mbind, tx_bind. pose proof (seed_step_grows p l cfg demo_salt opening s Hv Hi) as Hseed.
  destruct (seed_step p l cfg demo_salt s) as [[[]|err] s1]; destruct Hseed as (opening' & Hg & Hv1 & Hi1 & Hop & Hok).
  - pose proof (serve_http_tables tokens login_salt l (Config.RequestTimeout cfg) format_time redirect_status OpenAPISpec
                  p l z server _ s1 Hh (version_5 _ Hv1)) as Hserved.
    destruct (serve_http l z server s1) as [r s2]. cbn in Hserved |- *.
    apply (served_stopping _ _ _ _ _ _ _ _ _ _ (s_pool _ p)) in Hserved as (replies & h & _ & -> & Hex).
    exists opening'. split; [|split; auto]. eapply rtc_r; [exact Hg|]. rewrite (version_5 _ Hv1). by eapply g_serve.
  - cbn. rewrite close_keeps_idle by done. exists opening'. split; [done|]. by split.
Qed.

Lemma run_with_grows cfg l tokens opening s :
  deployable cfg (tables s) → idle s →
  let '(r, s') := run_with login_salt demo_salt format_time redirect_status OpenAPISpec cfg l tokens s in
  ∃ opening', rtc grows (opening, tables s) (opening', tables s') ∧ opened_after cfg (is_ok r) opening opening'.
Proof.
  intros Hd Hi. unfold run_with. change (if RunMigrations cfg then _ else _) with (migrate_step l cfg).
  unfold deferring at 1. unfold mbind at 1, tx_bind at 1.
  pose proof (migrate_step_grows l cfg opening s Hd Hi) as Hm.
  destruct (migrate_step l cfg s) as [[[]|err] s1]; destruct Hm as (Hg & Hi1 & Hv); cbn [host did is_ok].
  2: { exists opening. split; [exact Hg|apply opened_after_false]. }
  unfold mbind at 1, tx_bind at 1. pose proof (NewPool_tables (DatabaseURL cfg) (DBMaxConns cfg) s1 Hi1) as Hp.
  destruct (NewPool _ _ s1) as [[p|err] s2]; destruct Hp as [Ht Hi2]; cbn [host did is_ok].
  2: { exists opening. rewrite Ht. split; [exact Hg|apply opened_after_false]. }
  specialize (Hv eq_refl). rewrite <-Ht in Hv, Hg.
  pose proof (pooled_grows p l (ShutdownTimeout cfg) cfg tokens
                (mk_http_server (HTTPAddr_ cfg)
                   (handler_on login_salt format_time redirect_status OpenAPISpec p tokens l (Config.RequestTimeout cfg))
                   (5 * Second) (10 * Second) (15 * Second) (60 * Second)) opening s2 eq_refl Hv (Hi2 eq_refl)) as Hpool.
  unfold seed_step in Hpool. destruct (deferring _ _ s2) as [r s3]. cbn [host did].
  destruct Hpool as (opening' & Hg' & Hop). exists opening'. split; [by etransitivity|done].
Qed.

Context (parse_url : string → option error) (probe : string → M → result Z * M).

(** C6: a start of the process keeps the books.  However [main] runs, on a database that is empty or
    whose books are right: with any configuration, migrations that fail in the middle, a demo seed
    that fails or whose commit is lost, any number of requests that overlap until the pool is
    closed, a shutdown that fails; the database afterwards is one that such events lead to, with
    right books in which nothing of before is lost.  The accounts that it opened are none, or, if
    it was asked to seed, exactly the demo accounts that did not exist, with their balances; and
    when it exits with 0 and was asked to seed, they are there. *)
Theorem main_keeps_the_books args getenv opening s :
  args !! 1%nat ≠ Some "healthcheck" → deployable (Load getenv).1 (tables s) → idle s → sound opening (tables s) →
  let '(code, s') := main login_salt demo_salt format_time redirect_status OpenAPISpec parse_url probe args getenv s in
  ∃ opening', rtc grows (opening, tables s) (opening', tables s') ∧
    opened_after (Load getenv).1 (code =? 0) opening opening' ∧
    sound opening' (tables s') ∧
    ∀ d, tables s = V5 d → ∃ d', tables s' = V5 d' ∧ retains (bank_of d) (bank_of d').
Proof.
  intros Hargs Hd Hi Hs. unfold main. rewrite bool_decide_eq_false_2 by done.
  assert (∀ (code : Z) s', (∃ opening', rtc grows (opening, tables s) (opening', tables s') ∧
            opened_after (Load getenv).1 (code =? 0) opening opening') →
          ∃ opening', rtc grows (opening, tables s) (opening', tables s') ∧
            opened_after (Load getenv).1 (code =? 0) opening opening' ∧ sound opening' (tables s') ∧
            ∀ d, tables s = V5 d → ∃ d', tables s' = V5 d' ∧ retains (bank_of d) (bank_of d')) as Hgoes.
  { intros code s' (opening' & Hg & Hop). exists opening'. split; [done|]. split; [done|].
    destruct (life_goes_on _ _ Hg Hs) as (? & _ & ?). done. }
  destruct (Load getenv) as [cfg [|err errs]]; [|apply Hgoes; rewrite log_to_host; exists opening; split; [done|apply opened_after_false]].
  unfold run. destruct (NewTokenService _ _ _) as [tokens|err].
  2: { apply Hgoes. rewrite log_to_host. exists opening. split; [done|apply opened_after_false]. }
  pose proof (run_with_grows cfg (min_level (LogLevel cfg)) tokens opening (did Notify None s) Hd Hi) as Hrun.
  destruct (run_with _ _ _ _ _ _ _ _ _) as [[[]|err] s']; apply Hgoes; rewrite ?log_to_host; exact Hrun.
Qed.

End process.

(** ** Witnesses *)

(** A host whose library migrates as documented, whose pool is that of a database without faults,
    and whose server gets no request. *)
Record machine := mk_machine {
  m_tables : catalog;
  m_running : option hstate }.

Definition on_tables {A} (op : catalog → A * catalog) (m : machine) : A * machine :=
  let '(a, c) := op (m_tables m) in (a, mk_machine c (m_running m)).

#[local] Instance machine_pgx : Pgx machine session := {|
  BeginTxFunc A fn := on_tables (λ c,
    match c with
    | V5 d => match fn (mk_session d (day 1) []) with (Ok a, t) => (Ok a, V5 (c_db t)) | (Err err, _) => (Err err, c) end
    | _ => (Err (External "undefined_table"), c)
    end) |}.

#[local] Instance machine_querier : querier machine := {|
  query A q := on_tables (λ c,
    match c with
    | V5 d => let '(r, d') := sql (day 1) q d in (r, V5 d')
    | _ => (Err (External "undefined_table"), c)
    end) |}.

Definition start_serving (m : machine) : machine :=
  mk_machine (m_tables m) (Some (mk_hstate (mk_cstate (db_of (m_tables m)) ∅) ∅)).

#[local] Instance machine_host : Host machine session := {|
  source := unit; conn_config := unit; sql_db := unit; db_driver := unit; migrator := unit;
  iofs_New := Ok tt;
  pgx_ParseConfig _ := Ok tt;
  stdlib_OpenDB _ m := (tt, m);
  pgxmigrate_WithInstance _ := mret tt;
  migrate_NewWithInstance _ _ := mret tt;
  migrate_Up _ := on_tables Up_all;
  migrate_Version _ m := (Ok (Z.of_nat (version (m_tables m))), m);
  db_Close _ m := m;
  pool_config := unit; pool_handle := unit;
  pgxpool_ParseConfig _ := Ok tt;
  set_MaxConns _ c := c;
  pgxpool_NewWithConfig _ := mret tt;
  pool_ping _ := mret tt;
  pool_Close _ m := m;
  pool_Pgx _ := machine_pgx;
  pool_query _ := machine_querier;
  tx_query := session_querier;
  tx_exec := session_execer;
  serve_until _ _ m := (None, start_serving m);
  serve_result m := (Sentinel ErrServerClosed, m);
  server_Shutdown _ := mret tt;
  server_Close m := m |}.

#[local] Instance machine_migrates : Migrator_documented (M:=machine) (T:=session) m_tables.
Proof.
  split; try done; unfold migrate_Up, machine_host, on_tables.
  - intros mg [c r]. pose proof (up_steps (Migrator_documented:=migrating_documented) tt c) as Hup. cbn in Hup |- *.
    by destruct (Up_all c).
  - intros mg [c r] m'. pose proof (up_done (Migrator_documented:=migrating_documented) tt c) as Hup. cbn in Hup |- *.
    destruct (Up_all c) as [res c']. intros [= -> <-]. by apply Hup.
  - intros mg [c r] err m'. pose proof (up_no_change (Migrator_documented:=migrating_documented) tt c err) as Hup.
    cbn in Hup |- *. destruct (Up_all c) as [res c']. intros [= -> <-]. by apply Hup.
  - intros mg m v m'. cbn. by intros [= <- <-].
Qed.

#[local] Instance machine_documented :
  Server_documented (M:=machine) (T:=session) m_tables c_db m_running.
Proof.
  split; try done.
  - intros []. split; cbn; unfold on_tables; intros A fn [[| | | | |d] r]; cbn;
      try by (intros; simplify_eq; left; (split; [done|by left])).
    + intros a s'. destruct (fn _) as [[a'|err] t] eqn:Hfn; intros Hb; [|done]. injection Hb as <- <-.
      by exists (mk_session d (day 1) []), t.
    + intros err s'. destruct (fn _) as [[a'|err'] t] eqn:Hfn; intros Hb; simplify_eq.
      left. split; [done|right]. by exists (mk_session d (day 1) [] : session), t.
  - intros [] A fn [[| | | | |d] r]; cbn; unfold on_tables; cbn; try done. by destruct (fn _) as [[a|err] t].
  - exact session_exec_documented.
  - intros m m' [] Hr; try done; cbn; unfold on_tables.
    + by destruct (Up_all (m_tables m)).
    + destruct (m_tables m) as [| | | | |d]; cbn; try done. by destruct (fn _) as [[a|err] t].
  - intros p tokens salt l timeout ft rs spec server m d _ Hd. cbn. exists [], (mk_hstate (mk_cstate (db_of (m_tables m)) ∅) ∅).
    rewrite Hd. split; [done|]. split; [done|]. constructor.
  - intros m m' h tokens salt l timeout ft rs spec d replies [] Hr Hc Hex; by exists replies, h.
Qed.

(** The first start of a deployment that asks for the demo data. *)
Definition first_start : process machine := mk_process (mk_machine V0 None) [] [].

Definition no_probe (url : string) (m : machine) : result Z * machine := (Err (External "no answer"), m).

Definition first_run : Z * process machine :=
  main "login salt" "demo salt" plain_time 301 "" (λ _, None) no_probe ["api"] seeding_env first_start.

Lemma main_keeps_the_books_witness :
  ∃ d, m_tables (host first_run.2) = V5 d ∧ total (bank_of d) = 400000000.
Proof.
  assert (["api"] !! 1%nat ≠ Some "healthcheck") as Hargs by discriminate.
  assert (deployable (Load seeding_env).1 V0) as Hdep by (left; vm_compute; reflexivity).
  pose proof (main_keeps_the_books m_tables c_db m_running "login salt" "demo salt" plain_time 301 "" (λ _, None) no_probe
                ["api"] seeding_env ∅ first_start Hargs Hdep eq_refl (conj eq_refl eq_refl)) as Hm.
  change (main _ _ _ _ _ _ _ _ _ _) with first_run in Hm.
  assert (first_run.1 = 0) as Hcode by (vm_compute; reflexivity).
  assert (version (m_tables (host first_run.2)) = 5%nat) as Hv by (vm_compute; reflexivity).
  destruct first_run as [code s']. cbn [fst snd] in Hcode, Hv |- *. subst code.
  destruct Hm as (opening & _ & (_ & Hop) & Hs & _). rewrite Hop in Hs by (vm_compute; reflexivity).
  rewrite (version_5 _ Hv) in Hs. exists (db_of (m_tables (host s'))). split; [apply version_5, Hv|].
  rewrite (bk_total _ _ Hs). vm_compute. reflexivity.
Defined.

(** Alice and Bob are provisioned, and the same [POST /transfers] is sent twice at once. *)
Definition session_statements : list seed_stmt :=
  [ UpsertUser "alice" "alice@example.com" "hash of secret-1" client_permissions;
    UpsertUser "bob" "bob@example.com" "hash of secret-2" client_permissions;
    InsertAccount "acc-alice" "alice" "PEN" 100; InsertAccount "acc-bob" "bob" "PEN" 5 ].

Definition session_opening : gmap string Z := foldl (λ o q, opened_by q o) ∅ session_statements.

Lemma seed_Ok e q qs (d d' : db) :
  (seed_sql e q d).1 = Ok tt → seeds qs (seed_sql e q d).2 d' → seeds (q :: qs) d d'.
Proof. intros Hq Hs. eapply (seeds_cons e); [|exact Hs]. by rewrite <-Hq, <-surjective_pairing. Qed.

Lemma session_life : rtc grows (∅, V0) (session_opening, V5 session_db).
Proof.
  etransitivity; [apply upgrades_grow; apply (upgrade_to_5_empty V0 (day 1)); [reflexivity|cbn; lia]|].
  apply seeds_grow; [repeat constructor; vm_compute; done|].
  do 4 (apply (seed_Ok (day 1)); [vm_compute; reflexivity|]). constructor.
Qed.

Definition session_twins : hstate :=
  both session_db sample_readings sample_post (twin_job "t-1") sample_readings sample_post (twin_job "t-2").

Definition session_end : list reply * hstate :=
  default ([], session_twins) (hschedule plain_time [0; 0; 0; 0; 0; 0; 0; 1; 1; 1; 1; 1; 1]%nat session_twins).

Lemma session_run : hschedule plain_time [0; 0; 0; 0; 0; 0; 0; 1; 1; 1; 1; 1; 1]%nat session_twins = Some session_end.
Proof. apply default_Some. vm_compute. reflexivity. Qed.

Lemma session_served :
  rtc grows (session_opening, V5 session_db) (session_opening, V5 (committed (core session_end.2))).
Proof.
  apply rtc_once. apply (g_serve sample_tokens "salt" (λ _, true) (10 * Second) plain_time 301 "" _ _ session_end.1).
  pose proof (hschedule_hexecution sample_tokens "salt" (λ _, true) (10 * Second) plain_time 301 "" session_db []
                [0; 0; 0; 0; 0; 0; 0; 1; 1; 1; 1; 1; 1]%nat session_twins session_end.1 session_end.2) as Hex.
  rewrite <-surjective_pairing in Hex. apply Hex; [|exact session_run].
  eapply both_begin; [exact first_job|exact second_job].
Qed.

(** The two requests moved the amount once, and the total is that of the opening balances. *)
Lemma books_are_right_for_life_witness :
  total (bank_of (committed (core session_end.2))) = 105 ∧
  a_balance <$> accounts (committed (core session_end.2)) !! "acc-alice" = Some 70.
Proof.
  destruct (books_are_right_for_life _ _ session_life session_served) as (Hs & _ & _). cbn [fst snd sound] in Hs.
  split; [|vm_compute; reflexivity]. rewrite (bk_total _ _ Hs). vm_compute. reflexivity.
Defined.
