(* ===== verification/Findings.v ===== *)
(** * Where the code and its documentation differ

    Behaviours that the documentation does not describe: theorems about the same definitions
    as the rest of the development, for every request they concern, with concrete runs. *)
From S2P Require Import Prelude GoStrings GoErrors Entities Json Database BankSpec Contracts TransferService Repository RepositoryCorrect Programs Locking LockingLocal LockingCorrect Outcome Driver TransferTheorems Mime JsonText Http Auth AuthTheorems HttpApi HttpCorrect Server HttpTheorems HttpConcurrency.

(** ** A retry that is refused *)

(** C38: a retry of a completed transfer is refused instead of replayed, whenever a second credit would
    overflow: the checks on the accounts, the credit included, come before the lookup of the
    key.  This holds for every user, key and request, on every database. *)
Theorem completed_retry_refused `{!Platform} `{!PlatformLaws} u key k r e p scs st s t :
  db_ok (p_db p) → is_int64 (CreateTransfer.Amount r) →
  p_scripts p = mk_script e [] Committed :: scs → storable (mk_job u key r e) (p_db p) →
  TrimSpace u ≠ "" → CreateTransfer.Validate r = Ok tt → key_of key = Some k →
  b_transfers (bank_of (p_db p)) !! (u, k) = Some st → s_request st = r → s_status st = TransferStatus.Completed →
  may_send u r s t (bank_of (p_db p)) →
  CreateTransfer.Amount r <= s_balance s → MaxInt64 < s_balance t + CreateTransfer.Amount r →
  let '(res, p') := Create u key r p in
  fails_with res ErrBalanceOverflow ∧ bank_of (p_db p') = bank_of (p_db p).
Proof.
  intros Hok Hz Hsc Hsto Hu Hv _ _ _ _ [Hs Hown Ht Hcs Hct] Hle Hlt.
  pose proof (create_verdict u key r e p scs Hok Hz Hsc Hsto) as Hver. destruct (Create u key r p) as [res p'].
  unfold verdict_of in Hver. rewrite bool_decide_eq_false_2, Hv, Hs, Ht in Hver by done. simpl in Hver.
  rewrite !bool_decide_eq_true_2, (proj2 (Z.leb_le _ _)), (proj2 (Z.ltb_lt _ _)) in Hver by done. exact Hver.
Qed.

(** Bob's account is almost full. *)
Definition full_pool : pool :=
  mk_pool (mk_db (list_to_map [ ("acc-alice", sample_account "alice" 100);
                                ("acc-bob", sample_account "bob" (MaxInt64 - 40)) ]) [] [] ∅)
    [ mk_script (mk_env 7 "t-1") [] Committed; mk_script (mk_env 8 "t-2") [] Committed ].

Definition after_first : pool := (Create "alice" "k-1" sample_request full_pool).2.

Lemma full_db_ok : db_ok (p_db full_pool).
Proof.
  split; [|apply NoDup_nil_2|apply NoDup_nil_2|constructor]. intros id r Hr.
  assert ((id, r) ∈ [("acc-alice", sample_account "alice" 100); ("acc-bob", sample_account "bob" (MaxInt64 - 40))]) as Hin
    by exact (elem_of_list_to_map_2 _ _ _ Hr).
  clear Hr. rename Hin into Hr.
  repeat (apply elem_of_cons in Hr as [Hr|Hr]; [by simplify_eq; vm_compute; split; discriminate|]).
  by apply elem_of_nil in Hr.
Qed.

(** Alice's first request goes through; the same request again is refused. *)
Lemma completed_retry_refused_witness :
  (∃ tr, (Create "alice" "k-1" sample_request full_pool).1 = Ok (tr, true) ∧ Transfer.Status tr = TransferStatus.Completed) ∧
  fails_with (Create "alice" "k-1" sample_request after_first).1 ErrBalanceOverflow.
Proof.
  destruct (Create "alice" "k-1" sample_request full_pool) as [res p1] eqn:Hrun.
  assert (p1 = after_first) as -> by (unfold after_first; rewrite Hrun; reflexivity).
  assert (∃ tr, res = Ok (tr, true) ∧ Transfer.Status tr = TransferStatus.Completed) as (tr & -> & Hst).
  { change res with ((res, after_first).1). rewrite <-Hrun. vm_compute. eexists. split; reflexivity. }
  split; [exists tr; split; [reflexivity|exact Hst]|].
  destruct (TransferTheorems.create_answer p_db c_db "alice" "k-1" sample_request full_pool tr true after_first
              full_db_ok sample_int64 Hrun) as [Hok _].
  pose proof (completed_retry_refused "alice" "k-1" "k-1" sample_request (mk_env 8 "t-2") after_first []
                (mk_s_transfer "t-1" sample_request TransferStatus.Completed FailureReason.None)
                (mk_s_account "alice" "PEN" 70) (mk_s_account "bob" "PEN" (MaxInt64 - 10)) Hok sample_int64) as Hr.
  destruct (Create "alice" "k-1" sample_request after_first) as [res2 p2].
  apply Hr.
  - vm_compute. reflexivity.
  - split; [reflexivity|reflexivity|]. vm_compute. constructor; [discriminate|constructor].
  - vm_compute. discriminate.
  - reflexivity.
  - reflexivity.
  - vm_compute. reflexivity.
  - reflexivity.
  - reflexivity.
  - split; vm_compute; reflexivity.
  - apply Z.leb_le. vm_compute. reflexivity.
  - apply Z.ltb_lt. vm_compute. reflexivity.
Defined.

(** A key reused with another body is not always answered with a conflict. *)
Theorem reused_key_without_conflict :
  let '(res1, p1) := Create "alice" "k-1" sample_request sample_pool in
  let '(res2, _) :=
    Create "alice" "k-1" (CreateTransfer.mk "acc-alice" "no-such" 30 "PEN" "rent") p1 in
  is_ok res1 = true ∧ fails_with res2 ErrDestinationNotFound.
Proof. vm_compute. split; [reflexivity|]. eexists. split; reflexivity. Qed.

(** ** A valid request that the database cannot store *)

Section unstorable.
Context `{!Platform} `{!PlatformLaws}.

(** The checks on the accounts pass. *)
Lemma checks_pass j (d : db) s t :
  admitted j → db_ok d → may_send (j_user j) (j_request j) s t (bank_of d) →
  s_balance s < CreateTransfer.Amount (j_request j) ∨ s_balance t + CreateTransfer.Amount (j_request j) <= MaxInt64 →
  is_ok (check_accounts (j_user j) (j_request j) (index_accounts (scanAccount <$> lock_rows j d))) = true.
Proof.
  intros [_ Hv Hz] Hok [Hs Hown Ht Hcs Hct] Hcase. rewrite (locked_bank j d) in Hs, Ht by set_solver.
  apply fmap_Some in Hs as (a & Ha & ->). apply fmap_Some in Ht as (b & Hb & ->). simpl in *.
  pose proof (check_accounts_decision (j_user j) (j_request j) _ (locked_int64 j d Hok) Hz (proj1 (Validate_Ok _) Hv)) as Hdec.
  destruct Hdec as [Hno|s' Hs Hu Hn|s' d' Hs Hu Hd' Hc|s' d' Hs Hu Hd' _ _ _|s' d' Hs Hu Hd' _ _ Hle Hmax|s' d' Hs Hu Hd' _ _ _ _];
    [by destruct (Hno a Ha)|simplify_eq|simplify_eq; naive_solver|done|simplify_eq; lia|done].
Qed.

(** Its transaction is refused by the first statement that carries the text. *)
Lemma nul_description_fails j (d : db) s t k :
  admitted j → db_ok d → may_send (j_user j) (j_request j) s t (bank_of d) →
  s_balance s < CreateTransfer.Amount (j_request j) ∨ s_balance t + CreateTransfer.Amount (j_request j) <= MaxInt64 →
  key_of (j_key j) = Some k → plain (CreateTransfer.Description (j_request j)) = false →
  ∃ err, serial j d = (Err err, d) ∧ foreign err.
Proof.
  intros Hadm Hok Hms Hcase Hk Hnul. rewrite serial_run. unfold run_create, create_prog, run. simpl denote. unfold select.
  destruct (texts_ok (lock_ids (j_request j))); [|by eexists].
  pose proof (checks_pass j d s t Hadm Hok Hms Hcase) as Hc. unfold lock_rows in Hc. unfold after_lock.
  destruct (check_accounts _ _ _) as [[[st rs] h]|err]; [|done].
  unfold key_of in Hk. destruct (parseKey (j_key j)) as [k'|err]; [|done].
  unfold insert_prog. simpl denote. unfold insert_transfer. simpl.
  rewrite Hnul, !andb_false_r. simpl. by eexists.
Qed.

End unstorable.

Section unstorable_http.
Context `{!Platform} `{!PlatformLaws} `{!Jwt} `{!Bcrypt}.
Context (tokens : TokenService) (salt : string) (lg : level → bool) (timeout : time).
Context (format_time : time → string) (redirect_status : Z) (OpenAPISpec : string).

(** An error that the handler does not know. *)
Lemma create_answer_foreign e r err :
  foreign err → r_status (create_answer format_time e r (Err (Errorf "create transfer: %w" err))) = Some 500.
Proof.
  intros Hf. unfold create_answer, create_writes, create_refusal.
  assert (∀ s, Is (Errorf "create transfer: %w" err) s = false) as His by (intros s; apply Hf).
  rewrite !His. unfold writeError.
  destruct (recorder_writeJSON 500 (error_body "could not create transfer") [("Cache-Control", "no-store")]
              (mk_statusRecorder (set_header "X-Request-ID" (request_id e r) new_response) (at_start e) 200 false (at_header e)))
    as [Hst _]; [done..|]. exact Hst.
Qed.

(** C39: a valid request is answered with a server error.  A [POST /transfers] whose body passes every
    check of the program, from a user who may send the transfer, but whose description holds the
    character U+0000, is answered 500, without any fault of the database: PostgreSQL cannot store
    the text, and the error is none that the handlers know.  Nothing is written. *)
Theorem nul_description_is_a_server_error d env e r j s t k :
  db_ok d → job_of tokens e r env = Some j → key_of (j_key j) = Some k →
  CreateTransfer.Validate (j_request j) = Ok tt → may_send (j_user j) (j_request j) s t (bank_of d) →
  s_balance s < CreateTransfer.Amount (j_request j) ∨ s_balance t + CreateTransfer.Amount (j_request j) <= MaxInt64 →
  plain (CreateTransfer.Description (j_request j)) = false →
  let '(a, d') := serve_alone tokens salt lg timeout format_time redirect_status OpenAPISpec (no_fault env) e r d in
  r_status a = Some 500 ∧ d' = d.
Proof.
  intros Hok Hj Hk _ Hms Hcase Hnul. pose proof (job_of_Some _ _ _ _ _ Hj) as (_ & <- & Hadm).
  rewrite (serve_alone_serial _ _ _ _ _ _ _ _ _ _ _ Hj).
  destruct (nul_description_fails j d s t k Hadm Hok Hms Hcase Hk Hnul) as (err & -> & Hf).
  split; [by apply create_answer_foreign|done].
Qed.

End unstorable_http.

(** Alice's request, with U+0000 as its description. *)
Definition nul_request : CreateTransfer.t :=
  CreateTransfer.mk "acc-alice" "acc-bob" 30 "PEN" (String Ascii.zero "").

Definition nul_post : request context :=
  mk_request context "POST" "/transfers" "/transfers" "" "" sample_header
    (mk_reader (json_text (Marshal nul_request)) EOF) no_context.

Lemma nul_description_is_a_server_error_witness :
  r_status (serve_alone sample_tokens "salt" (λ _, true) (10 * Second) plain_time 301 ""
              (no_fault (mk_env 7 "t-1")) sample_readings nul_post sample_db).1 = Some 500.
Proof.
  pose proof (nul_description_is_a_server_error sample_tokens "salt" (λ _, true) (10 * Second) plain_time 301 "" sample_db
                (mk_env 7 "t-1") sample_readings nul_post (mk_job "alice" "k-1" nul_request (mk_env 7 "t-1"))
                (mk_s_account "alice" "PEN" 100) (mk_s_account "bob" "PEN" 5) "k-1" sample_db_ok) as Hn.
  destruct (serve_alone _ _ _ _ _ _ _ _ _ nul_post sample_db) as [a d']. refine (proj1 (Hn _ _ _ _ _ _)).
  - vm_compute. reflexivity.
  - vm_compute. reflexivity.
  - reflexivity.
  - split; vm_compute; reflexivity.
  - right. apply Z.leb_le. vm_compute. reflexivity.
  - reflexivity.
Defined.

(** 128 characters of two bytes each (U+00E9). *)
Definition accents (n : nat) : string :=
  foldr (λ _ s, String (Ascii.ascii_of_nat 195) (String (Ascii.ascii_of_nat 169) s)) "" (repeat tt n).

(** The limit of 255 on the description counts bytes: 128 characters are refused. *)
Theorem description_limit_counts_bytes :
  ValidString (accents 128) = true ∧ RuneCount (accents 128) = 128 ∧
  fails_with (CreateTransfer.Validate (CreateTransfer.mk "a" "b" 1 "PEN" (accents 128))) ErrInvalidTransfer.
Proof. vm_compute. repeat split. eexists. split; reflexivity. Qed.

(** ** A panic without an ID *)

Section panics.
Context {S : Type} (format_time : time → string) (redirect_status : Z) (OpenAPISpec : string).

(** C40: the log of a panic cannot be matched with the answer.  Whatever handler panics, over whatever
    services, the request is answered 500 with its ID, but what is logged
    after the handler is one line whose [request_id] is empty, because [recoverPanics] looks for the
    ID in the request from before [requestID] stored it; and there is no access-log line. *)
Theorem panic_is_logged_without_id (d : Dependencies S) e r s lg v w' :
  requestIDFrom (Context r) = "" → logger_of d Error = true →
  inner_run format_time redirect_status OpenAPISpec d e r (mk_world new_response s lg) = (Panicked v, w') →
  v ≠ ErrAbortHandler →
  let '(x, out) := NewHandler format_time redirect_status OpenAPISpec d e r (mk_world new_response s lg) in
  x = Returned ∧
  log out = log w' ++ [mk_entry Error "panic while serving request" [("request_id", AString ""); ("panic", APanic v)]] ∧
  r_status (writer out) = Some 500 ∧
  Header_Get "X-Request-ID" (r_sent (writer out)) = request_id e r.
Proof.
  intros Hid Hlog Hrun Hv. pose proof (inner_tidy format_time redirect_status OpenAPISpec d e r (mk_world new_response s lg)) as Ht.
  rewrite NewHandler_run, Hrun. rewrite Hrun in Ht. destruct v as [|msg]; [done|].
  destruct Ht as (hs & Hw & Hhs). simpl in Hw. rewrite set_headers_recorder in Hw.
  unfold panic_entry, logged. rewrite Hid. cbn [log_level]. rewrite Hlog. unfold on_writer. cbn [writer log].
  rewrite Hw. cbn [under on_under]. unfold writeError, writeJSON.
  rewrite Write_after by (rewrite set_header_status, set_headers_status; done).
  simpl. split; [done|]. split; [done|]. split; [done|]. headers.
  rewrite set_headers_other by (done || (vm_compute; set_solver)). simpl. apply Header_Get_Set.
Qed.

End panics.

(** The sample server, with an account service that panics. *)
Definition panicking_server : Dependencies (bench pool) :=
  mk_Dependencies (bench pool) (Tokens sample_server) (LoginOf sample_server) (HttpApi.Transfers sample_server)
    (mk_AccountService (bench pool) (λ _ _ s, (inl (RuntimeError "boom"), s)) (as_Get (HttpApi.Accounts sample_server)))
    (Ready sample_server) (Logger sample_server) (RequestTimeout sample_server).

Definition panic_run : exit * world (statusRecorder response) (bench pool) :=
  inner_run plain_time 301 "" panicking_server sample_readings (sample_account_get "/accounts")
    (mk_world new_response sample_bench []).

Definition panic_out : exit * world response (bench pool) :=
  NewHandler plain_time 301 "" panicking_server sample_readings (sample_account_get "/accounts")
    (mk_world new_response sample_bench []).

Lemma panic_is_logged_without_id_witness :
  log panic_out.2 =
  [mk_entry Error "panic while serving request" [("request_id", AString ""); ("panic", APanic (RuntimeError "boom"))]].
Proof.
  assert (panic_run.1 = Panicked (RuntimeError "boom")) as Hv by (vm_compute; reflexivity).
  assert (log panic_run.2 = []) as Hl by (vm_compute; reflexivity).
  pose proof (panic_is_logged_without_id plain_time 301 "" panicking_server sample_readings (sample_account_get "/accounts")
                sample_bench [] (RuntimeError "boom") panic_run.2 eq_refl eq_refl) as Hp.
  rewrite <-Hv, <-surjective_pairing in Hp. specialize (Hp eq_refl ltac:(discriminate)).
  change (NewHandler _ _ _ panicking_server _ _ _) with panic_out in Hp.
  destruct panic_out as [x out]. destruct Hp as (_ & Hlog & _). cbn [snd]. rewrite Hlog.
  rewrite Hl. reflexivity.
Defined.
